(* ===== verification/_CoqProject ===== *)
-Q . S2P
Prelude.v
GoLib.v
Tlv.v
Segment.v
Queue.v
QueueSpec.v
QueueOpen.v
QueuePurge.v
QueueTheorems.v
NodeProcessor.v
HandoffTheorems.v
HHService.v
MetaData.v
MetaNodes.v
MetaShards.v
MetaTheorems.v
StoreFSM.v
Store.v
StoreTheorems.v
StoreOps.v
Snapshots.v
Pool.v
PointsWriter.v
MetaClient.v
ClientTheorems.v
Handler.v
GoTime.v
Rpc.v
Query.v
ClusterService.v
ServiceTheorems.v
StatementExecutor.v
ExecSelect.v
ExecShow.v
ExecDispatch.v
ExecDemo.v
ExecutorTheorems.v
ExecRows.v
Integration.v
GoText.v
GoUrl.v
ResponseLogger.v
LoggerTheorems.v
Routing.v
Limiter.v
Pacing.v
Configs.v
ConfigTheorems.v
CmdLine.v
DataConfig.v
DataConfigTheorems.v
Lifecycle.v
LifecycleTheorems.v
Process.v
DataServer.v
MetaServer.v
Commands.v
Ctl.v
DaemonTheorems.v
