(* ===== verification/Prelude.v ===== *)
(** * Verification of influxdb-cluster

    influxdb-cluster distributes InfluxDB.  Meta nodes replicate the cluster
    metadata (nodes, users, databases, retention policies, shard groups and
    shard owners) through raft; data nodes hold the shards, talk to each other
    over a framed protocol and keep writes for nodes that are down in a hinted
    handoff queue on disk.  This development models these parts of the Go code
    under src/ as functions and step relations and proves what they guarantee,
    and also where they fall short of their own comments.

    ** Parts of the program and the files that model them

    - [Prelude], [GoLib]: Go itself.  Outcomes (value, error, panic), methods
      on mutable receivers as the state monad [GoM], machine integers, and from
      the standard library big-endian integers, [strconv], [time], [sort], and
      a disk with directories, seekable files and modification times, and
      channels that can be closed.
    - [Tlv]: tlv/tlv.go, the framing between data nodes.
    - [Segment], [Queue]: hh/queue.go.  A segment is one file of length-prefixed
      blocks with a footer that holds the read position; the queue owns
      segments through pointers, so the model has a heap of segments with
      [segments], [head] and [tail] pointing into it.  [QueueSpec] gives the
      abstract contents (the list of pending blocks) and the simulation lemma of
      every operation; [QueueOpen] treats closing and reopening, [QueuePurge]
      the purge loop; [QueueTheorems] states the results.
    - [NodeProcessor], [HandoffTheorems]: hh/node_processor.go, the processor
      that owns the queue of one node, its encoding of writes and its retry
      loop; [CloseRace] in [HandoffTheorems] is the interleaving of [Close] with
      the sending goroutine.
    - [HHService]: hh/service.go and hh/config.go, the map of processors.
    - [MetaData]: meta/data.go, the replicated data and its operations;
      [MetaNodes] and [MetaShards] hold the lemmas on nodes and shard groups,
      [MetaTheorems] the results.
    - [StoreFSM], [Store], [StoreTheorems]: meta/store_fsm.go, meta/store.go and
      the peer changes of meta/raft_state.go: applying log entries, snapshots,
      and the store operations that go through raft; [StoreOps] proves those
      against a specification of the data before and after, [Snapshots] has the
      pointer that a snapshot shares with the store.
    - [Pool]: cluster/pool.go and cluster/client_pool.go, with the interleavings
      of concurrent [Get] calls in [GetRace].
    - [PointsWriter]: cluster/points_writer.go.
    - [MetaClient], [ClientTheorems]: meta/client.go, with the channel that waiting
      commands share with the poller of snapshots.
    - [Handler]: meta/handler.go, the HTTP side of a meta server.
    - [Rpc]: rpc/rpc.go, the messages between data nodes over generated protobuf
      records.
    - [Query]: the statements of influxql and the interface [TSDBStore] of
      cluster/statement_executor.go.
    - [ClusterService], [ServiceTheorems]: cluster/service.go, the request loop of
      a data node.
    - [StatementExecutor], [ExecSelect], [ExecShow], [ExecDispatch]:
      cluster/statement_executor.go, split into statements that change something,
      SELECT, SHOW, and the dispatch with normalization; [GoTime] has the formats
      they print.  [ExecDemo] has instances to run, [ExecutorTheorems] and
      [ExecRows] the results.
    - [Integration]: the interfaces of the executor implemented by [MetaClient] and
      [PointsWriter].
    - [GoText], [Configs], [ConfigTheorems]: meta/config.go and cluster/config.go,
      with host and port texts and the overrides from the environment.
    - [Lifecycle], [LifecycleTheorems]: opening and closing in meta/store.go,
      meta/raft_state.go and meta/service.go.
    - [GoUrl], [ResponseLogger], [LoggerTheorems]: meta/response_logger.go and the
      middleware of meta/handler.go (compression, headers, access log, recovery)
      as functions that wrap a handler over any response writer; [GoUrl] has
      query strings and base64.  [Routing] puts the middleware, with the routes of
      meta/handler.go, behind the client of [MetaClient].
    - [Limiter]: hh/limiter.go over IEEE doubles; [Pacing]: the sending loop of a
      processor with its waits, which sends what the loop without them sends.
    - [CmdLine]: flags, options, configuration path and pid file of the commands;
      [DataConfig] and [DataConfigTheorems]: cmd/influxd/run/config.go.
    - [Process]: processes that can exit or crash, and profiles; [DataServer]:
      cmd/influxd/run/server.go and server_dataonly.go; [MetaServer]:
      cmd/influxd-meta/run/server.go; [Commands]: the run and config commands and
      the main functions of both daemons, over the interface [Daemon], and the
      handling of signals as a step relation; [DaemonTheorems]: their results;
      [Ctl]: cmd/influxd-ctl/main.go.

    The processor calls the queue ([NodeProcessor.onQueue]), the service calls
    the processors, the store applies commands of the state machine to the
    metadata, the client's commands are the state machine's [Command]s and its
    snapshots are decoded by [MetaData.UnmarshalBinary], and the handler applies
    to its store what the client posted.  A data node decodes its requests with
    [Rpc] from the framing of [Tlv]; the executor calls the metadata client, the
    local store and the points writer through the classes [ClusterMeta],
    [TSDBStore] and [IntoWriter]; the meta service opens the store with the
    addresses of its configuration.  A command reads options and configuration,
    creates and opens the server of its daemon; that of a meta node opens the
    client of [MetaClient] and the service of [Lifecycle], that of a data node
    creates the same client and opens and closes the writer of [PointsWriter].

    ** How Go is modelled

    Definitions keep the names of the source; where two types share a method
    name the type is prefixed ([np_Open], [seg_append], [ClientDataNode]).  A
    method that fails keeps the state it had reached.  Nil dereference, index
    out of range, negative [make], closing a closed channel and explicit panics
    are the outcome [Panics].  Fixed-width arithmetic wraps ([u64], [i64],
    [u32], [i32]).  Errors that the code compares are constructors of [error];
    other errors keep the constant part of their text.  Methods that hold the
    mutex of their receiver are atomic; where goroutines race without one, the
    interleaving is an [Inductive] step relation, or a list of events that the
    theorem quantifies over: the goroutines that poll for snapshots or close a
    client between the steps of a command come from [schedule], a parameter without
    laws.  A channel that is only closed is a place in a heap of booleans, and
    closing it twice panics.  The order of a map iteration
    is a parameter or the theorem does not depend on it.  The disk does not fail
    by itself.  Logging and statistics are left out.

    Code outside the repository is a parameter: classes [Handoff] (points, the
    remote write, node lookup), [OssMeta], [OssCommands] and [OssClient] (the
    open-source metadata package and protobuf), [Raft], [Transport] (HTTP,
    codecs, bcrypt, SHA-256, randomness), [Serving] (response codec, leases,
    other meta servers), [Writing] (the metadata client and
    local store interfaces of the points writer), [Proto], [Models], [Influxql]
    and [RpcEnv] (protobuf, points, iterator options, error texts), [QueryLang]
    and [StatementLang] (the query language), [MessageTypes] (constants that the
    source uses and does not define), [ClusterMeta], [TSDBStore], [IntoWriter] and
    [Monitoring] (what the executor calls), [RaftEnv] (results of opening raft),
    [Parsers] (durations and floats), [Gzip] (the compressor), [OssConfigs] and
    [DataEnv] (configurations of the open-source services, and whether they can be
    created and opened) and [NodeFile] (the file of a node).  Two classes are
    interfaces of the program itself: [HttpWriter], which the response writers
    implement, and [Daemon], which both servers implement.  What a theorem relies on is a
    law class or a section hypothesis, and each such theorem has a witness that
    runs it on a concrete instance.

    ** What the theorems show

    - Queue: as long as no exhausted segment is left in front, it is a first-in
      first-out queue of blocks, and it survives reopening; an append between
      reading and advancing does not change what is advanced over; purging ends and drops the longest prefix of old segments.  Exact
      descriptions of the cases in which blocks are lost, stall behind an
      exhausted segment or are reordered after ten segments.
    - Handoff: at-least-once sending, in-order exactly-once delivery once the
      node is back, round trip of the encoding, the retry interval; closing can
      deadlock.  The service keeps active and young processors.
    - Framing: round trip of record sequences, refusal of truncated records and
      of sizes over the limit.
    - Metadata: invariant of node lists and IDs under every sequence of node
      operations, with the exact condition on the IDs that are set from outside;
      replication, distinct owners, numbering and time range of a
      new shard group; release of shards with a deleted node; ownership updates
      that never take effect.
    - Replicated store: failed commands leave the data unchanged, waiting clients
      are woken by closing their channel, and by nothing else, the outcome of join; commands without effect, commands that
      crash every server, snapshots that cannot be written, replicas that
      diverge because an entry reads the clock.  The node operations of a store
      meet their specification, through encoding, commit and application; a
      snapshot is isolated from later commands except for its term and index.
    - Pool: capacity and exclusive use for clients that do not overlap; both fail
      for overlapping or doubly closing clients.
    - Points writer: batches are partitioned by shard, an acknowledged batch is
      stored (for each series, time and field the last value of the batch, over a
      store that overwrites), missing shards are created.
    - Client: bounded retries and read-your-writes while a poller and closing
      goroutines run in between, without lost wake-ups, authentication that agrees
      with bcrypt, and the consequence of the undecoded parts of a snapshot: no
      client ever sees a data node or a user.
    - Handler: a command posted by a client comes back with the index of the
      store exactly when the store applied it; as routed in the source, no
      handler is ever run, so no sequence of client operations changes a server,
      and a command reports success only on a client that was closed.
    - Messages: what a sender encodes is what the receiver decodes, over the
      framing; join requests can never be encoded.
    - Data node: a connection is served until it is closed or the process panics, its
      writes in order with one response each; what happens to missing shards, failing iterator requests and
      unknown record types.
    - Executor: one result per statement, a read-only context that only warns,
      metadata before local deletion, streaming with interrupts, the bucket limit,
      normalized statements, rows to points, string sets; with the points writer
      behind it, a successful INTO has stored its points.
    - Configuration and start: overrides from the environment against the literal
      names of the nineteen variables of a meta node; the announced addresses; a store opens and closes once, and the
      calls that block on its mutex.  For a data node, where a list element has two
      variables, the last that is set wins; the names of the variables and the
      reading of their values are specified apart from the walk.
    - Middleware: a handler behind the whole chain answers as it does alone, with its
      status, body and headers, and one line is logged; that line does not depend on the password of the
      request, and the requests where it does leak are described.
    - Command line: options in any spelling are read back.
    - Daemons: the order in which a data node opens and closes its parts, and the
      panic at its end; a failed start is never cleaned up; a meta node never comes
      to serve, and exits or panics instead; after a signal a process ends within
      thirty seconds in every interleaving, also when a call of the shutdown blocks,
      and when it can crash.  The control program runs the wrong command for copy-shard and
      does not know most of the commands of its help text.
    - Rate limiter: delays are whole seconds and are not bounded by one second.

    ** Fuel

    Loops that are not structural take fuel, and the theorems show which fuel is
    enough: [purgeLoop] one round per segment and one more; [retryLoop] one more
    than the pending blocks; [retryExec] eleven attempts, since [maxRetries] is
    ten; [sort.Search] the length of the slice and one more; [handleConn] one more
    than the bytes of its input, since every iteration that goes on has read one;
    [applyData] the depth of the configuration.  [clusterWriter_WritePoints] calls
    itself, and no fuel is enough for it.
    The loops of the source that may run for ever ([retryUntilSnapshot],
    [tryJoin]) return [None] when their fuel ends, and no theorem claims that they
    return.  Select statements run over lists of events ([waitForLeader],
    [emitRows], [serve]), and [None] there means that the call still waits; in
    [Lifecycle] it also means that a call blocks on its own lock.

    ** What is not modelled

    Generated messages (meta/internal, rpc/internal) are parameters.  What is left
    of the source has no behaviour to model: roles and permissions of meta/data.go,
    the join, status and copy handlers of meta/handler.go, the request types of
    cluster/service.go beyond writes and iterators, meta/control, httpd, and
    cluster/iterator.go, shard_writer.go, meta_executor.go and tracker.go are empty,
    return a constant or are commented out.  The packages of the commands of
    cmd/influxd-ctl are empty files and are parameters of [Ctl].  Where the source
    does not compile, the model takes the evident reading and the definition says so:
    the bytes that [copyShard] applies are not declared and are a parameter.  Logging
    other than the access log, the texts of the help commands, and the statistics of
    the parts are left out. *)

From Stdlib Require Import ZArith Lia.
From stdpp Require Export sorting.
From stdpp Require Export base option strings gmap list.

#[export] Set Default Goal Selector "!".

(** ** Errors

    Go's [error] is one interface type.  The values that the code compares by
    identity (sentinels such as [io.EOF] or [ErrSegmentFull]) are constructors;
    every other error carries its text ([errorf]) or wraps another one
    ([wrap_err], for [fmt.Errorf("...: %s", err)]). *)
Inductive error : Type :=
  (* io *)
  | EOF
  | ErrUnexpectedEOF
  (* hh/queue.go, hh/service.go *)
  | ErrNotOpen
  | ErrQueueFull
  | ErrSegmentFull
  | ErrHintedHandoffDisabled
  (* meta/errors.go *)
  | ErrStoreOpen
  | ErrNodeExists
  | ErrNodeNotFound
  | ErrRetentionPolicyExists
  | ErrRetentionPolicyConflict
  | ErrRetentionPolicyDurationTooLow
  | ErrUserExists
  | ErrUserNotFound
  | ErrUsernameRequired
  | ErrAuthenticate
  (* meta/client.go *)
  | ErrServiceUnavailable
  | ErrService
  | errRedirect (host : string)
  | errCommand (msg : string)
  (* hashicorp/raft *)
  | ErrNotLeader
  (* fatih/pool *)
  | ErrClosed
  (* tsdb *)
  | ErrShardNotFound
  (* cluster/points_writer.go *)
  | ErrWriteFailed
  (* influxql *)
  | ErrInvalidQuery
  (* influxdb.ErrRetentionPolicyNotFound, influxdb.ErrDatabaseNotFound *)
  | ErrRetentionPolicyNotFound (name : string)
  | ErrDatabaseNotFound (name : string)
  (* fmt.Errorf and errors.New *)
  | errorf (text : string)
  | wrap_err (prefix : string) (e : error).

#[export] Instance error_eq_dec : EqDecision error.
Proof. solve_decision. Defined.

(** ** Outcomes

    A call returns normally, returns a non-nil error, or panics (nil
    dereference, index out of range, negative [make], explicit [panic]). *)
Inductive res (A : Type) : Type :=
  | Ok (a : A)
  | Err (e : error)
  | Panics.
Arguments Ok {_} _.
Arguments Err {_} _.
Arguments Panics {_}.

#[export] Instance res_eq_dec `{EqDecision A} : EqDecision (res A).
Proof. solve_decision. Defined.

#[export] Instance res_ret : MRet res := λ A a, Ok a.

#[export] Instance res_bind : MBind res := λ A B k r,
  match r with
  | Ok a => k a
  | Err e => Err e
  | Panics => Panics
  end.

(** [of_option e o] is the Go idiom "nil means not found". *)
Definition of_option {A} (e : error) (o : option A) : res A :=
  match o with Some a => Ok a | None => Err e end.

(** ** Stateful calls

    A method of a mutable receiver is a state transformer that keeps the state
    reached when it fails: Go has no roll-back. *)
Definition GoM (S A : Type) : Type := S → res A * S.

#[export] Instance gom_ret {S} : MRet (GoM S) := λ A a s, (Ok a, s).

#[export] Instance gom_bind {S} : MBind (GoM S) := λ A B k m s,
  match m s with
  | (Ok a, s') => k a s'
  | (Err e, s') => (Err e, s')
  | (Panics, s') => (Panics, s')
  end.

Section gom.
  Context {S : Type}.

Definition throw {A} (e : error) : GoM S A := λ s, (Err e, s).
Definition panic {A} : GoM S A := λ s, (Panics, s).
Definition get_state : GoM S S := λ s, (Ok s, s).
Definition gets {A} (f : S → A) : GoM S A := λ s, (Ok (f s), s).
Definition modify (f : S → S) : GoM S unit := λ s, (Ok tt, f s).

(** [attempt m] is a call whose error the caller inspects instead of
    returning it. *)
Definition attempt {A} (m : GoM S A) : GoM S (error + A) := λ s,
  match m s with
  | (Ok a, s') => (Ok (inr a), s')
  | (Err e, s') => (Ok (inl e), s')
  | (Panics, s') => (Panics, s')
  end.

Definition lift_res {A} (r : res A) : GoM S A := λ s, (r, s).

(** [zoom get put m] runs a method of a component of the state. *)
Definition zoom {T A} (get : S → T) (put : T → S → S) (m : GoM T A) : GoM S A := λ s,
  let '(r, t) := m (get s) in (r, put t s).

(** Sequential [for _, x := range l] with a body that may fail. *)
Fixpoint for_each {A} (l : list A) (body : A → GoM S unit) : GoM S unit :=
  match l with
  | [] => mret tt
  | x :: l' => _ ← body x; for_each l' body
  end.

End gom.

(** ** Machine integers

    [u64], [i64], [u32] and [i32] write out the wrap-around of Go's fixed
    width arithmetic and conversions. *)
Local Open Scope Z_scope.

Definition u64 (z : Z) : Z := z mod 2 ^ 64.
Definition u32 (z : Z) : Z := z mod 2 ^ 32.
Definition i64 (z : Z) : Z := (z + 2 ^ 63) mod 2 ^ 64 - 2 ^ 63.
Definition i32 (z : Z) : Z := (z + 2 ^ 31) mod 2 ^ 32 - 2 ^ 31.

Lemma u64_small z : 0 ≤ z < 2 ^ 64 → u64 z = z.
Proof. intros. by apply Z.mod_small. Qed.

Lemma u64_range z : 0 ≤ u64 z < 2 ^ 64.
Proof. apply Z.mod_pos_bound. lia. Qed.

Lemma i64_small z : - 2 ^ 63 ≤ z < 2 ^ 63 → i64 z = z.
Proof. intros. unfold i64. rewrite Z.mod_small; lia. Qed.

Lemma i64_range z : - 2 ^ 63 ≤ i64 z < 2 ^ 63.
Proof. unfold i64. pose proof (Z.mod_pos_bound (z + 2 ^ 63) (2 ^ 64)). lia. Qed.

Lemma i32_small z : - 2 ^ 31 ≤ z < 2 ^ 31 → i32 z = z.
Proof. intros. unfold i32. rewrite Z.mod_small; lia. Qed.

Lemma i32_range z : - 2 ^ 31 ≤ i32 z < 2 ^ 31.
Proof. unfold i32. pose proof (Z.mod_pos_bound (z + 2 ^ 31) (2 ^ 32)). lia. Qed.

Lemma i64_u64_small z : 0 ≤ z < 2 ^ 63 → i64 (u64 z) = z.
Proof. intros. rewrite u64_small by lia. apply i64_small. lia. Qed.

(** [len l] is Go's [len], an [int]. *)
Definition len {A} (l : list A) : Z := Z.of_nat (length l).

Lemma len_nil {A} : len (@nil A) = 0.
Proof. done. Qed.

Lemma len_cons {A} (x : A) l : len (x :: l) = 1 + len l.
Proof. unfold len. simpl. lia. Qed.

Lemma len_app {A} (l k : list A) : len (l ++ k) = len l + len k.
Proof. unfold len. rewrite length_app. lia. Qed.

Lemma len_nonneg {A} (l : list A) : 0 ≤ len l.
Proof. unfold len. lia. Qed.

Lemma to_nat_len {A} (l : list A) : Z.to_nat (len l) = length l.
Proof. unfold len. lia. Qed.

Create HintDb golen.
#[export] Hint Rewrite @len_nil @len_cons @len_app @to_nat_len : golen.

(** ** Tactics *)

(** Unfold the monad plumbing and compute. *)
Ltac gom_unfold :=
  unfold attempt, throw, panic, gets, modify, get_state, lift_res, zoom,
    mbind, mret, gom_bind, gom_ret, res_bind, res_ret in *.

Ltac gom_simpl := gom_unfold; cbn beta iota zeta in *.

(** Decide the boolean integer comparisons of the goal from the context. *)
Ltac zbool :=
  repeat match goal with
  | |- context [?a =? ?b] =>
      first [ rewrite (proj2 (Z.eqb_eq a b)) by lia
            | rewrite (proj2 (Z.eqb_neq a b)) by lia ]
  | |- context [?a <? ?b] =>
      first [ rewrite (proj2 (Z.ltb_lt a b)) by lia
            | rewrite (proj2 (Z.ltb_ge a b)) by lia ]
  | |- context [?a <=? ?b] =>
      first [ rewrite (proj2 (Z.leb_le a b)) by lia
            | rewrite (proj2 (Z.leb_gt a b)) by lia ]
  end.

(** ** Generic list lemmas *)

Lemma take_app_exact {A} (l k : list A) n : n = length l → take n (l ++ k) = l.
Proof. intros ->. by rewrite take_app_length. Qed.

Lemma drop_app_exact {A} (l k : list A) n : n = length l → drop n (l ++ k) = k.
Proof. intros ->. by rewrite drop_app_length. Qed.

Lemma bind_Ok {A B} (r : res A) (k : A → res B) b :
  (r ≫= k) = Ok b ↔ ∃ a, r = Ok a ∧ k a = Ok b.
Proof. destruct r; cbv; naive_solver. Qed.

Lemma Forall2_impl_elem {A B} (P Q : A → B → Prop) l k :
  Forall2 P l k → (∀ x y, x ∈ l → P x y → Q x y) → Forall2 Q l k.
Proof.
  induction 1 as [|x y l k HP _ IH]; intros H; constructor.
  - apply H; [left|done].
  - apply IH. intros. apply H; [by right|done].
Qed.
