(* ===== verification/GoLib.v ===== *)
(** * The parts of Go's standard library that the code uses

    Big-endian integers ([encoding/binary]), decimal identifiers ([strconv]),
    instants ([time]), [sort], and a directory tree with seekable files ([os],
    [io/ioutil]). *)

From Stdlib Require Import ZArith Lia NArith.
From Stdlib Require Import Strings.Byte DecimalString DecimalN DecimalPos DecimalFacts.
From stdpp Require Import sorting.
From stdpp Require Import base option strings gmap list.
From S2P Require Import Prelude.

Local Open Scope Z_scope.

Abbreviation byte := Byte.byte.

#[export] Instance byte_eq_dec : EqDecision byte := Byte.byte_eq_dec.

(** ** interface{}

    The dynamic values that the code stores in rows and points; [IFloat] holds
    the 64 bits of a float. *)
Inductive iface : Type :=
  | INil
  | IBool (b : bool)
  | IInt (z : Z)
  | IFloat (bits : Z)
  | IString (s : string)
  | IStrings (l : list string)
  | ITime (t : Z).

#[export] Instance iface_eq_dec : EqDecision iface.
Proof. solve_decision. Defined.

(** ** encoding/binary, BigEndian *)
Module BigEndian.

Definition Z_of_byte (b : byte) : Z := Z.of_N (Byte.to_N b).

Definition byte_of_Z (z : Z) : byte :=
  match Byte.of_N (Z.to_N (z mod 256)) with
  | Some b => b
  | None => x00
  end.

(** [put n z] writes the [n] low bytes of [z], most significant first. *)
Fixpoint put (n : nat) (z : Z) : list byte :=
  match n with
  | O => []
  | S n' => put n' (z / 256) ++ [byte_of_Z z]
  end.

Definition get (bs : list byte) : Z :=
  fold_left (λ acc b, acc * 256 + Z_of_byte b) bs 0.

Definition PutUint64 (z : Z) : list byte := put 8 z.
Definition Uint64 (bs : list byte) : Z := get bs.

Lemma Z_of_byte_range b : 0 ≤ Z_of_byte b < 256.
Proof. unfold Z_of_byte. pose proof (Byte.to_N_bounded b). lia. Qed.

Lemma byte_of_Z_mod z : Z_of_byte (byte_of_Z z) = z mod 256.
Proof.
  pose proof (Z.mod_pos_bound z 256 ltac:(lia)).
  unfold Z_of_byte, byte_of_Z.
  destruct (Byte.of_N (Z.to_N (z mod 256))) as [b|] eqn:E.
  - apply Byte.to_of_N in E. rewrite E. lia.
  - apply Byte.of_N_None_iff in E. lia.
Qed.

Lemma byte_of_Z_of_byte b : byte_of_Z (Z_of_byte b) = b.
Proof. destruct b; vm_compute; reflexivity. Qed.

Lemma put_length n z : length (put n z) = n.
Proof. revert z. induction n as [|n IH]; intros z; simpl; [done|]. rewrite length_app, IH. simpl. lia. Qed.

Lemma get_snoc bs b : get (bs ++ [b]) = get bs * 256 + Z_of_byte b.
Proof. unfold get. by rewrite fold_left_app. Qed.

Lemma get_put n z : get (put n z) = z mod 256 ^ Z.of_nat n.
Proof.
  revert z. induction n as [|n IH]; intros z; [symmetry; apply Z.mod_1_r|].
  simpl put. rewrite get_snoc, IH, byte_of_Z_mod.
  rewrite Nat2Z.inj_succ, Z.pow_succ_r by lia.
  pose proof (Z.pow_pos_nonneg 256 (Z.of_nat n) ltac:(lia) ltac:(lia)).
  rewrite Z.rem_mul_r by lia. lia.
Qed.

Lemma get_range bs : 0 ≤ get bs < 256 ^ len bs.
Proof.
  induction bs as [|b bs IH] using rev_ind; [vm_compute; split; congruence|].
  rewrite get_snoc, len_app. change (len [b]) with 1.
  pose proof (Z_of_byte_range b). pose proof (len_nonneg bs).
  rewrite Z.pow_add_r by lia. change (256 ^ 1) with 256. lia.
Qed.

Lemma put_get bs : put (length bs) (get bs) = bs.
Proof.
  induction bs as [|b bs IH] using rev_ind; [done|].
  rewrite length_app, Nat.add_comm. simpl. rewrite get_snoc.
  pose proof (Z_of_byte_range b).
  rewrite Z.div_add_l by lia. rewrite (Z.div_small (Z_of_byte b)), Z.add_0_r by lia.
  rewrite IH. f_equal. f_equal. rewrite <- (byte_of_Z_of_byte b) at 2.
  unfold byte_of_Z. rewrite Z.add_comm, Z_mod_plus_full. done.
Qed.

Lemma PutUint64_length z : length (PutUint64 z) = 8%nat.
Proof. apply put_length. Qed.

Lemma PutUint64_len z : len (PutUint64 z) = 8.
Proof. unfold len. by rewrite PutUint64_length. Qed.

Lemma Uint64_PutUint64 z : Uint64 (PutUint64 z) = u64 z.
Proof. unfold Uint64, PutUint64. by rewrite get_put. Qed.

Lemma PutUint64_Uint64 bs : length bs = 8%nat → PutUint64 (Uint64 bs) = bs.
Proof. intros H. unfold PutUint64, Uint64. rewrite <- H at 1. apply put_get. Qed.

Lemma Uint64_range bs : length bs = 8%nat → 0 ≤ Uint64 bs < 2 ^ 64.
Proof. intros H. pose proof (get_range bs) as G. unfold len in G. rewrite H in G. exact G. Qed.

End BigEndian.
Import BigEndian.

#[export] Hint Rewrite PutUint64_len PutUint64_length : golen.

(** ** strconv *)
Module strconv.

(** [FormatUint(z, 10)] for [0 <= z]. *)
Definition FormatUint (z : Z) : string := NilZero.string_of_uint (N.to_uint (Z.to_N z)).

(** Decimal form of a signed integer. *)
Definition FormatInt (z : Z) : string :=
  if z <? 0 then ("-" +:+ FormatUint (- z))%string else FormatUint z.

(** [ParseUint(s, 10, 64)]: digits only, value below 2^64. *)
Definition ParseUint (s : string) : option Z :=
  match NilZero.uint_of_string s with
  | Some d =>
      let z := Z.of_N (N.of_uint d) in
      if z <? 2 ^ 64 then Some z else None
  | None => None
  end.

Lemma to_uint_not_nil n : N.to_uint n ≠ Decimal.Nil.
Proof. destruct n as [|p]; [done|]. apply DecimalPos.Unsigned.to_uint_nonnil. Qed.

Lemma ParseUint_FormatUint z : 0 ≤ z < 2 ^ 64 → ParseUint (FormatUint z) = Some z.
Proof.
  intros H. unfold ParseUint, FormatUint.
  rewrite NilZero.usu by apply to_uint_not_nil.
  rewrite DecimalN.Unsigned.of_to, Z2N.id by lia.
  by rewrite (proj2 (Z.ltb_lt _ _)) by lia.
Qed.

Lemma FormatUint_inj x y :
  0 ≤ x < 2 ^ 64 → 0 ≤ y < 2 ^ 64 → FormatUint x = FormatUint y → x = y.
Proof.
  intros Hx Hy E. apply (f_equal ParseUint) in E.
  rewrite !ParseUint_FormatUint in E by done. congruence.
Qed.

Lemma ParseUint_range s z : ParseUint s = Some z → 0 ≤ z < 2 ^ 64.
Proof.
  unfold ParseUint. destruct (NilZero.uint_of_string s); [|done].
  case_match eqn:E; [|done]. apply Z.ltb_lt in E. intros [= <-]. lia.
Qed.

End strconv.

(** ** time

    An instant is its number of nanoseconds since the Unix epoch. *)
Module time.

Definition Nanosecond : Z := 1.
Definition Millisecond : Z := 1000000.
Definition Second : Z := 1000000000.
Definition Minute : Z := 60 * Second.
Definition Hour : Z := 60 * Minute.

(** Nanoseconds from the zero [time.Time] (January 1, year 1) to the epoch. *)
Definition zero_to_epoch : Z := 62135596800 * Second.

(** [t.Truncate(d)] rounds down to a multiple of [d] since the zero time; a
    non-positive [d] leaves [t] unchanged. *)
Definition Truncate (t d : Z) : Z :=
  if d <=? 0 then t else t - (t + zero_to_epoch) mod d.

Lemma Truncate_bounds t d : 0 < d → Truncate t d ≤ t < Truncate t d + d.
Proof.
  intros. unfold Truncate. zbool.
  pose proof (Z.mod_pos_bound (t + zero_to_epoch) d). lia.
Qed.

Lemma Truncate_le t d : Truncate t d ≤ t.
Proof.
  unfold Truncate. destruct (Z.leb_spec d 0); [lia|].
  pose proof (Z.mod_pos_bound (t + zero_to_epoch) d). lia.
Qed.

Lemma Truncate_idemp t d : Truncate (Truncate t d) d = Truncate t d.
Proof.
  unfold Truncate. destruct (Z.leb_spec d 0); [done|].
  assert ((t - (t + zero_to_epoch) mod d + zero_to_epoch) mod d = 0) as ->; [|lia].
  replace (t - (t + zero_to_epoch) mod d + zero_to_epoch)
    with (t + zero_to_epoch - (t + zero_to_epoch) mod d) by lia.
  rewrite Zminus_mod_idemp_r, Z.sub_diag. by apply Z.mod_0_l; lia.
Qed.

End time.

(** ** sort

    [Sort] is the insertion sort that the package runs on short slices; on
    longer ones it may order equal elements differently, and the theorems below
    only use that the result is an ordered permutation. *)
Module sort.
Section sort.
  Context {A : Type}.

(** Move [x] left over the elements it is less than; the prefix is reversed. *)
Fixpoint insert_rev (less : A → A → bool) (x : A) (rp : list A) : list A :=
  match rp with
  | [] => [x]
  | y :: rp' => if less x y then y :: insert_rev less x rp' else x :: rp
  end.

Definition Sort (less : A → A → bool) (l : list A) : list A :=
  reverse (fold_left (λ rp x, insert_rev less x rp) l []).

Lemma insert_rev_perm less x rp : insert_rev less x rp ≡ₚ x :: rp.
Proof.
  induction rp as [|y rp IH]; simpl; [done|]. destruct (less x y); [|done].
  rewrite IH. apply Permutation_swap.
Qed.

Lemma Sort_perm less l : Sort less l ≡ₚ l.
Proof.
  unfold Sort. rewrite reverse_Permutation.
  enough (∀ acc, fold_left (λ rp x, insert_rev less x rp) l acc ≡ₚ l ++ acc) as ->
    by by rewrite app_nil_r.
  induction l as [|x l IH]; intros acc; simpl; [done|].
  rewrite IH, insert_rev_perm. symmetry. apply Permutation_middle.
Qed.

Lemma StronglySorted_reverse (R : relation A) l :
  StronglySorted (flip R) l → StronglySorted R (reverse l).
Proof.
  induction 1 as [|x l _ IH Hx]; [constructor|]. rewrite reverse_cons.
  apply StronglySorted_app_2; [|done|repeat constructor].
  intros y z Hy ->%list_elem_of_singleton. rewrite Forall_forall in Hx.
  apply (Hx y). by rewrite elem_of_reverse in Hy.
Qed.

(** Sorting by an integer key. *)
Lemma Sort_sorted (key : A → Z) less l :
  (∀ x y, less x y = (key x <? key y)) →
  StronglySorted (λ x y, key x ≤ key y) (Sort less l).
Proof.
  intros Hless. apply StronglySorted_reverse.
  enough (∀ acc, StronglySorted (flip (λ x y, key x ≤ key y)) acc →
    StronglySorted (flip (λ x y, key x ≤ key y))
      (fold_left (λ rp x, insert_rev less x rp) l acc)) as H by (apply H; constructor).
  induction l as [|x l IH]; intros acc Hacc; simpl; [done|]. apply IH. clear IH l.
  induction Hacc as [|y acc Hacc IH Hy]; simpl; [repeat constructor|].
  rewrite Hless. destruct (Z.ltb_spec (key x) (key y)).
  - constructor; [done|]. rewrite insert_rev_perm. constructor; [unfold flip; lia|done].
  - constructor; [by constructor|]. constructor; [done|].
    eapply Forall_impl; [exact Hy|]. unfold flip. lia.
Qed.

(** [sort.Search(n, f)]: binary search for the least index at which the
    predicate holds, [n] when it is not found; the range halves, so [n] rounds
    are enough. *)
Fixpoint search (fuel : nat) (f : nat → bool) (i j : nat) : nat :=
  match fuel with
  | O => i
  | S fuel' =>
      if decide (i < j)%nat then
        let h := ((i + j) / 2)%nat in
        if f h then search fuel' f i h else search fuel' f (S h) j
      else i
  end.

Definition Search (n : nat) (f : nat → bool) : nat := search (S n) f 0 n.

End sort.
End sort.

(** ** os and io/ioutil

    A directory holds named entries; a path is a directory and a base name
    ([filepath.Join(dir, name)]).  The disk does not fail by itself: the calls
    below return the errors that the state of the tree gives. *)
Module os.

Inductive dirent : Type :=
  | RegularFile (content : list byte) (mtime : Z)
  | SubDir.

Record world : Type := World {
  w_dirs : gmap string (gmap string dirent);
  w_now : Z;
}.

Record path : Type := Path { p_dir : string; p_name : string }.

#[export] Instance path_eq_dec : EqDecision path.
Proof. solve_decision. Defined.

(** An open file: where it is and its offset. *)
Record File : Type := mkFile { f_path : path; f_off : Z }.

Definition entry (w : world) (p : path) : option dirent :=
  d ← w_dirs w !! p_dir p; d !! p_name p.

Definition set_entry (w : world) (p : path) (e : dirent) : world :=
  World (alter (λ d, <[p_name p := e]> d) (p_dir p) (w_dirs w)) (w_now w).

(** [os.MkdirAll] *)
Definition MkdirAll (dir : string) : GoM world unit := λ w,
  match w_dirs w !! dir with
  | Some _ => (Ok tt, w)
  | None => (Ok tt, World (<[dir := ∅]> (w_dirs w)) (w_now w))
  end.

(** [os.RemoveAll] of a directory. *)
Definition RemoveAll (dir : string) : GoM world unit := λ w,
  (Ok tt, World (delete dir (w_dirs w)) (w_now w)).

(** [os.Remove] of a file. *)
Definition Remove (p : path) : GoM world unit := λ w,
  match entry w p with
  | Some _ => (Ok tt, World (alter (delete (p_name p)) (p_dir p) (w_dirs w)) (w_now w))
  | None => (Err (errorf "remove: no such file or directory"), w)
  end.

(** [ioutil.ReadDir]: the entries sorted by file name. *)
Definition name_le (x y : string * dirent) : Prop := String.le x.1 y.1.
#[export] Instance name_le_dec : RelDecision name_le.
Proof. intros x y. apply String.le_dec. Defined.

Definition ReadDir (dir : string) : GoM world (list (string * dirent)) := λ w,
  match w_dirs w !! dir with
  | Some d => (Ok (merge_sort name_le (map_to_list d)), w)
  | None => (Err (errorf "open: no such file or directory"), w)
  end.

(** [os.OpenFile(path, O_CREATE|O_RDWR, 0600)] *)
Definition OpenFile (p : path) : GoM world File := λ w,
  match w_dirs w !! p_dir p with
  | None => (Err (errorf "open: no such file or directory"), w)
  | Some d =>
      match d !! p_name p with
      | Some SubDir => (Err (errorf "open: is a directory"), w)
      | Some (RegularFile _ _) => (Ok (mkFile p 0), w)
      | None => (Ok (mkFile p 0), set_entry w p (RegularFile [] (w_now w)))
      end
  end.

(** [os.Stat]: size and modification time. *)
Definition Stat (p : path) : GoM world (Z * Z) := λ w,
  match entry w p with
  | Some (RegularFile c m) => (Ok (len c, m), w)
  | Some SubDir => (Ok (0, 0), w)
  | None => (Err (errorf "stat: no such file or directory"), w)
  end.

Definition content (w : world) (p : path) : option (list byte) :=
  match entry w p with Some (RegularFile c _) => Some c | _ => None end.

Definition mtime (w : world) (p : path) : option Z :=
  match entry w p with Some (RegularFile _ m) => Some m | _ => None end.

Definition bad_fd : error := errorf "bad file descriptor".

(** [f.Seek(pos, SEEK_SET)] and [f.Seek(delta, SEEK_END)]; the result is the
    new offset. *)
Definition SeekSet (f : File) (pos : Z) : res (Z * File) :=
  if pos <? 0 then Err (errorf "seek: invalid argument")
  else Ok (pos, mkFile (f_path f) pos).

Definition SeekEnd (f : File) (delta : Z) (w : world) : res (Z * File) :=
  match content w (f_path f) with
  | None => Err bad_fd
  | Some c => SeekSet f (len c + delta)
  end.

(** [f.Read(b)] with [len(b) = n]: the bytes read, at most [n]; no byte left
    is [io.EOF]. *)
Definition Read (f : File) (n : Z) (w : world) : res (list byte * File) :=
  match content w (f_path f) with
  | None => Err bad_fd
  | Some c =>
      if n =? 0 then Ok ([], f)
      else if len c <=? f_off f then Err EOF
      else
        let bs := take (Z.to_nat n) (drop (Z.to_nat (f_off f)) c) in
        Ok (bs, mkFile (f_path f) (f_off f + len bs))
  end.

(** [f.Write(b)]: overwrite from the offset, growing the file; a gap is filled
    with zero bytes. *)
Definition splice (c : list byte) (off : nat) (bs : list byte) : list byte :=
  take off c ++ replicate (off - length c) x00 ++ bs ++ drop (off + length bs) c.

Definition Write (f : File) (bs : list byte) (w : world) : res (Z * File * world) :=
  match content w (f_path f) with
  | None => Err bad_fd
  | Some c =>
      Ok (len bs, mkFile (f_path f) (f_off f + len bs),
          set_entry w (f_path f)
            (RegularFile (splice c (Z.to_nat (f_off f)) bs) (w_now w)))
  end.

(** Overwriting the last bytes of a file and growing it. *)
Lemma splice_tail c t bs :
  (length t ≤ length bs)%nat → splice (c ++ t) (length c) bs = c ++ bs.
Proof.
  intros H. unfold splice.
  rewrite take_app_length, length_app, drop_ge by (rewrite length_app; lia).
  rewrite app_nil_r. replace (length c - (length c + length t))%nat with 0%nat by lia. done.
Qed.

Lemma entry_set_entry_eq w p e d :
  w_dirs w !! p_dir p = Some d → entry (set_entry w p e) p = Some e.
Proof.
  intros H. unfold entry, set_entry. simpl. rewrite lookup_alter_eq, H. simpl.
  by rewrite lookup_insert_eq.
Qed.

Lemma entry_set_entry_ne w p q e : p ≠ q → entry (set_entry w p e) q = entry w q.
Proof.
  intros H. unfold entry, set_entry. simpl.
  destruct p as [pd pn], q as [qd qn]. simpl.
  destruct (decide (pd = qd)) as [->|Hd]; [|by rewrite lookup_alter_ne].
  rewrite lookup_alter_eq. destruct (w_dirs w !! qd) as [d|]; simpl; [|done].
  rewrite lookup_insert_ne; [done|]. congruence.
Qed.

Lemma content_dir w p c : content w p = Some c → ∃ d, w_dirs w !! p_dir p = Some d.
Proof. unfold content, entry. destruct (w_dirs w !! p_dir p); naive_solver. Qed.

Lemma content_set_entry_eq w p c m d :
  w_dirs w !! p_dir p = Some d → content (set_entry w p (RegularFile c m)) p = Some c.
Proof. intros H. unfold content. by erewrite entry_set_entry_eq. Qed.

Lemma content_set_entry_ne w p q e :
  p ≠ q → content (set_entry w p e) q = content w q.
Proof. intros H. unfold content. by rewrite entry_set_entry_ne. Qed.

Lemma set_entry_twice w p e e' : set_entry (set_entry w p e) p e' = set_entry w p e'.
Proof.
  unfold set_entry. simpl. f_equal.
  apply map_eq. intros k. destruct (decide (p_dir p = k)) as [->|].
  - rewrite !lookup_alter_eq. destruct (w_dirs w !! k) as [d|]; simpl; [|done].
    by rewrite insert_insert_eq.
  - by rewrite !lookup_alter_ne.
Qed.

Lemma set_entry_now w p e : w_now (set_entry w p e) = w_now w.
Proof. done. Qed.

Lemma ReadDir_perm dir w d :
  w_dirs w !! dir = Some d →
  ∃ l, ReadDir dir w = (Ok l, w) ∧ l ≡ₚ map_to_list d.
Proof.
  intros H. unfold ReadDir. rewrite H. eexists. split; [done|].
  apply merge_sort_Permutation.
Qed.

End os.

(** ** Channels

    Channels that carry no values: a goroutine that receives from one goes on when
    another has closed it.  A channel is an address into a list of flags that tell
    whether it is closed. *)
Module chan.

Abbreviation heap := (list bool).

Definition make : GoM heap nat := λ h, (Ok (length h), h ++ [false]).

(** Closing a channel twice panics. *)
Definition close (c : nat) : GoM heap unit := λ h,
  match h !! c with
  | Some false => (Ok tt, <[c := true]> h)
  | _ => (Panics, h)
  end.

(** Whether a receive goes through. *)
Definition closed (h : heap) (c : nat) : bool := bool_decide (h !! c = Some true).

Lemma closed_true h c : closed h c = true ↔ h !! c = Some true.
Proof. apply bool_decide_eq_true. Qed.

(** What may happen to a heap: channels are made and closed, never opened again. *)
Definition extends : relation heap := λ h h', ∀ c, h !! c = Some true → h' !! c = Some true.

#[export] Instance extends_preorder : PreOrder extends.
Proof. split; [by intros h c|]. intros h1 h2 h3 H1 H2 c Hc. auto. Qed.

Lemma make_extends h : extends h (make h).2.
Proof. intros c Hc. cbn. by apply lookup_app_l_Some. Qed.

Lemma close_extends c h : extends h (close c h).2.
Proof.
  intros c' Hc'. unfold close. destruct (h !! c) as [[]|] eqn:E; [done| |done].
  cbn [snd]. rewrite list_lookup_insert_ne; [done|]. congruence.
Qed.

End chan.
