(* ===== verification/Tlv.v ===== *)
(** * Type-length-value records (tlv/tlv.go)

    The framing of every message between data nodes.  A reader is the stream of
    bytes that is left, a writer the bytes written so far; a writer may refuse
    further bytes (a closed connection). *)

From Stdlib Require Import ZArith Lia.
From Stdlib Require Import Strings.Byte.
From S2P Require Import Prelude GoLib.
Import BigEndian.

Local Open Scope Z_scope.

Definition MaxMessageSize : Z := 1024 * 1024 * 1024.

(** ** Reading *)

Abbreviation ReaderM := (GoM (list byte)).

(** [io.ReadFull(r, buf)] with [len(buf) = n]: no byte at all is [io.EOF], too
    few are [io.ErrUnexpectedEOF]. *)
Definition ReadFull (n : Z) : ReaderM (list byte) := λ r,
  if len r <? n then (Err (if len r =? 0 then EOF else ErrUnexpectedEOF), [])
  else (Ok (take (Z.to_nat n) r), drop (Z.to_nat n) r).

(** [fmt.Errorf("...: %s", err)] around a call. *)
Definition wrapping {S A} (prefix : string) (m : GoM S A) : GoM S A := λ s,
  match m s with
  | (Err e, s') => (Err (wrap_err prefix e), s')
  | x => x
  end.

(** [ReadType(r)] *)
Definition ReadType : ReaderM byte :=
  typ ← wrapping "read message type" (ReadFull 1);
  match typ with
  | b :: _ => mret b
  | [] => panic
  end.

(** [binary.Read(r, binary.BigEndian, &sz)] for an [int64]. *)
Definition ReadInt64 : ReaderM Z := bs ← ReadFull 8; mret (i64 (Uint64 bs)).

(** [ReadLV(r)]: [make] panics on a negative length. *)
Definition ReadLV : ReaderM (list byte) :=
  sz ← wrapping "read message size" ReadInt64;
  if MaxMessageSize <=? sz then throw (errorf "max message size exceeded")
  else if sz <? 0 then panic
  else wrapping "read message value" (ReadFull sz).

(** [ReadTLV(r)] *)
Definition ReadTLV : ReaderM (byte * list byte) :=
  typ ← ReadType;
  buf ← ReadLV;
  mret (typ, buf).

(** ** Writing *)

(** The bytes written, and the room the connection still has ([None]: no
    limit). *)
Record writer : Type := mkWriter { wr_out : list byte; wr_room : option nat }.

Abbreviation WriterM := (GoM writer).

(** [w.Write(b)]: all bytes, or an error after as many as there is room for. *)
Definition Write (b : list byte) : WriterM unit := λ w,
  match wr_room w with
  | None => (Ok tt, mkWriter (wr_out w ++ b) None)
  | Some n =>
      if decide (length b ≤ n)%nat then (Ok tt, mkWriter (wr_out w ++ b) (Some (n - length b)%nat))
      else (Err (errorf "write failed"), mkWriter (wr_out w ++ take n b) (Some 0%nat))
  end.

(** [WriteType(w, typ)] *)
Definition WriteType (typ : byte) : WriterM unit :=
  wrapping "write message type" (Write [typ]).

(** [WriteLV(w, buf)] *)
Definition WriteLV (buf : list byte) : WriterM unit :=
  _ ← wrapping "write message size" (Write (PutUint64 (u64 (len buf))));
  wrapping "write message value" (Write buf).

(** [WriteTLV(w, typ, buf)] *)
Definition WriteTLV (typ : byte) (buf : list byte) : WriterM unit :=
  _ ← WriteType typ;
  WriteLV buf.

(** ** Messages *)

(** [encoding.BinaryMarshaler] and [encoding.BinaryUnmarshaler] *)
Class Message (M : Type) : Type := {
  MarshalBinary : M → res (list byte);
  UnmarshalBinary : list byte → res M;
}.

(** What the callers of the framing rely on. *)
Class MessageLaws (M : Type) `{Message M} : Prop :=
  unmarshal_marshal m b : MarshalBinary m = Ok b → UnmarshalBinary b = Ok m.

Section messages.
  Context {M : Type} `{Message M}.

(** [EncodeLV(w, v)] *)
Definition EncodeLV (v : M) : WriterM unit :=
  buf ← lift_res (MarshalBinary v);
  WriteLV buf.

(** [EncodeTLV(w, typ, v)] *)
Definition EncodeTLV (typ : byte) (v : M) : WriterM unit :=
  _ ← WriteType typ;
  EncodeLV v.

(** [DecodeLV(r, v)] *)
Definition DecodeLV : ReaderM M :=
  buf ← ReadLV;
  lift_res (UnmarshalBinary buf).

(** [DecodeTLV(r, v)] *)
Definition DecodeTLV : ReaderM (byte * M) :=
  typ ← ReadType;
  v ← DecodeLV;
  mret (typ, v).

End messages.

(** ** The encoded record *)

Definition frame (typ : byte) (buf : list byte) : list byte :=
  typ :: PutUint64 (u64 (len buf)) ++ buf.

Lemma Write_room b w : wr_room w = None → Write b w = (Ok tt, mkWriter (wr_out w ++ b) None).
Proof. intros Hr. unfold Write. by rewrite Hr. Qed.

Lemma WriteTLV_frame typ buf w :
  wr_room w = None → WriteTLV typ buf w = (Ok tt, mkWriter (wr_out w ++ frame typ buf) None).
Proof.
  intros Hr. unfold WriteTLV, WriteType, WriteLV, wrapping. gom_simpl.
  rewrite !Write_room by done. simpl. unfold frame. by rewrite <- !app_assoc.
Qed.

Lemma ReadFull_app bs rest n : n = len bs → ReadFull n (bs ++ rest) = (Ok bs, rest).
Proof.
  intros ->. unfold ReadFull. rewrite len_app. pose proof (len_nonneg rest). zbool.
  by rewrite to_nat_len, take_app_length, drop_app_length.
Qed.

Lemma ReadLV_frame buf rest :
  len buf < MaxMessageSize →
  ReadLV (PutUint64 (u64 (len buf)) ++ buf ++ rest) = (Ok buf, rest).
Proof.
  intros Hl. unfold ReadLV, ReadInt64, wrapping. gom_simpl.
  pose proof (len_nonneg buf). unfold MaxMessageSize in *.
  rewrite ReadFull_app by by rewrite PutUint64_len.
  rewrite Uint64_PutUint64, (u64_small (len buf)), i64_u64_small by lia. zbool.
  by rewrite ReadFull_app.
Qed.

Lemma ReadType_cons typ rest : ReadType (typ :: rest) = (Ok typ, rest).
Proof.
  unfold ReadType, wrapping. gom_simpl.
  change (typ :: rest) with ([typ] ++ rest). by rewrite ReadFull_app.
Qed.

Lemma ReadTLV_frame typ buf rest :
  len buf < MaxMessageSize → ReadTLV (frame typ buf ++ rest) = (Ok (typ, buf), rest).
Proof.
  intros Hl. unfold ReadTLV, frame. gom_simpl. rewrite <- app_comm_cons, ReadType_cons.
  by rewrite <- app_assoc, ReadLV_frame.
Qed.

(** Reading [n] records. *)
Fixpoint ReadTLVs (n : nat) : ReaderM (list (byte * list byte)) :=
  match n with
  | O => mret []
  | S n' => r ← ReadTLV; rs ← ReadTLVs n'; mret (r :: rs)
  end.

Lemma ReadFull_short n r : len r < n → ∃ e, ReadFull n r = (Err e, []).
Proof. intros. unfold ReadFull. zbool. eauto. Qed.

Lemma ReadLV_short buf p :
  len buf < MaxMessageSize → p `prefix_of` PutUint64 (u64 (len buf)) ++ buf →
  len p < 8 + len buf → ∃ e r, ReadLV p = (Err e, r).
Proof.
  intros Hl [q Hq] Hp. unfold ReadLV, ReadInt64, wrapping. gom_simpl.
  destruct (Z.ltb_spec (len p) 8) as [H8|H8].
  - destruct (ReadFull_short 8 p H8) as [e ->]. eauto.
  - assert (Hpre : PutUint64 (u64 (len buf)) `prefix_of` p).
    { apply (f_equal (take 8)) in Hq as Ht. rewrite take_app_exact in Ht by by rewrite PutUint64_length.
      rewrite take_app_le in Ht by (unfold len in *; lia). rewrite Ht. apply prefix_take. }
    destruct Hpre as [v ->]. rewrite ReadFull_app by by rewrite PutUint64_len.
    rewrite len_app, PutUint64_len in Hp. pose proof (len_nonneg v). pose proof (len_nonneg buf).
    unfold MaxMessageSize in *.
    rewrite Uint64_PutUint64, (u64_small (len buf)), i64_u64_small by lia. zbool.
    destruct (ReadFull_short (len buf) v) as [e ->]; [lia|]. eauto.
Qed.

Lemma frame_len typ buf : len (frame typ buf) = 9 + len buf.
Proof. unfold frame. autorewrite with golen. rewrite ?PutUint64_len. lia. Qed.

(** The stream of a sequence of records. *)
Fixpoint frames (records : list (byte * list byte)) : list byte :=
  match records with
  | [] => []
  | r :: records' => frame r.1 r.2 ++ frames records'
  end.

(** ** Properties *)

(** C19. What is written is read back: after writing any sequence of records
    below the size limit to a healthy connection, the reader gets the same
    sequence and is left with the rest of the stream. *)
Theorem tlv_roundtrip records rest :
  Forall (λ r, len r.2 < MaxMessageSize) records →
  ∃ out, for_each records (λ r, WriteTLV r.1 r.2) (mkWriter [] None) = (Ok tt, mkWriter out None) ∧
    ReadTLVs (length records) (out ++ rest) = (Ok records, rest).
Proof.
  intros Hall.
  enough (∀ pre, for_each records (λ r, WriteTLV r.1 r.2) (mkWriter pre None) =
      (Ok tt, mkWriter (pre ++ frames records) None) ∧
    ReadTLVs (length records) (frames records ++ rest) = (Ok records, rest)) as Hg.
  { destruct (Hg []) as [H1 H2]. eauto. }
  induction Hall as [|[typ buf] records Hr Hall IH]; intros pre.
  - simpl. by rewrite app_nil_r.
  - cbn [for_each length ReadTLVs frames]. gom_simpl. cbn [fst snd]. split.
    + rewrite WriteTLV_frame by done. cbn [wr_out].
      destruct (IH (pre ++ frame typ buf)) as [-> _]. by rewrite <- app_assoc.
    + cbn [fst snd]. rewrite <- app_assoc, ReadTLV_frame by done.
      by destruct (IH []) as [_ ->].
Qed.

Lemma tlv_roundtrip_witness :
  ∃ out, for_each [(x01, [x61; x62]); (x02, [])] (λ r, WriteTLV r.1 r.2) (mkWriter [] None) =
      (Ok tt, mkWriter out None) ∧
    ReadTLVs 2 (out ++ [x07]) = (Ok [(x01, [x61; x62]); (x02, [])], [x07]).
Proof.
  apply (tlv_roundtrip [(x01, [x61; x62]); (x02, [])] [x07]).
  repeat constructor.
Defined.

(** A truncated record is never taken for a message: reading any proper
    prefix of a record returns an error. *)
Theorem tlv_truncated typ buf p :
  len buf < MaxMessageSize → p `prefix_of` frame typ buf → p ≠ frame typ buf →
  ∃ e r, ReadTLV p = (Err e, r).
Proof.
  intros Hl Hp Hne. unfold ReadTLV. gom_simpl. destruct p as [|b p].
  - eexists _, _. reflexivity.
  - assert (Hlen : len (b :: p) < 9 + len buf).
    { rewrite <- (frame_len typ buf). destruct Hp as [q Hq]. rewrite Hq, len_app.
      destruct q as [|x q]; [by rewrite app_nil_r in Hq|]. rewrite !len_cons.
      pose proof (len_nonneg q). lia. }
    unfold frame in Hp. apply prefix_cons_inv_1 in Hp as Hb. apply prefix_cons_inv_2 in Hp.
    subst b. rewrite ReadType_cons. rewrite len_cons in Hlen.
    destruct (ReadLV_short buf p Hl Hp) as (e & r & ->); [lia|]. eauto.
Qed.

Lemma tlv_truncated_witness : ∃ e r, ReadTLV [x01; x00; x00] = (Err e, r).
Proof.
  apply (tlv_truncated x01 [x61; x62] [x01; x00; x00]).
  - vm_compute. reflexivity.
  - exists [x00; x00; x00; x00; x00; x02; x61; x62]. vm_compute. reflexivity.
  - vm_compute. discriminate.
Defined.

(** The sizes the reader meets: a size of a gigabyte or more, which the
    writer does not refuse, is an error; a size with the top bit set crashes
    the reader, because it is read as a negative length. *)
Theorem tlv_size_limits typ z rest :
  0 ≤ z < 2 ^ 64 →
  (MaxMessageSize ≤ z < 2 ^ 63 →
     ReadTLV (typ :: PutUint64 z ++ rest) = (Err (errorf "max message size exceeded"), rest)) ∧
  (2 ^ 63 ≤ z → ReadTLV (typ :: PutUint64 z ++ rest) = (Panics, rest)).
Proof.
  intros Hz. unfold ReadTLV. gom_simpl. rewrite ReadType_cons.
  unfold ReadLV, ReadInt64, wrapping. gom_simpl.
  rewrite ReadFull_app by by rewrite PutUint64_len. rewrite Uint64_PutUint64, u64_small by done.
  unfold MaxMessageSize. split; intros Hs.
  - rewrite i64_small by lia. by zbool.
  - assert (i64 z = z - 2 ^ 64) as ->.
    { unfold i64. rewrite <- (Z_mod_plus_full (z + 2 ^ 63) (-1) (2 ^ 64)), Z.mod_small; lia. }
    by zbool.
Qed.

Lemma tlv_size_limits_witness :
  (MaxMessageSize ≤ 2 ^ 31 < 2 ^ 63 → ReadTLV (x01 :: PutUint64 (2 ^ 31) ++ [x00]) =
     (Err (errorf "max message size exceeded"), [x00])) ∧
  (2 ^ 63 ≤ 2 ^ 31 → ReadTLV (x01 :: PutUint64 (2 ^ 31) ++ [x00]) = (Panics, [x00])).
Proof. apply (tlv_size_limits x01 (2 ^ 31) [x00]). vm_compute. split; congruence. Defined.

(** A message that is encoded to a healthy connection is decoded to itself
    with its type, whatever follows it in the stream. *)
Theorem tlv_message_roundtrip {M} `{MessageLaws M} typ (m : M) b rest :
  MarshalBinary m = Ok b → len b < MaxMessageSize →
  EncodeTLV typ m (mkWriter [] None) = (Ok tt, mkWriter (frame typ b) None) ∧
  DecodeTLV (frame typ b ++ rest) = (Ok (typ, m), rest).
Proof.
  intros Hm Hl. split.
  - unfold EncodeTLV, EncodeLV. gom_simpl.
    pose proof (WriteTLV_frame typ b (mkWriter [] None) eq_refl) as Hw.
    unfold WriteTLV in Hw. gom_simpl. destruct (WriteType typ _) as [[]]; try done. by rewrite Hm.
  - pose proof (ReadTLV_frame typ b rest Hl) as Hr. unfold ReadTLV, DecodeTLV, DecodeLV in *.
    gom_simpl. destruct (ReadType _) as [[]]; try done. destruct (ReadLV _) as [[]]; simplify_eq.
    by rewrite (unmarshal_marshal _ _ Hm).
Qed.

(** Byte strings as messages. *)
Definition raw_message : Message (list byte) :=
  {| MarshalBinary b := Ok b; UnmarshalBinary b := Ok b |}.

Lemma raw_message_laws : @MessageLaws (list byte) raw_message.
Proof. intros m b [= ->]. done. Qed.

Lemma tlv_message_roundtrip_witness :
  EncodeTLV (H := raw_message) x03 [x61] (mkWriter [] None) =
    (Ok tt, mkWriter (frame x03 [x61]) None) ∧
  DecodeTLV (H := raw_message) (frame x03 [x61] ++ [x00]) = (Ok (x03, [x61]), [x00]).
Proof.
  apply (@tlv_message_roundtrip (list byte) raw_message raw_message_laws x03 [x61] [x61] [x00]);
    [reflexivity|vm_compute; reflexivity].
Defined.
