(* ===== verification/Segment.v ===== *)
(** * A segment of the hinted handoff queue (hh/queue.go, type segment)

    One file: length-prefixed blocks followed by an 8-byte footer that holds
    the offset of the current block.  The operations are the source's; the
    refinement lemmas relate them to a pair of lists, the blocks already
    consumed and the blocks still to be read. *)

From Stdlib Require Import ZArith Lia.
From Stdlib Require Import Strings.Byte.
From stdpp Require Import base list strings gmap.
From S2P Require Import Prelude GoLib.
Import BigEndian os.

Local Open Scope Z_scope.

Definition footerSize : Z := 8.

Record segment : Type := mkSegment {
  s_size : Z;
  s_file : option File;
  s_path : path;
  s_pos : Z;
  s_currentSize : Z;
  s_maxSize : Z;
}.

Definition set_size (z : Z) (s : segment) : segment :=
  mkSegment z (s_file s) (s_path s) (s_pos s) (s_currentSize s) (s_maxSize s).
Definition set_file (f : option File) (s : segment) : segment :=
  mkSegment (s_size s) f (s_path s) (s_pos s) (s_currentSize s) (s_maxSize s).
Definition set_pos (z : Z) (s : segment) : segment :=
  mkSegment (s_size s) (s_file s) (s_path s) z (s_currentSize s) (s_maxSize s).
Definition set_currentSize (z : Z) (s : segment) : segment :=
  mkSegment (s_size s) (s_file s) (s_path s) (s_pos s) z (s_maxSize s).
Definition set_maxSize (z : Z) (s : segment) : segment :=
  mkSegment (s_size s) (s_file s) (s_path s) (s_pos s) (s_currentSize s) z.

(** The state a segment method works on: the disk and the receiver. *)
Abbreviation SegM := (GoM (world * segment)).

Definition upd (f : segment → segment) : SegM unit := modify (λ ws, (ws.1, f ws.2)).

(** A call on the disk alone. *)
Definition onWorld {A} (m : GoM world A) : SegM A := zoom fst (λ w ws, (w, ws.2)) m.

(** A method of a nil [*os.File] returns [os.ErrInvalid]. *)
Definition ErrInvalid : error := errorf "invalid argument".

(** ** File primitives of the segment *)

Definition seek (pos : Z) : SegM unit := λ '(w, s),
  match s_file s with
  | None => (Err ErrInvalid, (w, s))
  | Some f =>
      match SeekSet f pos with
      | Ok (n, f') =>
          if n =? pos then (Ok tt, (w, set_file (Some f') s))
          else (Err (errorf "bad seek"), (w, set_file (Some f') s))
      | Err e => (Err e, (w, s))
      | Panics => (Panics, (w, s))
      end
  end.

Definition seekToCurrent : SegM unit := λ '(w, s), seek (s_pos s) (w, s).

Definition seekEnd (pos : Z) : SegM unit := λ '(w, s),
  match s_file s with
  | None => (Err ErrInvalid, (w, s))
  | Some f =>
      match SeekEnd f pos w with
      | Ok (_, f') => (Ok tt, (w, set_file (Some f') s))
      | Err e => (Err e, (w, s))
      | Panics => (Panics, (w, s))
      end
  end.

Definition filePos (s : segment) : Z :=
  match s_file s with Some f => f_off f | None => 0 end.

(** [readBytes(b)] with [len(b) = n]. *)
Definition readBytes (n : Z) : SegM (list byte) := λ '(w, s),
  match s_file s with
  | None => (Err ErrInvalid, (w, s))
  | Some f =>
      match Read f n w with
      | Ok (bs, f') =>
          if len bs =? n then (Ok bs, (w, set_file (Some f') s))
          else (Err (errorf "bad read"), (w, set_file (Some f') s))
      | Err e => (Err e, (w, s))
      | Panics => (Panics, (w, s))
      end
  end.

Definition readUint64 : SegM Z := bs ← readBytes 8; mret (Uint64 bs).

Definition writeBytes (b : list byte) : SegM unit := λ '(w, s),
  match s_file s with
  | None => (Err ErrInvalid, (w, s))
  | Some f =>
      match Write f b w with
      | Ok (n, f', w') =>
          if n =? len b then (Ok tt, (w', set_file (Some f') s))
          else (Err (errorf "short write"), (w', set_file (Some f') s))
      | Err e => (Err e, (w, s))
      | Panics => (Panics, (w, s))
      end
  end.

Definition writeUint64 (sz : Z) : SegM unit := writeBytes (PutUint64 sz).

(** [file.Sync]: the model's writes are already durable; a nil file fails. *)
Definition fileSync : SegM unit := λ '(w, s),
  match s_file s with
  | None => (Err ErrInvalid, (w, s))
  | Some _ => (Ok tt, (w, s))
  end.

(** ** Methods *)

(** [open]: a new segment gets its footer, an existing one is positioned on
    its current block. *)
Definition open : SegM unit :=
  l ← gets snd;
  if s_size l =? 0 then
    _ ← upd (λ s, set_currentSize 0 (set_pos 0 s));
    _ ← writeUint64 (u64 0);
    _ ← fileSync;
    upd (set_size footerSize)
  else
    _ ← seekEnd (- footerSize);
    pos ← readUint64;
    _ ← upd (set_pos (i64 pos));
    _ ← seekToCurrent;
    l ← gets snd;
    if s_pos l <? s_size l - footerSize then
      currentSize ← readUint64;
      upd (set_currentSize (i64 currentSize))
    else mret tt.

(** [s.open()] on a fresh segment: the segment on success. *)
Definition opened (s : segment) : GoM world segment := λ w,
  match open (w, s) with
  | (Ok _, (w', s')) => (Ok s', w')
  | (Err e, (w', _)) => (Err e, w')
  | (Panics, (w', _)) => (Panics, w')
  end.

(** [newSegment(path, maxSize)] *)
Definition newSegment (p : path) (maxSize : Z) : GoM world segment :=
  f ← OpenFile p;
  stats ← Stat p;
  opened (mkSegment stats.1 (Some f) p 0 0 maxSize).

(** [append(b)] *)
Definition seg_append (b : list byte) : SegM unit :=
  l ← gets snd;
  match s_file l with
  | None => throw ErrNotOpen
  | Some _ =>
      if s_maxSize l <? i64 (s_size l + len b) then throw ErrSegmentFull
      else
        _ ← seekEnd (- footerSize);
        _ ← writeUint64 (u64 (len b));
        _ ← writeBytes b;
        _ ← writeUint64 (u64 (s_pos l));
        _ ← fileSync;
        _ ← upd (λ s, if s_currentSize s =? 0 then set_currentSize (len b) s else s);
        upd (λ s, set_size (i64 (s_size s + (len b + 8))) s)
  end.

(** [current()] *)
Definition current : SegM (list byte) :=
  l ← gets snd;
  if s_pos l =? s_size l - 8 then throw EOF
  else
    _ ← seekToCurrent;
    sz ← readUint64;
    _ ← upd (set_currentSize (i64 sz));
    if s_maxSize l <? i64 sz then throw (errorf "record size out of range")
    else if 2 ^ 63 <=? sz then panic   (* make([]byte, sz) *)
    else readBytes sz.

(** [advance()] *)
Definition advance : SegM unit :=
  l ← gets snd;
  match s_file l with
  | None => throw ErrNotOpen
  | Some _ =>
      if s_pos l =? s_size l - footerSize then
        _ ← upd (set_currentSize 0);
        throw EOF
      else
        _ ← seekEnd (- footerSize);
        let pos := i64 (s_pos l + s_currentSize l + 8) in
        _ ← writeUint64 (u64 pos);
        _ ← fileSync;
        _ ← upd (set_pos pos);
        _ ← seekToCurrent;
        sz ← readUint64;
        _ ← upd (set_currentSize (i64 sz));
        l ← gets snd;
        if s_pos l =? s_size l - footerSize then
          _ ← upd (set_currentSize 0);
          throw EOF
        else mret tt
  end.

(** [close()]: closing a nil file is an error. *)
Definition close : SegM unit :=
  l ← gets snd;
  match s_file l with
  | None => throw ErrInvalid
  | Some _ => upd (set_file None)
  end.

(** [lastModified()]: [l.file.Name()] dereferences the file. *)
Definition lastModified : SegM Z :=
  l ← gets snd;
  match s_file l with
  | None => panic
  | Some f => st ← onWorld (Stat (f_path f)); mret st.2
  end.

Definition diskUsage (s : segment) : Z := s_size s.

Definition SetMaxSegmentSize (size : Z) (s : segment) : segment := set_maxSize size s.

(** ** The blocks of a segment *)

Definition enc (r : list byte) : list byte := PutUint64 (len r) ++ r.
Definition enc_all (rs : list (list byte)) : list byte := rs ≫= enc.

Definition file_bytes (dn pd : list (list byte)) : list byte :=
  enc_all dn ++ enc_all pd ++ PutUint64 (len (enc_all dn)).

Definition head_len (pd : list (list byte)) : Z :=
  match pd with [] => 0 | r :: _ => len r end.

(** [seg_repr w s dn pd]: segment [s] on disk [w] has consumed the blocks [dn]
    and still holds the blocks [pd]; no pending block is empty, because a zero
    [currentSize] is how the code records that nothing is pending. *)
Record seg_repr (w : world) (s : segment) (dn pd : list (list byte)) : Prop := {
  sr_file : ∃ off, s_file s = Some (mkFile (s_path s) off);
  sr_content : content w (s_path s) = Some (file_bytes dn pd);
  sr_pos : s_pos s = len (enc_all dn);
  sr_size : s_size s = len (file_bytes dn pd);
  sr_current : s_currentSize s = head_len pd;
  sr_nonempty : Forall (λ r, 0 < len r) pd;
  sr_bound : s_size s < 2 ^ 62;
}.

Lemma enc_len r : len (enc r) = 8 + len r.
Proof. unfold enc. by autorewrite with golen. Qed.

Lemma enc_all_app a b : enc_all (a ++ b) = enc_all a ++ enc_all b.
Proof. apply bind_app. Qed.

Lemma enc_all_cons r a : enc_all (r :: a) = enc r ++ enc_all a.
Proof. done. Qed.

Lemma enc_all_snoc a r : enc_all (a ++ [r]) = enc_all a ++ enc r.
Proof. rewrite enc_all_app, enc_all_cons. unfold enc_all. simpl. by rewrite app_nil_r. Qed.

Lemma file_bytes_len dn pd :
  len (file_bytes dn pd) = len (enc_all dn) + len (enc_all pd) + 8.
Proof. unfold file_bytes. autorewrite with golen. lia. Qed.

Lemma file_bytes_cons dn r pd :
  file_bytes dn (r :: pd) =
    enc_all dn ++ PutUint64 (len r) ++ r ++ enc_all pd ++ PutUint64 (len (enc_all dn)).
Proof. unfold file_bytes. rewrite enc_all_cons. unfold enc. by rewrite <- !app_assoc. Qed.

(** ** Evaluation of the file primitives *)

Section eval.
  Context (w : world) (s : segment) (p : path) (off : Z).
  Context (Hf : s_file s = Some (mkFile p off)).

Lemma seek_eval pos :
  0 ≤ pos → seek pos (w, s) = (Ok tt, (w, set_file (Some (mkFile p pos)) s)).
Proof. intros. unfold seek, SeekSet. rewrite Hf. zbool. done. Qed.

Lemma seekToCurrent_eval :
  0 ≤ s_pos s → seekToCurrent (w, s) = (Ok tt, (w, set_file (Some (mkFile p (s_pos s))) s)).
Proof. apply seek_eval. Qed.

Lemma seekEnd_eval c d :
  content w p = Some c → 0 ≤ len c + d →
  seekEnd d (w, s) = (Ok tt, (w, set_file (Some (mkFile p (len c + d))) s)).
Proof. intros Hc ?. unfold seekEnd, SeekEnd, SeekSet. rewrite Hf. simpl. rewrite Hc. by zbool. Qed.

Lemma readBytes_eval pre bs post :
  content w p = Some (pre ++ bs ++ post) → off = len pre →
  readBytes (len bs) (w, s) =
    (Ok bs, (w, set_file (Some (mkFile p (off + len bs))) s)).
Proof.
  intros Hc ->. unfold readBytes, Read. rewrite Hf. simpl. rewrite Hc.
  destruct (Z.eqb_spec (len bs) 0) as [E|E].
  - destruct bs; [|rewrite len_cons in E; pose proof (len_nonneg bs); lia].
    simpl. by rewrite Z.add_0_r.
  - rewrite !len_app. pose proof (len_nonneg pre). pose proof (len_nonneg bs).
    pose proof (len_nonneg post). zbool.
    rewrite !to_nat_len, drop_app_length, take_app_length. by rewrite ?Z.eqb_refl.
Qed.

Lemma readUint64_eval pre z post :
  content w p = Some (pre ++ PutUint64 z ++ post) → off = len pre →
  readUint64 (w, s) = (Ok (u64 z), (w, set_file (Some (mkFile p (off + 8))) s)).
Proof.
  intros Hc Ho. unfold readUint64. gom_simpl.
  pose proof (readBytes_eval _ _ _ Hc Ho) as E. rewrite PutUint64_len in E.
  rewrite E. by rewrite Uint64_PutUint64.
Qed.

Lemma readUint64_last pre z :
  content w p = Some (pre ++ PutUint64 z) → off = len pre →
  readUint64 (w, s) = (Ok (u64 z), (w, set_file (Some (mkFile p (off + 8))) s)).
Proof. intros Hc Ho. eapply (readUint64_eval _ _ []); [|done]. by rewrite app_nil_r. Qed.

Lemma writeBytes_eval c t bs :
  content w p = Some (c ++ t) → off = len c → (length t ≤ length bs)%nat →
  writeBytes bs (w, s) =
    (Ok tt, (set_entry w p (RegularFile (c ++ bs) (w_now w)),
             set_file (Some (mkFile p (off + len bs))) s)).
Proof.
  intros Hc -> Ht. unfold writeBytes, Write. rewrite Hf. simpl. rewrite Hc, Z.eqb_refl.
  by rewrite to_nat_len, splice_tail.
Qed.

End eval.

Lemma set_file_twice f f' s : set_file f (set_file f' s) = set_file f s.
Proof. done. Qed.

(** Writing [bs] over the footer, then [bs'] behind it. *)
Lemma set_entry_content w p c m c' :
  content w p = Some c → content (set_entry w p (RegularFile c' m)) p = Some c'.
Proof. intros H. destruct (content_dir _ _ _ H). by eapply content_set_entry_eq. Qed.

(** A write over the last bytes of the file, and a write at its end. *)
Lemma write_over w s p off c t bs :
  content w p = Some (c ++ t) → off = len c → (length t ≤ length bs)%nat →
  writeBytes bs (w, set_file (Some (mkFile p off)) s) =
    (Ok tt, (set_entry w p (RegularFile (c ++ bs) (w_now w)),
             set_file (Some (mkFile p (off + len bs))) s)).
Proof. intros. by erewrite writeBytes_eval. Qed.

Lemma write_end w s p off c bs :
  content w p = Some c → off = len c →
  writeBytes bs (w, set_file (Some (mkFile p off)) s) =
    (Ok tt, (set_entry w p (RegularFile (c ++ bs) (w_now w)),
             set_file (Some (mkFile p (off + len bs))) s)).
Proof. intros Hc ->. eapply write_over; [|done|]; [by rewrite app_nil_r|simpl; lia]. Qed.

(** ** Append *)

Lemma seg_append_closed b w s :
  s_file s = None → seg_append b (w, s) = (Err ErrNotOpen, (w, s)).
Proof. intros H. unfold seg_append. gom_simpl. simpl. by rewrite H. Qed.

Lemma seg_append_full b w s f :
  s_file s = Some f → s_maxSize s < i64 (s_size s + len b) →
  seg_append b (w, s) = (Err ErrSegmentFull, (w, s)).
Proof. intros H ?. unfold seg_append. gom_simpl. simpl. rewrite H. by zbool. Qed.

(** The segment and the file after a successful append. *)
Definition appended (b : list byte) (s : segment) : segment :=
  let cur := if s_currentSize s =? 0 then len b else s_currentSize s in
  mkSegment (s_size s + (len b + 8))
    (Some (mkFile (s_path s) (s_size s + (len b + 8)))) (s_path s) (s_pos s) cur (s_maxSize s).

Lemma seg_append_ok b w s dn pd :
  seg_repr w s dn pd →
  s_size s + len b ≤ s_maxSize s → len b < 2 ^ 61 →
  seg_append b (w, s) =
    (Ok tt, (set_entry w (s_path s) (RegularFile (file_bytes dn (pd ++ [b])) (w_now w)),
             appended b s)).
Proof.
  intros [[off Hf] Hc Hp Hs Hcur _ Hb] Hfit Hlen.
  pose proof (len_nonneg b). pose proof (len_nonneg (enc_all dn)).
  pose proof (len_nonneg (enc_all pd)). rewrite file_bytes_len in Hs.
  unfold seg_append. gom_simpl. simpl. rewrite Hf.
  rewrite i64_small by lia. zbool.
  erewrite seekEnd_eval by (done || (rewrite file_bytes_len; unfold footerSize; lia)).
  unfold writeUint64.
  unfold file_bytes in Hc. rewrite app_assoc in Hc.
  rewrite (write_over _ _ _ _ _ _ _ Hc) by
    (rewrite ?file_bytes_len, ?len_app, ?PutUint64_length; unfold footerSize; lia).
  rewrite (write_end _ _ _ _ _ _ (set_entry_content _ _ _ _ _ Hc)) by
    (rewrite ?file_bytes_len, !len_app, ?PutUint64_len; unfold footerSize; lia).
  erewrite write_end by first
    [ eapply set_entry_content, set_entry_content, Hc
    | rewrite ?file_bytes_len, !len_app, ?PutUint64_len; unfold footerSize; lia ].
  cbn beta iota zeta delta [fileSync upd modify fst snd s_file set_file s_currentSize s_size
    set_size set_currentSize s_path s_pos s_maxSize].
  rewrite !set_entry_twice, !set_entry_now.
  replace (len (file_bytes dn pd) + - footerSize + len (PutUint64 (u64 (len b))) + len b +
    len (PutUint64 (u64 (s_pos s)))) with (s_size s + (len b + 8))
    by (rewrite file_bytes_len, !PutUint64_len; unfold footerSize; lia).
  rewrite !u64_small by lia.
  assert ((((enc_all dn ++ enc_all pd) ++ PutUint64 (len b)) ++ b) ++ PutUint64 (s_pos s)
          = file_bytes dn (pd ++ [b])) as ->.
  { unfold file_bytes. rewrite enc_all_snoc, Hp. unfold enc. by rewrite <- !app_assoc. }
  unfold upd, modify, appended. destruct s as [z f p pos cur mx]. simpl in *.
  destruct (cur =? 0); simpl; by rewrite i64_small by lia.
Qed.

Lemma appended_repr b w s dn pd :
  seg_repr w s dn pd → 0 < len b → s_size s + len b + 8 < 2 ^ 62 →
  seg_repr (set_entry w (s_path s) (RegularFile (file_bytes dn (pd ++ [b])) (w_now w)))
    (appended b s) dn (pd ++ [b]).
Proof.
  intros [[off Hf] Hc Hp Hs Hcur Hne Hb] Hpos Hbd. pose proof (len_nonneg (enc_all pd)).
  split; simpl.
  - eauto.
  - eapply set_entry_content, Hc.
  - done.
  - rewrite file_bytes_len, enc_all_snoc, len_app, enc_len in *. lia.
  - rewrite Hcur. destruct pd as [|r pd]; simpl; [done|].
    apply Forall_cons_1 in Hne as [? _]. destruct (Z.eqb_spec (len r) 0); [lia|done].
  - apply Forall_app. auto.
  - lia.
Qed.

(** ** Current *)

Lemma current_empty w s dn : seg_repr w s dn [] → current (w, s) = (Err EOF, (w, s)).
Proof.
  intros [_ _ Hp Hs _ _ _]. unfold current. gom_simpl. simpl.
  rewrite file_bytes_len in Hs. change (enc_all []) with (@nil byte) in Hs.
  rewrite len_nil in Hs. by zbool.
Qed.

Lemma current_ok w s dn r pd :
  seg_repr w s dn (r :: pd) → len r ≤ s_maxSize s →
  ∃ off, current (w, s) = (Ok r, (w, set_file (Some (mkFile (s_path s) off)) s)).
Proof.
  intros [[off Hf] Hc Hp Hs Hcur Hne Hb] Hmax.
  pose proof (len_nonneg (enc_all dn)). pose proof (len_nonneg (enc_all pd)).
  pose proof (len_nonneg r).
  rewrite file_bytes_len, enc_all_cons, len_app, enc_len in Hs.
  unfold current. gom_simpl. simpl. zbool.
  rewrite (seekToCurrent_eval _ _ _ _ Hf) by lia. cbn beta iota.
  rewrite file_bytes_cons in Hc.
  erewrite readUint64_eval; [|simpl; done|exact Hc|done].
  rewrite i64_u64_small, u64_small by lia. zbool. cbn [fst snd].
  rewrite app_assoc in Hc.
  erewrite readBytes_eval; [|simpl; done|exact Hc|rewrite len_app, PutUint64_len; lia].
  eexists. destruct s; simpl in *. by subst.
Qed.

(** ** Advance *)

Lemma advance_empty w s dn :
  seg_repr w s dn [] → advance (w, s) = (Err EOF, (w, s)).
Proof.
  intros [[off Hf] _ Hp Hs Hcur _ _]. unfold advance. gom_simpl. simpl.
  rewrite Hf. rewrite file_bytes_len in Hs. change (enc_all []) with (@nil byte) in Hs.
  rewrite len_nil in Hs. unfold footerSize. zbool. destruct s; simpl in *. by subst.
Qed.

(** The segment after its head block [r] was consumed. *)
Definition advanced (r : list byte) (pd : list (list byte)) (s : segment) : segment :=
  let pos := s_pos s + len r + 8 in
  mkSegment (s_size s) (Some (mkFile (s_path s) (pos + 8))) (s_path s) pos (head_len pd)
    (s_maxSize s).

Lemma file_bytes_advance dn r pd :
  file_bytes (dn ++ [r]) pd =
    (enc_all dn ++ enc r ++ enc_all pd) ++ PutUint64 (len (enc_all dn) + len r + 8).
Proof.
  unfold file_bytes. rewrite enc_all_snoc, len_app, enc_len, <- !app_assoc.
  do 4 f_equal. lia.
Qed.

Lemma advance_eval w s dn r pd :
  seg_repr w s dn (r :: pd) →
  advance (w, s) =
    (match pd with [] => Err EOF | _ => Ok tt end,
     (set_entry w (s_path s) (RegularFile (file_bytes (dn ++ [r]) pd) (w_now w)),
      advanced r pd s)).
Proof.
  intros [[off Hf] Hc Hp Hs Hcur Hne Hb].
  pose proof (len_nonneg (enc_all dn)). pose proof (len_nonneg (enc_all pd)).
  pose proof (len_nonneg r). pose proof Hs as Hs'.
  rewrite file_bytes_len, enc_all_cons, len_app, enc_len in Hs.
  unfold advance. gom_simpl. simpl. rewrite Hf. unfold footerSize. zbool.
  simpl in Hcur. rewrite Hcur.
  erewrite seekEnd_eval by (done || (rewrite <- Hs'; lia)).
  rewrite i64_small, u64_small by lia. unfold writeUint64.
  unfold file_bytes in Hc. rewrite enc_all_cons, app_assoc in Hc.
  rewrite (write_over _ _ _ _ _ _ _ Hc).
  2: { rewrite <- Hs', !len_app, enc_len. lia. }
  2: { by rewrite !PutUint64_length. }
  rewrite Hp, <- file_bytes_advance. cbn [fileSync s_file set_file fst snd].
  unfold SeekSet. zbool. cbn beta iota.
  pose proof (set_entry_content _ _ _ (w_now w) (file_bytes (dn ++ [r]) pd) Hc) as Hc'.
  assert (∃ z post, file_bytes (dn ++ [r]) pd = enc_all (dn ++ [r]) ++ PutUint64 z ++ post ∧
    (pd ≠ [] → z = head_len pd)) as (z & post & Hfb & Hz).
  { destruct pd as [|r' pd].
    - exists (len (enc_all (dn ++ [r]))), []. rewrite app_nil_r. split; [done|congruence].
    - rewrite file_bytes_cons. eauto. }
  rewrite Hfb in Hc' |- *.
  erewrite readUint64_eval; [|simpl; done|exact Hc'|rewrite enc_all_snoc, len_app, enc_len; lia].
  cbn [fst snd s_pos s_size set_file set_pos set_currentSize].
  unfold advanced. destruct pd as [|r' pd].
  - change (enc_all []) with (@nil byte) in *. rewrite len_nil in *. zbool.
    destruct s; simpl in *. by subst.
  - rewrite Hz by done. rewrite enc_all_cons, len_app, enc_len in *.
    pose proof (len_nonneg r'). pose proof (len_nonneg (enc_all pd)). zbool.
    simpl head_len. rewrite i64_u64_small by lia. destruct s; simpl in *. by subst.
Qed.

Lemma advanced_repr w s dn r pd :
  seg_repr w s dn (r :: pd) →
  seg_repr (set_entry w (s_path s) (RegularFile (file_bytes (dn ++ [r]) pd) (w_now w)))
    (advanced r pd s) (dn ++ [r]) pd.
Proof.
  intros [[off Hf] Hc Hp Hs Hcur Hne Hb]. split; simpl.
  - eauto.
  - eapply set_entry_content, Hc.
  - rewrite enc_all_snoc, len_app, enc_len. lia.
  - rewrite !file_bytes_len, enc_all_snoc, enc_all_cons, !len_app, enc_len in *. lia.
  - done.
  - by apply Forall_cons_1 in Hne as [_ ?].
  - done.
Qed.

(** ** Opening and closing *)

Lemma seg_repr_frame w w' s dn pd :
  content w' (s_path s) = content w (s_path s) →
  seg_repr w s dn pd → seg_repr w' s dn pd.
Proof. intros E [???????]. split; try done. congruence. Qed.

Lemma seg_repr_set_file w s dn pd off :
  seg_repr w s dn pd → seg_repr w (set_file (Some (mkFile (s_path s) off)) s) dn pd.
Proof. intros [???????]. split; simpl; eauto. Qed.

Lemma seg_repr_set_maxSize w s dn pd z :
  seg_repr w s dn pd → seg_repr w (set_maxSize z s) dn pd.
Proof. intros [???????]. split; simpl; eauto. Qed.

Lemma newSegment_existing w p max dn pd :
  content w p = Some (file_bytes dn pd) →
  Forall (λ r, 0 < len r) pd → len (file_bytes dn pd) < 2 ^ 62 →
  ∃ s, newSegment p max w = (Ok s, w) ∧ seg_repr w s dn pd ∧
       s_path s = p ∧ s_maxSize s = max.
Proof.
  intros Hc Hne Hb.
  pose proof (len_nonneg (enc_all dn)). pose proof (len_nonneg (enc_all pd)).
  pose proof (file_bytes_len dn pd) as Hl.
  unfold newSegment, OpenFile, Stat. gom_simpl. unfold content in Hc.
  destruct (entry w p) as [[c m|]|] eqn:He; try done. injection Hc as ->.
  pose proof He as He'. unfold entry in He'.
  destruct (w_dirs w !! p_dir p) as [d|]; [|done]. simpl in He'. rewrite He', He.
  cbn [fst snd]. unfold opened, open. gom_simpl. cbn [fst snd s_size]. zbool.
  assert (Hc : content w p = Some (file_bytes dn pd)) by (unfold content; by rewrite He).
  erewrite seekEnd_eval; [|done|exact Hc|unfold footerSize; lia].
  unfold file_bytes in Hc at 1. rewrite app_assoc in Hc.
  erewrite readUint64_last; [|done|exact Hc|rewrite len_app; unfold footerSize; lia].
  rewrite i64_u64_small by lia. cbn [upd modify fst snd].
  erewrite seekToCurrent_eval; [|simpl; done|simpl; lia].
  cbn [fst snd s_pos s_size set_file set_pos]. unfold footerSize.
  destruct pd as [|r pd].
  - change (enc_all []) with (@nil byte) in *. rewrite len_nil in *. zbool.
    eexists. split; [done|]. split; [|done]. split; simpl; eauto.
    by rewrite app_nil_r in Hc.
  - rewrite enc_all_cons, len_app, enc_len in *. pose proof (len_nonneg r).
    pose proof (len_nonneg (enc_all pd)). zbool.
    assert (Hc' : content w p = Some (file_bytes dn (r :: pd))) by (unfold content; by rewrite He).
    rewrite file_bytes_cons in Hc'.
    erewrite readUint64_eval; [|simpl; done|exact Hc'|done].
    cbn [upd modify fst snd]. rewrite i64_u64_small by lia.
    eexists. split; [done|]. split; [|done]. split; simpl; eauto.
    by rewrite <- file_bytes_cons in Hc'.
Qed.

Lemma newSegment_fresh w p max d :
  w_dirs w !! p_dir p = Some d → d !! p_name p = None →
  ∃ s, newSegment p max w =
         (Ok s, set_entry w p (RegularFile (PutUint64 0) (w_now w))) ∧
       seg_repr (set_entry w p (RegularFile (PutUint64 0) (w_now w))) s [] [] ∧
       s_path s = p ∧ s_maxSize s = max.
Proof.
  intros Hd Hn.
  unfold newSegment, OpenFile, Stat. gom_simpl. rewrite Hd, Hn.
  erewrite entry_set_entry_eq by done. cbn [fst snd].
  unfold opened, open. gom_simpl. cbn [fst snd s_size]. rewrite len_nil. zbool.
  unfold writeUint64. cbn [upd modify fst snd].
  erewrite (writeBytes_eval _ _ p 0) with (c := []) (t := []);
    [|done|by eapply content_set_entry_eq|done|simpl; lia].
  cbn [fileSync upd modify fst snd s_file set_file set_pos set_currentSize].
  rewrite set_entry_twice, set_entry_now.
  eexists. split; [done|]. split; [|done]. split; simpl; eauto.
  - by eapply content_set_entry_eq.
  - unfold footerSize. lia.
Qed.
