(* ===== verification/Queue.v ===== *)
(** * The hinted handoff queue (hh/queue.go, type queue)

    The queue owns segments through pointers: [segments], [head] and [tail]
    refer to the same heap cells, so the model keeps a heap of segments and
    pointers into it. *)

From Stdlib Require Import ZArith Lia.
From Stdlib Require Import Strings.Byte.
From stdpp Require Import base list strings gmap.
From S2P Require Import Prelude GoLib Segment.
Import BigEndian os strconv.

Local Open Scope Z_scope.

Definition defaultSegmentSize : Z := 10 * 1024 * 1024.

Record queue : Type := mkQueue {
  q_dir : string;
  q_head : option nat;
  q_tail : option nat;
  q_maxSegmentSize : Z;
  q_maxSize : Z;
  q_segments : option (list nat);   (* [None] is the nil slice *)
  q_heap : list segment;
}.

Definition set_head (h : option nat) (q : queue) : queue :=
  mkQueue (q_dir q) h (q_tail q) (q_maxSegmentSize q) (q_maxSize q) (q_segments q) (q_heap q).
Definition set_tail (t : option nat) (q : queue) : queue :=
  mkQueue (q_dir q) (q_head q) t (q_maxSegmentSize q) (q_maxSize q) (q_segments q) (q_heap q).
Definition set_maxSegmentSize (z : Z) (q : queue) : queue :=
  mkQueue (q_dir q) (q_head q) (q_tail q) z (q_maxSize q) (q_segments q) (q_heap q).
Definition set_segments (l : option (list nat)) (q : queue) : queue :=
  mkQueue (q_dir q) (q_head q) (q_tail q) (q_maxSegmentSize q) (q_maxSize q) l (q_heap q).
Definition set_heap (h : list segment) (q : queue) : queue :=
  mkQueue (q_dir q) (q_head q) (q_tail q) (q_maxSegmentSize q) (q_maxSize q) (q_segments q) h.

Abbreviation QM := (GoM (world * queue)).

Definition updq (f : queue → queue) : QM unit := modify (λ wq, (wq.1, f wq.2)).

Definition onDisk {A} (m : GoM world A) : QM A := zoom fst (λ w wq, (w, wq.2)) m.

(** A method call on the segment at pointer [i]; a nil or dangling pointer
    panics. *)
Definition onSeg {A} (i : nat) (m : SegM A) : QM A := λ '(w, q),
  match q_heap q !! i with
  | None => (Panics, (w, q))
  | Some s =>
      let '(r, (w', s')) := m (w, s) in
      (r, (w', set_heap (<[i := s']> (q_heap q)) q))
  end.

Definition onPtr {A} (p : option nat) (m : SegM A) : QM A :=
  match p with None => panic | Some i => onSeg i m end.

(** Allocate a segment. *)
Definition alloc (s : segment) : QM nat := λ '(w, q),
  (Ok (length (q_heap q)), (w, set_heap (q_heap q ++ [s]) q)).

Definition segs (q : queue) : list nat := default [] (q_segments q).

(** [newQueue(dir, maxSize)] *)
Definition newQueue (dir : string) (maxSize : Z) : queue :=
  mkQueue dir None None defaultSegmentSize maxSize (Some []) [].

(** The largest numeric file name, [0] when there is none. *)
Definition maxID (files : list (string * dirent)) : Z :=
  fold_left (λ m f,
    match f with
    | (_, SubDir) => m
    | (name, RegularFile _ _) =>
        match ParseUint name with
        | None => m
        | Some id => if m <? id then id else m
        end
    end) files 0.

(** [nextSegmentID()] *)
Definition nextSegmentID : QM Z :=
  q ← gets snd;
  files ← onDisk (ReadDir (q_dir q));
  mret (u64 (maxID files + 1)).

(** [addSegment()] *)
Definition addSegment : QM nat :=
  nextID ← nextSegmentID;
  q ← gets snd;
  s ← onDisk (newSegment (Path (q_dir q) (FormatUint nextID)) (q_maxSegmentSize q));
  i ← alloc s;
  _ ← updq (λ q, set_segments (Some (segs q ++ [i])) q);
  mret i.

(** [loadSegments()]: the numeric regular files in [ReadDir]'s order. *)
Fixpoint loadFiles (files : list (string * dirent)) : QM (list nat) :=
  match files with
  | [] => mret []
  | (_, SubDir) :: files' => loadFiles files'
  | (name, RegularFile _ _) :: files' =>
      match ParseUint name with
      | None => loadFiles files'
      | Some _ =>
          q ← gets snd;
          s ← onDisk (newSegment (Path (q_dir q) name) (q_maxSegmentSize q));
          i ← alloc s;
          rest ← loadFiles files';
          mret (i :: rest)
      end
  end.

Definition loadSegments : QM (list nat) :=
  q ← gets snd;
  files ← onDisk (ReadDir (q_dir q));
  loadFiles files.

(** [trimHead()] *)
Definition trimHead : QM unit :=
  q ← gets snd;
  match segs q with
  | _ :: i' :: rest =>
      _ ← updq (set_segments (Some (i' :: rest)));
      _ ← onPtr (q_head q) close;
      p ← onPtr (q_head q) (gets (λ ws, s_path ws.2));
      _ ← onDisk (Remove p);
      updq (set_head (Some i'))
  | _ => mret tt
  end.

(** [Open()] *)
Definition Open : QM unit :=
  segments ← loadSegments;
  _ ← updq (set_segments (Some segments));
  _ ← match segments with
      | [] => _ ← addSegment; mret tt
      | _ :: _ => mret tt
      end;
  _ ← updq (λ q, set_tail (last (segs q)) (set_head (head (segs q)) q));
  q ← gets snd;
  r ← attempt (onPtr (q_head q) current);
  match r with
  | inl EOF => trimHead
  | _ => mret tt
  end.

(** [Close()] *)
Definition Close : QM unit :=
  q ← gets snd;
  _ ← for_each (segs q) (λ i, onSeg i close);
  updq (λ q, set_segments None (set_tail None (set_head None q))).

(** [Remove()] *)
Definition RemoveQueue : QM unit :=
  q ← gets snd;
  match q_head q, q_tail q, q_segments q with
  | None, None, None => onDisk (RemoveAll (q_dir q))
  | _, _, _ => throw (errorf "queue is open")
  end.

(** [SetMaxSegmentSize(size)] *)
Definition SetMaxSegmentSizeQ (size : Z) : QM unit :=
  _ ← updq (set_maxSegmentSize size);
  q ← gets snd;
  _ ← for_each (segs q) (λ i, onSeg i (upd (SetMaxSegmentSize size)));
  q ← gets snd;
  usage ← onPtr (q_tail q) (gets (λ ws, diskUsage ws.2));
  if q_maxSegmentSize q <=? usage then
    segment ← addSegment;
    updq (set_tail (Some segment))
  else mret tt.

(** The loop of [PurgeOlderThan]; [None] means the fuel ran out. *)
Fixpoint purgeLoop (fuel : nat) (cutoff : Z) : QM (option unit) :=
  match fuel with
  | O => mret None
  | S fuel' =>
      q ← gets snd;
      modified ← onPtr (q_head q) lastModified;
      if cutoff <=? modified then mret (Some tt)
      else
        _ ← (match segs q with
             | [_] => _ ← addSegment; mret tt
             | _ => mret tt
             end);
        _ ← trimHead;
        purgeLoop fuel' cutoff
  end.

(** [PurgeOlderThan(when)] *)
Definition PurgeOlderThan (fuel : nat) (when : Z) : QM (option unit) :=
  q ← gets snd;
  match segs q with
  | [] => mret (Some tt)
  | _ => purgeLoop fuel (time.Truncate when time.Second)
  end.

(** [LastModified()]: the zero time when the queue is closed. *)
Definition LastModified : QM Z :=
  q ← gets snd;
  match q_tail q with
  | Some _ => onPtr (q_tail q) lastModified
  | None => mret (- time.zero_to_epoch)
  end.

(** [Position()]: printed positions of head and tail. *)
Definition pathString (p : path) : string := (p_dir p +:+ "/" +:+ p_name p)%string.

Definition Position (q : queue) : string * string :=
  let show (p : option nat) (pos : segment → Z) : string :=
    match p with
    | None => ""%string
    | Some i =>
        match q_heap q !! i with
        | Some s => (pathString (s_path s) +:+ ":" +:+ FormatInt (pos s))%string
        | None => ""%string
        end
    end in
  (show (q_head q) s_pos, show (q_tail q) filePos).

(** [diskUsage()] *)
Definition diskUsageQ (q : queue) : Z :=
  fold_left (λ size i,
    match q_heap q !! i with Some s => i64 (size + diskUsage s) | None => size end)
    (segs q) 0.

(** [Append(b)]: only [ErrSegmentFull] of the tail is looked at. *)
Definition Append (b : list byte) : QM unit :=
  q ← gets snd;
  match q_tail q with
  | None => throw ErrNotOpen
  | Some _ =>
      if q_maxSize q <? i64 (diskUsageQ q + len b) then throw ErrQueueFull
      else
        r ← attempt (onPtr (q_tail q) (seg_append b));
        match r with
        | inl ErrSegmentFull =>
            segment ← addSegment;
            _ ← updq (set_tail (Some segment));
            onSeg segment (seg_append b)
        | _ => mret tt
        end
  end.

(** [Current()] *)
Definition Current : QM (list byte) :=
  q ← gets snd;
  match q_head q with
  | None => throw ErrNotOpen
  | Some _ => onPtr (q_head q) current
  end.

(** [Advance()] *)
Definition Advance : QM unit :=
  q ← gets snd;
  match q_head q with
  | None => throw ErrNotOpen
  | Some _ =>
      r ← attempt (onPtr (q_head q) advance);
      match r with
      | inl EOF => trimHead
      | _ => mret tt
      end
  end.
