(* ===== verification/QueueSpec.v ===== *)
(** * The hinted handoff queue refines a first-in first-out queue

    [queue_repr w q ids pds] relates the disk [w] and the queue [q] to the
    pending blocks of each of its segments; the queue's abstract contents are
    their concatenation. *)

From Stdlib Require Import ZArith Lia.
From Stdlib Require Import Strings.Byte.
From S2P Require Import Prelude GoLib Segment Queue.
Import BigEndian os strconv.

Local Open Scope Z_scope.

(** ** Representation *)

Definition seg_at (w : world) (q : queue) (i : nat) (pd : list (list byte)) : Prop :=
  ∃ s dn, q_heap q !! i = Some s ∧ seg_repr w s dn pd ∧
          p_dir (s_path s) = q_dir q ∧ s_maxSize s = q_maxSegmentSize q.

(** Bytes on disk of the segments [ids]. *)
Definition usage (q : queue) (ids : list nat) : Z :=
  foldr (λ i acc, match q_heap q !! i with Some s => s_size s + acc | None => acc end) 0 ids.

Record queue_repr (w : world) (q : queue) (ids : list nat) (pds : list (list (list byte)))
    : Prop := {
  qr_segments : q_segments q = Some ids;
  qr_head : q_head q = head ids;
  qr_tail : q_tail q = last ids;
  qr_nonempty : ids ≠ [];
  qr_nodup : NoDup ids;
  qr_segs : Forall2 (seg_at w q) ids pds;
  qr_paths : ∀ i j si sj, i ∈ ids → j ∈ ids → q_heap q !! i = Some si →
    q_heap q !! j = Some sj → s_path si = s_path sj → i = j;
  qr_dir : ∃ d, w_dirs w !! q_dir q = Some d ∧ ∀ n, d !! n ≠ Some SubDir;
  qr_usage : usage q ids < 2 ^ 62;
}.

(** The segment numbers of the directory are below [N]; with
    [N = 2 ^ 64 - 1] there is a number left to use. *)
Definition ids_below (w : world) (dir : string) (N : Z) : Prop :=
  ∀ d n id, w_dirs w !! dir = Some d → is_Some (d !! n) →
    ParseUint n = Some id → id < N.

Definition ids_left (w : world) (dir : string) : Prop := ids_below w dir (2 ^ 64 - 1).

Lemma segs_eq q ids : q_segments q = Some ids → segs q = ids.
Proof. unfold segs. by intros ->. Qed.

(** ** Disk usage *)

Lemma seg_size_pos w s dn pd : seg_repr w s dn pd → 8 ≤ s_size s.
Proof.
  intros [_ _ _ Hs _ _ _]. rewrite file_bytes_len in Hs.
  pose proof (len_nonneg (enc_all dn)). pose proof (len_nonneg (enc_all pd)). lia.
Qed.

Lemma usage_nonneg w q ids pds : Forall2 (seg_at w q) ids pds → 0 ≤ usage q ids.
Proof.
  induction 1 as [|i pd ids pds (s & dn & Hi & Hr & _) _ IH]; simpl; [lia|].
  rewrite Hi. apply seg_size_pos in Hr. lia.
Qed.

Lemma usage_fold w q ids pds acc :
  Forall2 (seg_at w q) ids pds → 0 ≤ acc → acc + usage q ids < 2 ^ 62 →
  fold_left (λ size i,
    match q_heap q !! i with Some s => i64 (size + diskUsage s) | None => size end)
    ids acc = acc + usage q ids.
Proof.
  intros H. revert acc.
  induction H as [|i pd ids pds (s & dn & Hi & Hr & _) H IH]; intros acc Ha Hb; simpl in *; [lia|].
  rewrite Hi in *. pose proof (usage_nonneg _ _ _ _ H). apply seg_size_pos in Hr.
  unfold diskUsage at 2. rewrite i64_small by lia. rewrite IH by lia. lia.
Qed.

Lemma diskUsageQ_usage w q ids pds :
  queue_repr w q ids pds → diskUsageQ q = usage q ids.
Proof.
  intros [Hs _ _ _ _ Hf _ _ Hu]. unfold diskUsageQ, segs. rewrite Hs. simpl.
  by erewrite usage_fold by (done || lia).
Qed.

(** ** Replacing one segment *)

Lemma usage_insert_ne q ids i s :
  i ∉ ids → usage (set_heap (<[i := s]> (q_heap q)) q) ids = usage q ids.
Proof.
  induction ids as [|j ids IH]; simpl; [done|]. intros [Hne Hni]%not_elem_of_cons.
  rewrite list_lookup_insert_ne by done. by rewrite IH.
Qed.

Lemma usage_app q a b : usage q (a ++ b) = usage q a + usage q b.
Proof.
  unfold usage. rewrite foldr_app.
  induction a as [|i a IH]; simpl; [lia|]. destruct (q_heap q !! i); lia.
Qed.

Lemma seg_at_frame w w' q q' i pd :
  q_heap q' !! i = q_heap q !! i → q_dir q' = q_dir q →
  q_maxSegmentSize q' = q_maxSegmentSize q →
  (∀ s, q_heap q !! i = Some s → content w' (s_path s) = content w (s_path s)) →
  seg_at w q i pd → seg_at w' q' i pd.
Proof.
  intros Hh Hd Hm Hc (s & dn & Hi & Hr & ? & ?). exists s, dn.
  rewrite Hh, Hd, Hm. split; [done|]. split; [|done].
  eapply seg_repr_frame; [|done]. auto.
Qed.

(** A method of segment [i] that keeps its path and writes only its file. *)
Lemma queue_repr_update w w' q a i c p1 pd p2 s s' dn pd' :
  queue_repr w q (a ++ i :: c) (p1 ++ pd :: p2) → length a = length p1 →
  q_heap q !! i = Some s →
  seg_repr w' s' dn pd' → s_path s' = s_path s → s_maxSize s' = s_maxSize s →
  (∀ p, p ≠ s_path s → content w' p = content w p) →
  (∃ d, w_dirs w' !! q_dir q = Some d ∧ ∀ n, d !! n ≠ Some SubDir) →
  usage q (a ++ i :: c) + (s_size s' - s_size s) < 2 ^ 62 →
  queue_repr w' (set_heap (<[i := s']> (q_heap q)) q) (a ++ i :: c) (p1 ++ pd' :: p2) ∧
  usage (set_heap (<[i := s']> (q_heap q)) q) (a ++ i :: c) =
    usage q (a ++ i :: c) + (s_size s' - s_size s).
Proof.
  intros [Hs Hh Ht Hn Hnd Hf Hp Hd Hu] Hl Hi Hr Hpath Hmax Hfr Hd' Hu'.
  assert (Hlt : (i < length (q_heap q))%nat) by by eapply lookup_lt_Some.
  apply Forall2_app_inv in Hf as [Hf1 Hf2]; [|done].
  apply Forall2_cons_1 in Hf2 as [Hsi Hf2].
  pose proof Hnd as (Hna & Hdis & Hnc)%NoDup_app.
  apply NoDup_cons in Hnc as [Hic Hnc].
  assert (Hia : i ∉ a). { intros ?. apply (Hdis i); [done|]. set_solver. }
  assert (Husage : usage (set_heap (<[i := s']> (q_heap q)) q) (a ++ i :: c) =
    usage q (a ++ i :: c) + (s_size s' - s_size s)).
  { rewrite !usage_app. simpl. rewrite !usage_insert_ne by done.
    rewrite list_lookup_insert_eq by done. rewrite Hi. lia. }
  split; [|done].
  assert (Hother : ∀ j, j ∈ a ++ i :: c → j ≠ i → ∀ pd, seg_at w q j pd →
    seg_at w' (set_heap (<[i := s']> (q_heap q)) q) j pd).
  { intros j Hj Hji ?. apply seg_at_frame; try done.
    - simpl. by rewrite list_lookup_insert_ne.
    - intros sj Hsj. apply Hfr. intros E. apply Hji. symmetry.
      eapply (Hp i j s sj); try done. set_solver. }
  split; try done.
  - apply Forall2_app; [|constructor].
    + eapply Forall2_impl_elem; [exact Hf1|]. intros j pdj Hj. apply Hother; [|congruence].
      set_solver.
    + exists s', dn. simpl. rewrite list_lookup_insert_eq by done.
      destruct Hsi as (s0 & ? & ? & ? & ? & ?). replace s0 with s in * by congruence.
      rewrite Hpath, Hmax. done.
    + eapply Forall2_impl_elem; [exact Hf2|]. intros j pdj Hj. apply Hother; [|congruence].
      set_solver.
  - intros j k sj sk Hj Hk. simpl.
    assert (Hlook : ∀ m sm, <[i := s']> (q_heap q) !! m = Some sm →
      ∃ s0, q_heap q !! m = Some s0 ∧ s_path s0 = s_path sm).
    { intros m sm Hm. destruct (decide (i = m)) as [<-|Hne].
      - rewrite list_lookup_insert_eq in Hm by done. injection Hm as <-. eauto.
      - rewrite list_lookup_insert_ne in Hm by done. eauto. }
    intros (sj0 & Ej & Pj)%Hlook (sk0 & Ek & Pk)%Hlook E.
    eapply (Hp j k sj0 sk0); try done. congruence.
  - by rewrite Husage.
Qed.

(** ** Adding a segment *)

Lemma maxID_fold l acc :
  0 ≤ acc →
  let m := fold_left (λ m f,
    match f with
    | (_, SubDir) => m
    | (name, RegularFile _ _) =>
        match ParseUint name with
        | None => m
        | Some id => if m <? id then id else m
        end
    end) l acc in
  acc ≤ m ∧
  (∀ n c t id, (n, RegularFile c t) ∈ l → ParseUint n = Some id → id ≤ m) ∧
  (m = acc ∨ ∃ n c t, (n, RegularFile c t) ∈ l ∧ ParseUint n = Some m).
Proof.
  revert acc. induction l as [|[n [c t|]] l IH]; intros acc Ha; simpl.
  - split; [lia|]. split; [|auto]. intros ???? []%elem_of_nil.
  - set (acc' := match ParseUint n with Some id => if acc <? id then id else acc | None => acc end).
    assert (acc ≤ acc' ∧ (∀ id, ParseUint n = Some id → id ≤ acc') ∧
            (acc' = acc ∨ ParseUint n = Some acc')) as (Hle & Hn & Hor).
    { subst acc'. destruct (ParseUint n) as [id|]; [|naive_solver lia].
      destruct (Z.ltb_spec acc id); naive_solver lia. }
    destruct (IH acc' ltac:(lia)) as (H1 & H2 & H3). split; [lia|]. split.
    + intros n' c' t' id Hin Hp. apply elem_of_cons in Hin as [[= -> -> ->]|Hin]; [|by eapply H2].
      specialize (Hn id Hp). lia.
    + destruct H3 as [->|(n' & c' & t' & Hin & Hp)].
      * destruct Hor as [->|Hor]; [auto|]. right. exists n, c, t. split; [left|done].
      * right. exists n', c', t'. split; [by right|done].
  - destruct (IH acc Ha) as (H1 & H2 & H3). split; [done|]. split.
    + intros n' c' t' id Hin. apply elem_of_cons in Hin as [?|Hin]; [done|]. by eapply H2.
    + destruct H3 as [->|(n' & c' & t' & Hin & Hp)]; [auto|].
      right. exists n', c', t'. split; [by right|done].
Qed.

Lemma maxID_below w dir d files N :
  w_dirs w !! dir = Some d → files ≡ₚ map_to_list d → ids_below w dir N → 0 < N < 2 ^ 64 →
  0 ≤ maxID files < N.
Proof.
  intros Hd Hperm Hb HN.
  destruct (maxID_fold files 0 ltac:(lia)) as (H0 & _ & Hor). fold (maxID files) in *.
  split; [done|]. destruct Hor as [->|(n & c & t & Hin & Hp)]; [lia|].
  rewrite Hperm, elem_of_map_to_list in Hin. eapply Hb; eauto.
Qed.

(** The next segment number is a name that no file of the directory has. *)
Lemma next_name_fresh w dir d files :
  w_dirs w !! dir = Some d → (∀ n, d !! n ≠ Some SubDir) → ids_left w dir →
  files ≡ₚ map_to_list d →
  d !! FormatUint (u64 (maxID files + 1)) = None.
Proof.
  intros Hd Hns Hleft Hperm.
  destruct (maxID_fold files 0 ltac:(lia)) as (H0 & Hub & _). fold (maxID files) in *.
  assert (Hfiles : ∀ n c t, (n, RegularFile c t) ∈ files ↔ d !! n = Some (RegularFile c t)).
  { intros. rewrite Hperm. apply elem_of_map_to_list. }
  pose proof (maxID_below _ _ _ _ _ Hd Hperm Hleft ltac:(lia)) as Hlt.
  rewrite u64_small by lia.
  destruct (d !! FormatUint (maxID files + 1)) as [[c t|]|] eqn:E; [|by apply Hns in E|done].
  apply Hfiles in E. pose proof (Hub _ _ _ (maxID files + 1) E) as Hc.
  rewrite ParseUint_FormatUint in Hc by lia. specialize (Hc eq_refl). lia.
Qed.

Lemma addSegment_eval w q d :
  w_dirs w !! q_dir q = Some d → (∀ n, d !! n ≠ Some SubDir) → ids_left w (q_dir q) →
  ∃ s, let w' := set_entry w (s_path s) (RegularFile (PutUint64 0) (w_now w)) in
    addSegment (w, q) =
      (Ok (length (q_heap q)),
       (w', set_segments (Some (segs q ++ [length (q_heap q)]))
              (set_heap (q_heap q ++ [s]) q))) ∧
    seg_repr w' s [] [] ∧ entry w (s_path s) = None ∧
    p_dir (s_path s) = q_dir q ∧ s_maxSize s = q_maxSegmentSize q ∧
    (∀ N, 0 < N < 2 ^ 64 → ids_below w (q_dir q) N → ids_below w' (q_dir q) (N + 1)).
Proof.
  intros Hd Hns Hleft.
  destruct (ReadDir_perm _ _ _ Hd) as (files & Hr & Hperm).
  pose proof (next_name_fresh _ _ _ _ Hd Hns Hleft Hperm) as Hfresh.
  set (p := Path (q_dir q) (FormatUint (u64 (maxID files + 1)))).
  destruct (newSegment_fresh w p (q_maxSegmentSize q) d) as (s & Hnew & Hrep & Hpath & Hmax);
    [done|done|].
  exists s. rewrite Hpath. split; [|split; [done|]].
  - unfold addSegment, nextSegmentID, onDisk. gom_simpl. cbn [fst snd].
    rewrite Hr. cbn [fst snd]. fold p. rewrite Hnew. done.
  - split; [unfold entry; simpl; by rewrite Hd|]. split; [done|]. split; [done|].
    intros N HN Hb d' n id Hd' Hn Hid. simpl in Hd'. rewrite lookup_alter_eq, Hd in Hd'.
    injection Hd' as <-. destruct (decide (n = FormatUint (u64 (maxID files + 1)))) as [->|Hne].
    + pose proof (maxID_below _ _ _ _ _ Hd Hperm Hb HN) as [Hm0 Hm].
      rewrite u64_small, ParseUint_FormatUint in Hid by lia. injection Hid as <-. lia.
    + rewrite lookup_insert_ne in Hn by done. specialize (Hb _ _ _ Hd Hn Hid). lia.
Qed.

(** Linking the new segment as the tail. *)
Lemma queue_id_heap w q ids pds j :
  queue_repr w q ids pds → j ∈ ids →
  ∃ pd sj dn, q_heap q !! j = Some sj ∧ seg_repr w sj dn pd.
Proof.
  intros Hq Hj. apply list_elem_of_lookup in Hj as [k Hk].
  destruct (Forall2_lookup_l _ _ _ _ _ (qr_segs _ _ _ _ Hq) Hk) as (pd & _ & (sj & dn & Hj & Hr & _)). eauto.
Qed.

(** A file that does not exist is not one of the queue's. *)
Lemma queue_fresh_path w q ids pds p j sj :
  queue_repr w q ids pds → entry w p = None → j ∈ ids → q_heap q !! j = Some sj → s_path sj ≠ p.
Proof.
  intros Hq Hfresh Hj Hsj <-. destruct (queue_id_heap _ _ _ _ _ Hq Hj) as (pd & sj' & dn & Hsj' & Hr).
  assert (sj' = sj) as -> by congruence. pose proof (sr_content _ _ _ _ Hr) as Hc.
  unfold content in Hc. by rewrite Hfresh in Hc.
Qed.

Lemma usage_agree q q' ids :
  (∀ j, j ∈ ids → q_heap q' !! j = q_heap q !! j) → usage q' ids = usage q ids.
Proof.
  induction ids as [|j ids IH]; intros Hk; [done|]. cbn [usage foldr]. rewrite Hk by left.
  destruct (q_heap q !! j); [f_equal|]; apply IH; intros; apply Hk; by right.
Qed.

Lemma queue_repr_extend w q ids pds s :
  queue_repr w q ids pds → entry w (s_path s) = None → p_dir (s_path s) = q_dir q →
  s_maxSize s = q_maxSegmentSize q →
  let w' := set_entry w (s_path s) (RegularFile (PutUint64 0) (w_now w)) in
  let i := length (q_heap q) in
  let q' := set_tail (Some i) (set_segments (Some (ids ++ [i])) (set_heap (q_heap q ++ [s]) q)) in
  seg_repr w' s [] [] → usage q ids + 8 < 2 ^ 62 →
  queue_repr w' q' (ids ++ [i]) (pds ++ [[]]) ∧
  usage q' (ids ++ [i]) = usage q ids + 8.
Proof.
  intros Hq Hfresh Hdir Hmax w' i q' Hr Hu'. pose proof Hq as [Hs Hh Ht Hn Hnd Hf Hp Hd Hu].
  assert (Hsize : s_size s = 8) by by destruct Hr as [_ _ _ -> _ _ _].
  assert (Hin : ∀ j, j ∈ ids → (j < i)%nat).
  { intros j (pd & sj & dn & Hj & _)%(queue_id_heap _ _ _ _ _ Hq). by eapply lookup_lt_Some. }
  assert (Hkeep : ∀ j, j ∈ ids → q_heap q' !! j = q_heap q !! j).
  { intros j Hj. simpl. apply lookup_app_l. by apply Hin. }
  assert (Hnew : q_heap q' !! i = Some s).
  { simpl. rewrite lookup_app_r by done. by rewrite Nat.sub_diag. }
  assert (Hpaths : ∀ j sj, j ∈ ids → q_heap q !! j = Some sj → s_path sj ≠ s_path s)
    by (intros; by eapply queue_fresh_path).
  assert (Husage : usage q' (ids ++ [i]) = usage q ids + 8).
  { rewrite usage_app. f_equal.
    - by apply usage_agree.
    - cbn [usage foldr]. rewrite Hnew. lia. }
  split; [|done]. split; try done.
  - simpl. rewrite Hh. destruct ids; done.
  - simpl. by rewrite last_snoc.
  - by destruct ids.
  - apply NoDup_app. split; [done|]. split; [|apply NoDup_singleton].
    intros j Hj ->%list_elem_of_singleton. apply Hin in Hj. lia.
  - apply Forall2_app; [|repeat constructor].
    + eapply Forall2_impl_elem; [exact Hf|]. intros j pd Hj. apply seg_at_frame; try done.
      * by apply Hkeep.
      * intros sj Hsj. apply content_set_entry_ne. intros E. by eapply (Hpaths j sj).
    + exists s, []. done.
  - intros j k sj sk Hj Hk Ej Ek E.
    rewrite elem_of_app, list_elem_of_singleton in Hj, Hk.
    destruct Hj as [Hj| ->], Hk as [Hk| ->]; try done.
    + rewrite Hkeep in Ej, Ek by done. by eapply Hp.
    + rewrite Hkeep in Ej by done. rewrite Hnew in Ek. injection Ek as <-.
      by destruct (Hpaths j sj).
    + rewrite Hkeep in Ek by done. rewrite Hnew in Ej. injection Ej as <-.
      by destruct (Hpaths k sk).
  - destruct Hd as (d & Hd & Hns). simpl. exists (<[p_name (s_path s) := RegularFile (PutUint64 0) (w_now w)]> d).
    split.
    + rewrite Hdir, lookup_alter_eq, Hd. done.
    + intros n. rewrite lookup_insert. case_decide; naive_solver.
  - by rewrite Husage.
Qed.

(** ** Append *)

Lemma queue_tail_view w q ids pds :
  queue_repr w q ids pds →
  ∃ a i p1 pd s dn, ids = a ++ [i] ∧ pds = p1 ++ [pd] ∧ length a = length p1 ∧
    q_tail q = Some i ∧ q_heap q !! i = Some s ∧ seg_repr w s dn pd ∧
    p_dir (s_path s) = q_dir q ∧ s_maxSize s = q_maxSegmentSize q.
Proof.
  intros [_ _ Ht Hn _ Hf _ _ _].
  destruct ids as [|i a _] using rev_ind; [done|].
  apply Forall2_app_inv_l in Hf as (p1 & p2 & Hf1 & Hf2 & ->).
  apply Forall2_cons_inv_l in Hf2 as (pd & p3 & (s & dn & ? & ? & ? & ?) & Hnil & ->).
  apply Forall2_nil_inv_l in Hnil as ->.
  exists a, i, p1, pd, s, dn. rewrite Ht, last_snoc.
  apply Forall2_length in Hf1. done.
Qed.

Lemma set_entry_dir_ok w p c m dir :
  (∃ d, w_dirs w !! dir = Some d ∧ ∀ n, d !! n ≠ Some SubDir) →
  ∃ d, w_dirs (set_entry w p (RegularFile c m)) !! dir = Some d ∧ ∀ n, d !! n ≠ Some SubDir.
Proof.
  intros (d & Hd & Hns). simpl. rewrite lookup_alter. case_decide as E; [|eauto].
  rewrite E, Hd. simpl. eexists. split; [done|].
  intros n. rewrite lookup_insert. case_decide; naive_solver.
Qed.

(** Overwriting an existing file adds no segment number. *)
Lemma ids_below_set_entry w p c m c0 dir N :
  content w p = Some c0 → ids_below w dir N → ids_below (set_entry w p (RegularFile c m)) dir N.
Proof.
  intros Hc Hb d n id Hd Hn Hid. simpl in Hd. rewrite lookup_alter in Hd.
  case_decide as E; [|by eapply Hb]. subst dir.
  unfold content, entry in Hc. destruct (w_dirs w !! p_dir p) as [d0|] eqn:Hd0; [|done].
  simpl in Hd. injection Hd as <-. simpl in Hc. apply (Hb d0 n id); [done| |done].
  destruct (decide (n = p_name p)) as [->|Hne]; [|by rewrite lookup_insert_ne in Hn].
  destruct (d0 !! p_name p); [eauto|done].
Qed.

(** Appending to the tail segment when the block fits. *)
Lemma tail_append_ok w q a i p1 pd s dn b :
  queue_repr w q (a ++ [i]) (p1 ++ [pd]) → length a = length p1 →
  q_heap q !! i = Some s → seg_repr w s dn pd →
  s_maxSize s = q_maxSegmentSize q →
  0 < len b → s_size s + len b ≤ q_maxSegmentSize q → q_maxSegmentSize q < 2 ^ 61 →
  usage q (a ++ [i]) + len b + 8 < 2 ^ 62 →
  ∃ w' q', onSeg i (seg_append b) (w, q) = (Ok tt, (w', q')) ∧
    queue_repr w' q' (a ++ [i]) (p1 ++ [pd ++ [b]]) ∧
    usage q' (a ++ [i]) = usage q (a ++ [i]) + len b + 8 ∧
    q_maxSize q' = q_maxSize q ∧ q_maxSegmentSize q' = q_maxSegmentSize q ∧ q_dir q' = q_dir q ∧
    (∀ N, ids_below w (q_dir q) N → ids_below w' (q_dir q) N).
Proof.
  intros Hq Hl Hi Hr Hmax Hpos Hfit Hm Hu. pose proof (seg_size_pos _ _ _ _ Hr).
  unfold onSeg. rewrite Hi. rewrite (seg_append_ok _ _ _ _ _ Hr) by lia.
  destruct (queue_repr_update w
    (set_entry w (s_path s) (RegularFile (file_bytes dn (pd ++ [b])) (w_now w)))
    q a i [] p1 pd [] s (appended b s) dn (pd ++ [b])) as [Hq' Hu']; try done.
  - apply appended_repr; [done|done|lia].
  - intros p Hp. apply content_set_entry_ne. congruence.
  - apply set_entry_dir_ok, (qr_dir _ _ _ _ Hq).
  - simpl. lia.
  - simpl in Hu'. do 2 eexists. split; [done|]. split; [done|]. rewrite Hu'.
    split; [lia|]. do 3 (split; [done|]).
    intros N. eapply ids_below_set_entry, sr_content, Hr.
Qed.

Lemma concat_snoc {A} (p1 : list (list A)) pd b :
  concat (p1 ++ [pd ++ [b]]) = concat (p1 ++ [pd]) ++ [b].
Proof. rewrite !concat_app. simpl. by rewrite !app_nil_r, app_assoc. Qed.

Section append.
  Context (w : world) (q : queue) (ids : list nat) (pds : list (list (list byte))).
  Context (b : list byte).
  Context (Hq : queue_repr w q ids pds).
  Context (Hpos : 0 < len b) (Hsz : diskUsageQ q + len b ≤ q_maxSize q).
  Context (Hm1 : q_maxSize q < 2 ^ 61) (Hm2 : q_maxSegmentSize q < 2 ^ 61).

(** What every successful append keeps. *)
Definition appends_to (w' : world) (q' : queue) (ids' : list nat)
    (pds' : list (list (list byte))) : Prop :=
  Append b (w, q) = (Ok tt, (w', q')) ∧ queue_repr w' q' ids' pds' ∧
  diskUsageQ q' ≤ diskUsageQ q + len b + 16 ∧
  q_maxSize q' = q_maxSize q ∧ q_maxSegmentSize q' = q_maxSegmentSize q ∧ q_dir q' = q_dir q ∧
  (∀ N, 0 < N < 2 ^ 64 → ids_below w (q_dir q) N → ids_below w' (q_dir q) (N + 1)).

Lemma ids_below_mono w' dir N M : ids_below w' dir N → N ≤ M → ids_below w' dir M.
Proof. intros H ? d n id Hd Hn Hid. specialize (H _ _ _ Hd Hn Hid). lia. Qed.

Lemma Append_fits p1 pd s i :
  pds = p1 ++ [pd] → last ids = Some i → q_heap q !! i = Some s →
  s_size s + len b ≤ q_maxSegmentSize q →
  ∃ w' q', appends_to w' q' ids (p1 ++ [pd ++ [b]]).
Proof.
  intros Hpds Hlast Hi Hfit. unfold appends_to.
  pose proof (diskUsageQ_usage _ _ _ _ Hq) as Hdu.
  pose proof (usage_nonneg _ _ _ _ (qr_segs _ _ _ _ Hq)) as Hu0.
  destruct (queue_tail_view _ _ _ _ Hq)
    as (a & i' & p1' & pd' & s' & dn & -> & Hpds' & Hl & Ht & Hi' & Hr & Hdir & Hmax).
  rewrite last_snoc in Hlast. injection Hlast as ->. rewrite Hi in Hi'. injection Hi' as <-.
  rewrite Hpds in Hpds'. apply app_inj_tail in Hpds' as [<- <-]. subst pds.
  unfold Append. gom_simpl. cbn [fst snd].
  rewrite Ht, i64_small by lia. zbool. unfold onPtr.
  destruct (tail_append_ok w q a i p1 pd s dn b) as (w' & q' & -> & Hq' & Hu' & Hrest);
    try done; [lia|].
  exists w', q'. split; [done|]. split; [done|].
  rewrite (diskUsageQ_usage _ _ _ _ Hq'), Hdu. split; [lia|].
  destruct Hrest as (? & ? & ? & Hids). do 3 (split; [done|]).
  intros N HN HB. apply (ids_below_mono _ _ N); [by apply Hids|lia].
Qed.

Lemma Append_rolls s i :
  ids_left w (q_dir q) → last ids = Some i → q_heap q !! i = Some s →
  q_maxSegmentSize q < s_size s + len b → 8 + len b ≤ q_maxSegmentSize q →
  ∃ w' q' ids', appends_to w' q' ids' (pds ++ [[b]]).
Proof.
  intros Hleft Hlast Hi Hfull Hseg. unfold appends_to.
  pose proof (diskUsageQ_usage _ _ _ _ Hq) as Hdu.
  pose proof (usage_nonneg _ _ _ _ (qr_segs _ _ _ _ Hq)) as Hu0.
  destruct (queue_tail_view _ _ _ _ Hq)
    as (a & i' & p1 & pd & s' & dn & -> & -> & Hl & Ht & Hi' & Hr & Hdir & Hmax).
  rewrite last_snoc in Hlast. injection Hlast as ->. rewrite Hi in Hi'. injection Hi' as <-.
  unfold Append. gom_simpl. cbn [fst snd].
  rewrite Ht, i64_small by lia. zbool. unfold onPtr.
  assert (onSeg i (seg_append b) (w, q) = (Err ErrSegmentFull, (w, q))) as ->.
  { unfold onSeg. rewrite Hi. pose proof (seg_size_pos _ _ _ _ Hr).
    pose proof (sr_bound _ _ _ _ Hr). destruct (sr_file _ _ _ _ Hr) as [off Hf].
    erewrite seg_append_full; [|done|rewrite i64_small; lia].
    rewrite list_insert_id by done. by destruct q. }
  destruct (qr_dir _ _ _ _ Hq) as (d & Hd & Hns).
  destruct (addSegment_eval w q d Hd Hns Hleft) as (s' & -> & Hr' & Hfresh & Hdir' & Hmax' & Hids').
  cbn [fst snd updq modify].
  destruct (queue_repr_extend w q (a ++ [i]) (p1 ++ [pd]) s') as [Hq' Hu']; try done; [lia|].
  rewrite (segs_eq _ _ (qr_segments _ _ _ _ Hq)).
  assert (Hs8 : s_size s' = 8) by by destruct Hr' as [_ _ _ -> _ _ _].
  match goal with |- context [onSeg ?k _ (?w1, ?q1)] =>
    destruct (tail_append_ok w1 q1 (a ++ [i]) k (p1 ++ [pd]) [] s' [] b)
      as (w2 & q2 & -> & Hq2 & Hu2 & Hrest) end; simpl; try done.
  - rewrite !length_app. simpl. lia.
  - rewrite lookup_app_r, Nat.sub_diag; done.
  - lia.
  - lia.
  - do 3 eexists. split; [done|]. split; [exact Hq2|].
    rewrite (diskUsageQ_usage _ _ _ _ Hq2), Hdu. simpl in *. split; [lia|].
    destruct Hrest as (? & ? & ? & Hids). do 3 (split; [done|]).
    intros N HN HB. apply Hids. by apply Hids'.
Qed.

(** A block that the limits admit becomes the last block of the queue,
    whether or not a new segment is needed. *)
Lemma Append_spec :
  ids_left w (q_dir q) → 8 + len b ≤ q_maxSegmentSize q →
  ∃ w' q' ids' pds', appends_to w' q' ids' pds' ∧ concat pds' = concat pds ++ [b].
Proof.
  intros Hleft Hseg.
  destruct (queue_tail_view _ _ _ _ Hq)
    as (a & i & p1 & pd & s & dn & Hids & Hpds & _ & _ & Hi & _).
  assert (last ids = Some i) as Hlast by (rewrite Hids; apply last_snoc).
  destruct (Z.leb_spec (s_size s + len b) (q_maxSegmentSize q)) as [Hfit|Hfull].
  - destruct (Append_fits p1 pd s i Hpds Hlast Hi Hfit) as (w' & q' & H).
    do 4 eexists. split; [exact H|]. rewrite Hpds. apply concat_snoc.
  - destruct (Append_rolls s i Hleft Hlast Hi Hfull Hseg) as (w' & q' & ids' & H).
    do 4 eexists. split; [exact H|]. rewrite concat_app. done.
Qed.

End append.

(** ** Error paths of Append *)

Lemma Append_full_unchanged w q b i :
  q_tail q = Some i → q_maxSize q < i64 (diskUsageQ q + len b) →
  Append b (w, q) = (Err ErrQueueFull, (w, q)).
Proof. intros Ht ?. unfold Append. gom_simpl. cbn [fst snd]. rewrite Ht. by zbool. Qed.

Lemma Append_closed w q b :
  q_tail q = None → Append b (w, q) = (Err ErrNotOpen, (w, q)).
Proof. intros Ht. unfold Append. gom_simpl. cbn [fst snd]. by rewrite Ht. Qed.

(** ** Current *)

Lemma queue_head_view w q ids pds :
  queue_repr w q ids pds →
  ∃ i c pd p2 s dn, ids = i :: c ∧ pds = pd :: p2 ∧ q_head q = Some i ∧
    q_heap q !! i = Some s ∧ seg_repr w s dn pd ∧ s_maxSize s = q_maxSegmentSize q.
Proof.
  intros [_ Hh _ Hn _ Hf _ _ _].
  destruct ids as [|i c]; [done|].
  apply Forall2_cons_inv_l in Hf as (pd & p2 & (s & dn & ? & ? & ? & ?) & _ & ->).
  by exists i, c, pd, p2, s, dn.
Qed.

Lemma Current_empty w q ids pds :
  queue_repr w q ids ([] :: pds) → Current (w, q) = (Err EOF, (w, q)).
Proof.
  intros Hq. destruct (queue_head_view _ _ _ _ Hq) as (i & c & pd & p2 & s & dn & -> & [= <- <-] & Hh & Hi & Hr & _).
  unfold Current. gom_simpl. cbn [fst snd]. rewrite Hh. unfold onPtr, onSeg. rewrite Hi.
  rewrite (current_empty _ _ _ Hr), list_insert_id by done. by destruct q.
Qed.

Lemma Current_spec w q ids r pd pds :
  queue_repr w q ids ((r :: pd) :: pds) → len r ≤ q_maxSegmentSize q →
  ∃ q', Current (w, q) = (Ok r, (w, q')) ∧ queue_repr w q' ids ((r :: pd) :: pds) ∧
    q_maxSegmentSize q' = q_maxSegmentSize q ∧ usage q' ids = usage q ids.
Proof.
  intros Hq Hlen.
  destruct (queue_head_view _ _ _ _ Hq) as (i & c & pd' & p2 & s & dn & -> & [= <- <-] & Hh & Hi & Hr & Hmax).
  unfold Current. gom_simpl. cbn [fst snd]. rewrite Hh. unfold onPtr, onSeg. rewrite Hi.
  destruct (current_ok _ _ _ _ _ Hr) as (off & ->); [lia|].
  destruct (queue_repr_update w w q [] i c [] (r :: pd) pds s
    (set_file (Some (mkFile (s_path s) off)) s) dn (r :: pd)) as [Hq' Hu]; try done.
  - by apply seg_repr_set_file.
  - apply (qr_dir _ _ _ _ Hq).
  - simpl. rewrite Z.sub_diag, Z.add_0_r. apply (qr_usage _ _ _ _ Hq).
  - eexists. split; [done|]. split; [done|]. split; [done|].
    simpl in Hu |- *. lia.
Qed.

(** ** Trimming the head *)

Lemma content_remove_ne p q d m :
  p ≠ q → content (World (alter (delete (p_name p)) (p_dir p) d) m) q = content (World d m) q.
Proof.
  intros H. unfold content, entry. simpl.
  destruct p as [pd pn], q as [qd qn]. simpl in *.
  destruct (decide (pd = qd)) as [->|Hd]; [|by rewrite lookup_alter_ne].
  rewrite lookup_alter_eq. destruct (d !! qd) as [e|]; simpl; [|done].
  rewrite lookup_delete_ne; [done|]. congruence.
Qed.

Lemma trimHead_single w q i : segs q = [i] → trimHead (w, q) = (Ok tt, (w, q)).
Proof. intros H. unfold trimHead. gom_simpl. cbn [fst snd]. by rewrite H. Qed.

Lemma trimHead_spec w q i c pd pds :
  queue_repr w q (i :: c) (pd :: pds) → c ≠ [] →
  ∃ w' q', trimHead (w, q) = (Ok tt, (w', q')) ∧ queue_repr w' q' c pds ∧
    q_maxSegmentSize q' = q_maxSegmentSize q ∧ q_maxSize q' = q_maxSize q ∧
    q_dir q' = q_dir q ∧
    (∃ s, q_heap q !! i = Some s ∧ q_heap q' = <[i := set_file None s]> (q_heap q) ∧
      w' = World (alter (delete (p_name (s_path s))) (p_dir (s_path s)) (w_dirs w)) (w_now w)).
Proof.
  intros Hq Hc. destruct c as [|i' c]; [done|].
  destruct (queue_head_view _ _ _ _ Hq) as (? & ? & ? & ? & s & dn & [= <- <-] & [= <- <-] & Hh & Hi & Hr & Hmax).
  destruct Hq as [Hs Hh' Ht Hn Hnd Hf Hp (d & Hd & Hns) Hu].
  apply NoDup_cons in Hnd as [Hni Hnd]. apply Forall2_cons_1 in Hf as [Hsi Hf].
  assert (Hlt : (i < length (q_heap q))%nat) by by eapply lookup_lt_Some.
  destruct (sr_file _ _ _ _ Hr) as [off Hfile].
  assert (∃ e, entry w (s_path s) = Some e) as [e He].
  { pose proof (sr_content _ _ _ _ Hr) as E. unfold content in E.
    destruct (entry w (s_path s)); [eauto|done]. }
  unfold trimHead. gom_simpl. cbn [fst snd]. rewrite (segs_eq _ _ Hs), Hh.
  cbn [updq modify fst snd].
  unfold onPtr, onSeg, close. cbn [q_heap q_head set_segments set_heap]. rewrite Hi. gom_simpl.
  cbn [fst snd]. rewrite Hfile. cbn [upd modify fst snd q_heap set_heap].
  rewrite list_lookup_insert_eq by done. cbn [fst snd s_path set_file].
  unfold onDisk, Remove. gom_simpl. cbn [fst snd]. rewrite He.
  rewrite list_insert_insert_eq. cbn [updq modify fst snd].
  set (w' := World (alter (delete (p_name (s_path s))) (p_dir (s_path s)) (w_dirs w)) (w_now w)).
  assert (Hframe : ∀ p, s_path s ≠ p → content w' p = content w p).
  { intros p Hne. subst w'. rewrite content_remove_ne by done. by destruct w. }
  do 2 eexists. split; [done|].
  assert (Hw : ∀ j sj, j ∈ i' :: c → q_heap q !! j = Some sj → s_path s ≠ s_path sj).
  { intros j sj Hj Hsj E. assert (i = j) as <-; [|done].
    eapply (Hp i j); try done; [left|by right]. }
  split; [|split; [done|split; [done|split; [done|by exists s]]]].
  split; try done.
  - eapply Forall2_impl_elem; [exact Hf|]. intros j pdj Hj. apply seg_at_frame; try done.
    + simpl. apply list_lookup_insert_ne. set_solver.
    + intros sj Hsj. apply Hframe. by apply (Hw j).
  - intros j k sj sk Hj Hk. simpl. rewrite !list_lookup_insert_ne by set_solver.
    intros. eapply (Hp j k); try done; by right.
  - simpl. destruct (decide (p_dir (s_path s) = q_dir q)) as [E|E].
    + rewrite E, lookup_alter_eq, Hd. simpl. eexists. split; [done|].
      intros n. rewrite lookup_delete. case_decide; naive_solver.
    + rewrite lookup_alter_ne by done. eauto.
  - assert (usage (set_heap (<[i := set_file None s]> (q_heap q)) q) (i' :: c) = usage q (i' :: c))
      as Hue by by apply usage_insert_ne.
    pose proof (seg_size_pos _ _ _ _ Hr) as Hsp. cbn [usage foldr] in Hu. rewrite Hi in Hu.
    change (usage (set_heap (<[i := set_file None s]> (q_heap q)) q) (i' :: c) < 2 ^ 62).
    rewrite Hue. unfold usage. cbn [foldr]. lia.
Qed.

(** ** Advance *)

(** The pending blocks after the head block was consumed: an exhausted head
    segment is dropped unless it is the only one. *)
Definition advance_pds (pd : list (list byte)) (pds : list (list (list byte)))
    : list (list (list byte)) :=
  match pd, pds with
  | [], _ :: _ => pds
  | _, _ => pd :: pds
  end.

Lemma concat_advance_pds pd pds : concat (advance_pds pd pds) = pd ++ concat pds.
Proof. by destruct pd, pds. Qed.

Lemma Advance_spec w q ids r pd pds :
  queue_repr w q ids ((r :: pd) :: pds) →
  ∃ w' q' ids', Advance (w, q) = (Ok tt, (w', q')) ∧
    queue_repr w' q' ids' (advance_pds pd pds) ∧
    q_maxSegmentSize q' = q_maxSegmentSize q.
Proof.
  intros Hq.
  destruct (queue_head_view _ _ _ _ Hq) as (i & c & pd' & p2 & s & dn & -> & [= <- <-] & Hh & Hi & Hr & Hmax).
  unfold Advance. gom_simpl. cbn [fst snd]. rewrite Hh. unfold onPtr, onSeg at 1. rewrite Hi.
  rewrite (advance_eval _ _ _ _ _ Hr).
  destruct (queue_repr_update w
    (set_entry w (s_path s) (RegularFile (file_bytes (dn ++ [r]) pd) (w_now w)))
    q [] i c [] (r :: pd) pds s (advanced r pd s) (dn ++ [r]) pd) as [Hq' _]; try done.
  - by apply advanced_repr.
  - intros p Hp. apply content_set_entry_ne. congruence.
  - apply set_entry_dir_ok, (qr_dir _ _ _ _ Hq).
  - simpl. rewrite Z.sub_diag, Z.add_0_r. apply (qr_usage _ _ _ _ Hq).
  - simpl in Hq'. destruct pd as [|r' pd]; [|simpl; eauto 10].
    pose proof (Forall2_length _ _ _ (qr_segs _ _ _ _ Hq')) as Hlen.
    destruct c as [|i' c], pds as [|pd2 pds]; try done; simpl advance_pds.
    + rewrite (trimHead_single _ _ i); [eauto 10|].
      unfold segs. by rewrite (qr_segments _ _ _ _ Hq').
    + destruct (trimHead_spec _ _ _ _ _ _ Hq') as (w2 & q2 & -> & Hq2 & Hm2 & _); [done|].
      exists w2, q2, (i' :: c). done.
Qed.

(** ** Draining *)

(** Every segment before the last one still has pending blocks: the reader
    never stops on an exhausted segment. *)
Definition live (pds : list (list (list byte))) : Prop :=
  Forall (λ pd, pd ≠ []) (removelast pds).

(** What a reader does: read the current block and step over it. *)
Fixpoint drain (n : nat) : QM (list (list byte)) :=
  match n with
  | O => mret []
  | S n' =>
      r ← Current;
      _ ← Advance;
      rs ← drain n';
      mret (r :: rs)
  end.

Lemma live_advance r pd pds : live ((r :: pd) :: pds) → live (advance_pds pd pds).
Proof.
  unfold live. destruct pds as [|p2 pds]; simpl.
  - intros _. destruct pd; constructor.
  - intros H%Forall_cons_1. destruct pd; simpl; [apply H|]. constructor; [done|apply H].
Qed.

Lemma live_head pds :
  live pds → pds ≠ [] → concat pds ≠ [] → ∃ r pd rest, pds = (r :: pd) :: rest.
Proof.
  destruct pds as [|[|r pd] [|p2 rest]]; intros Hl ? Hc; try done; eauto.
  unfold live in Hl. simpl in Hl. by apply Forall_cons_1 in Hl as [? _].
Qed.

Lemma queue_repr_pds w q ids pds : queue_repr w q ids pds → pds ≠ [].
Proof. intros [_ _ _ Hn _ Hf _ _ _] ->. by apply Forall2_nil_inv_r in Hf. Qed.

Lemma drain_all w q ids pds :
  queue_repr w q ids pds → live pds →
  Forall (λ r, len r ≤ q_maxSegmentSize q) (concat pds) →
  ∃ w' q' ids' pds', drain (length (concat pds)) (w, q) = (Ok (concat pds), (w', q')) ∧
    queue_repr w' q' ids' pds' ∧ concat pds' = [] ∧ Current (w', q') = (Err EOF, (w', q')).
Proof.
  remember (length (concat pds)) as n eqn:Hn. revert w q ids pds Hn.
  induction n as [|n IH]; intros w q ids pds Hn Hq Hl Hlen.
  - symmetry in Hn. apply length_zero_iff_nil in Hn. rewrite Hn. exists w, q, ids, pds. do 3 (split; [done|]).
    destruct pds as [|[|] pds]; [by apply queue_repr_pds in Hq| |done].
    by eapply Current_empty.
  - destruct (live_head pds Hl) as (r & pd & rest & ->); [by eapply queue_repr_pds|by destruct (concat pds)|].
    simpl concat in *. apply Forall_cons_1 in Hlen as [Hr Hlen].
    destruct (Current_spec _ _ _ _ _ _ Hq Hr) as (q1 & Hc & Hq1 & Hm1 & _).
    destruct (Advance_spec _ _ _ _ _ _ Hq1) as (w2 & q2 & ids2 & Ha & Hq2 & Hm2).
    assert (Hcat := concat_advance_pds pd rest).
    destruct (IH w2 q2 ids2 (advance_pds pd rest)) as (w3 & q3 & ids3 & pds3 & Hd & He); try done.
    + simpl in Hn. rewrite Hcat. lia.
    + by eapply live_advance.
    + rewrite Hcat, Hm2, Hm1. done.
    + exists w3, q3, ids3, pds3. split; [|done]. cbn [drain]. gom_simpl. rewrite Hc, Ha, Hd, Hcat. done.
Qed.

(** ** A batch of appends *)

(** The tail segment holds a pending block, nothing was ever written to it, or the
    first block of the batch fits into it: no roll-over leaves an exhausted segment
    behind. *)
Definition tail_usable (q : queue) (ids : list nat) (pds : list (list (list byte))) (bs : list (list byte)) : Prop :=
  last pds ≠ Some [] ∨
  ∃ i s, last ids = Some i ∧ q_heap q !! i = Some s ∧
    (s_size s = 8 ∨ match bs with [] => True | b :: _ => s_size s + len b ≤ q_maxSegmentSize q end).

Lemma live_snoc pds pd : live (pds ++ [pd]) ↔ Forall (λ pd, pd ≠ []) pds.
Proof. unfold live. by rewrite removelast_last. Qed.

Lemma Append_live w q ids pds b bs :
  queue_repr w q ids pds → live pds → tail_usable q ids pds (b :: bs) → 0 < len b →
  diskUsageQ q + len b ≤ q_maxSize q → q_maxSize q < 2 ^ 61 → q_maxSegmentSize q < 2 ^ 61 →
  ids_left w (q_dir q) → 8 + len b ≤ q_maxSegmentSize q →
  ∃ w' q' ids' pds', appends_to w q b w' q' ids' pds' ∧ concat pds' = concat pds ++ [b] ∧
    live pds' ∧ tail_usable q' ids' pds' bs.
Proof.
  intros Hq Hlive Htail Hpos Hsz Hm1 Hm2 Hleft Hseg.
  destruct (queue_tail_view _ _ _ _ Hq)
    as (a & i & p1 & pd & s & dn & Hids & Hpds & _ & _ & Hi & _).
  assert (last ids = Some i) as Hlast by (rewrite Hids; apply last_snoc).
  rewrite Hpds, live_snoc in Hlive.
  destruct (Z.leb_spec (s_size s + len b) (q_maxSegmentSize q)) as [Hfit|Hfull].
  - destruct (Append_fits w q ids pds b Hq Hpos Hsz Hm1 Hm2 p1 pd s i Hpds Hlast Hi Hfit)
      as (w' & q' & H).
    do 4 eexists. split; [exact H|]. rewrite live_snoc. split; [rewrite Hpds; apply concat_snoc|].
    split; [done|]. left. rewrite last_snoc. by destruct pd.
  - destruct (Append_rolls w q ids pds b Hq Hpos Hsz Hm1 Hm2 s i Hleft Hlast Hi Hfull Hseg)
      as (w' & q' & ids' & H).
    do 4 eexists. split; [exact H|]. rewrite live_snoc, Hpds. split; [by rewrite concat_app|].
    split; [|left; by rewrite last_snoc].
    apply Forall_app. split; [done|]. constructor; [|done].
    destruct Htail as [Ht|(i' & s' & E1 & E2 & E3)].
    + rewrite Hpds, last_snoc in Ht. congruence.
    + assert (i' = i) as -> by congruence. assert (s' = s) as -> by congruence. lia.
Qed.

(** Disk space that a batch of blocks may take. *)
Definition batch_size (bs : list (list byte)) : Z :=
  foldr (λ b acc, len b + 16 + acc) 0 bs.

Lemma batch_size_nonneg bs : 0 ≤ batch_size bs.
Proof. induction bs as [|b bs IH]; simpl; [lia|]. pose proof (len_nonneg b). lia. Qed.

Lemma append_batch w q ids pds bs N :
  queue_repr w q ids pds → live pds → tail_usable q ids pds bs →
  Forall (λ b, 0 < len b ∧ 8 + len b ≤ q_maxSegmentSize q) bs →
  diskUsageQ q + batch_size bs ≤ q_maxSize q → q_maxSize q < 2 ^ 61 →
  q_maxSegmentSize q < 2 ^ 61 →
  ids_below w (q_dir q) N → 0 < N → N + len bs < 2 ^ 64 →
  ∃ w' q' ids' pds', for_each bs Append (w, q) = (Ok tt, (w', q')) ∧
    queue_repr w' q' ids' pds' ∧ live pds' ∧ concat pds' = concat pds ++ bs ∧
    q_maxSegmentSize q' = q_maxSegmentSize q.
Proof.
  revert w q ids pds N. induction bs as [|b bs IH];
    intros w q ids pds N Hq Hl Ht Hbs Hsz Hm1 Hm2 Hb HN HN2.
  - exists w, q, ids, pds. rewrite app_nil_r. done.
  - apply Forall_cons_1 in Hbs as [[Hpos Hfit] Hbs]. simpl in Hsz. rewrite len_cons in HN2.
    pose proof (batch_size_nonneg bs). pose proof (len_nonneg bs).
    destruct (Append_live w q ids pds b bs) as (w1 & q1 & ids1 & pds1 & Hap & Hcat & Hl1 & Ht1);
      try done; try lia.
    { eapply ids_below_mono; [exact Hb|lia]. }
    destruct Hap as (Hrun & Hq1 & Hu1 & Hs1 & Hg1 & Hd1 & Hids1).
    destruct (IH w1 q1 ids1 pds1 (N + 1)) as (w' & q' & ids' & pds' & Hrun' & Hq' & Hl' & Hcat' & Hg');
      try done; try lia.
    { by rewrite Hg1. }
    { rewrite Hd1. apply Hids1; [lia|done]. }
    exists w', q', ids', pds'. split; [|split; [done|split; [done|split; [|congruence]]]].
    + cbn [for_each]. gom_simpl. by rewrite Hrun.
    + rewrite Hcat', Hcat, <- app_assoc. done.
Qed.

(** A block larger than a segment: every attempt adds an empty segment. *)
Lemma Append_oversized_spec w q ids pds b :
  queue_repr w q ids pds → diskUsageQ q + len b ≤ q_maxSize q → q_maxSize q < 2 ^ 61 →
  ids_left w (q_dir q) → q_maxSegmentSize q < 8 + len b →
  ∃ w' q' k, Append b (w, q) = (Err ErrSegmentFull, (w', q')) ∧
    queue_repr w' q' (ids ++ [k]) (pds ++ [[]]) ∧ diskUsageQ q' = diskUsageQ q + 8.
Proof.
  intros Hq Hsz Hm Hleft Hbig.
  pose proof (diskUsageQ_usage _ _ _ _ Hq) as Hdu.
  pose proof (usage_nonneg _ _ _ _ (qr_segs _ _ _ _ Hq)) as Hu0. pose proof (len_nonneg b) as Hb.
  destruct (queue_tail_view _ _ _ _ Hq)
    as (a & i & p1 & pd & s & dn & -> & -> & Hl & Ht & Hi & Hr & Hdir & Hmax).
  unfold Append. gom_simpl. cbn [fst snd].
  rewrite Ht, i64_small by lia. zbool. unfold onPtr.
  pose proof (seg_size_pos _ _ _ _ Hr). pose proof (sr_bound _ _ _ _ Hr).
  destruct (sr_file _ _ _ _ Hr) as [off Hf].
  assert (onSeg i (seg_append b) (w, q) = (Err ErrSegmentFull, (w, q))) as ->.
  { unfold onSeg. rewrite Hi. erewrite seg_append_full; [|done|rewrite i64_small; lia].
    rewrite list_insert_id by done. by destruct q. }
  destruct (qr_dir _ _ _ _ Hq) as (d & Hd & Hns).
  destruct (addSegment_eval w q d Hd Hns Hleft) as (s' & -> & Hr' & Hfresh & Hdir' & Hmax' & _).
  cbn [fst snd updq modify].
  destruct (queue_repr_extend w q (a ++ [i]) (p1 ++ [pd]) s') as [Hq' Hu']; try done; [lia|].
  rewrite (segs_eq _ _ (qr_segments _ _ _ _ Hq)).
  assert (Hs8 : s_size s' = 8) by by destruct Hr' as [_ _ _ -> _ _ _].
  destruct (sr_file _ _ _ _ Hr') as [off' Hf'].
  set (q1 := set_tail _ _) in *.
  assert (Hk : q_heap q1 !! length (q_heap q) = Some s').
  { subst q1. simpl. rewrite lookup_app_r, Nat.sub_diag by done. done. }
  unfold onSeg. rewrite Hk. erewrite seg_append_full; [|done|rewrite i64_small; lia].
  rewrite list_insert_id by done. replace (set_heap (q_heap q1) q1) with q1 by by destruct q1.
  do 3 eexists. split; [done|]. split; [exact Hq'|].
  rewrite (diskUsageQ_usage _ _ _ _ Hq'), Hdu. done.
Qed.
