(* ===== verification/QueueOpen.v ===== *)
(** * Closing and reopening the hinted handoff queue

    The pending blocks of a queue survive on disk: opening a directory of
    segment files rebuilds the queue, in the order in which [ioutil.ReadDir]
    lists the files. *)

From Stdlib Require Import ZArith Lia.
From Stdlib Require Import Strings.Byte.
From S2P Require Import Prelude GoLib Segment Queue QueueSpec.
Import BigEndian os strconv.

Local Open Scope Z_scope.

(** A segment file: its name, its consumed and its pending blocks. *)
Record segfile : Type := SegFile {
  sf_name : string;
  sf_done : list (list byte);
  sf_pending : list (list byte);
}.

Definition sf_bytes (f : segfile) : list byte := file_bytes (sf_done f) (sf_pending f).

Definition sf_ok (w : world) (dir : string) (f : segfile) : Prop :=
  content w (Path dir (sf_name f)) = Some (sf_bytes f) ∧
  is_Some (ParseUint (sf_name f)) ∧
  Forall (λ r, 0 < len r) (sf_pending f) ∧ len (sf_bytes f) < 2 ^ 62.

(** The segment that a file is loaded into. *)
Definition sf_segment (w : world) (dir : string) (max : Z) (f : segfile) (s : segment) : Prop :=
  seg_repr w s (sf_done f) (sf_pending f) ∧
  s_path s = Path dir (sf_name f) ∧ s_maxSize s = max.

Definition dirent_of (e : string * dirent) (f : segfile) : Prop :=
  e.1 = sf_name f ∧ ∃ t, e.2 = RegularFile (sf_bytes f) t.

Lemma set_heap_twice h h' q : set_heap h (set_heap h' q) = set_heap h q.
Proof. done. Qed.

Lemma set_heap_id q : set_heap (q_heap q) q = q.
Proof. by destruct q. Qed.

Lemma loadFiles_spec w q files fs :
  Forall2 dirent_of files fs → Forall (sf_ok w (q_dir q)) fs →
  ∃ ss, Forall2 (sf_segment w (q_dir q) (q_maxSegmentSize q)) fs ss ∧
    loadFiles files (w, q) =
      (Ok (seq (length (q_heap q)) (length fs)), (w, set_heap (q_heap q ++ ss) q)).
Proof.
  intros Hf. revert q. induction Hf as [|[n e] f files fs [Hn [t He]] _ IH]; intros q Hok.
  - exists []. split; [constructor|]. by rewrite app_nil_r, set_heap_id.
  - apply Forall_cons_1 in Hok as [(Hc & [id Hp] & Hne & Hb) Hok]. simpl in *. subst n e.
    cbn [loadFiles]. rewrite Hp. gom_simpl. cbn [fst snd].
    destruct (newSegment_existing _ _ (q_maxSegmentSize q) _ _ Hc Hne Hb) as (s & Hnew & Hr & Hpath & Hmax).
    unfold onDisk. gom_simpl. cbn [fst snd]. rewrite Hnew. cbn [alloc fst snd].
    destruct (IH (set_heap (q_heap q ++ [s]) q) Hok) as (ss & Hss & ->).
    exists (s :: ss). split; [by constructor|].
    simpl. rewrite length_app, Nat.add_1_r, set_heap_twice, <- app_assoc. done.
Qed.

(** ** The queue rebuilt from the files *)

Lemma seq_lookup_heap (h ss : list segment) k s :
  ss !! k = Some s → (h ++ ss) !! (length h + k)%nat = Some s.
Proof. intros. by rewrite lookup_app_r, Nat.add_comm, Nat.add_sub by lia. Qed.

Lemma usage_seq q h ss :
  q_heap q = h ++ ss →
  usage q (seq (length h) (length ss)) = foldr (λ s acc, s_size s + acc) 0 ss.
Proof.
  intros Hq. assert (∀ pre post, ss = pre ++ post →
    usage q (seq (length h + length pre) (length post)) = foldr (λ s acc, s_size s + acc) 0 post) as H.
  { intros pre post. revert pre. induction post as [|s post IH]; intros pre E; [done|].
    cbn [length seq usage foldr]. rewrite Hq, E, (seq_lookup_heap h _ (length pre) s).
    - f_equal. specialize (IH (pre ++ [s])). rewrite <- app_assoc, length_app in IH.
      specialize (IH E). rewrite Nat.add_assoc, Nat.add_1_r in IH.
      unfold usage in IH. by rewrite Hq, E in IH.
    - rewrite lookup_app_r, Nat.sub_diag; done. }
  specialize (H [] ss eq_refl). simpl in H. by rewrite Nat.add_0_r in H.
Qed.

Lemma queue_repr_loaded w q h ss fs d :
  q_heap q = h ++ ss → Forall2 (sf_segment w (q_dir q) (q_maxSegmentSize q)) fs ss →
  fs ≠ [] → NoDup (sf_name <$> fs) →
  w_dirs w !! q_dir q = Some d → (∀ n, d !! n ≠ Some SubDir) →
  foldr (λ f acc, len (sf_bytes f) + acc) 0 fs < 2 ^ 62 →
  let ids := seq (length h) (length fs) in
  q_segments q = Some ids → q_head q = head ids → q_tail q = last ids →
  queue_repr w q ids (sf_pending <$> fs).
Proof.
  intros Hh Hss Hne Hnd Hd Hns Hsum ids Hs Hhd Htl.
  pose proof (Forall2_length _ _ _ Hss) as Hlen.
  assert (Hat : ∀ k f, fs !! k = Some f → ∃ s, q_heap q !! (length h + k)%nat = Some s ∧
    sf_segment w (q_dir q) (q_maxSegmentSize q) f s).
  { intros k f Hk. destruct (Forall2_lookup_l _ _ _ _ _ Hss Hk) as (s & Hk' & Hseg).
    exists s. rewrite Hh. split; [by apply seq_lookup_heap|done]. }
  split; try done.
  - subst ids. destruct fs; [done|]. done.
  - apply NoDup_ListNoDup, seq_NoDup.
  - apply Forall2_same_length_lookup. split; [subst ids; by rewrite length_seq, length_fmap|].
    intros k i pd Hi Hpd. apply list_lookup_fmap_Some in Hpd as (f & -> & Hk).
    apply lookup_seq in Hi as [-> _]. destruct (Hat k f Hk) as (s & Hheap & Hr & Hp & Hm).
    exists s, (sf_done f). by rewrite Hp.
  - intros i j si sj Hi Hj Ei Ej E.
    apply elem_of_seq in Hi as [Hi1 Hi2], Hj as [Hj1 Hj2].
    destruct (lookup_lt_is_Some_2 fs (i - length h)) as [fi Hfi]; [lia|].
    destruct (lookup_lt_is_Some_2 fs (j - length h)) as [fj Hfj]; [lia|].
    destruct (Hat _ _ Hfi) as (si' & Hsi & _ & Hpi & _).
    destruct (Hat _ _ Hfj) as (sj' & Hsj & _ & Hpj & _).
    replace (length h + (i - length h))%nat with i in Hsi by lia.
    replace (length h + (j - length h))%nat with j in Hsj by lia.
    assert (sf_name fi = sf_name fj) as Hname by congruence.
    enough (i - length h = j - length h)%nat by lia.
    eapply (NoDup_lookup (sf_name <$> fs)); [done| |]; rewrite list_lookup_fmap.
    + by rewrite Hfi.
    + by rewrite Hfj, Hname.
  - eauto.
  - subst ids. rewrite Hlen, (usage_seq _ _ _ Hh).
    replace (foldr (λ s acc, s_size s + acc) 0 ss)
      with (foldr (λ f acc, len (sf_bytes f) + acc) 0 fs); [done|].
    clear -Hss. induction Hss as [|f s fs ss [Hr _] _ IH]; [done|]. simpl. rewrite IH.
    by rewrite (sr_size _ _ _ _ Hr).
Qed.

(** ** Open *)

(** [Open] drops a first segment that is exhausted, if it is not the only one. *)
Definition open_pds (pds : list (list (list byte))) : list (list (list byte)) :=
  match pds with
  | [] :: pd2 :: pds' => pd2 :: pds'
  | _ => pds
  end.

Lemma concat_open_pds pds : concat (open_pds pds) = concat pds.
Proof. by destruct pds as [|[|] [|]]. Qed.

Lemma Open_files w q d fs :
  w_dirs w !! q_dir q = Some d → (∀ n, d !! n ≠ Some SubDir) →
  Forall2 dirent_of (merge_sort name_le (map_to_list d)) fs →
  Forall (sf_ok w (q_dir q)) fs → fs ≠ [] → NoDup (sf_name <$> fs) →
  foldr (λ f acc, len (sf_bytes f) + acc) 0 fs < 2 ^ 62 →
  Forall (λ r, len r ≤ q_maxSegmentSize q) (concat (sf_pending <$> fs)) →
  ∃ w' q' ids, Open (w, q) = (Ok tt, (w', q')) ∧
    queue_repr w' q' ids (open_pds (sf_pending <$> fs)) ∧
    q_maxSegmentSize q' = q_maxSegmentSize q.
Proof.
  intros Hd Hns Hf Hok Hne Hnd Hsum Hmax.
  destruct (loadFiles_spec _ _ _ _ Hf Hok) as (ss & Hss & Hload).
  set (ids := seq (length (q_heap q)) (length fs)) in *.
  assert (∃ i c, ids = i :: c) as (i & c & Eids).
  { subst ids. destruct fs; [done|]. simpl. eauto. }
  set (q1 := set_tail (last ids) (set_head (head ids) (set_segments (Some ids)
               (set_heap (q_heap q ++ ss) q)))).
  assert (Hq1 : queue_repr w q1 ids (sf_pending <$> fs)).
  { by eapply (queue_repr_loaded w q1 (q_heap q) ss fs d). }
  unfold Open, loadSegments, onDisk. gom_simpl. cbn [fst snd].
  unfold ReadDir. rewrite Hd, Hload.
  cbn [updq modify fst snd]. clearbody ids. subst ids. cbn [fst snd].
  unfold segs. cbn [q_segments set_segments default from_option fst snd]. unfold id.
  destruct (queue_head_view _ _ _ _ Hq1) as (? & ? & pd & p2 & _ & _ & _ & Hpds & Hh & _).
  assert (Hcur : onPtr (q_head q1) current (w, q1) = Current (w, q1)).
  { unfold Current. gom_simpl. cbn [fst snd]. by rewrite Hh. }
  match goal with |- context [onPtr (q_head ?x) current (w, ?x)] => change x with q1 end.
  rewrite Hcur. rewrite Hpds in Hq1, Hmax |- *. destruct pd as [|r pd].
  - rewrite (Current_empty _ _ _ _ Hq1). cbn [fst snd].
    pose proof (Forall2_length _ _ _ (qr_segs _ _ _ _ Hq1)) as Hlen.
    destruct p2 as [|pd2 p2], c as [|i' c]; try done; simpl open_pds.
    + rewrite (trimHead_single _ _ i); [eauto 10|]. apply segs_eq, (qr_segments _ _ _ _ Hq1).
    + destruct (trimHead_spec _ _ _ _ _ _ Hq1) as (w2 & q2 & -> & Hq2 & Hm2 & _); [done|].
      exists w2, q2, (i' :: c). done.
  - simpl in Hmax. apply Forall_cons_1 in Hmax as [Hr _].
    destruct (Current_spec _ _ _ _ _ _ Hq1) as (q2 & -> & Hq2 & Hm2 & _); [done|].
    exists w, q2, (i :: c). done.
Qed.

(** ** Close *)

Lemma onSeg_close w q i s f :
  q_heap q !! i = Some s → s_file s = Some f →
  onSeg i close (w, q) = (Ok tt, (w, set_heap (<[i := set_file None s]> (q_heap q)) q)).
Proof. intros Hi Hf. unfold onSeg, close. rewrite Hi. gom_simpl. cbn [fst snd]. by rewrite Hf. Qed.

Lemma close_all w q ids :
  NoDup ids → (∀ i, i ∈ ids → ∃ s f, q_heap q !! i = Some s ∧ s_file s = Some f) →
  ∃ h, for_each ids (λ i, onSeg i close) (w, q) = (Ok tt, (w, set_heap h q)).
Proof.
  revert q. induction ids as [|i ids IH]; intros q Hnd Hopen.
  - exists (q_heap q). by rewrite set_heap_id.
  - apply NoDup_cons in Hnd as [Hni Hnd].
    destruct (Hopen i) as (s & f & Hi & Hf); [left|].
    cbn [for_each]. gom_simpl. rewrite (onSeg_close _ _ _ _ _ Hi Hf).
    destruct (IH (set_heap (<[i := set_file None s]> (q_heap q)) q)) as (h & ->); [done| |].
    + intros j Hj. simpl. rewrite list_lookup_insert_ne by set_solver.
      apply Hopen. by right.
    + by exists h.
Qed.

Lemma Close_spec w q ids pds :
  queue_repr w q ids pds →
  ∃ h, Close (w, q) =
    (Ok tt, (w, set_segments None (set_tail None (set_head None (set_heap h q))))).
Proof.
  intros Hq. destruct Hq as [Hs _ _ _ Hnd Hf _ _ _].
  destruct (close_all w q ids Hnd) as (h & Hc).
  - intros i Hi. apply list_elem_of_lookup in Hi as [k Hk].
    destruct (Forall2_lookup_l _ _ _ _ _ Hf Hk) as (pd & _ & (s & dn & Hi & Hr & _)).
    destruct (sr_file _ _ _ _ Hr) as [off Hfile]. eauto.
  - exists h. unfold Close. gom_simpl. cbn [fst snd]. rewrite (segs_eq _ _ Hs), Hc. done.
Qed.

(** ** Close followed by Open *)

Definition seg_names (q : queue) (ids : list nat) : list string :=
  omap (λ i, (p_name ∘ s_path) <$> q_heap q !! i) ids.

(** The files behind the segments [ids]. *)
Lemma queue_files w q ids pds :
  Forall2 (seg_at w q) ids pds →
  ∃ fs, sf_pending <$> fs = pds ∧ sf_name <$> fs = seg_names q ids ∧
    (Forall (λ n, is_Some (ParseUint n)) (seg_names q ids) → Forall (sf_ok w (q_dir q)) fs) ∧
    foldr (λ f acc, len (sf_bytes f) + acc) 0 fs = usage q ids.
Proof.
  induction 1 as [|i pd ids pds (s & dn & Hi & Hr & Hdir & _) _ (fs & Hp & Hn & Hok & Hu)].
  - exists []. auto.
  - assert (Hnames : seg_names q (i :: ids) = p_name (s_path s) :: seg_names q ids).
    { unfold seg_names. simpl. by rewrite Hi. }
    exists (SegFile (p_name (s_path s)) dn pd :: fs). rewrite Hnames, !fmap_cons, Hp, Hn.
    split; [done|]. split; [done|]. split.
    + intros [Hnum Hnums]%Forall_cons_1. constructor; [|auto].
      unfold sf_ok. simpl. rewrite <- Hdir.
      replace (Path (p_dir (s_path s)) (p_name (s_path s))) with (s_path s) by by destruct (s_path s).
      destruct Hr as [_ Hc _ Hs _ Hne Hb]. rewrite Hs in Hb. done.
    + cbn [foldr usage]. rewrite Hi, Hu, (sr_size _ _ _ _ Hr). done.
Qed.

Lemma seg_names_nodup w q ids pds :
  queue_repr w q ids pds → NoDup (seg_names q ids).
Proof.
  intros [_ _ _ _ Hnd Hf Hp _ _]. clear -Hnd Hf Hp. revert Hnd Hp.
  induction Hf as [|i pd ids pds (s & dn & Hi & Hr & Hdir & _) Hf IH]; intros Hnd Hp; [constructor|].
  apply NoDup_cons in Hnd as [Hni Hnd]. unfold seg_names in *. simpl. rewrite Hi. simpl.
  constructor; [|apply IH; [done|]; intros; eapply Hp; eauto; by right].
  intros (j & Hj & Ej)%list_elem_of_omap.
  apply list_elem_of_lookup in Hj as Hk. destruct Hk as [k Hk].
  destruct (Forall2_lookup_l _ _ _ _ _ Hf Hk) as (pdj & _ & (sj & dnj & Hsj & _ & Hdirj & _)).
  rewrite Hsj in Ej. simpl in Ej. injection Ej as Ej.
  assert (i = j) as <-; [|done]. eapply (Hp i j s sj); try done; [left|by right|].
  destruct (s_path s), (s_path sj). simpl in *. congruence.
Qed.

(** Listing a directory of segment files whose names are in order. *)
Lemma ReadDir_files w dir d fs :
  w_dirs w !! dir = Some d → Forall (sf_ok w dir) fs → NoDup (sf_name <$> fs) →
  (∀ n, is_Some (d !! n) → n ∈ sf_name <$> fs) →
  StronglySorted String.le (sf_name <$> fs) →
  Forall2 dirent_of (merge_sort name_le (map_to_list d)) fs.
Proof.
  intros Hd Hok Hnd Hall Hsorted.
  set (L := (λ f, (sf_name f, default SubDir (d !! sf_name f))) <$> fs).
  assert (Hfile : ∀ f, f ∈ fs → ∃ t, d !! sf_name f = Some (RegularFile (sf_bytes f) t)).
  { intros f Hf. rewrite Forall_forall in Hok. destruct (Hok f Hf) as (Hc & _).
    unfold content, entry in Hc. simpl in Hc. rewrite Hd in Hc. simpl in Hc.
    destruct (d !! sf_name f) as [[]|]; naive_solver. }
  assert (HL : Forall2 dirent_of L fs).
  { subst L. apply Forall2_fmap_l, Forall2_same_length_lookup. split; [done|].
    intros k f f' Hf Hf'. assert (f' = f) as -> by congruence.
    destruct (Hfile f) as [t Ht]; [by eapply list_elem_of_lookup_2|].
    split; [done|]. exists t. simpl. by rewrite Ht. }
  assert (HLnames : L.*1 = sf_name <$> fs).
  { subst L. rewrite <- list_fmap_compose. done. }
  enough (merge_sort name_le (map_to_list d) = L) as -> by done.
  assert (HLperm : L ≡ₚ map_to_list d).
  { apply NoDup_Permutation.
    - eapply NoDup_fmap_1. by rewrite HLnames.
    - apply NoDup_map_to_list.
    - intros [n e]. rewrite elem_of_map_to_list. subst L. rewrite list_elem_of_fmap. split.
      + intros (f & [= -> ->] & Hf). destruct (Hfile f Hf) as [t ->]. done.
      + intros Hn. assert (Hin : n ∈ sf_name <$> fs) by (apply Hall; eauto).
        apply list_elem_of_fmap in Hin as (f & -> & Hf). exists f. by rewrite Hn. }
  eapply (StronglySorted_unique_strong name_le).
  - intros [n1 e1] [n2 e2] H1 H2 Hle1 Hle2.
    rewrite merge_sort_Permutation, elem_of_map_to_list in H1.
    rewrite HLperm, elem_of_map_to_list in H2.
    assert (n1 = n2) as <- by by apply (anti_symm String.le). congruence.
  - apply StronglySorted_merge_sort.
    + intros x y z. apply (transitivity (R := String.le)).
    + intros x y. apply (total String.le).
  - clear -Hsorted HLnames. rewrite <- HLnames in Hsorted. clear HLnames.
    induction L as [|[n e] L IH]; [constructor|]. rewrite fmap_cons in Hsorted.
    inversion Hsorted as [|? ? Hs Hall]; subst. constructor; [auto|].
    rewrite Forall_fmap in Hall. eapply Forall_impl; [exact Hall|done].
  - rewrite merge_sort_Permutation. done.
Qed.

(** Closing a queue and opening it again keeps the pending blocks and their
    order, when the directory lists the segments in queue order. *)
Lemma reopen_spec w q ids pds d :
  queue_repr w q ids pds → w_dirs w !! q_dir q = Some d →
  Forall (λ n, is_Some (ParseUint n)) (seg_names q ids) →
  (∀ n, is_Some (d !! n) → n ∈ seg_names q ids) →
  StronglySorted String.le (seg_names q ids) →
  Forall (λ r, len r ≤ q_maxSegmentSize q) (concat pds) →
  ∃ w' q' ids', (_ ← Close; Open) (w, q) = (Ok tt, (w', q')) ∧
    queue_repr w' q' ids' (open_pds pds).
Proof.
  intros Hq Hd Hnum Hall Hsorted Hmax.
  pose proof (seg_names_nodup _ _ _ _ Hq) as Hnd.
  destruct (Close_spec _ _ _ _ Hq) as (h & Hclose).
  destruct (queue_files _ _ _ _ (qr_segs _ _ _ _ Hq)) as (fs & Hpd & Hname & Hok & Hsum).
  specialize (Hok Hnum). rewrite <- Hname in Hnd, Hall, Hsorted. rewrite <- Hpd in Hmax |- *.
  set (q1 := set_segments None (set_tail None (set_head None (set_heap h q)))).
  destruct (Open_files w q1 d fs) as (w' & q' & ids' & Hopen & Hq' & _); try done.
  - destruct (qr_dir _ _ _ _ Hq) as (d' & Hd' & Hns). congruence.
  - by apply (ReadDir_files w (q_dir q)).
  - intros ->. apply queue_repr_pds in Hq. by rewrite <- Hpd in Hq.
  - rewrite Hsum. apply (qr_usage _ _ _ _ Hq).
  - exists w', q', ids'. split; [|done]. subst q1. gom_simpl. by rewrite Hclose, Hopen.
Qed.
