(* ===== verification/QueuePurge.v ===== *)
(** * Purging old segments of the hinted handoff queue

    The loop of [PurgeOlderThan] ends after at most one round per segment and
    one more.  When the only segment is purged, the loop appends a fresh
    segment without making it the tail: the tail keeps pointing to the closed,
    deleted segment. *)

From Stdlib Require Import ZArith Lia.
From Stdlib Require Import Strings.Byte.
From S2P Require Import Prelude GoLib Segment Queue QueueSpec.
Import BigEndian os strconv.

Local Open Scope Z_scope.

(** Modification time of the head segment. *)
Lemma head_lastModified w q ids pds i c :
  queue_repr w q ids pds → ids = i :: c →
  ∃ m s, q_heap q !! i = Some s ∧ mtime w (s_path s) = Some m ∧
    onPtr (q_head q) lastModified (w, q) = (Ok m, (w, q)).
Proof.
  intros Hq ->. destruct (queue_head_view _ _ _ _ Hq)
    as (? & ? & pd & p2 & s & dn & [= <- <-] & -> & Hh & Hi & Hr & _).
  destruct (sr_file _ _ _ _ Hr) as [off Hf]. pose proof (sr_content _ _ _ _ Hr) as Hc.
  unfold content in Hc. destruct (entry w (s_path s)) as [[ct m|]|] eqn:He; try done.
  exists m, s. split; [done|]. unfold mtime. rewrite He. split; [done|].
  rewrite Hh. unfold onPtr, onSeg, lastModified, onWorld. rewrite Hi. gom_simpl. cbn [fst snd].
  rewrite Hf. unfold Stat. cbn [f_path fst snd]. rewrite He. cbn [fst snd].
  rewrite list_insert_id by done. by destruct q.
Qed.

(** [trimHead] does not look at the tail. *)
Lemma trimHead_set_tail w q t :
  trimHead (w, set_tail t q) =
    let '(r, (w', q')) := trimHead (w, q) in (r, (w', set_tail t q')).
Proof.
  unfold trimHead. gom_simpl. cbn [fst snd]. change (segs (set_tail t q)) with (segs q).
  destruct (segs q) as [|i [|i' rest]]; [done|done|]. destruct q as [dir hd tl m1 m2 sg hp].
  unfold set_tail, set_segments, updq, modify, onPtr, onSeg. cbn [fst snd q_head q_heap].
  destruct hd as [h|]; [|done]. cbn [q_heap].
  destruct (hp !! h) as [s|]; [|done]. unfold close. gom_simpl. cbn [fst snd].
  destruct (s_file s); [|done]. cbn [upd modify fst snd q_heap set_heap].
  destruct (<[h := set_file None s]> hp !! h) as [s'|]; [|done].
  unfold onDisk, Remove. gom_simpl. cbn [fst snd].
  by destruct (entry w (s_path s')).
Qed.

Lemma set_tail_twice t t' q : set_tail t (set_tail t' q) = set_tail t q.
Proof. done. Qed.

(** What is left when every segment was old: a queue of one fresh segment [k],
    except that the tail still points to the closed segment [i]. *)
Definition stale (w : world) (q : queue) (k : nat) : Prop :=
  ∃ i si q0, q = set_tail (Some i) q0 ∧ queue_repr w q0 [k] [[]] ∧
    q_heap q0 !! i = Some si ∧ s_file si = None ∧ usage q0 [k] = 8.

(** Modification time of the segment at pointer [i]. *)
Definition seg_mtime (w : world) (q : queue) (i : nat) : option Z :=
  s ← q_heap q !! i; mtime w (s_path s).

Lemma mtime_set_entry w p c m :
  (∃ d, w_dirs w !! p_dir p = Some d) → mtime (set_entry w p (RegularFile c m)) p = Some m.
Proof.
  intros [d Hd]. unfold mtime, entry. simpl. rewrite lookup_alter_eq, Hd. simpl.
  by rewrite lookup_insert_eq.
Qed.

Lemma mtime_remove_ne p q d m :
  p ≠ q → mtime (World (alter (delete (p_name p)) (p_dir p) d) m) q = mtime (World d m) q.
Proof.
  intros H. unfold mtime, entry. simpl. destruct p as [pd pn], q as [qd qn]. simpl in *.
  destruct (decide (pd = qd)) as [->|Hd]; [|by rewrite lookup_alter_ne].
  rewrite lookup_alter_eq. destruct (d !! qd) as [e|]; simpl; [|done].
  rewrite lookup_delete_ne; [done|]. congruence.
Qed.

Lemma purge_last_segment w q i pd :
  queue_repr w q [i] [pd] → ids_left w (q_dir q) → usage q [i] + 8 < 2 ^ 62 →
  ∃ w' q' k, (_ ← addSegment; trimHead) (w, q) = (Ok tt, (w', q')) ∧ stale w' q' k ∧
    q_head q' = Some k ∧ onPtr (q_head q') lastModified (w', q') = (Ok (w_now w), (w', q')) ∧
    q_maxSize q' = q_maxSize q.
Proof.
  intros Hq Hleft Hu. pose proof (qr_tail _ _ _ _ Hq) as Ht. simpl in Ht.
  destruct (qr_dir _ _ _ _ Hq) as (d & Hd & Hns).
  destruct (queue_head_view _ _ _ _ Hq) as (? & ? & ? & ? & si & dn & [= <- <-] & [= <- <-] & _ & Hi & Hri & _).
  destruct (addSegment_eval w q d Hd Hns Hleft) as (s & Hadd & Hr & Hfresh & Hdir & Hmax & _).
  destruct (queue_repr_extend w q [i] [pd] s) as [Hq1 _]; try done.
  rewrite (segs_eq _ _ (qr_segments _ _ _ _ Hq)) in Hadd.
  set (w1 := set_entry w _ _) in *. simpl app in *.
  set (q0 := set_segments _ _) in *. set (k := length (q_heap q)) in *.
  assert (Hq0 : q0 = set_tail (Some i) (set_tail (Some k) q0)).
  { subst q0. unfold set_tail, set_segments, set_heap. simpl. by rewrite <- Ht. }
  assert (Hik : (i < k)%nat) by by eapply lookup_lt_Some.
  destruct (trimHead_spec _ _ _ _ _ _ Hq1) as (w2 & q2 & Htrim & Hq2 & _ & Hms & _ & s1 & Hs1 & Hheap & Hw2);
    [done|].
  simpl in Hs1. rewrite lookup_app_l, Hi in Hs1 by done. injection Hs1 as <-.
  assert (Hk : q_heap q2 !! k = Some s).
  { rewrite Hheap, list_lookup_insert_ne by lia. simpl.
    rewrite lookup_app_r by done. by rewrite Nat.sub_diag. }
  assert (Hne : s_path si ≠ s_path s).
  { intros E. pose proof (sr_content _ _ _ _ Hri) as Hc. unfold content in Hc.
    by rewrite E, Hfresh in Hc. }
  exists w2, (set_tail (Some i) q2), k. split; [|split].
  - gom_simpl. by rewrite Hadd, Hq0, trimHead_set_tail, Htrim.
  - exists i, (set_file None si), q2. split; [done|]. split; [done|]. split; [|split; [done|]].
    + rewrite Hheap. apply list_lookup_insert_eq. simpl. rewrite length_app. lia.
    + cbn [usage foldr]. rewrite Hk. by destruct Hr as [_ _ _ -> _ _ _].
  - split; [apply (qr_head _ _ _ _ Hq2)|]. split; [|done].
    destruct (head_lastModified _ _ _ _ _ _ Hq2 eq_refl) as (m & s' & Hs' & Hm & Hl).
    assert (s' = s) as -> by congruence.
    assert (m = w_now w) as ->.
    { rewrite Hw2, mtime_remove_ne in Hm by done.
      change (World _ _) with w1 in Hm. unfold w1 in Hm. rewrite mtime_set_entry in Hm; [congruence|].
      rewrite Hdir. eauto. }
    change (q_head (set_tail (Some i) q2)) with (q_head q2).
    revert Hl. rewrite (qr_head _ _ _ _ Hq2). simpl. unfold onSeg. cbn [q_heap set_tail].
    rewrite Hk. destruct (lastModified (w2, s)) as [r [w3 s3]]. intros [= -> -> E].
    f_equal. f_equal. unfold set_heap, set_tail in *. simpl. destruct q2; simpl in *. congruence.
Qed.

(** ** The loop *)

Definition older (w : world) (q : queue) (cutoff : Z) (i : nat) : Prop :=
  ∃ m, seg_mtime w q i = Some m ∧ m < cutoff.

(** The outcome of a purge of the segments [ids]: the longest prefix of old
    segments is gone, and a queue without segments left is [stale]. *)
Definition purged (w : world) (q : queue) (ids : list nat) (pds : list (list (list byte)))
    (cutoff : Z) (w' : world) (q' : queue) : Prop :=
  (∃ old i keep m, ids = old ++ i :: keep ∧ Forall (older w q cutoff) old ∧
     seg_mtime w q i = Some m ∧ cutoff ≤ m ∧
     queue_repr w' q' (i :: keep) (drop (length old) pds)) ∨
  (Forall (older w q cutoff) ids ∧ ∃ k, stale w' q' k).

Lemma purged_cons w q w1 q1 i ids pd pds cutoff w' q' :
  older w q cutoff i → (∀ j, j ∈ ids → seg_mtime w1 q1 j = seg_mtime w q j) →
  purged w1 q1 ids pds cutoff w' q' → purged w q (i :: ids) (pd :: pds) cutoff w' q'.
Proof.
  intros Hi Hsame [(old & j & keep & m & -> & Hold & Hm & Hc & Hq)|[Hold Hst]].
  - left. exists (i :: old), j, keep, m. split; [done|]. split; [|split; [|done]].
    + constructor; [done|]. apply Forall_forall. intros x Hx. rewrite Forall_forall in Hold.
      destruct (Hold x Hx) as (mx & Hmx & ?). exists mx. rewrite Hsame in Hmx by set_solver. done.
    + rewrite <- Hsame by set_solver. done.
  - right. split; [|done]. constructor; [done|]. apply Forall_forall. intros x Hx.
    rewrite Forall_forall in Hold. destruct (Hold x Hx) as (mx & Hmx & ?). exists mx.
    rewrite Hsame in Hmx by done. done.
Qed.

(** Removing a file leaves no segment number less to use. *)
Lemma ids_left_remove w dir p :
  ids_left w dir → ids_left (World (alter (delete (p_name p)) (p_dir p) (w_dirs w)) (w_now w)) dir.
Proof.
  intros Hleft d n id Hd [e He] Hid. simpl in Hd.
  rewrite lookup_alter in Hd. case_decide as E; [|by eapply (Hleft d n id); eauto].
  destruct (w_dirs w !! dir) as [d0|] eqn:Hd0; [|by rewrite E, Hd0 in Hd].
  rewrite E, Hd0 in Hd. simpl in Hd. injection Hd as <-.
  apply lookup_delete_Some in He as [_ He]. eapply (Hleft d0 n id); eauto.
Qed.

Lemma purgeLoop_spec ids pds w q cutoff fuel :
  queue_repr w q ids pds → ids_left w (q_dir q) → usage q ids + 8 < 2 ^ 62 →
  cutoff ≤ w_now w → (length ids < fuel)%nat →
  ∃ w' q', purgeLoop fuel cutoff (w, q) = (Ok (Some tt), (w', q')) ∧
    purged w q ids pds cutoff w' q' ∧ q_maxSize q' = q_maxSize q.
Proof.
  revert pds w q fuel. induction ids as [|i ids IH]; intros pds w q fuel Hq Hleft Hu Hnow Hfuel.
  { by destruct (qr_nonempty _ _ _ _ Hq). }
  destruct fuel as [|fuel]; [simpl in Hfuel; lia|].
  destruct (queue_head_view _ _ _ _ Hq) as (? & ? & pd & p2 & s & dn & [= <- <-] & -> & _ & Hi & Hr & _).
  destruct (head_lastModified _ _ _ _ _ _ Hq eq_refl) as (m & s' & Hs' & Hm & Hl).
  assert (s' = s) as -> by congruence.
  assert (Hsm : seg_mtime w q i = Some m). { unfold seg_mtime. by rewrite Hi. }
  cbn [purgeLoop]. gom_simpl. cbn [fst snd]. rewrite Hl.
  destruct (Z.leb_spec cutoff m) as [Hc|Hc].
  { exists w, q. split; [done|]. split; [|done]. left. exists [], i, ids, m. by simpl. }
  rewrite (segs_eq _ _ (qr_segments _ _ _ _ Hq)).
  destruct ids as [|j ids].
  - destruct p2; [|by destruct Hq as [_ _ _ _ _ Hf _ _ _]; apply Forall2_length in Hf].
    destruct (purge_last_segment _ _ _ _ Hq Hleft Hu) as (w' & q' & k & Hrun & Hst & _ & Hl' & Hms).
    gom_simpl. destruct (addSegment (w, q)) as [[|e|] wq]; try done. rewrite Hrun.
    destruct fuel as [|fuel]; [simpl in Hfuel; lia|].
    cbn [purgeLoop]. gom_simpl. cbn [fst snd]. rewrite Hl'. zbool.
    exists w', q'. split; [done|]. split; [|done]. right. split; [|eauto].
    constructor; [|constructor]. by exists m.
  - destruct (trimHead_spec _ _ _ _ _ _ Hq) as (w1 & q1 & -> & Hq1 & _ & Hms & Hdir & s1 & Hs1 & Hheap & Hw1);
      [done|].
    assert (s1 = s) as -> by congruence.
    pose proof (qr_nodup _ _ _ _ Hq) as [Hni _]%NoDup_cons.
    destruct (IH p2 w1 q1 fuel Hq1) as (w' & q' & -> & Hp & Hms').
    + rewrite Hdir, Hw1. by apply ids_left_remove.
    + assert (usage q1 (j :: ids) = usage q (j :: ids)) as ->.
      { rewrite <- (usage_insert_ne q (j :: ids) i (set_file None s)) by done.
        unfold usage. simpl. by rewrite Hheap. }
      pose proof (seg_size_pos _ _ _ _ Hr). cbn [usage foldr] in Hu. rewrite Hi in Hu.
      unfold usage. cbn [foldr]. lia.
    + by rewrite Hw1.
    + simpl in *. lia.
    + exists w', q'. split; [done|]. split; [|congruence].
      eapply purged_cons; [by exists m| |exact Hp].
      intros x Hx. unfold seg_mtime. rewrite Hheap, list_lookup_insert_ne by congruence.
      destruct (q_heap q !! x) as [sx|] eqn:Ex; [|done]. simpl.
      rewrite Hw1, mtime_remove_ne; [by destruct w|].
      intros E. assert (i = x) as <-; [|done].
      eapply (qr_paths _ _ _ _ Hq i x); try done; [left|by right].
Qed.

(** ** Appending to a stale queue *)

Lemma Append_stale w q k b :
  stale w q k → diskUsageQ q + len b ≤ q_maxSize q → q_maxSize q < 2 ^ 61 →
  Append b (w, q) = (Ok tt, (w, q)).
Proof.
  intros (i & si & q0 & -> & Hq & Hi & Hf & _) Hsz Hm.
  pose proof (diskUsageQ_usage _ _ _ _ Hq) as Hdu.
  pose proof (usage_nonneg _ _ _ _ (qr_segs _ _ _ _ Hq)) as Hu0.
  change (diskUsageQ (set_tail (Some i) q0)) with (diskUsageQ q0) in *.
  unfold set_tail in Hsz, Hm. cbn [q_maxSize] in Hsz, Hm.
  unfold Append. gom_simpl. cbn [fst snd].
  change (diskUsageQ (set_tail (Some i) q0)) with (diskUsageQ q0).
  change (q_maxSize (set_tail (Some i) q0)) with (q_maxSize q0).
  pose proof (len_nonneg b). rewrite i64_small by lia. zbool.
  change (q_tail (set_tail (Some i) q0)) with (Some i). cbn [onPtr].
  unfold onSeg. change (q_heap (set_tail (Some i) q0)) with (q_heap q0). rewrite Hi.
  rewrite seg_append_closed by done. rewrite list_insert_id by done. by destruct q0.
Qed.

Lemma Current_stale w q k : stale w q k → Current (w, q) = (Err EOF, (w, q)).
Proof.
  intros (i & si & q0 & -> & Hq & _).
  pose proof (Current_empty _ _ _ _ Hq) as Hc. revert Hc.
  unfold Current. gom_simpl. cbn [fst snd]. change (q_head (set_tail (Some i) q0)) with (q_head q0).
  rewrite (qr_head _ _ _ _ Hq). simpl. unfold onSeg.
  change (q_heap (set_tail (Some i) q0)) with (q_heap q0).
  destruct (q_heap q0 !! k) as [s|]; [|done].
  destruct (current (w, s)) as [r [w' s']]. intros [= -> -> E].
  do 2 f_equal. destruct q0. unfold set_heap, set_tail in *. simpl in *. congruence.
Qed.

Lemma stale_usage w q k : stale w q k → diskUsageQ q = 8.
Proof.
  intros (i & si & q0 & -> & Hq & _ & _ & Hu).
  change (diskUsageQ (set_tail (Some i) q0)) with (diskUsageQ q0).
  by rewrite (diskUsageQ_usage _ _ _ _ Hq).
Qed.
