(* ===== verification/QueueTheorems.v ===== *)
(** * Properties of the hinted handoff queue

    The theorems about hh/queue.go, each with a concrete run that meets its
    hypotheses. *)

From Stdlib Require Import ZArith Lia.
From Stdlib Require Import Strings.Byte.
From S2P Require Import Prelude GoLib Segment Queue QueueSpec QueueOpen QueuePurge.
Import BigEndian os strconv.

Local Open Scope Z_scope.

(** ** A queue to run: directory "hh", segments of at most 40 bytes *)

Definition block (n : nat) : list byte := replicate n x61.

Definition demo_world : world := World {["hh"%string := ∅]} 1000.

Definition demo_queue : queue :=
  mkQueue "hh" None None 40 1000 (Some []) [].

(** The state reached by running [m] from the closed demo queue. *)
Definition demo_run {A} (m : QM A) : world * queue := (m (demo_world, demo_queue)).2.

(** Opened; opened with three blocks in two segments. *)
Definition demo_opened : world * queue := demo_run Open.
Definition demo_three : world * queue :=
  demo_run (_ ← Open; _ ← Append (block 5); _ ← Append (block 6); Append (block 7)).
(** One segment, filled and read to its end. *)
Definition demo_exhausted : world * queue :=
  demo_run (_ ← Open; _ ← Append (block 20); Advance).

(** Deciding the side conditions on a concrete directory. *)
Definition plain_dir (N : Z) (d : gmap string dirent) : bool :=
  forallb (λ e, match e.2 with
                | SubDir => false
                | RegularFile _ _ =>
                    match ParseUint e.1 with Some id => id <? N | None => true end
                end) (map_to_list d).

Lemma plain_dir_spec N d n e :
  plain_dir N d = true → d !! n = Some e →
  e ≠ SubDir ∧ ∀ id, ParseUint n = Some id → id < N.
Proof.
  unfold plain_dir. rewrite forallb_forall. intros H Hn.
  specialize (H (n, e)). rewrite <- list_elem_of_In, elem_of_map_to_list in H.
  specialize (H Hn). simpl in H. destruct e; [|done]. split; [done|].
  intros id Hid. rewrite Hid in H. by apply Z.ltb_lt in H.
Qed.

Lemma plain_no_subdir w dir d :
  w_dirs w !! dir = Some d → plain_dir (2 ^ 64) d = true →
  ∃ d, w_dirs w !! dir = Some d ∧ ∀ n, d !! n ≠ Some SubDir.
Proof.
  intros Hd Hp. exists d. split; [done|]. intros n Hn.
  by destruct (plain_dir_spec _ _ _ _ Hp Hn).
Qed.

Lemma plain_ids_below w dir N d :
  w_dirs w !! dir = Some d → plain_dir N d = true → ids_below w dir N.
Proof.
  intros Hd Hp d' n id Hd' [e He] Hid. assert (d' = d) as -> by congruence.
  by eapply plain_dir_spec.
Qed.

Ltac seg_concrete dn :=
  eexists _, dn; split; [vm_compute; reflexivity|split; [|split; vm_compute; reflexivity]];
  split; [vm_compute; eauto|vm_compute; reflexivity..|repeat constructor; vm_compute; reflexivity
         |vm_compute; reflexivity].

Ltac paths_concrete :=
  let i := fresh in let j := fresh in let Hi := fresh in let Hj := fresh in
  let Ei := fresh in let Ej := fresh in let E := fresh in
  intros i j ? ? Hi Hj Ei Ej E; rewrite !elem_of_cons, elem_of_nil in Hi, Hj;
  repeat match goal with
    | H : _ ∨ _ |- _ => destruct H as [->|H]
    | H : False |- _ => destruct H
    end;
  first [ reflexivity
        | exfalso; vm_compute in Ei; vm_compute in Ej;
          injection Ei as <-; injection Ej as <-; discriminate E ].

Ltac repr_concrete dn :=
  split;
  [ vm_compute; done | vm_compute; done | vm_compute; done | done
  | apply (bool_decide_unpack _); vm_compute; done
  | repeat constructor; seg_concrete dn
  | paths_concrete
  | eapply plain_no_subdir; [vm_compute; reflexivity|vm_compute; reflexivity]
  | vm_compute; reflexivity ].

Lemma demo_three_repr :
  queue_repr demo_three.1 demo_three.2 [0; 1]%nat [[block 5; block 6]; [block 7]].
Proof. repr_concrete (@nil (list byte)). Qed.

Lemma demo_opened_repr : queue_repr demo_opened.1 demo_opened.2 [0%nat] [[]].
Proof. repr_concrete (@nil (list byte)). Qed.

Lemma demo_exhausted_repr : queue_repr demo_exhausted.1 demo_exhausted.2 [0%nat] [[]].
Proof. repr_concrete [block 20]. Qed.

Lemma demo_opened_ids_below : ids_below demo_opened.1 "hh" 5.
Proof. eapply plain_ids_below; [vm_compute; reflexivity|vm_compute; reflexivity]. Qed.

(** ** First in, first out *)

(** C1. First in, first out: when every segment before the last has pending blocks,
    and the last one has some, is fresh, or has room for the first new block,
    appending a batch of non-empty blocks that fit a segment and the queue, and
    then reading until the end, returns the blocks that were pending, followed by
    the batch, in order, and leaves the queue empty, at [io.EOF]. *)
Theorem queue_fifo w q ids pds bs N :
  queue_repr w q ids pds → live pds → tail_usable q ids pds bs →
  Forall (λ r, len r ≤ q_maxSegmentSize q) (concat pds) →
  Forall (λ b, 0 < len b ∧ 8 + len b ≤ q_maxSegmentSize q) bs →
  diskUsageQ q + batch_size bs ≤ q_maxSize q → q_maxSize q < 2 ^ 61 →
  q_maxSegmentSize q < 2 ^ 61 →
  ids_below w (q_dir q) N → 0 < N → N + len bs < 2 ^ 64 →
  ∃ w' q' ids' pds', (_ ← for_each bs Append; drain (length (concat pds ++ bs))) (w, q) =
      (Ok (concat pds ++ bs), (w', q')) ∧
    queue_repr w' q' ids' pds' ∧ concat pds' = [] ∧ Current (w', q') = (Err EOF, (w', q')).
Proof.
  intros Hq Hl Ht Hold Hbs Hsz Hm1 Hm2 Hb HN HN2.
  destruct (append_batch w q ids pds bs N) as (w1 & q1 & ids1 & pds1 & Hrun & Hq1 & Hl1 & Hcat & Hg);
    try done.
  destruct (drain_all w1 q1 ids1 pds1 Hq1 Hl1) as (w2 & q2 & ids2 & pds2 & Hd & He).
  - rewrite Hcat, Hg. apply Forall_app. split; [done|].
    eapply Forall_impl; [exact Hbs|]. simpl. lia.
  - exists w2, q2, ids2, pds2. rewrite <- Hcat. split; [|done]. gom_simpl. by rewrite Hrun.
Qed.

(** A fresh queue, and a queue that was read to its end and has room. *)
Lemma queue_fifo_witness :
  (∃ w' q' ids' pds', (_ ← for_each [block 5; block 6; block 7] Append; drain 3)
      (demo_opened.1, demo_opened.2) =
      (Ok [block 5; block 6; block 7], (w', q')) ∧
    queue_repr w' q' ids' pds' ∧ concat pds' = [] ∧ Current (w', q') = (Err EOF, (w', q'))) ∧
  ∃ w' q' ids' pds', (_ ← for_each [block 2] Append; drain 1) (demo_exhausted.1, demo_exhausted.2) =
      (Ok [block 2], (w', q')) ∧
    queue_repr w' q' ids' pds' ∧ concat pds' = [] ∧ Current (w', q') = (Err EOF, (w', q')).
Proof.
  split.
  - apply (queue_fifo demo_opened.1 demo_opened.2 [0%nat] [[]] [block 5; block 6; block 7] 5).
    + apply demo_opened_repr.
    + constructor.
    + right. exists 0%nat. eexists. split; [done|]. split; [vm_compute; reflexivity|left; vm_compute; reflexivity].
    + constructor.
    + repeat constructor; vm_compute; (reflexivity || discriminate).
    + vm_compute. discriminate.
    + vm_compute. reflexivity.
    + vm_compute. reflexivity.
    + apply demo_opened_ids_below.
    + lia.
    + vm_compute. reflexivity.
  - apply (queue_fifo demo_exhausted.1 demo_exhausted.2 [0%nat] [[]] [block 2] 5).
    + apply demo_exhausted_repr.
    + constructor.
    + right. exists 0%nat. eexists. split; [done|]. split; [vm_compute; reflexivity|right; vm_compute; discriminate].
    + constructor.
    + repeat constructor; vm_compute; (reflexivity || discriminate).
    + vm_compute. discriminate.
    + vm_compute. reflexivity.
    + vm_compute. reflexivity.
    + eapply plain_ids_below; [vm_compute; reflexivity|vm_compute; reflexivity].
    + lia.
    + vm_compute. reflexivity.
Defined.

(** Closing concrete side conditions. *)
Ltac side :=
  first [ apply demo_opened_repr | apply demo_three_repr | apply demo_exhausted_repr
        | eapply plain_ids_below; [vm_compute; reflexivity|vm_compute; reflexivity]
        | vm_compute; first [reflexivity | discriminate] ].

(** A block that fits the queue's and the segments' limits becomes the last
    pending block, no pending block is lost, and the disk grows by at most the
    block, its length prefix and one segment footer. *)
Theorem Append_enqueues w q ids pds b :
  queue_repr w q ids pds → 0 < len b → diskUsageQ q + len b ≤ q_maxSize q →
  q_maxSize q < 2 ^ 61 → q_maxSegmentSize q < 2 ^ 61 →
  ids_left w (q_dir q) → 8 + len b ≤ q_maxSegmentSize q →
  ∃ w' q' ids' pds', Append b (w, q) = (Ok tt, (w', q')) ∧ queue_repr w' q' ids' pds' ∧
    concat pds' = concat pds ++ [b] ∧ diskUsageQ q' ≤ diskUsageQ q + len b + 16.
Proof.
  intros Hq Hpos Hsz Hm1 Hm2 Hleft Hseg.
  destruct (Append_spec w q ids pds b) as (w' & q' & ids' & pds' & (? & ? & ? & _) & ?); try done.
  by exists w', q', ids', pds'.
Qed.

Lemma Append_enqueues_witness :
  ∃ w' q' ids' pds', Append (block 30) (demo_three.1, demo_three.2) = (Ok tt, (w', q')) ∧
    queue_repr w' q' ids' pds' ∧
    concat pds' = [block 5; block 6; block 7] ++ [block 30] ∧
    diskUsageQ q' ≤ diskUsageQ demo_three.2 + len (block 30) + 16.
Proof. apply (Append_enqueues demo_three.1 demo_three.2 [0; 1]%nat [[block 5; block 6]; [block 7]]); side. Defined.

(** Reading returns the oldest pending block without consuming it, and
    advancing removes exactly that block. *)
Theorem Current_Advance_dequeues w q ids r pd pds :
  queue_repr w q ids ((r :: pd) :: pds) → len r ≤ q_maxSegmentSize q →
  ∃ q1 q2 w' q' ids' pds', Current (w, q) = (Ok r, (w, q1)) ∧ Current (w, q1) = (Ok r, (w, q2)) ∧
    Advance (w, q2) = (Ok tt, (w', q')) ∧ queue_repr w' q' ids' pds' ∧
    concat pds' = pd ++ concat pds.
Proof.
  intros Hq Hr. destruct (Current_spec _ _ _ _ _ _ Hq Hr) as (q1 & Hc & Hq1 & Hm1 & _).
  rewrite <- Hm1 in Hr.
  destruct (Current_spec _ _ _ _ _ _ Hq1 Hr) as (q2 & Hc2 & Hq2 & _).
  destruct (Advance_spec _ _ _ _ _ _ Hq2) as (w' & q' & ids' & Ha & Hq' & _).
  exists q1, q2, w', q', ids', (advance_pds pd pds).
  split; [done|]. split; [done|]. split; [done|]. split; [done|]. apply concat_advance_pds.
Qed.

Lemma Current_Advance_dequeues_witness :
  ∃ q1 q2 w' q' ids' pds', Current (demo_three.1, demo_three.2) = (Ok (block 5), (demo_three.1, q1)) ∧
    Current (demo_three.1, q1) = (Ok (block 5), (demo_three.1, q2)) ∧
    Advance (demo_three.1, q2) = (Ok tt, (w', q')) ∧ queue_repr w' q' ids' pds' ∧
    concat pds' = [block 6] ++ [block 7].
Proof. apply (Current_Advance_dequeues demo_three.1 demo_three.2 [0; 1]%nat (block 5) [block 6] [[block 7]]); side. Defined.

(** C20. Closing the queue and opening it again keeps every pending block, in
    order, when the directory listing (which is sorted by file name) yields the
    segments in queue order. *)
Theorem reopen_keeps_blocks w q ids pds d :
  queue_repr w q ids pds → w_dirs w !! q_dir q = Some d →
  Forall (λ n, is_Some (ParseUint n)) (seg_names q ids) →
  (∀ n, is_Some (d !! n) → n ∈ seg_names q ids) →
  StronglySorted String.le (seg_names q ids) →
  Forall (λ r, len r ≤ q_maxSegmentSize q) (concat pds) →
  ∃ w' q' ids' pds', (_ ← Close; Open) (w, q) = (Ok tt, (w', q')) ∧
    queue_repr w' q' ids' pds' ∧ concat pds' = concat pds.
Proof.
  intros Hq Hd Hnum Hall Hsorted Hmax.
  destruct (reopen_spec w q ids pds d) as (w' & q' & ids' & Hrun & Hq'); try done.
  exists w', q', ids', (open_pds pds). split; [done|]. split; [done|]. apply concat_open_pds.
Qed.

Lemma reopen_keeps_blocks_witness :
  ∃ w' q' ids' pds', (_ ← Close; Open) (demo_three.1, demo_three.2) = (Ok tt, (w', q')) ∧
    queue_repr w' q' ids' pds' ∧ concat pds' = [block 5; block 6; block 7].
Proof.
  eapply (reopen_keeps_blocks demo_three.1 demo_three.2 [0; 1]%nat [[block 5; block 6]; [block 7]]).
  - apply demo_three_repr.
  - vm_compute. reflexivity.
  - apply (bool_decide_unpack _). vm_compute. done.
  - intros n [e He%elem_of_map_to_list]. vm_compute in He.
    repeat (apply elem_of_cons in He as [[= -> ->]|He];
      [apply (bool_decide_unpack _); vm_compute; done|]).
    by apply elem_of_nil in He.
  - apply (bool_decide_unpack _). vm_compute. done.
  - repeat constructor; vm_compute; discriminate.
Defined.

(** ** Purging *)

(** C21. [PurgeOlderThan] with a time that is not in the future always ends,
    after at most one round per segment and one more; it removes the longest
    prefix of segments last modified before the cutoff, keeps every block of
    the remaining segments, and when every segment is old leaves one fresh
    segment that is the head but not the tail. *)
Theorem purge_drops_old_prefix w q ids pds when :
  queue_repr w q ids pds → ids_left w (q_dir q) → usage q ids + 8 < 2 ^ 62 →
  when ≤ w_now w →
  ∃ w' q', PurgeOlderThan (S (length ids)) when (w, q) = (Ok (Some tt), (w', q')) ∧
    purged w q ids pds (time.Truncate when time.Second) w' q'.
Proof.
  intros Hq Hleft Hu Hnow. pose proof (time.Truncate_le when time.Second) as Ht.
  destruct (purgeLoop_spec ids pds w q (time.Truncate when time.Second) (S (length ids)))
    as (w' & q' & Hrun & Hp & _); try done; [lia|lia|].
  exists w', q'. split; [|done]. unfold PurgeOlderThan. gom_simpl. cbn [fst snd].
  rewrite (segs_eq _ _ (qr_segments _ _ _ _ Hq)).
  pose proof (qr_nonempty _ _ _ _ Hq). by destruct ids.
Qed.

(** [demo_three] ten seconds later. *)
Definition demo_later : world := World (w_dirs demo_three.1) (10 * time.Second).

Lemma demo_later_repr :
  queue_repr demo_later demo_three.2 [0; 1]%nat [[block 5; block 6]; [block 7]].
Proof. repr_concrete (@nil (list byte)). Qed.

Lemma purge_drops_old_prefix_witness :
  ∃ w' q', PurgeOlderThan 3 (10 * time.Second) (demo_later, demo_three.2) =
      (Ok (Some tt), (w', q')) ∧
    purged demo_later demo_three.2 [0; 1]%nat [[block 5; block 6]; [block 7]]
      (time.Truncate (10 * time.Second) time.Second) w' q'.
Proof.
  apply (purge_drops_old_prefix demo_later demo_three.2 [0; 1]%nat);
    [apply demo_later_repr|side..].
Defined.

(** After a purge that removed every segment, the queue accepts blocks and
    drops them: [Append] returns no error and leaves both the disk and the
    queue unchanged, because the tail still points to the deleted segment and
    its [ErrNotOpen] is not looked at; [Current] keeps answering [io.EOF]. *)
Theorem purge_all_then_append_loses w q ids pds when b :
  queue_repr w q ids pds → ids_left w (q_dir q) → usage q ids + 8 < 2 ^ 62 →
  when ≤ w_now w → Forall (older w q (time.Truncate when time.Second)) ids →
  q_maxSize q < 2 ^ 61 → 8 + len b ≤ q_maxSize q →
  ∃ w' q', PurgeOlderThan (S (length ids)) when (w, q) = (Ok (Some tt), (w', q')) ∧
    Append b (w', q') = (Ok tt, (w', q')) ∧ Current (w', q') = (Err EOF, (w', q')).
Proof.
  intros Hq Hleft Hu Hnow Hold Hm Hb. pose proof (time.Truncate_le when time.Second) as Ht.
  destruct (purgeLoop_spec ids pds w q (time.Truncate when time.Second) (S (length ids)))
    as (w' & q' & Hrun & Hp & Hms); try done; [lia|lia|].
  exists w', q'. split.
  { unfold PurgeOlderThan. gom_simpl. cbn [fst snd].
    rewrite (segs_eq _ _ (qr_segments _ _ _ _ Hq)).
    pose proof (qr_nonempty _ _ _ _ Hq). by destruct ids. }
  destruct Hp as [(old & i & keep & m & -> & _ & Hm1 & Hm2 & _)|[_ [k Hst]]].
  { apply Forall_app in Hold as [_ Hold]. apply Forall_cons_1 in Hold as [(m' & ? & ?) _].
    assert (m' = m) as -> by congruence. lia. }
  split; [|by eapply Current_stale].
  eapply Append_stale; [done| |lia]. rewrite (stale_usage _ _ _ Hst), Hms. lia.
Qed.

Lemma purge_all_then_append_loses_witness :
  ∃ w' q', PurgeOlderThan 3 (10 * time.Second) (demo_later, demo_three.2) =
      (Ok (Some tt), (w', q')) ∧
    Append (block 5) (w', q') = (Ok tt, (w', q')) ∧ Current (w', q') = (Err EOF, (w', q')).
Proof.
  apply (purge_all_then_append_loses demo_later demo_three.2 [0; 1]%nat
    [[block 5; block 6]; [block 7]]); [apply demo_later_repr|side..| | |].
  - repeat constructor; (eexists; split; [vm_compute; reflexivity|vm_compute; reflexivity]).
  - side.
  - side.
Defined.

(** ** An append while a block is being sent *)

(** A block that is appended between reading the first block and advancing over it
    changes neither which block is first nor what [Advance] removes: exactly that
    one, with the appended block last. *)
Theorem append_before_advance w q ids r pd rest b :
  queue_repr w q ids ((r :: pd) :: rest) → 0 < len b → diskUsageQ q + len b ≤ q_maxSize q →
  q_maxSize q < 2 ^ 61 → q_maxSegmentSize q < 2 ^ 61 →
  ids_left w (q_dir q) → 8 + len b ≤ q_maxSegmentSize q →
  ∃ w' q' ids' pds', (_ ← Append b; Advance) (w, q) = (Ok tt, (w', q')) ∧ queue_repr w' q' ids' pds' ∧
    concat pds' = pd ++ concat rest ++ [b].
Proof.
  intros Hq Hpos Hsz Hm1 Hm2 Hleft Hseg.
  assert (∃ w1 q1 ids1 pd1 rest1, Append b (w, q) = (Ok tt, (w1, q1)) ∧
    queue_repr w1 q1 ids1 ((r :: pd1) :: rest1) ∧ pd1 ++ concat rest1 = pd ++ concat rest ++ [b])
    as (w1 & q1 & ids1 & pd1 & rest1 & Hrun & Hq1 & Hc).
  { destruct (queue_tail_view _ _ _ _ Hq) as (a & i & p1 & pt & s & dn & Hids & Hpds & _ & _ & Hi & _).
    assert (last ids = Some i) as Hlast by (rewrite Hids; apply last_snoc).
    destruct (Z.leb_spec (s_size s + len b) (q_maxSegmentSize q)) as [Hfit|Hfull].
    - destruct (Append_fits w q ids _ b Hq Hpos Hsz Hm1 Hm2 p1 pt s i Hpds Hlast Hi Hfit) as (w1 & q1 & Hrun & Hq1 & _).
      destruct p1 as [|p p1]; cbn in Hpds; injection Hpds as Hp Hrest.
      + subst pt rest. exists w1, q1, ids, (pd ++ [b]), []. split_and!; [done..|]. cbn. by rewrite app_nil_r.
      + subst p rest. exists w1, q1, ids, pd, (p1 ++ [pt ++ [b]]). split_and!; [done..|].
        by rewrite !concat_app, <- !app_assoc; cbn; rewrite !app_nil_r.
    - destruct (Append_rolls w q ids _ b Hq Hpos Hsz Hm1 Hm2 s i Hleft Hlast Hi Hfull Hseg)
        as (w1 & q1 & ids1 & Hrun & Hq1 & _).
      exists w1, q1, ids1, pd, (rest ++ [[b]]). split_and!; [done..|]. by rewrite concat_app. }
  destruct (Advance_spec _ _ _ _ _ _ Hq1) as (w2 & q2 & ids2 & Ha & Hq2 & _).
  exists w2, q2, ids2, (advance_pds pd1 rest1). gom_simpl. rewrite Hrun, concat_advance_pds. done.
Qed.

(** ** Roll-over behind an exhausted segment *)

(** When the only segment has been read to its end and a block no longer
    fits into it, [Append] adds a segment behind the exhausted one and reports
    success, but [Current] goes on returning [io.EOF]: the head segment is
    only trimmed by [Advance] and [Open]. *)
Theorem Append_stalls_behind_exhausted w q i s b :
  queue_repr w q [i] [[]] → q_heap q !! i = Some s → 0 < len b →
  diskUsageQ q + len b ≤ q_maxSize q → q_maxSize q < 2 ^ 61 → q_maxSegmentSize q < 2 ^ 61 →
  ids_left w (q_dir q) → q_maxSegmentSize q < s_size s + len b →
  8 + len b ≤ q_maxSegmentSize q →
  ∃ w' q' ids', Append b (w, q) = (Ok tt, (w', q')) ∧ queue_repr w' q' ids' [[]; [b]] ∧
    Current (w', q') = (Err EOF, (w', q')).
Proof.
  intros Hq Hi Hpos Hsz Hm1 Hm2 Hleft Hfull Hseg.
  destruct (Append_rolls w q [i] [[]] b Hq Hpos Hsz Hm1 Hm2 s i)
    as (w' & q' & ids' & Hrun & Hq' & _); try done.
  exists w', q', ids'. split; [done|]. split; [done|]. by eapply Current_empty.
Qed.

Lemma Append_stalls_behind_exhausted_witness :
  ∃ w' q' ids', Append (block 20) (demo_exhausted.1, demo_exhausted.2) = (Ok tt, (w', q')) ∧
    queue_repr w' q' ids' [[]; [block 20]] ∧ Current (w', q') = (Err EOF, (w', q')).
Proof.
  eapply (Append_stalls_behind_exhausted demo_exhausted.1 demo_exhausted.2 0);
    [side|vm_compute; reflexivity|side..].
Defined.

(** ** Errors *)

(** The errors of [Append] and what they leave behind: a closed queue and a
    full queue are unchanged; a block larger than a segment is refused with
    [ErrSegmentFull] but leaves one more empty segment, eight bytes on disk, at
    every attempt. *)
Theorem Append_errors w q ids pds b :
  (q_tail q = None → Append b (w, q) = (Err ErrNotOpen, (w, q))) ∧
  (queue_repr w q ids pds → q_maxSize q < i64 (diskUsageQ q + len b) →
   Append b (w, q) = (Err ErrQueueFull, (w, q))) ∧
  (queue_repr w q ids pds → diskUsageQ q + len b ≤ q_maxSize q → q_maxSize q < 2 ^ 61 →
   ids_left w (q_dir q) → q_maxSegmentSize q < 8 + len b →
   ∃ w' q' k, Append b (w, q) = (Err ErrSegmentFull, (w', q')) ∧
     queue_repr w' q' (ids ++ [k]) (pds ++ [[]]) ∧ diskUsageQ q' = diskUsageQ q + 8).
Proof.
  split; [apply Append_closed|]. split.
  - intros Hq Hfull.
    destruct (queue_tail_view _ _ _ _ Hq) as (a & i & ? & ? & ? & ? & ? & ? & ? & Ht & _).
    by eapply Append_full_unchanged.
  - intros. by eapply Append_oversized_spec.
Qed.

(** Three blocks, the queue full for the second, too small for the third. *)
Lemma Append_errors_witness :
  Append (block 5) (demo_world, demo_queue) = (Err ErrNotOpen, (demo_world, demo_queue)) ∧
  Append (block 1000) (demo_three.1, demo_three.2) =
    (Err ErrQueueFull, (demo_three.1, demo_three.2)) ∧
  ∃ w' q' k, Append (block 33) (demo_three.1, demo_three.2) = (Err ErrSegmentFull, (w', q')) ∧
    queue_repr w' q' ([0; 1] ++ [k])%nat ([[block 5; block 6]; [block 7]] ++ [[]]) ∧
    diskUsageQ q' = diskUsageQ demo_three.2 + 8.
Proof.
  split; [|split].
  - apply (Append_errors demo_world demo_queue [] [] (block 5)). done.
  - apply (Append_errors demo_three.1 demo_three.2 [0; 1]%nat [[block 5; block 6]; [block 7]]
      (block 1000)); side.
  - apply (Append_errors demo_three.1 demo_three.2 [0; 1]%nat [[block 5; block 6]; [block 7]]
      (block 33)); side.
Defined.

(** ** Reopening with more than nine segments *)

(** Ten blocks, each in a segment of its own: the files "1" to "10". *)
Definition ten_blocks : list (list byte) := block <$> seq 15 10.

(** With ten segments the directory listing puts "10" before "2": the
    blocks come back in a different order after closing and opening the queue,
    the last block appended being read second. *)
Theorem reopen_misorders_ten_segments :
  ((_ ← Open; _ ← for_each ten_blocks Append; drain 10) (demo_world, demo_queue)).1 =
    Ok ten_blocks ∧
  ((_ ← Open; _ ← for_each ten_blocks Append; _ ← Close; _ ← Open; drain 10)
     (demo_world, demo_queue)).1 =
    Ok (block <$> [15; 24; 16; 17; 18; 19; 20; 21; 22; 23]%nat).
Proof. split; vm_compute; reflexivity. Qed.
