(* ===== verification/NodeProcessor.v ===== *)
(** * Hinted handoff to one node (hh/node_processor.go)

    A processor owns the queue of writes that a node missed and sends them when
    the node is back.  Points and their text form come from
    influxdata/influxdb/models, the remote write and the node lookup are the
    interfaces [shardWriter] and [metaClient]: all of them are parameters. *)

From Stdlib Require Import ZArith Lia.
From Stdlib Require Import Strings.Byte.
From S2P Require Import Prelude GoLib Segment Queue.
Import BigEndian os.

Local Open Scope Z_scope.

(** ** Configuration defaults (hh/config.go) *)

Definition DefaultMaxSize : Z := 1024 * 1024 * 1024.
Definition DefaultMaxAge : Z := 7 * 24 * time.Hour.
Definition DefaultRetryRateLimit : Z := 0.
Definition DefaultRetryInterval : Z := time.Second.
Definition DefaultRetryMaxInterval : Z := time.Minute.
Definition DefaultPurgeInterval : Z := time.Hour.

(** ** Parameters *)

(** The text of a point, parsing of a batch, the remote write and the node
    lookup, which may change the environment they talk to. *)
Class Handoff : Type := {
  Point : Type;
  pointString : Point → list byte;
  ParsePoints : list byte → res (list Point);
  env : Type;
  remoteWriteShard : Z → Z → list Point → GoM env unit;
  metaDataNode : Z → GoM env (option Z);
}.

Section processor.
  Context `{Handoff}.

Record NodeProcessor : Type := mkNodeProcessor {
  np_PurgeInterval : Z;
  np_RetryInterval : Z;
  np_RetryMaxInterval : Z;
  np_MaxSize : Z;
  np_MaxAge : Z;
  np_RetryRateLimit : Z;
  np_nodeID : Z;
  np_dir : string;
  np_done : bool;              (* the [done] channel is non-nil *)
  np_queue : option queue;
}.

Definition set_done (b : bool) (n : NodeProcessor) : NodeProcessor :=
  mkNodeProcessor (np_PurgeInterval n) (np_RetryInterval n) (np_RetryMaxInterval n) (np_MaxSize n)
    (np_MaxAge n) (np_RetryRateLimit n) (np_nodeID n) (np_dir n) b (np_queue n).
Definition set_queue (q : option queue) (n : NodeProcessor) : NodeProcessor :=
  mkNodeProcessor (np_PurgeInterval n) (np_RetryInterval n) (np_RetryMaxInterval n) (np_MaxSize n)
    (np_MaxAge n) (np_RetryRateLimit n) (np_nodeID n) (np_dir n) (np_done n) q.

(** The disk, the processor and the environment. *)
Record sys : Type := mkSys { sy_world : world; sy_np : NodeProcessor; sy_env : env }.

Definition ProcM (A : Type) : Type := GoM sys A.

Definition updp (f : NodeProcessor → NodeProcessor) : GoM sys unit :=
  modify (λ s, mkSys (sy_world s) (f (sy_np s)) (sy_env s)).
Definition onDir {A} (m : GoM world A) : GoM sys A :=
  zoom sy_world (λ w s, mkSys w (sy_np s) (sy_env s)) m.
Definition onEnv {A} (m : GoM env A) : GoM sys A :=
  zoom sy_env (λ e s, mkSys (sy_world s) (sy_np s) e) m.

(** A method of the queue; a nil queue panics. *)
Definition onQueue {A} (m : QM A) : GoM sys A := λ s,
  match np_queue (sy_np s) with
  | None => (Panics, s)
  | Some q =>
      let '(r, (w, q')) := m (sy_world s, q) in
      (r, mkSys w (set_queue (Some q') (sy_np s)) (sy_env s))
  end.

(** [NewNodeProcessor(nodeID, dir, w, m)] *)
Definition NewNodeProcessor (nodeID : Z) (dir : string) : NodeProcessor :=
  mkNodeProcessor DefaultPurgeInterval DefaultRetryInterval DefaultRetryMaxInterval DefaultMaxSize
    DefaultMaxAge 0 nodeID dir false None.

(** [Open()]; the goroutine [run] is modelled below. *)
Definition np_Open : GoM sys unit :=
  s ← get_state;
  if np_done (sy_np s) then mret tt
  else
    _ ← updp (set_done true);
    _ ← onDir (MkdirAll (np_dir (sy_np s)));
    let q := newQueue (np_dir (sy_np s)) (np_MaxSize (sy_np s)) in
    q' ← (λ s, match Queue.Open (sy_world s, q) with
               | (Ok _, (w, q')) => (Ok q', mkSys w (sy_np s) (sy_env s))
               | (Err e, (w, _)) => (Err e, mkSys w (sy_np s) (sy_env s))
               | (Panics, (w, _)) => (Panics, mkSys w (sy_np s) (sy_env s))
               end);
    updp (set_queue (Some q')).

(** [Close()] *)
Definition np_Close : GoM sys unit :=
  s ← get_state;
  if negb (np_done (sy_np s)) then mret tt
  else
    _ ← updp (set_done false);
    onQueue Queue.Close.

(** [Purge()] *)
Definition np_Purge : GoM sys unit :=
  s ← get_state;
  if np_done (sy_np s) then throw (errorf "node processor is open")
  else onDir (RemoveAll (np_dir (sy_np s))).

(** [marshalWrite(shardID, points)] *)
Definition marshalWrite (shardID : Z) (points : list Point) : list byte :=
  PutUint64 (u64 shardID) ++ (points ≫= λ p, pointString p ++ [x0a]).

(** [unmarshalWrite(b)] *)
Definition unmarshalWrite (b : list byte) : res (Z * list Point) :=
  if len b <? 8 then Err (errorf "too short")
  else
    points ← ParsePoints (drop 8 b);
    Ok (Uint64 (take 8 b), points).

(** [WriteShard(shardID, points)] *)
Definition np_WriteShard (shardID : Z) (points : list Point) : GoM sys unit :=
  s ← get_state;
  if negb (np_done (sy_np s)) then throw (errorf "node processor is closed")
  else onQueue (Append (marshalWrite shardID points)).

(** [LastModified()] *)
Definition np_LastModified : GoM sys Z := onQueue LastModified.

(** [Head()] and [Tail()] *)
Definition np_Head : GoM sys string := onQueue (gets (λ wq, (Position wq.2).1)).
Definition np_Tail : GoM sys string := onQueue (gets (λ wq, (Position wq.2).2)).

(** [Active()] *)
Definition Active : GoM sys bool :=
  s ← get_state;
  nio ← onEnv (metaDataNode (np_nodeID (sy_np s)));
  mret (match nio with Some _ => true | None => false end).

(** [SendWrite()]: a block that cannot be decoded is skipped, a block that was
    written is advanced over; a failure of [Advance] is only logged.  The source
    holds a read lock only, so other goroutines may append in between; reading,
    purging and advancing are all done by the one goroutine of [run], and an append
    changes neither the first block nor what is advanced over
    (QueueTheorems.append_before_advance). *)
Definition SendWrite : GoM sys Z :=
  active ← Active;
  if negb active then throw EOF
  else
    buf ← onQueue Current;
    match unmarshalWrite buf with
    | Err err => _ ← attempt (onQueue Advance); throw err
    | Panics => panic
    | Ok (shardID, points) =>
        s ← get_state;
        _ ← onEnv (remoteWriteShard shardID (np_nodeID (sy_np s)) points);
        _ ← attempt (onQueue Advance);
        mret (len buf)
    end.

(** ** The background loop *)

(** The interval that the loop starts with. *)
Definition firstInterval (n : NodeProcessor) : Z :=
  if np_RetryMaxInterval n <? np_RetryInterval n then np_RetryMaxInterval n
  else np_RetryInterval n.

(** The interval after a failed attempt. *)
Definition backoff (n : NodeProcessor) (currInterval : Z) : Z :=
  let c := i64 (currInterval * 2) in
  if np_RetryMaxInterval n <? c then np_RetryMaxInterval n else c.

(** The sending loop of one retry tick: the next interval.  [None] means the
    fuel ran out. *)
Fixpoint retryLoop (fuel : nat) (currInterval : Z) : GoM sys (option Z) :=
  match fuel with
  | O => mret None
  | S fuel' =>
      s ← get_state;
      r ← attempt SendWrite;
      match r with
      | inl EOF => mret (Some (np_RetryInterval (sy_np s)))
      | inl _ => mret (Some (backoff (sy_np s) currInterval))
      | inr _ => retryLoop fuel' (np_RetryInterval (sy_np s))
      end
  end.

(** What the [select] of [run] receives. *)
Inductive tick : Type := DoneTick | PurgeTick (now : Z) | RetryTick.

(** One iteration of [run]; [None] ends it. *)
Definition run_step (fuel : nat) (t : tick) (currInterval : Z) : GoM sys (option Z) :=
  match t with
  | DoneTick => mret None
  | PurgeTick now =>
      s ← get_state;
      _ ← attempt (onQueue (PurgeOlderThan fuel (now - np_MaxAge (sy_np s))));
      mret (Some currInterval)
  | RetryTick => retryLoop fuel currInterval
  end.

End processor.
