(* ===== verification/HandoffTheorems.v ===== *)
(** * Properties of the hinted handoff processor

    The theorems about hh/node_processor.go: encoding of writes, delivery, the
    retry interval, and closing while a write is being sent. *)

From Stdlib Require Import ZArith Lia.
From Stdlib Require Import Strings.Byte.
From S2P Require Import Prelude GoLib Segment Queue QueueSpec QueueOpen QueuePurge QueueTheorems NodeProcessor.
Import BigEndian os.

Local Open Scope Z_scope.

(** The text of a batch is parsed back into the batch. *)
Class HandoffLaws `{Handoff} : Prop :=
  parse_points pts : ParsePoints (pts ≫= λ p, pointString p ++ [x0a]) = Ok pts.

Section theorems.
  Context `{Handoff}.

Lemma unmarshal_marshal_write `{!HandoffLaws} id pts :
  0 ≤ id < 2 ^ 64 → unmarshalWrite (marshalWrite id pts) = Ok (id, pts).
Proof.
  intros Hid. unfold unmarshalWrite, marshalWrite. rewrite len_app, PutUint64_len.
  pose proof (len_nonneg (pts ≫= λ p, pointString p ++ [x0a])). zbool.
  rewrite drop_app_exact, take_app_exact by by rewrite PutUint64_length.
  rewrite parse_points. simpl. by rewrite Uint64_PutUint64, !u64_small by (rewrite ?u64_small; lia).
Qed.

Lemma marshalWrite_pos id pts : 0 < len (marshalWrite id pts).
Proof.
  unfold marshalWrite. rewrite len_app, PutUint64_len.
  pose proof (len_nonneg (pts ≫= λ p, pointString p ++ [x0a])). lia.
Qed.

(** A queued write is decoded to the shard and the points that were encoded;
    a block of less than eight bytes is refused. *)
Theorem marshalWrite_roundtrip id pts b :
  HandoffLaws → 0 ≤ id < 2 ^ 64 →
  unmarshalWrite (marshalWrite id pts) = Ok (id, pts) ∧
  (len b < 8 → unmarshalWrite b = Err (errorf "too short")).
Proof.
  intros Hl Hid. split; [by apply unmarshal_marshal_write|].
  intros Hb. unfold unmarshalWrite. by zbool.
Qed.

(** ** Sending one block *)

(** The processor works on a queue with pending blocks [pds]. *)
Definition proc_repr (s : sys) (pds : list (list (list byte))) : Prop :=
  ∃ q ids, np_queue (sy_np s) = Some q ∧ queue_repr (sy_world s) q ids pds ∧
    Forall (λ r, len r ≤ q_maxSegmentSize q) (concat pds).

(** The same processor, apart from its queue. *)
Definition same_proc (n n' : NodeProcessor) : Prop :=
  np_nodeID n' = np_nodeID n ∧ np_RetryInterval n' = np_RetryInterval n ∧
  np_RetryMaxInterval n' = np_RetryMaxInterval n ∧ np_done n' = np_done n.

Lemma same_proc_trans a b c : same_proc a b → same_proc b c → same_proc a c.
Proof. unfold same_proc. naive_solver congruence. Qed.

Lemma onQueue_Current s r pd pds :
  proc_repr s ((r :: pd) :: pds) →
  ∃ s', onQueue Current s = (Ok r, s') ∧ proc_repr s' ((r :: pd) :: pds) ∧
    sy_env s' = sy_env s ∧ same_proc (sy_np s) (sy_np s').
Proof.
  intros (q & ids & Hs & Hq & Hlen). unfold onQueue. rewrite Hs.
  destruct (Current_spec _ _ _ _ _ _ Hq) as (q' & -> & Hq' & Hm & _).
  { simpl in Hlen. by apply Forall_cons_1 in Hlen as [? _]. }
  eexists. split; [done|]. split; [|done]. exists q', ids. rewrite Hm. done.
Qed.

Lemma onQueue_Advance s r pd pds :
  proc_repr s ((r :: pd) :: pds) →
  ∃ s', onQueue Advance s = (Ok tt, s') ∧ proc_repr s' (advance_pds pd pds) ∧
    sy_env s' = sy_env s ∧ same_proc (sy_np s) (sy_np s').
Proof.
  intros (q & ids & Hs & Hq & Hlen). unfold onQueue. rewrite Hs.
  destruct (Advance_spec _ _ _ _ _ _ Hq) as (w' & q' & ids' & -> & Hq' & Hm).
  eexists. split; [done|]. split; [|done]. exists q', ids'. rewrite Hm, concat_advance_pds.
  simpl in Hlen. apply Forall_cons_1 in Hlen as [_ ?]. done.
Qed.

Lemma proc_repr_env s e pds :
  proc_repr s pds → proc_repr (mkSys (sy_world s) (sy_np s) e) pds.
Proof. done. Qed.

Section send.
  Context (s : sys) (r : list byte) (pd : list (list byte)) (pds : list (list (list byte))).
  Context (Hp : proc_repr s ((r :: pd) :: pds)).

Lemma SendWrite_inactive e :
  metaDataNode (np_nodeID (sy_np s)) (sy_env s) = (Ok None, e) →
  SendWrite s = (Err EOF, mkSys (sy_world s) (sy_np s) e).
Proof. intros He. unfold SendWrite, Active, onEnv. gom_simpl. by rewrite He. Qed.

Context (e1 : env) (x : Z).
Context (Hact : metaDataNode (np_nodeID (sy_np s)) (sy_env s) = (Ok (Some x), e1)).

Lemma SendWrite_sent sh pts e2 :
  unmarshalWrite r = Ok (sh, pts) →
  remoteWriteShard sh (np_nodeID (sy_np s)) pts e1 = (Ok tt, e2) →
  ∃ s', SendWrite s = (Ok (len r), s') ∧ proc_repr s' (advance_pds pd pds) ∧ sy_env s' = e2 ∧
    same_proc (sy_np s) (sy_np s').
Proof.
  intros Hu Hw. unfold SendWrite, Active, onEnv. gom_simpl. rewrite Hact. cbn [negb].
  destruct (onQueue_Current (mkSys (sy_world s) (sy_np s) e1) r pd pds)
    as (s1 & -> & Hp1 & He1 & Hs1); [done|].
  rewrite Hu. simpl in He1, Hs1. destruct Hs1 as (Hid & Hs1). rewrite Hid, He1, Hw.
  destruct (onQueue_Advance (mkSys (sy_world s1) (sy_np s1) e2) r pd pds)
    as (s2 & -> & Hp2 & He2 & Hs2); [done|].
  eexists. split; [done|]. split; [done|]. split; [done|].
  by eapply same_proc_trans; [|exact Hs2].
Qed.

Lemma SendWrite_failed sh pts err e2 :
  unmarshalWrite r = Ok (sh, pts) →
  remoteWriteShard sh (np_nodeID (sy_np s)) pts e1 = (Err err, e2) →
  ∃ s', SendWrite s = (Err err, s') ∧ proc_repr s' ((r :: pd) :: pds) ∧ sy_env s' = e2 ∧
    same_proc (sy_np s) (sy_np s').
Proof.
  intros Hu Hw. unfold SendWrite, Active, onEnv. gom_simpl. rewrite Hact. cbn [negb].
  destruct (onQueue_Current (mkSys (sy_world s) (sy_np s) e1) r pd pds)
    as (s1 & -> & Hp1 & He1 & Hs1); [done|].
  rewrite Hu. simpl in He1. destruct Hs1 as (Hid & Hs1). simpl in Hid. rewrite Hid, He1, Hw.
  eexists. split; [done|]. done.
Qed.

Lemma SendWrite_skipped err :
  unmarshalWrite r = Err err →
  ∃ s', SendWrite s = (Err err, s') ∧ proc_repr s' (advance_pds pd pds) ∧ sy_env s' = e1.
Proof.
  intros Hu. unfold SendWrite, Active, onEnv. gom_simpl. rewrite Hact. cbn [negb].
  destruct (onQueue_Current (mkSys (sy_world s) (sy_np s) e1) r pd pds)
    as (s1 & -> & Hp1 & He1 & Hs1); [done|].
  rewrite Hu. destruct (onQueue_Advance s1 r pd pds) as (s2 & -> & Hp2 & He2 & _); [done|].
  eexists. split; [done|]. split; [done|]. by rewrite He2.
Qed.

End send.

(** C8. No write is lost and none is repeated: a block leaves the queue exactly
    when the node accepted it or when it cannot be decoded; when the write
    fails or the node is inactive, the block stays the next one to be sent. *)
Theorem SendWrite_at_least_once s r pd pds e1 x :
  proc_repr s ((r :: pd) :: pds) →
  metaDataNode (np_nodeID (sy_np s)) (sy_env s) = (Ok x, e1) →
  match x with
  | None => ∃ s', SendWrite s = (Err EOF, s') ∧ proc_repr s' ((r :: pd) :: pds) ∧ sy_env s' = e1
  | Some _ =>
      match unmarshalWrite r with
      | Err err => ∃ s', SendWrite s = (Err err, s') ∧ proc_repr s' (advance_pds pd pds) ∧
          sy_env s' = e1
      | Ok (sh, pts) =>
          match remoteWriteShard sh (np_nodeID (sy_np s)) pts e1 with
          | (Ok _, e2) => ∃ s', SendWrite s = (Ok (len r), s') ∧
              proc_repr s' (advance_pds pd pds) ∧ sy_env s' = e2
          | (Err err, e2) => ∃ s', SendWrite s = (Err err, s') ∧
              proc_repr s' ((r :: pd) :: pds) ∧ sy_env s' = e2
          | (Panics, _) => True
          end
      | Panics => True
      end
  end.
Proof.
  intros Hp Hact. destruct x as [x|].
  - destruct (unmarshalWrite r) as [[sh pts]|err|] eqn:Hu; [|by eapply SendWrite_skipped|done].
    destruct (remoteWriteShard sh (np_nodeID (sy_np s)) pts e1) as [[[]|err|] e2] eqn:Hw; [| |done].
    + destruct (SendWrite_sent s r pd pds Hp e1 x Hact sh pts e2 Hu Hw) as (s' & ? & ? & ? & _). eauto.
    + destruct (SendWrite_failed s r pd pds Hp e1 x Hact sh pts err e2 Hu Hw) as (s' & ? & ? & ? & _).
      eauto.
  - eexists. split; [by eapply SendWrite_inactive|]. done.
Qed.

(** ** Delivery of everything that is queued *)

Section delivery.
  Context (deliver : Z → list Point → env → env) (node : Z).

(** The node is back: it is active and accepts every write. *)
Definition node_is_back : Prop :=
  (∀ e, ∃ x, metaDataNode node e = (Ok (Some x), e)) ∧
  (∀ sh pts e, remoteWriteShard sh node pts e = (Ok tt, deliver sh pts e)).

Definition encode (w : Z * list Point) : list byte := marshalWrite w.1 w.2.

Definition delivered (writes : list (Z * list Point)) (e : env) : env :=
  fold_left (λ e w, deliver w.1 w.2 e) writes e.

Lemma SendWrite_empty s pds :
  node_is_back → np_nodeID (sy_np s) = node → proc_repr s ([] :: pds) →
  SendWrite s = (Err EOF, s).
Proof.
  intros [Hact _] Hid (q & ids & Hs & Hq & _). destruct (Hact (sy_env s)) as [x Hx].
  unfold SendWrite, Active, onEnv. gom_simpl. rewrite Hid, Hx. cbn [negb].
  unfold onQueue. cbn [sy_np sy_world]. rewrite Hs, (Current_empty _ _ _ _ Hq).
  destruct s as [w [] e]. simpl in *. by rewrite Hs.
Qed.

Lemma retryLoop_delivers `{!HandoffLaws} writes s pds cur :
  node_is_back → np_nodeID (sy_np s) = node → proc_repr s pds → live pds →
  concat pds = encode <$> writes → Forall (λ w, 0 ≤ w.1 < 2 ^ 64) writes →
  ∃ s' pds', retryLoop (S (length writes)) cur s =
      (Ok (Some (np_RetryInterval (sy_np s))), s') ∧
    proc_repr s' pds' ∧ concat pds' = [] ∧ sy_env s' = delivered writes (sy_env s).
Proof.
  intros Hback. revert s pds cur.
  induction writes as [|[id pts] writes IH]; intros s pds cur Hid Hp Hl Hc Hall.
  - destruct pds as [|[|] pds].
    + destruct Hp as (q & ids & _ & Hq & _). by apply queue_repr_pds in Hq.
    + exists s, ([] :: pds). cbn [length retryLoop]. gom_simpl.
      rewrite (SendWrite_empty s pds Hback Hid Hp). done.
    + done.
  - apply Forall_cons_1 in Hall as [Hw Hall]. simpl in Hw.
    destruct (live_head pds Hl) as (r & pd & rest & ->).
    { intros ->. done. }
    { by rewrite Hc. }
    rewrite fmap_cons in Hc. simpl in Hc. injection Hc as Hr Hc.
    destruct Hback as [Hact Hrem]. destruct (Hact (sy_env s)) as [x Hx].
    destruct (SendWrite_sent s r pd rest Hp (sy_env s) x) with (sh := id) (pts := pts)
      (e2 := deliver id pts (sy_env s)) as (s1 & Hsend & Hp1 & He1 & Hid1 & Hint1 & _).
    { by rewrite Hid. }
    { rewrite Hr. exact (unmarshal_marshal_write id pts Hw). }
    { by rewrite Hid. }
    destruct (IH s1 (advance_pds pd rest) (np_RetryInterval (sy_np s)))
      as (s' & pds' & Hrun & Hp' & Hn' & He'); try done.
    { congruence. }
    { by eapply live_advance. }
    { by rewrite concat_advance_pds. }
    exists s', pds'. split; [|split; [done|split; [done|]]].
    + change (retryLoop (S (length ((id, pts) :: writes))) cur s)
        with ((s0 ← get_state; r0 ← attempt SendWrite;
               match r0 with
               | inl EOF => mret (Some (np_RetryInterval (sy_np s0)))
               | inl _ => mret (Some (backoff (sy_np s0) cur))
               | inr _ => retryLoop (S (length writes)) (np_RetryInterval (sy_np s0))
               end) s).
      gom_simpl. by rewrite Hsend, Hrun, Hint1.
    + by rewrite He', He1.
Qed.

Lemma WriteShard_batch writes s q w' q' :
  np_done (sy_np s) = true → np_queue (sy_np s) = Some q →
  for_each (encode <$> writes) Append (sy_world s, q) = (Ok tt, (w', q')) →
  for_each writes (λ w, np_WriteShard w.1 w.2) s =
    (Ok tt, mkSys w' (set_queue (Some q') (sy_np s)) (sy_env s)).
Proof.
  revert s q. induction writes as [|[id pts] writes IH]; intros s q Hd Hs Hrun.
  - simpl in Hrun. injection Hrun as <- <-. destruct s as [w [] e]. simpl in *. by subst.
  - rewrite fmap_cons in Hrun. cbn [for_each] in *. gom_simpl. cbn [fst snd].
    unfold np_WriteShard at 1. gom_simpl. rewrite Hd. cbn [negb]. unfold onQueue at 1. rewrite Hs.
    change (marshalWrite id pts) with (encode (id, pts)).
    destruct (Append (encode (id, pts)) (sy_world s, q)) as [[[]|e|] [w1 q1]]; [|done|done].
    rewrite (IH (mkSys w1 (set_queue (Some q1) (sy_np s)) (sy_env s)) q1); done.
Qed.

(** C2. Hinted handoff delivers: writes that are queued for a node, behind the
    ones already queued, are all sent in order and exactly once at the first
    retry after the node is back; the retry loop ends, the queue has no pending
    block in any segment, and the retry interval is back to its configured value.
    As for a queue alone, every segment before the last has pending blocks, the
    last one has some, is fresh, or has room for the first write, and the writes
    fit a segment and the queue. *)
Theorem handoff_delivers_in_order old writes s q ids pds cur N :
  HandoffLaws → node_is_back → np_nodeID (sy_np s) = node → np_done (sy_np s) = true →
  np_queue (sy_np s) = Some q → queue_repr (sy_world s) q ids pds → live pds →
  tail_usable q ids pds (encode <$> writes) → concat pds = encode <$> old →
  Forall (λ w, 0 ≤ w.1 < 2 ^ 64) (old ++ writes) →
  Forall (λ r, len r ≤ q_maxSegmentSize q) (concat pds) →
  Forall (λ b, 0 < len b ∧ 8 + len b ≤ q_maxSegmentSize q) (encode <$> writes) →
  diskUsageQ q + batch_size (encode <$> writes) ≤ q_maxSize q → q_maxSize q < 2 ^ 61 →
  q_maxSegmentSize q < 2 ^ 61 → ids_below (sy_world s) (q_dir q) N → 0 < N →
  N + len (encode <$> writes) < 2 ^ 64 →
  ∃ s' pds', (_ ← for_each writes (λ w, np_WriteShard w.1 w.2);
              retryLoop (S (length (old ++ writes))) cur) s =
      (Ok (Some (np_RetryInterval (sy_np s))), s') ∧
    proc_repr s' pds' ∧ concat pds' = [] ∧ sy_env s' = delivered (old ++ writes) (sy_env s).
Proof.
  intros Hlaws Hback Hid Hdone Hs Hq Hl Ht Hold Hids Hlen Hbs Hsz Hm1 Hm2 Hb HN HN2.
  destruct (append_batch (sy_world s) q ids pds (encode <$> writes) N)
    as (w1 & q1 & ids1 & pds1 & Hrun & Hq1 & Hl1 & Hcat & Hg); try done.
  apply (WriteShard_batch writes s q w1 q1 Hdone Hs) in Hrun.
  destruct (retryLoop_delivers (old ++ writes) (mkSys w1 (set_queue (Some q1) (sy_np s)) (sy_env s))
    pds1 cur) as (s' & pds' & Hloop & Hp' & Hn' & He'); try done.
  - exists q1, ids1. split; [done|]. split; [done|]. rewrite Hcat, Hg. apply Forall_app.
    split; [done|]. eapply Forall_impl; [exact Hbs|]. simpl. lia.
  - by rewrite Hcat, Hold, fmap_app.
  - exists s', pds'. split; [|done]. gom_simpl. by rewrite Hrun.
Qed.

End delivery.

(** ** The retry interval *)

Lemma iter_backoff n k :
  0 < np_RetryInterval n ≤ np_RetryMaxInterval n → np_RetryMaxInterval n < 2 ^ 62 →
  Nat.iter k (backoff n) (firstInterval n) =
    Z.min (np_RetryInterval n * 2 ^ Z.of_nat k) (np_RetryMaxInterval n).
Proof.
  intros Hr Hm. induction k as [|k IH].
  - simpl. unfold firstInterval. zbool. lia.
  - rewrite Nat.iter_succ, IH. set (c := np_RetryInterval n * 2 ^ Z.of_nat k).
    assert (np_RetryInterval n * 2 ^ Z.of_nat (S k) = 2 * c) as ->.
    { unfold c. rewrite Nat2Z.inj_succ, Z.pow_succ_r by lia. lia. }
    assert (0 < c) by (unfold c; pose proof (Z.pow_pos_nonneg 2 (Z.of_nat k)); nia).
    unfold backoff. rewrite i64_small by lia.
    destruct (Z.ltb_spec (np_RetryMaxInterval n) (Z.min c (np_RetryMaxInterval n) * 2)); lia.
Qed.

(** With a retry interval below the maximum, the interval doubles with every
    failure until it reaches the maximum and never exceeds it.  With a retry
    interval above the maximum it starts at the maximum, but after the queue
    ran empty it is the larger one, against the documentation of the maximum. *)
Theorem retry_interval_backoff n k s e :
  (0 < np_RetryInterval n ≤ np_RetryMaxInterval n → np_RetryMaxInterval n < 2 ^ 62 →
     Nat.iter k (backoff n) (firstInterval n) =
       Z.min (np_RetryInterval n * 2 ^ Z.of_nat k) (np_RetryMaxInterval n)) ∧
  (metaDataNode (np_nodeID (sy_np s)) (sy_env s) = (Ok None, e) →
   np_RetryMaxInterval (sy_np s) < np_RetryInterval (sy_np s) →
     firstInterval (sy_np s) = np_RetryMaxInterval (sy_np s) ∧
     ∃ s' i, retryLoop 1 (firstInterval (sy_np s)) s = (Ok (Some i), s') ∧
       np_RetryMaxInterval (sy_np s) < i).
Proof.
  split; [by apply iter_backoff|]. intros He Hlt. split.
  - unfold firstInterval. by zbool.
  - eexists _, _. split; [|exact Hlt]. cbn [retryLoop]. gom_simpl.
    by rewrite (SendWrite_inactive s e He).
Qed.

End theorems.

(** ** Closing while a write is sent

    [Close] takes the write lock, closes [done] and waits for the goroutine of
    [run] while it holds the lock; [run] calls [SendWrite], which takes the read
    lock.  The interleavings of the two are the steps below. *)
Module CloseRace.

Inductive run_pc : Type :=
  | Selecting      (* in the select *)
  | WantsRLock     (* at the start of SendWrite *)
  | Sending        (* in SendWrite, holding the read lock *)
  | Exited.        (* wg.Done() *)

Inductive close_pc : Type :=
  | WantsLock
  | Waiting        (* holds the write lock, done is closed, in wg.Wait() *)
  | Closed.

Record state : Type := mkState { run : run_pc; closer : close_pc }.

Definition start : state := mkState Selecting WantsLock.

Inductive step : state → state → Prop :=
  | retry_tick c : step (mkState Selecting c) (mkState WantsRLock c)
  | done_tick : step (mkState Selecting Waiting) (mkState Exited Waiting)
  | rlock c : c ≠ Waiting → step (mkState WantsRLock c) (mkState Sending c)
  | sent_more c : step (mkState Sending c) (mkState WantsRLock c)
  | sent_last c : step (mkState Sending c) (mkState Selecting c)
  | lock r : r ≠ Sending → step (mkState r WantsLock) (mkState r Waiting)
  | waited : step (mkState Exited Waiting) (mkState Exited Closed).

(** [Close] can deadlock: the goroutine of [run] may be about to send a write
    when [Close] takes the lock; then the goroutine waits for the lock that
    [Close] holds and [Close] waits for the goroutine, and no step is left. *)
Theorem Close_can_deadlock :
  ∃ s, rtc step start s ∧ closer s ≠ Closed ∧ ∀ s', ¬ step s s'.
Proof.
  exists (mkState WantsRLock Waiting). split; [|split].
  - eapply rtc_l; [apply retry_tick|]. eapply rtc_l; [by apply lock|]. apply rtc_refl.
  - done.
  - intros s' Hs. inversion Hs; congruence.
Qed.

End CloseRace.

(** ** An instance to run *)

Fixpoint parse_bools (b : list byte) : res (list bool) :=
  match b with
  | [] => Ok []
  | x61 :: x0a :: b' => l ← parse_bools b'; Ok (true :: l)
  | x62 :: x0a :: b' => l ← parse_bools b'; Ok (false :: l)
  | _ => Err (errorf "unable to parse")
  end.

Definition demo_handoff : Handoff := {|
  Point := bool;
  pointString p := [if p then x61 else x62];
  ParsePoints := parse_bools;
  env := list (Z * list bool);
  remoteWriteShard sh _ pts := modify (λ e, e ++ [(sh, pts)]);
  metaDataNode id := mret (Some id);
|}.

#[local] Existing Instance demo_handoff.

Lemma demo_handoff_laws : HandoffLaws.
Proof.
  intros pts. induction pts as [|p pts IH]; [done|]. rewrite bind_cons.
  destruct p; simpl in *; by rewrite IH.
Qed.

Definition demo_proc : NodeProcessor :=
  mkNodeProcessor time.Hour time.Second time.Minute 1000 time.Hour 0 3 "hh" true
    (Some demo_opened.2).
Definition demo_sys : sys := mkSys demo_opened.1 demo_proc [].

Definition demo_deliver (sh : Z) (pts : list bool) (e : list (Z * list bool))
    : list (Z * list bool) := e ++ [(sh, pts)].

Lemma marshalWrite_roundtrip_witness :
  @unmarshalWrite demo_handoff (@marshalWrite demo_handoff 7 [true; false]) = Ok (7, [true; false]) ∧
  (len [x00] < 8 → @unmarshalWrite demo_handoff [x00] = Err (errorf "too short")).
Proof.
  apply (@marshalWrite_roundtrip demo_handoff 7 [true; false] [x00]); [apply demo_handoff_laws|lia].
Defined.

(** One write queued. *)
Definition demo_queued : sys := (@np_WriteShard demo_handoff 7 [true] demo_sys).2.

Lemma demo_queued_repr : proc_repr demo_queued [[@marshalWrite demo_handoff 7 [true]]].
Proof.
  eexists _, [0%nat]. split; [vm_compute; reflexivity|]. split.
  - repr_concrete (@nil (list byte)).
  - repeat constructor. vm_compute. discriminate.
Qed.

Lemma SendWrite_at_least_once_witness :
  ∃ s', SendWrite demo_queued = (Ok (len (@marshalWrite demo_handoff 7 [true])), s') ∧
    proc_repr s' (advance_pds [] []) ∧ sy_env s' = [(7, [true])].
Proof.
  apply (@SendWrite_at_least_once demo_handoff demo_queued (@marshalWrite demo_handoff 7 [true]) [] [] [] (Some 3)
    demo_queued_repr). vm_compute. reflexivity.
Defined.

Lemma handoff_delivers_in_order_witness :
  ∃ s' pds', (_ ← for_each [(7, [true]); (8, [false])] (λ w, @np_WriteShard demo_handoff w.1 w.2);
              retryLoop 3 time.Second) demo_sys = (Ok (Some time.Second), s') ∧
    proc_repr s' pds' ∧ concat pds' = [] ∧ sy_env s' = [(7, [true]); (8, [false])].
Proof.
  apply (@handoff_delivers_in_order demo_handoff demo_deliver 3 [] [(7, [true]); (8, [false])] demo_sys
    demo_opened.2 [0%nat] [[]] time.Second 5).
  - apply demo_handoff_laws.
  - split; [eauto|done].
  - reflexivity.
  - reflexivity.
  - reflexivity.
  - apply demo_opened_repr.
  - constructor.
  - right. exists 0%nat. eexists. split; [done|]. split; [vm_compute; reflexivity|left; vm_compute; reflexivity].
  - reflexivity.
  - repeat constructor; vm_compute; (reflexivity || discriminate).
  - constructor.
  - repeat constructor; vm_compute; (reflexivity || discriminate).
  - vm_compute. discriminate.
  - vm_compute. reflexivity.
  - vm_compute. reflexivity.
  - apply demo_opened_ids_below.
  - lia.
  - vm_compute. reflexivity.
Defined.

Lemma retry_interval_backoff_witness :
  Nat.iter 10 (backoff demo_proc) (firstInterval demo_proc) =
    Z.min (np_RetryInterval demo_proc * 2 ^ 10) (np_RetryMaxInterval demo_proc).
Proof.
  apply (@retry_interval_backoff demo_handoff demo_proc 10 demo_sys []);
    [vm_compute; split; congruence|vm_compute; reflexivity].
Defined.
