(* ===== verification/HHService.v ===== *)
(** * The hinted handoff service (hh/service.go, hh/config.go)

    One processor per node, created when the first write for the node arrives
    or when its directory is found at start-up, and removed when the node is
    gone and its data is old. *)

From Stdlib Require Import ZArith Lia.
From Stdlib Require Import Strings.Byte.
From S2P Require Import Prelude GoLib Segment Queue QueueTheorems NodeProcessor HandoffTheorems.
Import os.

Local Open Scope Z_scope.

(** ** Configuration (hh/config.go) *)

Record Config : Type := mkConfig {
  cfg_Enabled : bool;
  cfg_Dir : string;
  cfg_MaxSize : Z;
  cfg_MaxAge : Z;
  cfg_RetryRateLimit : Z;
  cfg_RetryInterval : Z;
  cfg_RetryMaxInterval : Z;
  cfg_PurgeInterval : Z;
}.

(** [NewConfig()] *)
Definition NewConfig : Config :=
  mkConfig false "" DefaultMaxSize DefaultMaxAge DefaultRetryRateLimit DefaultRetryInterval
    DefaultRetryMaxInterval DefaultPurgeInterval.

(** [Validate()] *)
Definition Validate (c : Config) : res unit :=
  if cfg_Enabled c && bool_decide (cfg_Dir c = ""%string)
  then Err (errorf "HintedHandoff.Dir must be specified") else Ok tt.

Section service.
  Context `{Handoff}.

Record Service : Type := mkService {
  sv_cfg : Config;
  sv_processors : gmap Z NodeProcessor;
  sv_world : world;
  sv_env : env;
}.

(** [NewService(c, w, m)], in a given world *)
Definition NewService (c : Config) (w : world) (e : env) : Service := mkService c ∅ w e.

Definition SvcM (A : Type) : Type := GoM Service A.

Definition set_processors (p : gmap Z NodeProcessor) (s : Service) : Service :=
  mkService (sv_cfg s) p (sv_world s) (sv_env s).

(** A method of a processor that is not (yet) in the map. *)
Definition withProc {A} (n : NodeProcessor) (m : GoM sys A) : GoM Service (A * NodeProcessor) := λ s,
  let '(r, s') := m (mkSys (sv_world s) n (sv_env s)) in
  let out := mkService (sv_cfg s) (sv_processors s) (sy_world s') (sy_env s') in
  match r with
  | Ok a => (Ok (a, sy_np s'), out)
  | Err e => (Err e, out)
  | Panics => (Panics, out)
  end.

(** A method of the processor of a node: its state changes in place, also when
    the method fails. *)
Definition onProc {A} (id : Z) (m : GoM sys A) : GoM Service A := λ s,
  match sv_processors s !! id with
  | None => (Panics, s)
  | Some n =>
      let '(r, s') := m (mkSys (sv_world s) n (sv_env s)) in
      (r, mkService (sv_cfg s) (<[id := sy_np s']> (sv_processors s)) (sy_world s') (sy_env s'))
  end.

(** [pathforNode(nodeID)] *)
Definition pathforNode (s : Service) (nodeID : Z) : string :=
  (cfg_Dir (sv_cfg s) +:+ "/" +:+ strconv.FormatUint nodeID)%string.

(** The names in a directory: its files and the directories below it, sorted. *)
Definition childName (dir key : string) : option string :=
  let pre := (dir +:+ "/")%string in
  if String.prefix pre key
  then Some (String.substring (String.length pre) (String.length key - String.length pre) key)
  else None.

Definition listDir (dir : string) (w : world) : list string :=
  merge_sort String.le
    ((map_to_list (default ∅ (w_dirs w !! dir))).*1
       ++ omap (childName dir) (map_to_list (w_dirs w)).*1).

(** A new processor that is opened and then stored. *)
Definition addProcessor (nodeID : Z) : GoM Service unit :=
  s ← get_state;
  r ← withProc (NewNodeProcessor nodeID (pathforNode s nodeID)) np_Open;
  modify (λ s, set_processors (<[nodeID := r.2]> (sv_processors s)) s).

(** [Open()] *)
Definition svc_Open : GoM Service unit :=
  s ← get_state;
  if negb (cfg_Enabled (sv_cfg s)) then mret tt
  else
    _ ← zoom sv_world (λ w s, mkService (sv_cfg s) (sv_processors s) w (sv_env s))
          (MkdirAll (cfg_Dir (sv_cfg s)));
    files ← gets (λ s, listDir (cfg_Dir (sv_cfg s)) (sv_world s));
    for_each files (λ name,
      match strconv.ParseUint name with
      | None => mret tt
      | Some nodeID => addProcessor nodeID
      end).

(** [Close()]: the processors in the order of the map iteration. *)
Definition svc_Close : GoM Service unit :=
  s ← get_state;
  for_each (map_to_list (sv_processors s)).*1 (λ id, onProc id np_Close).

(** [WriteShard(shardID, ownerID, points)] *)
Definition svc_WriteShard (shardID ownerID : Z) (points : list Point) : GoM Service unit :=
  s ← get_state;
  if negb (cfg_Enabled (sv_cfg s)) then throw ErrHintedHandoffDisabled
  else
    _ ← match sv_processors s !! ownerID with
        | Some _ => mret tt
        | None => addProcessor ownerID
        end;
    onProc ownerID (np_WriteShard shardID points).

(** [Diagnostics()]: node, active, last modified, head and tail. *)
Fixpoint diagRows (ids : list Z) : GoM Service (list (Z * bool * Z * string * string)) :=
  match ids with
  | [] => mret []
  | id :: ids' =>
      lm ← onProc id np_LastModified;
      active ← onProc id Active;
      h ← onProc id np_Head;
      t ← onProc id np_Tail;
      rows ← diagRows ids';
      mret ((id, active, lm, h, t) :: rows)
  end.

Definition Diagnostics : GoM Service (list (Z * bool * Z * string * string)) :=
  s ← get_state;
  diagRows (map_to_list (sv_processors s)).*1.

(** The body of the loop of [purgeInactiveProcessors]; every error is logged and
    skips the processor. *)
Definition purgeProcessor (now id : Z) : GoM Service unit :=
  lm ← attempt (onProc id np_LastModified);
  match lm with
  | inl _ => mret tt
  | inr lm =>
      active ← attempt (onProc id Active);
      match active with
      | inl _ | inr true => mret tt
      | inr false =>
          s ← get_state;
          if now - cfg_MaxAge (sv_cfg s) <=? lm then mret tt
          else
            c ← attempt (onProc id np_Close);
            match c with
            | inl _ => mret tt
            | inr _ =>
                p ← attempt (onProc id np_Purge);
                match p with
                | inl _ => mret tt
                | inr _ => modify (λ s, set_processors (delete id (sv_processors s)) s)
                end
            end
      end
  end.

(** One tick of [purgeInactiveProcessors()]. *)
Definition purgeInactiveProcessors (now : Z) : GoM Service unit :=
  s ← get_state;
  for_each (map_to_list (sv_processors s)).*1 (purgeProcessor now).

(** ** Properties *)

Lemma addProcessor_limits nodeID s s' n :
  addProcessor nodeID s = (Ok tt, s') → sv_processors s' !! nodeID = Some n →
  np_MaxSize n = DefaultMaxSize ∧ np_MaxAge n = DefaultMaxAge ∧
  np_RetryInterval n = DefaultRetryInterval ∧ np_RetryMaxInterval n = DefaultRetryMaxInterval.
Proof.
  unfold addProcessor, withProc, np_Open, onDir. gom_simpl. cbn [np_done sy_np NewNodeProcessor].
  set (d := pathforNode s nodeID). cbn -[MkdirAll Queue.Open newQueue lookup insert].
  destruct (MkdirAll d (sv_world s)) as [[[]|e|] w1]; [|done|done].
  cbn -[MkdirAll Queue.Open newQueue lookup insert].
  destruct (Queue.Open (w1, newQueue d DefaultMaxSize)) as [[[]|e|] [w2 q]]; [|done|done].
  cbn -[lookup insert]. intros [= <-]. cbn -[lookup insert].
  rewrite lookup_insert_eq. intros [= <-]. done.
Qed.

(** The limits of the configuration do not reach the processors: a write for
    a node without a processor creates one with the default queue size, age and
    retry intervals whatever the configuration says.  A disabled service
    refuses the write and creates nothing. *)
Theorem WriteShard_ignores_configured_limits shardID ownerID points s :
  (cfg_Enabled (sv_cfg s) = false →
     svc_WriteShard shardID ownerID points s = (Err ErrHintedHandoffDisabled, s)) ∧
  (∀ s' n, svc_WriteShard shardID ownerID points s = (Ok tt, s') →
     sv_processors s !! ownerID = None → sv_processors s' !! ownerID = Some n →
     np_MaxSize n = DefaultMaxSize ∧ np_MaxAge n = DefaultMaxAge ∧
     np_RetryInterval n = DefaultRetryInterval ∧
     np_RetryMaxInterval n = DefaultRetryMaxInterval).
Proof.
  split.
  - intros Hd. unfold svc_WriteShard. gom_simpl. by rewrite Hd.
  - intros s' n. unfold svc_WriteShard. gom_simpl.
    destruct (cfg_Enabled (sv_cfg s)); [|done]. cbn [negb]. intros Hrun Hnone Hn.
    rewrite Hnone in Hrun. destruct (addProcessor ownerID s) as [[[]|e|] s1] eqn:Hadd; [|done|done].
    unfold onProc in Hrun. destruct (sv_processors s1 !! ownerID) as [n1|] eqn:Hn1; [|done].
    pose proof (addProcessor_limits _ _ _ _ Hadd Hn1) as Hlim.
    unfold np_WriteShard, onQueue in Hrun. gom_simpl.
    cbn -[Append marshalWrite lookup insert] in Hrun.
    destruct (np_done n1); cbn -[Append marshalWrite lookup insert] in Hrun; [|done].
    destruct (np_queue n1) as [q|]; [|done].
    destruct (Append (marshalWrite shardID points) (sv_world s1, q)) as [[[]|e|] [w q']]; [|done|done].
    injection Hrun as <-. cbn -[lookup insert] in Hn. rewrite lookup_insert_eq in Hn. injection Hn as <-. done.
Qed.

Lemma onProc_keeps {A} id (m : GoM sys A) s id' :
  id' ≠ id → sv_processors (onProc id m s).2 !! id' = sv_processors s !! id'.
Proof.
  intros Hne. unfold onProc. destruct (sv_processors s !! id) as [n|]; [|done].
  destruct (m _) as [r s']. simpl. by rewrite lookup_insert_ne.
Qed.

(** A purge tick never drops the data of an active node or of a node whose
    queue was modified within the maximum age: such a processor stays in the
    map with its queue as it was. *)
Theorem purge_keeps_active_and_young now id s n q lm a e :
  sv_processors s !! id = Some n → np_queue n = Some q →
  LastModified (sv_world s, q) = (Ok lm, (sv_world s, q)) →
  metaDataNode (np_nodeID n) (sv_env s) = (Ok a, e) →
  a ≠ None ∨ now - cfg_MaxAge (sv_cfg s) ≤ lm →
  purgeProcessor now id s =
    (Ok tt, mkService (sv_cfg s) (sv_processors s) (sv_world s) e).
Proof.
  intros Hn Hq Hlm Ha Hkeep. unfold purgeProcessor. gom_simpl.
  assert (Hset : set_queue (Some q) n = n) by (destruct n; simpl in *; by subst).
  assert (Hins : <[id := n]> (sv_processors s) = sv_processors s) by by apply insert_id.
  unfold onProc at 1. rewrite Hn. unfold np_LastModified, onQueue.
  cbn -[LastModified lookup insert Z.leb Z.sub]. rewrite Hq, Hlm. cbn -[lookup insert Z.leb Z.sub]. rewrite Hset, Hins.
  unfold onProc at 1. cbn -[lookup insert Z.leb Z.sub]. rewrite Hn.
  unfold Active, onEnv. gom_simpl. cbn -[lookup insert Z.leb Z.sub]. rewrite Ha. cbn -[lookup insert Z.leb Z.sub].
  rewrite Hins. destruct a as [x|]; [done|]. destruct Hkeep as [Hk|Hk]; [done|].
  case_match eqn:E; [done|]. apply Z.leb_gt in E. simpl in E. lia.
Qed.

End service.

(** ** A service to run *)

#[local] Existing Instance demo_handoff.

Definition demo_config : Config :=
  mkConfig true "hh" 500 time.Hour 0 (5 * time.Second) (30 * time.Second) time.Hour.
Definition demo_service : Service := NewService demo_config demo_world [].

Lemma WriteShard_ignores_configured_limits_witness :
  ∃ s' n, svc_WriteShard (H := demo_handoff) 7 3 [true] demo_service = (Ok tt, s') ∧
    sv_processors s' !! 3 = Some n ∧
    np_MaxSize n = DefaultMaxSize ∧ np_MaxAge n = DefaultMaxAge ∧
    np_RetryInterval n = DefaultRetryInterval ∧
    np_RetryMaxInterval n = DefaultRetryMaxInterval.
Proof.
  eexists _, _. split; [vm_compute; reflexivity|]. split; [vm_compute; reflexivity|].
  eapply (@WriteShard_ignores_configured_limits demo_handoff 7 3 [true] demo_service);
    [vm_compute; reflexivity|vm_compute; reflexivity|vm_compute; reflexivity].
Defined.

Definition demo_busy : Service := mkService demo_config {[3 := demo_proc]} demo_opened.1 [].

Lemma purge_keeps_active_and_young_witness :
  purgeProcessor (H := demo_handoff) (100 * time.Hour) 3 demo_busy = (Ok tt, demo_busy).
Proof.
  eapply (@purge_keeps_active_and_young demo_handoff (100 * time.Hour) 3 demo_busy demo_proc
    demo_opened.2 _ (Some 3)).
  - reflexivity.
  - reflexivity.
  - vm_compute. reflexivity.
  - reflexivity.
  - by left.
Defined.
