(* ===== verification/MetaData.v ===== *)
(** * Cluster metadata (meta/data.go)

    [Data] is the state replicated by the meta service: the OSS metadata
    (databases, retention policies, shard groups), the meta and data nodes and
    the users.  The OSS types and methods come from
    github.com/influxdata/influxdb/services/meta, which is not part of the
    repository: their fields that the code reads are records here, their
    methods are the operations of the class [OssMeta], and what the code relies
    on is stated in [OssMetaLaws]. *)

From Stdlib Require Import ZArith Lia.
From Stdlib Require Import Strings.Byte.
From S2P Require Import Prelude GoLib.

Local Open Scope Z_scope.

(** ** OSS metadata *)

Record ShardOwner : Type := mkShardOwner { NodeID : Z }.

Record ShardInfo : Type := mkShardInfo { si_ID : Z; si_Owners : list ShardOwner }.

Record ShardGroupInfo : Type := mkShardGroupInfo {
  sgi_ID : Z;
  sgi_StartTime : Z;
  sgi_EndTime : Z;
  sgi_DeletedAt : Z;   (* the zero time when the group is live *)
  sgi_Shards : list ShardInfo;
}.

Record RetentionPolicyInfo : Type := mkRetentionPolicyInfo {
  rpi_Name : string;
  rpi_ReplicaN : Z;
  rpi_Duration : Z;
  rpi_ShardGroupDuration : Z;
  rpi_ShardGroups : list ShardGroupInfo;
}.

Record DatabaseInfo : Type := mkDatabaseInfo {
  dbi_Name : string;
  dbi_DefaultRetentionPolicy : string;
  dbi_RetentionPolicies : list RetentionPolicyInfo;
}.

Record OssData : Type := mkOssData {
  od_Term : Z;
  od_Index : Z;
  od_ClusterID : Z;
  od_Databases : list DatabaseInfo;
  od_MaxShardGroupID : Z;
  od_MaxShardID : Z;
}.

Definition zeroTime : Z := - time.zero_to_epoch.

#[export] Instance ShardOwner_eq_dec : EqDecision ShardOwner.
Proof. solve_decision. Defined.
#[export] Instance ShardInfo_eq_dec : EqDecision ShardInfo.
Proof. solve_decision. Defined.
#[export] Instance ShardGroupInfo_eq_dec : EqDecision ShardGroupInfo.
Proof. solve_decision. Defined.
#[export] Instance RetentionPolicyInfo_eq_dec : EqDecision RetentionPolicyInfo.
Proof. solve_decision. Defined.
#[export] Instance DatabaseInfo_eq_dec : EqDecision DatabaseInfo.
Proof. solve_decision. Defined.
#[export] Instance OssData_eq_dec : EqDecision OssData.
Proof. solve_decision. Defined.

Definition set_Owners (o : list ShardOwner) (s : ShardInfo) : ShardInfo :=
  mkShardInfo (si_ID s) o.
Definition set_ShardGroups (g : list ShardGroupInfo) (r : RetentionPolicyInfo)
    : RetentionPolicyInfo :=
  mkRetentionPolicyInfo (rpi_Name r) (rpi_ReplicaN r) (rpi_Duration r)
    (rpi_ShardGroupDuration r) g.
Definition set_RetentionPolicies (l : list RetentionPolicyInfo) (d : DatabaseInfo)
    : DatabaseInfo :=
  mkDatabaseInfo (dbi_Name d) (dbi_DefaultRetentionPolicy d) l.
Definition set_Databases (l : list DatabaseInfo) (d : OssData) : OssData :=
  mkOssData (od_Term d) (od_Index d) (od_ClusterID d) l (od_MaxShardGroupID d) (od_MaxShardID d).
Definition set_ClusterID (z : Z) (d : OssData) : OssData :=
  mkOssData (od_Term d) (od_Index d) z (od_Databases d) (od_MaxShardGroupID d) (od_MaxShardID d).
Definition set_TermIndex (t i : Z) (d : OssData) : OssData :=
  mkOssData t i (od_ClusterID d) (od_Databases d) (od_MaxShardGroupID d) (od_MaxShardID d).
Definition set_MaxShardGroupID (z : Z) (d : OssData) : OssData :=
  mkOssData (od_Term d) (od_Index d) (od_ClusterID d) (od_Databases d) z (od_MaxShardID d).
Definition set_MaxShardID (z : Z) (d : OssData) : OssData :=
  mkOssData (od_Term d) (od_Index d) (od_ClusterID d) (od_Databases d) (od_MaxShardGroupID d) z.

(** The retention policy at a position of the database list: the pointers
    that the OSS methods return are such positions. *)
Definition rp_at (d : OssData) (pos : nat * nat) : option RetentionPolicyInfo :=
  db ← od_Databases d !! pos.1; dbi_RetentionPolicies db !! pos.2.

Definition rp_alter (f : RetentionPolicyInfo → RetentionPolicyInfo) (pos : nat * nat)
    (d : OssData) : OssData :=
  set_Databases
    (alter (λ db, set_RetentionPolicies (alter f pos.2 (dbi_RetentionPolicies db)) db) pos.1
       (od_Databases d)) d.

(** ** Protocol buffers of the snapshot (meta/internal/meta.proto)

    A [required] or [optional] scalar is a pointer, [None] when unset. *)
Record pbNodeInfo : Type := mkPbNodeInfo {
  pn_ID : option Z;
  pn_Host : option string;
  pn_TCPHost : option string;
  pn_PendingShardOwners : list Z;
}.

Record pbClusterData : Type := mkPbClusterData {
  pc_Data : option (list byte);
  pc_MaxNodeID : option Z;
  pc_DataNodes : list pbNodeInfo;
  pc_MetaNodes : list pbNodeInfo;
  pc_Users : list (option unit);   (* every element is the nil pointer *)
}.

(** ** The OSS interface *)

Class OssMeta : Type := {
  oss_Clone : OssData → OssData;
  oss_MarshalBinary : OssData → res (list byte);
  oss_UnmarshalBinary : list byte → GoM OssData unit;
  oss_RetentionPolicy : OssData → string → string → res (option (nat * nat));
  oss_ShardGroupByTimestamp : RetentionPolicyInfo → Z → option ShardGroupInfo;
  oss_ShardGroupLess : ShardGroupInfo → ShardGroupInfo → bool;
  oss_OwnedBy : ShardInfo → Z → bool;
  proto_Marshal : pbClusterData → res (list byte);
  proto_Unmarshal : list byte → res pbClusterData;
}.

(** A group covers [StartTime, EndTime) and is live until it is deleted. *)
Definition covers (g : ShardGroupInfo) (t : Z) : Prop :=
  sgi_DeletedAt g = zeroTime ∧ sgi_StartTime g ≤ t < sgi_EndTime g.

Class OssMetaLaws `{OssMeta} : Prop := {
  (** [Clone] copies. *)
  clone_copy d : oss_Clone d = d;
  (** [RetentionPolicy] returns a pointer to the policy it was asked for. *)
  retention_policy_at d db rp pos :
    oss_RetentionPolicy d db rp = Ok (Some pos) →
    ∃ r, rp_at d pos = Some r ∧ rpi_Name r = rp;
  (** [ShardGroupByTimestamp] finds the live group of the timestamp. *)
  shard_group_by_timestamp r t :
    oss_ShardGroupByTimestamp r t = None → ∀ g, g ∈ rpi_ShardGroups r → ¬ covers g t;
  (** [OwnedBy] looks the node up in the owners. *)
  owned_by s n : oss_OwnedBy s n = true ↔ mkShardOwner n ∈ si_Owners s;
  (** Marshalling a message with an unset [required] field is an error. *)
  marshal_required pb : pc_MaxNodeID pb = None → ∃ e, proto_Marshal pb = Err e;
}.

(** ** Nodes and users *)

Record NodeInfo : Type := mkNodeInfo {
  n_ID : Z;
  n_Host : string;
  n_TCPHost : string;
  n_PendingShardOwners : list Z;
}.

(** [ScopedPermissions] is an empty struct. *)
Record UserInfo : Type := mkUserInfo {
  u_Name : string;
  u_Hash : string;
  u_Admin : bool;
}.

Record RoleInfo : Type := mkRoleInfo { ri_Users : list UserInfo }.

#[export] Instance NodeInfo_eq_dec : EqDecision NodeInfo.
Proof. solve_decision. Defined.
#[export] Instance UserInfo_eq_dec : EqDecision UserInfo.
Proof. solve_decision. Defined.
#[export] Instance RoleInfo_eq_dec : EqDecision RoleInfo.
Proof. solve_decision. Defined.

Record Data : Type := mkData {
  d_Data : OssData;
  d_MetaNodes : list NodeInfo;
  d_DataNodes : list NodeInfo;
  d_Users : list UserInfo;
  d_Roles : list RoleInfo;
  d_MaxNodeID : Z;
}.

#[export] Instance Data_eq_dec : EqDecision Data.
Proof. solve_decision. Defined.

Definition set_Data (x : OssData) (d : Data) : Data :=
  mkData x (d_MetaNodes d) (d_DataNodes d) (d_Users d) (d_Roles d) (d_MaxNodeID d).
Definition set_MetaNodes (l : list NodeInfo) (d : Data) : Data :=
  mkData (d_Data d) l (d_DataNodes d) (d_Users d) (d_Roles d) (d_MaxNodeID d).
Definition set_DataNodes (l : list NodeInfo) (d : Data) : Data :=
  mkData (d_Data d) (d_MetaNodes d) l (d_Users d) (d_Roles d) (d_MaxNodeID d).
Definition set_Users (l : list UserInfo) (d : Data) : Data :=
  mkData (d_Data d) (d_MetaNodes d) (d_DataNodes d) l (d_Roles d) (d_MaxNodeID d).
Definition set_MaxNodeID (z : Z) (d : Data) : Data :=
  mkData (d_Data d) (d_MetaNodes d) (d_DataNodes d) (d_Users d) (d_Roles d) z.

(** Methods of [*Data]. *)
Abbreviation DataM := (GoM Data).

(** First node with an ID or a TCP host; [nodes[i]] of the range loops. *)
Definition node_by_id (id : Z) (l : list NodeInfo) : option NodeInfo :=
  snd <$> list_find (λ n, n_ID n = id) l.
Definition node_by_tcp (h : string) (l : list NodeInfo) : option NodeInfo :=
  snd <$> list_find (λ n, n_TCPHost n = h) l.

(** [MetaNode(id)] and [DataNode(id)] *)
Definition MetaNode (d : Data) (id : Z) : option NodeInfo := node_by_id id (d_MetaNodes d).
Definition DataNode (d : Data) (id : Z) : option NodeInfo := node_by_id id (d_DataNodes d).

(** [sort.Sort(NodeInfos(l))] *)
Definition NodeInfosLess (a b : NodeInfo) : bool := n_ID a <? n_ID b.
Definition sortNodes (l : list NodeInfo) : list NodeInfo := sort.Sort NodeInfosLess l.

(** The ID of the meta node with this TCP host, a new one when there is none. *)
Definition assignID (tcpHost : string) : DataM Z :=
  data ← get_state;
  let existingID := default 0 (n_ID <$> node_by_tcp tcpHost (d_MetaNodes data)) in
  if existingID =? 0 then
    _ ← modify (λ d, set_MaxNodeID (u64 (d_MaxNodeID d + 1)) d);
    gets d_MaxNodeID
  else mret existingID.

(** [CreateMetaNode(host, tcpHost)]: the duplicate check looks at the data
    nodes. *)
Definition CreateMetaNode (host tcpHost : string) : DataM unit :=
  data ← get_state;
  if node_by_tcp tcpHost (d_DataNodes data) is Some _ then throw ErrNodeExists
  else
    id ← assignID tcpHost;
    modify (λ d, set_MetaNodes
      (sortNodes (d_MetaNodes d ++ [mkNodeInfo id host tcpHost []])) d).

(** [SetMetaNode(nodeID, host, tcpHost)] *)
Definition SetMetaNode (nodeID : Z) (host tcpHost : string) : DataM unit :=
  data ← get_state;
  if list_find (λ n, n_Host n = host) (d_MetaNodes data) is Some _ then throw ErrNodeExists
  else modify (λ d, set_MetaNodes (d_MetaNodes d ++ [mkNodeInfo nodeID host tcpHost []]) d).

(** The index of the last owner with this node ID ([nodeIdx] of the loop). *)
Definition last_owner (id : Z) (owners : list ShardOwner) : option nat :=
  fst (fold_left (λ '(idx, i) o, (if NodeID o =? id then Some i else idx, S i)) owners
         (None, 0%nat)).

Definition dropOwner (id : Z) (s : ShardInfo) : ShardInfo :=
  match last_owner id (si_Owners s) with
  | Some nodeIdx =>
      set_Owners (take nodeIdx (si_Owners s) ++ drop (S nodeIdx) (si_Owners s)) s
  | None => s
  end.

Definition orphan (s : ShardInfo) : bool := len (si_Owners s) =? 0.

(** The body of the loop over the shard groups: the node's ownership is
    removed, and a group whose shards have all become orphans is marked
    deleted.  The frequency map of the source is not read afterwards. *)
Definition releaseGroup (id now : Z) (sg : ShardGroupInfo) : ShardGroupInfo :=
  let shards := dropOwner id <$> sgi_Shards sg in
  let orphanedShards := filter orphan shards in
  mkShardGroupInfo (sgi_ID sg) (sgi_StartTime sg) (sgi_EndTime sg)
    (if (len (sgi_Shards sg) =? 0) || (len orphanedShards =? len (sgi_Shards sg))
     then now else sgi_DeletedAt sg)
    shards.

Definition releaseNode (id now : Z) (d : OssData) : OssData :=
  set_Databases
    ((λ db, set_RetentionPolicies
       ((λ rp, set_ShardGroups (releaseGroup id now <$> rpi_ShardGroups rp) rp)
          <$> dbi_RetentionPolicies db) db) <$> od_Databases d) d.

(** [DeleteMetaNode(id)]; [now] is [time.Now()]. *)
Definition DeleteMetaNode (now id : Z) : DataM unit :=
  data ← get_state;
  let nodes := filter (λ n, n_ID n ≠ id) (d_MetaNodes data) in
  if len nodes =? len (d_MetaNodes data) then throw ErrNodeNotFound
  else
    _ ← modify (set_MetaNodes nodes);
    modify (λ d, set_Data (releaseNode id now (d_Data d)) d).

(** [CreateDataNode(host, tcpHost)] *)
Definition CreateDataNode (host tcpHost : string) : DataM unit :=
  data ← get_state;
  if node_by_tcp tcpHost (d_DataNodes data) is Some _ then throw ErrNodeExists
  else
    id ← assignID tcpHost;
    modify (λ d, set_DataNodes
      (sortNodes (d_DataNodes d ++ [mkNodeInfo id host tcpHost []])) d).

(** [UpdateDataNode(nodeID, host, tcpHost)]: the loop assigns to the fields of
    its own copy of the element, so the receiver does not change. *)
Definition UpdateDataNode (nodeID : Z) (host tcpHost : string) : DataM unit :=
  data ← get_state;
  let copies := (λ n, if n_ID n =? nodeID
                      then mkNodeInfo (n_ID n) host tcpHost (n_PendingShardOwners n) else n)
                <$> d_DataNodes data in
  let _ := copies in
  mret tt.

(** [DeleteDataNode(id)] *)
Definition DeleteDataNode (id : Z) : DataM unit :=
  data ← get_state;
  let nodes := filter (λ n, n_ID n ≠ id) (d_DataNodes data) in
  if len nodes =? len (d_DataNodes data) then throw ErrNodeNotFound
  else modify (set_DataNodes nodes).

(** [CloneUsers()]: zero values, the copy of the fields is commented out. *)
Definition zeroUser : UserInfo := mkUserInfo "" "" false.
Definition CloneUsers (d : Data) : list UserInfo := (λ _, zeroUser) <$> d_Users d.

(** [AddPendingShardOwner(id)] and [RemovePendingShardOwner(id)]: the loops
    assign to copies. *)
Definition AddPendingShardOwner (id : Z) : DataM unit :=
  data ← get_state;
  let copies := (λ n, mkNodeInfo (n_ID n) (n_Host n) (n_TCPHost n)
                        (n_PendingShardOwners n ++ [id])) <$> d_MetaNodes data in
  let _ := copies in
  mret tt.
Definition RemovePendingShardOwner (id : Z) : DataM unit :=
  data ← get_state;
  let copies := (λ n, mkNodeInfo (n_ID n) (n_Host n) (n_TCPHost n)
                        (filter (λ p, id ≠ p) (n_PendingShardOwners n))) <$> d_MetaNodes data in
  let _ := copies in
  mret tt.

(** [User(username)] *)
Definition User (d : Data) (username : string) : option UserInfo :=
  snd <$> list_find (λ u, u_Name u = username) (d_Users d).

(** [CreateUser(name, hash, admin)] *)
Definition CreateUser (name hash : string) (admin : bool) : DataM unit :=
  data ← get_state;
  if decide (name = ""%string) then throw ErrUsernameRequired
  else if User data name is Some _ then throw ErrUserExists
  else modify (λ d, set_Users (d_Users d ++ [mkUserInfo name hash admin]) d).

(** [DropUser(name)]: removes the first user with the name. *)
Definition DropUser (name : string) : DataM unit :=
  data ← get_state;
  match list_find (λ u, u_Name u = name) (d_Users data) with
  | Some (i, _) => modify (λ d, set_Users (take i (d_Users d) ++ drop (S i) (d_Users d)) d)
  | None => throw ErrUserNotFound
  end.

(** ** Roles *)

Definition AddUser (user : UserInfo) (r : RoleInfo) : RoleInfo := mkRoleInfo (ri_Users r ++ [user]).
Definition AddUsers (users : list UserInfo) (r : RoleInfo) : RoleInfo :=
  fold_left (λ r usr, AddUser usr r) users r.
(** The removal itself is commented out. *)
Definition RemoveUser (user : UserInfo) (r : RoleInfo) : RoleInfo :=
  match list_find (λ u, u = user) (ri_Users r) with
  | None => r
  | Some _ => r
  end.
Definition RemoveUsers (users : list UserInfo) (r : RoleInfo) : RoleInfo :=
  fold_left (λ r usr, RemoveUser usr r) users r.
Definition HasUser (user : UserInfo) (r : RoleInfo) : bool :=
  let res := sort.Search (length (ri_Users r))
    (λ i, bool_decide (ri_Users r !! i = Some user)) in
  bool_decide (res < length (ri_Users r))%nat && bool_decide (ri_Users r !! res = Some user).

(** ** Node encoding *)

(** [NodeInfo.marshal()]: [make] creates a slice of that length, [append] adds
    behind it. *)
Definition node_marshal (n : NodeInfo) : pbNodeInfo :=
  mkPbNodeInfo (Some (n_ID n)) (Some (n_Host n)) (Some (n_TCPHost n))
    (replicate (length (n_PendingShardOwners n)) 0 ++ n_PendingShardOwners n).

Definition node_unmarshal (pb : pbNodeInfo) : NodeInfo :=
  mkNodeInfo (default 0 (pn_ID pb)) (default ""%string (pn_Host pb))
    (default ""%string (pn_TCPHost pb)) (pn_PendingShardOwners pb).

(** ** Operations that use the OSS metadata *)

Section oss.
  Context `{OssMeta}.

(** [Clone()] *)
Definition Clone (d : Data) : Data :=
  mkData (oss_Clone (d_Data d)) (d_MetaNodes d) (d_DataNodes d) (CloneUsers d) (d_Roles d)
    (d_MaxNodeID d).

(** [marshal()]: [MaxNodeID] is not set, users are nil pointers. *)
Definition marshal (d : Data) : pbClusterData :=
  mkPbClusterData
    (match oss_MarshalBinary (d_Data d) with Ok b => Some b | _ => None end)
    None
    (node_marshal <$> d_DataNodes d) (node_marshal <$> d_MetaNodes d)
    ((λ _, None) <$> d_Users d).

(** [MarshalBinary()] *)
Definition MarshalBinary (d : Data) : res (list byte) := proto_Marshal (marshal d).

(** The zero [meta.Data]. *)
Definition zeroOss : OssData := mkOssData 0 0 0 [] 0 0.

(** [unmarshal(pb)]: the error of the OSS decoder is ignored; data nodes, users,
    roles and the node counter keep the receiver's values. *)
Definition unmarshal (pb : pbClusterData) : DataM unit := λ d,
  let '(_, o) := oss_UnmarshalBinary (default [] (pc_Data pb)) zeroOss in
  (Ok tt, set_MetaNodes (node_unmarshal <$> pc_MetaNodes pb) (set_Data o d)).

(** [UnmarshalBinary(buf)] *)
Definition UnmarshalBinary (buf : list byte) : DataM unit :=
  pb ← lift_res (proto_Unmarshal buf);
  unmarshal pb.

(** [generatedShards(shardN)]: [make] panics on a negative length. *)
Fixpoint numberShards (n : nat) : DataM (list ShardInfo) :=
  match n with
  | O => mret []
  | S n' =>
      _ ← modify (λ d, set_Data (set_MaxShardID (u64 (od_MaxShardID (d_Data d) + 1)) (d_Data d)) d);
      id ← gets (λ d, od_MaxShardID (d_Data d));
      rest ← numberShards n';
      mret (mkShardInfo id [] :: rest)
  end.

Definition generatedShards (shardN : Z) : DataM (list ShardInfo) :=
  if shardN <? 0 then panic else numberShards (Z.to_nat shardN).

(** [replicaN] owners from position [nodeIndex] of the node list on. *)
Definition pickOwners (nodes : list NodeInfo) (replicaN nodeIndex : nat) : list ShardOwner :=
  (λ k, mkShardOwner (default 0 (n_ID <$> nodes !! (k mod length nodes)%nat)))
    <$> seq nodeIndex replicaN.

Fixpoint assignOwners (nodes : list NodeInfo) (replicaN nodeIndex : nat)
    (shards : list ShardInfo) : list ShardInfo :=
  match shards with
  | [] => []
  | si :: shards' =>
      set_Owners (si_Owners si ++ pickOwners nodes replicaN nodeIndex) si
        :: assignOwners nodes replicaN (nodeIndex + replicaN)%nat shards'
  end.

(** The replication factor used for a group. *)
Definition groupReplicaN (replicaN nodeN : Z) : Z :=
  if replicaN =? 0 then 1 else if nodeN <? replicaN then nodeN else replicaN.

(** [CreateShardGroup(database, policy, timestamp)]; Go's integer division
    truncates. *)
Definition CreateShardGroup (database policy : string) (timestamp : Z) : DataM unit :=
  data ← get_state;
  if len (d_DataNodes data) =? 0 then mret tt
  else
    r ← lift_res (oss_RetentionPolicy (d_Data data) database policy);
    match r with
    | None => throw (ErrRetentionPolicyNotFound policy)
    | Some pos =>
        match rp_at (d_Data data) pos with
        | None => panic
        | Some rpi =>
            if oss_ShardGroupByTimestamp rpi timestamp is Some _ then mret tt
            else
              let nodes := d_DataNodes data in
              let replicaN := groupReplicaN (rpi_ReplicaN rpi) (len nodes) in
              let shardN := Z.quot (len nodes) replicaN in
              _ ← modify (λ d, set_Data
                    (set_MaxShardGroupID (u64 (od_MaxShardGroupID (d_Data d) + 1)) (d_Data d)) d);
              id ← gets (λ d, od_MaxShardGroupID (d_Data d));
              let start := time.Truncate timestamp (rpi_ShardGroupDuration rpi) in
              shards ← generatedShards shardN;
              let nodeIndex := Z.to_nat (od_Index (d_Data data) mod len nodes) in
              let sgi := mkShardGroupInfo id start (start + rpi_ShardGroupDuration rpi) zeroTime
                           (assignOwners nodes (Z.to_nat replicaN) nodeIndex shards) in
              modify (λ d, set_Data
                (rp_alter (λ r, set_ShardGroups
                   (sort.Sort oss_ShardGroupLess (rpi_ShardGroups r ++ [sgi])) r)
                   pos (d_Data d)) d)
        end
    end.

(** ** Shard ownership *)

(** All shards, in the order of the nested loops. *)
Definition all_shards (d : OssData) : list ShardInfo :=
  db ← od_Databases d; rp ← dbi_RetentionPolicies db; sg ← rpi_ShardGroups rp; sgi_Shards sg.

(** [ShardLocation(shardID)]: a copy of the first shard with the ID. *)
Definition ShardLocation (d : Data) (shardID : Z) : res ShardInfo :=
  match list_find (λ s, si_ID s = shardID) (all_shards (d_Data d)) with
  | Some (_, s) => Ok s
  | None => Err (errorf "failed to find shards assoicated with")
  end.

(** [UpdateShard(shardID, newOwners)] *)
Definition UpdateShard (shardID : Z) (newOwners : list ShardOwner) : DataM unit :=
  throw (errorf "Failed to find Shard assoicated with shard ID").

(** [AddShardOwner(shardID, nodeID)] *)
Definition AddShardOwner (shardID nodeID : Z) : DataM unit :=
  data ← get_state;
  match ShardLocation data shardID with
  | Ok si =>
      if oss_OwnedBy si nodeID then mret tt
      else if d_MaxNodeID data <? nodeID then mret tt
      else UpdateShard shardID
             (sort.Sort (λ a b, NodeID a <? NodeID b) [mkShardOwner nodeID])
  | Err e => throw e
  | Panics => panic
  end.

(** [PruneShard(si, nodeID)]: the owners are moved down, the last one stays. *)
Definition PruneShard (si : ShardInfo) (nodeID : Z) : res (list ShardOwner) :=
  match list_find (λ o, NodeID o = nodeID) (si_Owners si) with
  | Some (found, _) =>
      let o := si_Owners si in
      Ok (take found o ++ drop (S found) o ++ drop (length o - 1) o)
  | None => Err (errorf "failed to find shard owner")
  end.

(** [RemoveShardOwner(shardID, nodeID)]: [si] is nil exactly when it is used. *)
Definition RemoveShardOwner (shardID nodeID : Z) : DataM unit :=
  data ← get_state;
  match ShardLocation data shardID with
  | Ok _ => mret tt
  | Err _ => panic
  | Panics => panic
  end.

End oss.
