(* ===== verification/MetaNodes.v ===== *)
(** * Nodes of the cluster metadata

    The node lists stay sorted, node IDs are positive, never exceed the counter
    and stand for one TCP address each, whatever sequence of node operations
    runs; [SetMetaNode], which is given its ID, keeps this exactly when the ID
    fits. *)

From Stdlib Require Import ZArith Lia.
From S2P Require Import Prelude GoLib MetaData.

Local Open Scope Z_scope.

Definition by_id (a b : NodeInfo) : Prop := n_ID a ≤ n_ID b.

Definition all_nodes (d : Data) : list NodeInfo := d_MetaNodes d ++ d_DataNodes d.

Record wf (d : Data) : Prop := {
  wf_meta_sorted : StronglySorted by_id (d_MetaNodes d);
  wf_data_sorted : StronglySorted by_id (d_DataNodes d);
  wf_ids : ∀ n, n ∈ all_nodes d → 1 ≤ n_ID n ≤ d_MaxNodeID d;
  wf_max : 0 ≤ d_MaxNodeID d < 2 ^ 64;
  wf_host : ∀ a b, a ∈ all_nodes d → b ∈ all_nodes d → n_ID a = n_ID b ↔ n_TCPHost a = n_TCPHost b;
  wf_nodup : NoDup (n_TCPHost <$> d_DataNodes d);
}.

(** ** Lookups *)

Lemma node_by_tcp_None h l : node_by_tcp h l = None ↔ ∀ n, n ∈ l → n_TCPHost n ≠ h.
Proof.
  unfold node_by_tcp. by rewrite fmap_None, list_find_None, Forall_forall.
Qed.

Lemma node_by_tcp_Some h l n : node_by_tcp h l = Some n → n ∈ l ∧ n_TCPHost n = h.
Proof.
  unfold node_by_tcp. intros ([i m] & (Hi & Hp & _)%list_find_Some & ->)%fmap_Some.
  simpl. split; [by eapply list_elem_of_lookup_2|done].
Qed.

Lemma sortNodes_perm l : sortNodes l ≡ₚ l.
Proof. apply sort.Sort_perm. Qed.

Lemma sortNodes_sorted l : StronglySorted by_id (sortNodes l).
Proof. by apply sort.Sort_sorted. Qed.

Lemma StronglySorted_filter {A} (R : relation A) (P : A → Prop) `{∀ x, Decision (P x)} l :
  StronglySorted R l → StronglySorted R (filter P l).
Proof.
  induction 1 as [|x l _ IH Hx]; [constructor|]. rewrite filter_cons.
  case_decide; [|done]. constructor; [done|]. rewrite Forall_forall in *.
  intros y [_ Hy]%list_elem_of_filter. auto.
Qed.

(** ** ID assignment *)

Lemma assignID_spec d tcp :
  wf d → d_MaxNodeID d + 1 < 2 ^ 64 → node_by_tcp tcp (d_DataNodes d) = None →
  ∃ id m, assignID tcp d = (Ok id, set_MaxNodeID m d) ∧ d_MaxNodeID d ≤ m ≤ d_MaxNodeID d + 1 ∧
    1 ≤ id ≤ m ∧ ∀ n, n ∈ all_nodes d → n_ID n = id ↔ n_TCPHost n = tcp.
Proof.
  intros Hwf Hmax Hdata. rewrite node_by_tcp_None in Hdata. destruct Hwf as [_ _ Hids Hm Hhost _].
  unfold assignID. gom_simpl.
  destruct (node_by_tcp tcp (d_MetaNodes d)) as [n|] eqn:Hn; simpl.
  - apply node_by_tcp_Some in Hn as [Hn Htcp].
    assert (Hin : n ∈ all_nodes d) by (apply elem_of_app; auto).
    pose proof (Hids n Hin). zbool. exists (n_ID n), (d_MaxNodeID d).
    split; [by destruct d|]. split; [lia|]. split; [lia|].
    intros m Hm'. rewrite (Hhost m n), Htcp by done. done.
  - rewrite node_by_tcp_None in Hn. rewrite u64_small by lia.
    exists (d_MaxNodeID d + 1), (d_MaxNodeID d + 1). split; [done|]. split; [lia|]. split; [lia|].
    intros m Hm'. pose proof (Hids m Hm'). split; [lia|]. intros Htcp. exfalso.
    apply elem_of_app in Hm' as [?|?]; [by eapply Hn|by eapply Hdata].
Qed.

Section insert.
  Context (d : Data) (host tcp : string) (id m : Z).
  Context (Hwf : wf d) (Hmax : d_MaxNodeID d + 1 < 2 ^ 64).
  Context (Hm : d_MaxNodeID d ≤ m ≤ d_MaxNodeID d + 1) (Hid : 1 ≤ id ≤ m).
  Context (Hnew : ∀ n, n ∈ all_nodes d → n_ID n = id ↔ n_TCPHost n = tcp).
Let x := mkNodeInfo id host tcp [].

Lemma insert_ids_hosts d' :
  d_MaxNodeID d' = m → all_nodes d' ≡ₚ x :: all_nodes d →
  (∀ n, n ∈ all_nodes d' → 1 ≤ n_ID n ≤ d_MaxNodeID d') ∧ 0 ≤ d_MaxNodeID d' < 2 ^ 64 ∧
  (∀ a b, a ∈ all_nodes d' → b ∈ all_nodes d' → n_ID a = n_ID b ↔ n_TCPHost a = n_TCPHost b).
Proof.
  intros -> Hp. destruct Hwf as [_ _ Hids HM Hhost _]. split; [|split; [lia|]].
  - intros n. rewrite Hp. intros [->|Hn]%elem_of_cons; [simpl; lia|].
    specialize (Hids n Hn). lia.
  - intros a b. rewrite Hp, !elem_of_cons. intros [->|Ha] [->|Hb]; simpl.
    + done.
    + pose proof (Hnew b Hb). naive_solver.
    + by apply Hnew.
    + by apply Hhost.
Qed.

Lemma wf_insert_meta :
  wf (set_MetaNodes (sortNodes (d_MetaNodes d ++ [x])) (set_MaxNodeID m d)).
Proof.
  set (d' := set_MetaNodes _ _).
  destruct (insert_ids_hosts d') as (H1 & H2 & H3); [done| |].
  { unfold all_nodes, d'. simpl. rewrite sortNodes_perm. rewrite <- app_assoc.
    symmetry. apply Permutation_middle. }
  split; [apply sortNodes_sorted|apply Hwf|done|done|done|apply Hwf].
Qed.

Lemma wf_insert_data :
  node_by_tcp tcp (d_DataNodes d) = None →
  wf (set_DataNodes (sortNodes (d_DataNodes d ++ [x])) (set_MaxNodeID m d)).
Proof.
  intros Hdata. rewrite node_by_tcp_None in Hdata. set (d' := set_DataNodes _ _).
  destruct (insert_ids_hosts d') as (H1 & H2 & H3); [done| |].
  { unfold all_nodes, d'. simpl. rewrite sortNodes_perm. rewrite app_assoc.
    symmetry. apply Permutation_cons_append. }
  split; [apply Hwf|apply sortNodes_sorted|done|done|done|].
  simpl. rewrite sortNodes_perm, fmap_app. apply NoDup_app. split; [apply Hwf|]. split.
  - intros h (n & -> & Hn)%list_elem_of_fmap. simpl. rewrite list_elem_of_singleton. by apply Hdata.
  - apply NoDup_singleton.
Qed.

End insert.

Lemma wf_delete (d : Data) (mn dn : list NodeInfo) o :
  wf d → StronglySorted by_id mn → StronglySorted by_id dn → mn ⊆ d_MetaNodes d →
  dn ⊆ d_DataNodes d → NoDup (n_TCPHost <$> dn) →
  wf (set_Data o (set_MetaNodes mn (set_DataNodes dn d))).
Proof.
  intros [_ _ Hids Hm Hhost _] H1 H2 Hmn Hdn Hnd.
  assert (Hsub : ∀ n, n ∈ mn ++ dn → n ∈ all_nodes d).
  { intros n. unfold all_nodes. set_solver. }
  split; simpl; try done.
  - intros n Hn. apply Hids. by apply Hsub.
  - intros a b Ha Hb. apply Hhost; by apply Hsub.
Qed.

Lemma set_nodes_id d : set_MetaNodes (d_MetaNodes d) d = d ∧ set_DataNodes (d_DataNodes d) d = d
  ∧ set_Data (d_Data d) d = d.
Proof. by destruct d. Qed.

(** ** Operations *)

Inductive node_op : Type :=
  | OpCreateMetaNode (host tcpHost : string)
  | OpSetMetaNode (nodeID : Z) (host tcpHost : string)
  | OpCreateDataNode (host tcpHost : string)
  | OpDeleteMetaNode (now id : Z)
  | OpDeleteDataNode (id : Z)
  | OpUpdateDataNode (id : Z) (host tcpHost : string)
  | OpCreateUser (name hash : string) (admin : bool)
  | OpDropUser (name : string).

Definition exec_op (op : node_op) : DataM unit :=
  match op with
  | OpCreateMetaNode h t => CreateMetaNode h t
  | OpSetMetaNode id h t => SetMetaNode id h t
  | OpCreateDataNode h t => CreateDataNode h t
  | OpDeleteMetaNode now id => DeleteMetaNode now id
  | OpDeleteDataNode id => DeleteDataNode id
  | OpUpdateDataNode id h t => UpdateDataNode id h t
  | OpCreateUser n h a => CreateUser n h a
  | OpDropUser n => DropUser n
  end.

(** A sequence of operations; a failed one is skipped by its caller. *)
Definition exec_ops (ops : list node_op) (d : Data) : Data :=
  fold_left (λ d op, (exec_op op d).2) ops d.

(** The ID that [SetMetaNode] is given is in order: it comes after those of the meta
    nodes, the counter covers it, and it is the one of the address. *)
Definition fits (d : Data) (id : Z) (tcpHost : string) : Prop :=
  (∀ n, n ∈ d_MetaNodes d → n_ID n ≤ id) ∧ 1 ≤ id ≤ d_MaxNodeID d ∧
  ∀ n, n ∈ all_nodes d → n_ID n = id ↔ n_TCPHost n = tcpHost.

(** A host that is known is refused. *)
Definition known (d : Data) (host : string) : Prop := ∃ n, n ∈ d_MetaNodes d ∧ n_Host n = host.

Definition admissible (d : Data) (op : node_op) : Prop :=
  match op with
  | OpSetMetaNode id h t => known d h ∨ fits d id t
  | _ => True
  end.

(** Every operation of the sequence is admissible when its turn comes. *)
Fixpoint all_admissible (d : Data) (ops : list node_op) : Prop :=
  match ops with
  | [] => True
  | op :: ops' => admissible d op ∧ all_admissible (exec_op op d).2 ops'
  end.

Lemma StronglySorted_snoc l x :
  StronglySorted by_id (l ++ [x]) ↔ StronglySorted by_id l ∧ ∀ n, n ∈ l → n_ID n ≤ n_ID x.
Proof.
  induction l as [|y l IH]; cbn.
  - split; [|by repeat constructor]. intros _. split; [constructor|]. by intros n ?%elem_of_nil.
  - split.
    + intros [Hs Hy]%StronglySorted_inv. apply Forall_app in Hy as [Hy Hx]. apply IH in Hs as [Hs Hl].
      split; [by constructor|]. intros n [->|Hn]%elem_of_cons; [|by apply Hl]. by inversion Hx.
    + intros [[Hs Hy]%StronglySorted_inv Hl]. constructor.
      * apply IH. split; [done|]. intros n Hn. apply Hl. by right.
      * apply Forall_app. split; [done|]. repeat constructor. apply Hl. left.
Qed.

(** A meta node is appended exactly when its ID fits. *)
Lemma wf_append_meta d id host tcp :
  wf d → wf (set_MetaNodes (d_MetaNodes d ++ [mkNodeInfo id host tcp []]) d) ↔ fits d id tcp.
Proof.
  intros Hwf. set (x := mkNodeInfo id host tcp []). set (d' := set_MetaNodes _ d).
  assert (Hall : all_nodes d' ≡ₚ x :: all_nodes d).
  { unfold all_nodes, d'. cbn. rewrite <- app_assoc. symmetry. apply Permutation_middle. }
  split.
  - intros [Hs _ Hids _ Hhost _]. cbn in Hs. apply StronglySorted_snoc in Hs as [_ Hle].
    assert (x ∈ all_nodes d') as Hx by (rewrite Hall; left). split; [exact Hle|]. split; [exact (Hids x Hx)|].
    intros n Hn. apply (Hhost n x); [|done]. rewrite Hall. by right.
  - intros (Hle & Hid & Hnew). destruct Hwf as [Hs Hd Hids Hm Hhost Hnd]. split; try done.
    + by apply StronglySorted_snoc.
    + intros n. rewrite Hall. intros [->|Hn]%elem_of_cons; [done|]. by apply Hids.
    + intros a b. rewrite Hall, !elem_of_cons. intros [->|Ha] [->|Hb]; [done|..|by apply Hhost].
      * rewrite (eq_comm (n_ID x)), (eq_comm (n_TCPHost x)). by apply Hnew.
      * by apply Hnew.
Qed.

Lemma SetMetaNode_wf d id host tcp :
  wf d → (wf (SetMetaNode id host tcp d).2 ↔ known d host ∨ fits d id tcp) ∧
  d_MaxNodeID (SetMetaNode id host tcp d).2 = d_MaxNodeID d.
Proof.
  intros Hwf. unfold SetMetaNode. gom_simpl. destruct (list_find _ _) as [[i n]|] eqn:Hf; (split; [|done]).
  - apply list_find_Some in Hf as (Hi & Hh & _). split; [|done]. intros _. left. exists n.
    split; [by eapply list_elem_of_lookup_2|done].
  - apply list_find_None in Hf. rewrite Forall_forall in Hf. cbn. rewrite wf_append_meta by done.
    split; [by right|]. intros [(n & Hn & Hh)|?]; [by destruct (Hf n)|done].
Qed.

Lemma exec_op_wf op d :
  wf d → d_MaxNodeID d + 1 < 2 ^ 64 → admissible d op →
  wf (exec_op op d).2 ∧ d_MaxNodeID (exec_op op d).2 ≤ d_MaxNodeID d + 1.
Proof.
  intros Hwf Hmax Hadm. destruct op as [h t|id h t|h t|now id|id|id h t|n h a|n]; simpl.
  - unfold CreateMetaNode. gom_simpl.
    destruct (node_by_tcp t (d_DataNodes d)) eqn:Hd; [simpl; split; [done|lia]|].
    destruct (assignID_spec d t Hwf Hmax Hd) as (id & m & -> & ? & ? & ?).
    split; [by apply (wf_insert_meta d h t id m)|simpl; lia].
  - destruct (SetMetaNode_wf d id h t Hwf) as [Hiff Hm]. split; [by apply Hiff|lia].
  - unfold CreateDataNode. gom_simpl.
    destruct (node_by_tcp t (d_DataNodes d)) eqn:Hd; [simpl; split; [done|lia]|].
    destruct (assignID_spec d t Hwf Hmax Hd) as (id & m & -> & ? & ? & ?).
    split; [by apply (wf_insert_data d h t id m)|simpl; lia].
  - unfold DeleteMetaNode. gom_simpl. case_match; simpl; [split; [done|lia]|].
    split; [|lia]. destruct (set_nodes_id d) as (_ & Hd & _). rewrite <- Hd at 1.
    apply wf_delete; [done|apply StronglySorted_filter, Hwf|apply Hwf| |done|apply Hwf].
    intros n [_ ?]%list_elem_of_filter. done.
  - unfold DeleteDataNode. gom_simpl. case_match; simpl; [split; [done|lia]|].
    split; [|lia].
    assert (wf (set_Data (d_Data d) (set_MetaNodes (d_MetaNodes d)
      (set_DataNodes (filter (λ n, n_ID n ≠ id) (d_DataNodes d)) d)))) as Hw; [|by destruct d].
    apply wf_delete; [done|apply Hwf|apply StronglySorted_filter, Hwf|done| |].
    + intros n [_ ?]%list_elem_of_filter. done.
    + eapply sublist_NoDup; [apply Hwf|]. apply fmap_sublist, sublist_filter.
  - split; [done|lia].
  - unfold CreateUser. gom_simpl. repeat case_match; simpl; (split; [|lia]); try done.
    by destruct Hwf; split.
  - unfold DropUser. gom_simpl. repeat case_match; simpl; (split; [|lia]); try done.
    by destruct Hwf; split.
Qed.

Lemma exec_ops_wf ops d :
  wf d → d_MaxNodeID d + len ops < 2 ^ 64 → all_admissible d ops → wf (exec_ops ops d).
Proof.
  revert d. induction ops as [|op ops IH]; intros d Hwf Hmax; [done|]. intros [Hadm Hadms].
  rewrite len_cons in Hmax. pose proof (len_nonneg ops).
  destruct (exec_op_wf op d) as [Hw Hm]; [done|lia|done|].
  simpl. apply IH; [done|lia|done].
Qed.

(** Distinct data nodes have distinct IDs. *)
Lemma wf_data_ids d : wf d → NoDup (n_ID <$> d_DataNodes d).
Proof.
  intros [_ _ _ _ Hhost Hnd].
  assert (∀ n, n ∈ d_DataNodes d → n ∈ all_nodes d) as Hin.
  { intros n ?. apply elem_of_app. by right. }
  revert Hnd Hin. induction (d_DataNodes d) as [|n l IH]; intros Hnd Hin; [constructor|].
  rewrite fmap_cons in *. apply NoDup_cons in Hnd as [Hn Hnd]. constructor.
  - intros (n' & E & Hn')%list_elem_of_fmap. apply Hn. apply list_elem_of_fmap.
    exists n'. split; [|done]. apply Hhost; [apply Hin; left|apply Hin; by right|done].
  - apply IH; [done|]. intros ??. apply Hin. by right.
Qed.
