(* ===== verification/MetaShards.v ===== *)
(** * Shard groups of the cluster metadata

    What [CreateShardGroup] builds (replication, distinct owners, numbering,
    time range) and what [DeleteMetaNode] does to the owners of the shards. *)

From Stdlib Require Import ZArith Lia.
From S2P Require Import Prelude GoLib MetaData MetaNodes.

Local Open Scope Z_scope.

(** ** Round robin *)

Lemma pickOwners_app nodes a b i :
  pickOwners nodes (a + b) i = pickOwners nodes a i ++ pickOwners nodes b (i + a).
Proof. unfold pickOwners. by rewrite seq_app, fmap_app. Qed.

Lemma assignOwners_owners nodes r i shards :
  Forall (λ s, si_Owners s = []) shards →
  assignOwners nodes r i shards ≫= si_Owners = pickOwners nodes (length shards * r) i.
Proof.
  intros H. revert i. induction H as [|s shards Hs _ IH]; intros i; [done|].
  simpl. rewrite IH, Hs. simpl. by rewrite pickOwners_app.
Qed.

Lemma assignOwners_each nodes r i shards :
  Forall (λ s, si_Owners s = []) shards →
  Forall (λ s, length (si_Owners s) = r) (assignOwners nodes r i shards).
Proof.
  intros H. revert i. induction H as [|s shards Hs _ IH]; intros i; simpl; constructor; [|auto].
  simpl. rewrite Hs. simpl. unfold pickOwners. by rewrite length_fmap, length_seq.
Qed.

Lemma assignOwners_ids nodes r i shards :
  si_ID <$> assignOwners nodes r i shards = si_ID <$> shards.
Proof. revert i. induction shards as [|s shards IH]; intros i; simpl; [done|]. by rewrite IH. Qed.

(** At most one round over the nodes picks every node at most once. *)
Lemma pickOwners_nodup nodes m i :
  NoDup (n_ID <$> nodes) → (m ≤ length nodes)%nat → NoDup (pickOwners nodes m i).
Proof.
  intros Hnd Hm. unfold pickOwners. apply NoDup_fmap_2_strong; [|apply NoDup_seq].
  intros k k' Hk Hk' E. rewrite elem_of_seq in Hk, Hk'.
  assert (length nodes ≠ 0)%nat by lia.
  destruct (lookup_lt_is_Some_2 nodes (k mod length nodes)) as [n Hn];
    [by apply Nat.mod_upper_bound|].
  destruct (lookup_lt_is_Some_2 nodes (k' mod length nodes)) as [n' Hn'];
    [by apply Nat.mod_upper_bound|].
  rewrite Hn, Hn' in E. simpl in E. injection E as E.
  assert ((k mod length nodes)%nat = (k' mod length nodes)%nat) as Emod.
  { eapply (NoDup_lookup (n_ID <$> nodes)); [done|by rewrite list_lookup_fmap, Hn|].
    rewrite list_lookup_fmap, Hn'. simpl. by rewrite E. }
  pose proof (Nat.div_mod k (length nodes) ltac:(lia)).
  pose proof (Nat.div_mod k' (length nodes) ltac:(lia)).
  destruct (Nat.lt_trichotomy (k / length nodes) (k' / length nodes)) as [?|[?|?]]; nia.
Qed.

Lemma pickOwners_members nodes m i o :
  nodes ≠ [] → o ∈ pickOwners nodes m i → NodeID o ∈ n_ID <$> nodes.
Proof.
  intros Hne (k & -> & _)%list_elem_of_fmap. simpl.
  destruct (lookup_lt_is_Some_2 nodes (k mod length nodes)) as [n Hn].
  { apply Nat.mod_upper_bound. by destruct nodes. }
  rewrite Hn. simpl. apply list_elem_of_fmap. exists n. split; [done|].
  by eapply list_elem_of_lookup_2.
Qed.

(** ** Numbering *)

Definition bumpShardID (n : Z) (d : Data) : Data :=
  set_Data (set_MaxShardID (od_MaxShardID (d_Data d) + n) (d_Data d)) d.

Lemma numberShards_spec n d :
  0 ≤ od_MaxShardID (d_Data d) → od_MaxShardID (d_Data d) + Z.of_nat n < 2 ^ 64 →
  ∃ shards, numberShards n d = (Ok shards, bumpShardID (Z.of_nat n) d) ∧
    si_ID <$> shards = (λ k, od_MaxShardID (d_Data d) + 1 + Z.of_nat k) <$> seq 0 n ∧
    Forall (λ s, si_Owners s = []) shards.
Proof.
  revert d. induction n as [|n IH]; intros d H0 Hb.
  - exists []. simpl. split; [|done]. unfold bumpShardID. rewrite Z.add_0_r.
    by destruct d as [[]].
  - cbn [numberShards]. gom_simpl. rewrite u64_small by lia.
    set (d1 := set_Data _ d).
    destruct (IH d1) as (shards & Hr & Hi & Ho); [simpl; lia|simpl; lia|].
    assert (bumpShardID (Z.of_nat n) d1 = bumpShardID (Z.of_nat (S n)) d) as Hd.
    { unfold bumpShardID, d1, set_Data, set_MaxShardID. cbn -[Z.of_nat]. do 2 f_equal. lia. }
    exists (mkShardInfo (od_MaxShardID (d_Data d) + 1) [] :: shards). split; [|split].
    + by rewrite Hr, Hd.
    + rewrite fmap_cons, Hi. simpl. f_equal; [lia|]. rewrite <- fmap_S_seq, <- list_fmap_compose.
      apply list_fmap_ext. intros i x _. simpl. lia.
    + by constructor.
Qed.

(** ** CreateShardGroup *)

Section create.
  Context `{OssMeta}.

Lemma rp_at_alter f pos d r :
  rp_at d pos = Some r → rp_at (rp_alter f pos d) pos = Some (f r).
Proof.
  unfold rp_at, rp_alter. simpl. rewrite list_lookup_alter. rewrite decide_True by done.
  destruct (od_Databases d !! pos.1) as [db|]; [|done]. simpl.
  rewrite list_lookup_alter, decide_True by done. by intros ->.
Qed.

Lemma rp_at_alter_ne f pos pos' d : pos ≠ pos' → rp_at (rp_alter f pos d) pos' = rp_at d pos'.
Proof.
  intros Hne. unfold rp_at, rp_alter. simpl. rewrite list_lookup_alter. case_decide as E; [|done].
  rewrite <- E. destruct (od_Databases d !! pos.1) as [db|]; [|done]. simpl.
  rewrite list_lookup_alter. case_decide as E'; [|done].
  destruct pos, pos'. simpl in *. congruence.
Qed.

Lemma groupReplicaN_bounds r n : 0 ≤ r → 1 ≤ n → 1 ≤ groupReplicaN r n ≤ n.
Proof.
  intros. unfold groupReplicaN. destruct (Z.eqb_spec r 0); [lia|].
  destruct (Z.ltb_spec n r); lia.
Qed.

(** The shape of a new group over [nodes]. *)
Record group_ok (nodes : list NodeInfo) (rpi : RetentionPolicyInfo) (maxShard ts : Z)
    (g : ShardGroupInfo) : Prop := {
  go_count : len (sgi_Shards g) = len nodes / groupReplicaN (rpi_ReplicaN rpi) (len nodes);
  go_replicas : Forall (λ s, len (si_Owners s) = groupReplicaN (rpi_ReplicaN rpi) (len nodes))
                  (sgi_Shards g);
  go_distinct : NoDup (sgi_Shards g ≫= si_Owners);
  go_members : ∀ o, o ∈ sgi_Shards g ≫= si_Owners → NodeID o ∈ n_ID <$> nodes;
  go_numbers : si_ID <$> sgi_Shards g =
    (λ k, maxShard + 1 + Z.of_nat k) <$> seq 0 (length (sgi_Shards g));
  go_range : 0 < rpi_ShardGroupDuration rpi → covers g ts;
  go_aligned : sgi_StartTime g = time.Truncate ts (rpi_ShardGroupDuration rpi);
}.

Lemma CreateShardGroup_spec d database policy ts pos rpi :
  d_DataNodes d ≠ [] → NoDup (n_ID <$> d_DataNodes d) →
  oss_RetentionPolicy (d_Data d) database policy = Ok (Some pos) →
  rp_at (d_Data d) pos = Some rpi → oss_ShardGroupByTimestamp rpi ts = None →
  0 ≤ rpi_ReplicaN rpi → 0 ≤ od_MaxShardID (d_Data d) →
  od_MaxShardID (d_Data d) + len (d_DataNodes d) < 2 ^ 64 →
  ∃ g groups d', CreateShardGroup database policy ts d = (Ok tt, d') ∧
    rp_at (d_Data d') pos = Some (set_ShardGroups groups rpi) ∧
    groups ≡ₚ rpi_ShardGroups rpi ++ [g] ∧
    (∀ pos', pos' ≠ pos → rp_at (d_Data d') pos' = rp_at (d_Data d) pos') ∧
    sgi_ID g = od_MaxShardGroupID (d_Data d') ∧
    od_MaxShardGroupID (d_Data d') = u64 (od_MaxShardGroupID (d_Data d) + 1) ∧
    d_DataNodes d' = d_DataNodes d ∧ d_MetaNodes d' = d_MetaNodes d ∧
    group_ok (d_DataNodes d) rpi (od_MaxShardID (d_Data d)) ts g.
Proof.
  intros Hne Hnd Hrp Hat Hts Hr0 Hs0 Hsb.
  set (nodes := d_DataNodes d) in *.
  assert (Hn1 : 1 ≤ len nodes).
  { destruct nodes; [done|]. rewrite len_cons. pose proof (len_nonneg nodes). lia. }
  pose proof (groupReplicaN_bounds _ _ Hr0 Hn1) as Hg. set (r := groupReplicaN _ _) in *.
  assert (Hq : Z.quot (len nodes) r = len nodes / r) by (apply Z.quot_div_nonneg; lia).
  pose proof (Z.div_pos (len nodes) r ltac:(lia) ltac:(lia)) as Hq0.
  pose proof (Z.mul_div_le (len nodes) r ltac:(lia)) as Hqm.
  unfold CreateShardGroup. gom_simpl. fold nodes. zbool. rewrite Hrp, Hat, Hts.
  cbn [d_Data set_Data od_MaxShardGroupID set_MaxShardGroupID]. fold r.
  unfold generatedShards. rewrite Hq. zbool.
  set (d1 := set_Data _ d).
  destruct (numberShards_spec (Z.to_nat (len nodes / r)) d1) as (shards & -> & Hids & Hown);
    [simpl; lia|simpl; nia|].
  assert (Hlen : length shards = Z.to_nat (len nodes / r)).
  { rewrite <- (length_fmap si_ID), Hids, length_fmap, length_seq. done. }
  set (i := Z.to_nat (od_Index (d_Data d) mod len nodes)).
  assert (Hcnt : (length shards * Z.to_nat r ≤ length nodes)%nat) by (unfold len in *; nia).
  do 3 eexists. split; [done|]. split.
  { simpl. erewrite rp_at_alter; [done|exact Hat]. }
  split; [apply sort.Sort_perm|]. split.
  { intros pos' Hpos'. simpl. rewrite rp_at_alter_ne by done. done. }
  split; [done|]. split; [done|]. split; [done|]. split; [done|].
  pose proof (assignOwners_owners nodes (Z.to_nat r) i shards Hown) as Ho.
  assert (Hl2 : length (assignOwners nodes (Z.to_nat r) i shards) = length shards).
  { by rewrite <- (length_fmap si_ID), assignOwners_ids, length_fmap. }
  split; simpl.
  - unfold len at 1. rewrite Hl2, Hlen. fold r. lia.
  - fold r. eapply Forall_impl; [by apply assignOwners_each|]. unfold len at 1. simpl. intros s Hl. lia.
  - rewrite Ho. by apply pickOwners_nodup.
  - intros o. rewrite Ho. by apply pickOwners_members.
  - rewrite assignOwners_ids, Hids, Hl2, Hlen. done.
  - intros Hd. split; [done|]. simpl. pose proof (time.Truncate_bounds ts _ Hd). lia.
  - done.
Qed.

End create.

(** ** DeleteMetaNode *)

Lemma last_owner_fold id owners idx i :
  fst (fold_left (λ '(idx, i) o, (if NodeID o =? id then Some i else idx, S i)) owners (idx, i)) =
  match last_owner id owners with Some k => Some (i + k)%nat | None => idx end.
Proof.
  revert idx i. induction owners as [|o owners IH] using rev_ind; intros idx i; [done|].
  unfold last_owner. rewrite !fold_left_app. simpl.
  assert (∀ l idx i, snd (fold_left (λ '(idx, i) o, (if NodeID o =? id then Some i else idx, S i)) l (idx, i)) = (i + length l)%nat) as Hsnd.
  { clear. induction l as [|o l IH]; intros idx i; simpl; [lia|]. rewrite IH. lia. }
  pose proof (Hsnd owners idx i) as H1. pose proof (Hsnd owners None 0%nat) as H2.
  specialize (IH idx i). unfold last_owner in IH.
  destruct (fold_left _ owners (idx, i)) as [a b]. destruct (fold_left _ owners (None, 0%nat)) as [a' b'].
  simpl in *. subst b b'. by destruct (NodeID o =? id).
Qed.

(** With distinct owners, dropping the node removes it and nothing else. *)
Lemma dropOwner_owners id s :
  NoDup (si_Owners s) →
  si_Owners (dropOwner id s) = filter (λ o, NodeID o ≠ id) (si_Owners s).
Proof.
  intros Hnd. unfold dropOwner.
  enough (match last_owner id (si_Owners s) with
          | Some k => take k (si_Owners s) ++ drop (S k) (si_Owners s)
          | None => si_Owners s end = filter (λ o, NodeID o ≠ id) (si_Owners s)) as <-
    by by destruct (last_owner id (si_Owners s)).
  induction Hnd as [|o l Ho Hnd IH]; [done|].
  unfold last_owner. simpl. rewrite last_owner_fold. rewrite filter_cons.
  destruct (Z.eqb_spec (NodeID o) id) as [E|E].
  - assert (Hnone : last_owner id l = None).
    { clear IH Hnd. induction l as [|o' l IH]; [done|]. unfold last_owner. simpl.
      rewrite last_owner_fold. apply not_elem_of_cons in Ho as [Hne Ho]. rewrite IH by done.
      destruct (Z.eqb_spec (NodeID o') id); [|done].
      exfalso. apply Hne. destruct o, o'. simpl in *. congruence. }
    rewrite Hnone, decide_False in * by tauto. simpl. rewrite <- IH. done.
  - rewrite decide_True by done. rewrite <- IH.
    destruct (last_owner id l) as [k|]; done.
Qed.

Lemma all_shards_release id now o :
  all_shards (releaseNode id now o) = dropOwner id <$> all_shards o.
Proof.
  unfold all_shards, releaseNode. destruct o as [? ? ? dbs ? ?].
  cbn [od_Databases set_Databases].
  induction dbs as [|[? ? rps] dbs IH]; [done|]. rewrite !fmap_cons, !bind_cons, fmap_app, <- IH.
  f_equal. cbn [dbi_RetentionPolicies set_RetentionPolicies].
  induction rps as [|[? ? ? ? gs] rps IHr]; [done|].
  rewrite !fmap_cons, !bind_cons, fmap_app, <- IHr.
  f_equal. cbn [rpi_ShardGroups set_ShardGroups].
  induction gs as [|g gs IHg]; [done|]. by rewrite !fmap_cons, !bind_cons, fmap_app, <- IHg.
Qed.

Lemma filter_keeps_length {A} (P : A → Prop) `{∀ x, Decision (P x)} l :
  length (filter P l) = length l ↔ Forall P l.
Proof.
  induction l as [|x l IH]; [by simpl|]. rewrite filter_cons, Forall_cons, <- IH.
  pose proof (length_filter P l). case_decide; simpl; [naive_solver lia|naive_solver lia].
Qed.

(** A group is marked deleted exactly when no shard of it is owned. *)
Lemma releaseGroup_deleted id now g :
  sgi_DeletedAt (releaseGroup id now g) =
    if decide (Forall (λ s, si_Owners (dropOwner id s) = []) (sgi_Shards g))
    then now else sgi_DeletedAt g.
Proof.
  unfold releaseGroup. simpl.
  assert (Heq : Forall (λ s, si_Owners (dropOwner id s) = []) (sgi_Shards g) ↔
    len (filter orphan (dropOwner id <$> sgi_Shards g)) = len (sgi_Shards g)).
  { unfold len. rewrite Nat2Z.inj_iff, <- (length_fmap (dropOwner id) (sgi_Shards g)) at 1.
    rewrite filter_keeps_length, Forall_fmap. unfold compose.
    split; (intros HF; eapply Forall_impl; [exact HF|]); intros s; unfold orphan, len; simpl;
      destruct (si_Owners (dropOwner id s)); done. }
  destruct (Z.eqb_spec (len (sgi_Shards g)) 0) as [E|E]; simpl.
  - rewrite decide_True; [done|]. unfold len in E. destruct (sgi_Shards g); [constructor|simpl in E; lia].
  - case_decide as HF.
    + apply Heq in HF. rewrite HF, Z.eqb_refl. done.
    + destruct (Z.eqb_spec (len (filter orphan (dropOwner id <$> sgi_Shards g)))
        (len (sgi_Shards g))) as [E2|E2]; [|done].
      by apply Heq in E2.
Qed.

(** All shard groups, in the order of the nested loops. *)
Definition all_groups (d : OssData) : list ShardGroupInfo :=
  db ← od_Databases d; rp ← dbi_RetentionPolicies db; rpi_ShardGroups rp.

Lemma all_groups_release id now o :
  all_groups (releaseNode id now o) = releaseGroup id now <$> all_groups o.
Proof.
  unfold all_groups, releaseNode. destruct o as [? ? ? dbs ? ?].
  cbn [od_Databases set_Databases].
  induction dbs as [|[? ? rps] dbs IH]; [done|]. rewrite !fmap_cons, !bind_cons, fmap_app, <- IH.
  f_equal. cbn [dbi_RetentionPolicies set_RetentionPolicies].
  induction rps as [|[? ? ? ? gs] rps IHr]; [done|].
  by rewrite !fmap_cons, !bind_cons, fmap_app, <- IHr.
Qed.

Lemma release_group_at id now o i g :
  all_groups o !! i = Some g → ∃ g', all_groups (releaseNode id now o) !! i = Some g' ∧
    sgi_DeletedAt g' =
      if decide (Forall (λ s, si_Owners s = []) (sgi_Shards g')) then now else sgi_DeletedAt g.
Proof.
  intros Hg. exists (releaseGroup id now g). rewrite all_groups_release, list_lookup_fmap, Hg.
  split; [done|]. rewrite releaseGroup_deleted. apply decide_ext.
  unfold releaseGroup. simpl. by rewrite Forall_fmap.
Qed.
