(* ===== verification/MetaTheorems.v ===== *)
(** * Properties of the cluster metadata

    The theorems about meta/data.go, each with a concrete run that meets its
    hypotheses, and an instance of the OSS interface to run them on. *)

From Stdlib Require Import ZArith Lia.
From Stdlib Require Import Strings.Byte.
From S2P Require Import Prelude GoLib MetaData MetaNodes MetaShards.

Local Open Scope Z_scope.

(** ** An instance of the OSS interface *)

Definition find_policy (d : OssData) (db rp : string) : option (nat * nat) :=
  '(i, dbi) ← list_find (λ x, dbi_Name x = db) (od_Databases d);
  '(j, _) ← list_find (λ x, rpi_Name x = rp) (dbi_RetentionPolicies dbi);
  Some (i, j).

#[export] Instance covers_dec g t : Decision (covers g t).
Proof. unfold covers. apply _. Defined.

Definition demo_oss : OssMeta := {|
  oss_Clone d := d;
  oss_MarshalBinary _ := Ok [];
  oss_UnmarshalBinary _ := mret tt;
  oss_RetentionPolicy d db rp := Ok (find_policy d db rp);
  oss_ShardGroupByTimestamp r t := snd <$> list_find (λ g, covers g t) (rpi_ShardGroups r);
  oss_ShardGroupLess a b := sgi_StartTime a <? sgi_StartTime b;
  oss_OwnedBy s n := bool_decide (mkShardOwner n ∈ si_Owners s);
  proto_Marshal pb :=
    match pc_MaxNodeID pb with Some _ => Ok [] | None => Err (errorf "required field not set") end;
  proto_Unmarshal _ := Err (errorf "required field not set");
|}.

Lemma demo_oss_laws : @OssMetaLaws demo_oss.
Proof.
  split; simpl.
  - done.
  - intros d db rp pos [= Hf]. unfold find_policy in Hf.
    destruct (list_find (λ x, dbi_Name x = db) (od_Databases d)) as [[i dbi]|] eqn:E1; [|done].
    simpl in Hf.
    destruct (list_find (λ x, rpi_Name x = rp) (dbi_RetentionPolicies dbi)) as [[j r]|] eqn:E2; [|done].
    injection Hf as <-. apply list_find_Some in E1 as (H1 & _ & _).
    apply list_find_Some in E2 as (H2 & H3 & _). exists r. unfold rp_at. simpl. by rewrite H1.
  - intros r t Hn g Hg. apply fmap_None in Hn. apply list_find_None in Hn.
    rewrite Forall_forall in Hn. by apply Hn.
  - intros s n. apply bool_decide_eq_true.
  - intros pb ->. eauto.
Qed.

(** Three nodes and a database with an hourly policy of two replicas. *)
Definition demo_node (id : Z) (h : string) : NodeInfo := mkNodeInfo id h h [].
Definition demo_policy : RetentionPolicyInfo :=
  mkRetentionPolicyInfo "autogen" 2 0 time.Hour [].
Definition demo_meta : OssData :=
  mkOssData 1 7 99 [mkDatabaseInfo "db" "autogen" [demo_policy]] 0 0.
Definition demo_data : Data :=
  mkData demo_meta [demo_node 1 "a"] [demo_node 1 "a"; demo_node 2 "b"; demo_node 3 "c"]
    [mkUserInfo "jane" "h" true] [] 3.

Lemma demo_data_wf : wf demo_data.
Proof.
  split.
  - repeat constructor.
  - repeat constructor; vm_compute; discriminate.
  - intros n Hn. repeat (apply elem_of_cons in Hn as [->|Hn]; [vm_compute; split; discriminate|]).
    by apply elem_of_nil in Hn.
  - vm_compute. split; [discriminate|reflexivity].
  - intros a b Ha Hb.
    repeat (apply elem_of_cons in Ha as [->|Ha];
      [repeat (apply elem_of_cons in Hb as [->|Hb]; [vm_compute; split; congruence|]);
       by apply elem_of_nil in Hb|]).
    by apply elem_of_nil in Ha.
  - apply (bool_decide_unpack _). vm_compute. done.
Qed.

(** ** Nodes *)

(** C9. Under any sequence of operations that create, update and delete nodes and
    users, the node lists stay sorted by ID, every ID is positive and at most the
    counter, two nodes have the same ID exactly when they have the same TCP
    address, and distinct data nodes have distinct IDs.  The sequence may also set
    meta nodes with a given ID, as long as each such ID fits: it is not below those
    of the meta nodes, at most the counter, and the ID of its address and of no
    other.  This condition is exact: for a host that is not known, an ID that does
    not fit breaks the invariant. *)
Theorem node_operations_keep_invariant ops d :
  wf d → d_MaxNodeID d + len ops < 2 ^ 64 → all_admissible d ops →
  wf (exec_ops ops d) ∧ NoDup (n_ID <$> d_DataNodes (exec_ops ops d)) ∧
  ∀ id host tcp, wf (exec_op (OpSetMetaNode id host tcp) d).2 ↔ known d host ∨ fits d id tcp.
Proof.
  intros Hwf Hmax Hadm. pose proof (exec_ops_wf ops d Hwf Hmax Hadm). split_and!; [done|by apply wf_data_ids|].
  intros id host tcp. by apply SetMetaNode_wf.
Qed.

Definition demo_ops : list node_op :=
  [OpCreateMetaNode "x" "d"; OpCreateDataNode "x" "d"; OpDeleteDataNode 2;
   OpCreateDataNode "y" "e"; OpDeleteMetaNode 0 1; OpSetMetaNode 9 "x" "q"].

(** The last operation names a known host; with a new one its ID is out of range. *)
Lemma node_operations_keep_invariant_witness :
  wf (exec_ops demo_ops demo_data) ∧ NoDup (n_ID <$> d_DataNodes (exec_ops demo_ops demo_data)) ∧
  ¬ wf (exec_op (OpSetMetaNode 9 "z" "q") demo_data).2.
Proof.
  destruct (node_operations_keep_invariant demo_ops demo_data) as (Hwf & Hnd & Hset).
  - apply demo_data_wf.
  - vm_compute; reflexivity.
  - repeat (split; [exact I|]). split; [|exact I]. left. eexists. split; [left|]; reflexivity.
  - split; [exact Hwf|]. split; [exact Hnd|]. rewrite Hset. intros [(n & Hn & Hh)|(_ & [_ Hmax] & _)].
    + vm_compute in Hn. apply elem_of_cons in Hn as [->|Hn]; [discriminate|]. by apply elem_of_nil in Hn.
    + vm_compute in Hmax. by apply Hmax.
Defined.

(** A host that is already a meta node becomes a data node under the same
    ID; a new host gets a fresh ID; an address that is already a data node is
    refused and nothing changes. *)
Theorem CreateDataNode_assigns d host tcp :
  wf d → d_MaxNodeID d + 1 < 2 ^ 64 →
  (node_by_tcp tcp (d_DataNodes d) ≠ None → CreateDataNode host tcp d = (Err ErrNodeExists, d)) ∧
  (node_by_tcp tcp (d_DataNodes d) = None → ∃ id d',
     CreateDataNode host tcp d = (Ok tt, d') ∧
     d_DataNodes d' ≡ₚ mkNodeInfo id host tcp [] :: d_DataNodes d ∧
     d_MetaNodes d' = d_MetaNodes d ∧
     match node_by_tcp tcp (d_MetaNodes d) with
     | Some n => id = n_ID n ∧ d_MaxNodeID d' = d_MaxNodeID d
     | None => id = d_MaxNodeID d + 1 ∧ d_MaxNodeID d' = id ∧ ∀ n, n ∈ all_nodes d → n_ID n ≠ id
     end).
Proof.
  intros Hwf Hmax. unfold CreateDataNode. gom_simpl. split.
  - by destruct (node_by_tcp tcp (d_DataNodes d)).
  - intros Hd. rewrite Hd. unfold assignID. gom_simpl.
    pose proof (wf_max _ Hwf). destruct (node_by_tcp tcp (d_MetaNodes d)) as [n|] eqn:Hn; simpl.
    + apply node_by_tcp_Some in Hn as [Hin _].
      pose proof (wf_ids _ Hwf n ltac:(apply elem_of_app; auto)). zbool.
      do 2 eexists. split; [done|]. simpl. rewrite sortNodes_perm.
      split; [symmetry; apply Permutation_cons_append|done].
    + rewrite u64_small by lia. do 2 eexists. split; [done|]. simpl. rewrite sortNodes_perm.
      split; [symmetry; apply Permutation_cons_append|]. split; [done|]. split; [done|].
      split; [done|]. intros n Hin. pose proof (wf_ids _ Hwf n Hin). lia.
Qed.

Lemma CreateDataNode_assigns_witness :
  CreateDataNode "z" "b" demo_data = (Err ErrNodeExists, demo_data) ∧
  ∃ id d', CreateDataNode "z" "d" demo_data = (Ok tt, d') ∧
    d_DataNodes d' ≡ₚ mkNodeInfo id "z" "d" [] :: d_DataNodes demo_data ∧
    d_MetaNodes d' = d_MetaNodes demo_data ∧
    id = 3 + 1 ∧ d_MaxNodeID d' = id ∧ ∀ n, n ∈ all_nodes demo_data → n_ID n ≠ id.
Proof.
  split.
  - apply (CreateDataNode_assigns demo_data "z" "b");
      [apply demo_data_wf|vm_compute; reflexivity|vm_compute; discriminate].
  - apply (CreateDataNode_assigns demo_data "z" "d");
      [apply demo_data_wf|vm_compute; reflexivity|vm_compute; reflexivity].
Defined.

(** [CreateMetaNode] compares the address with the data nodes only: calling
    it twice with one address appends two meta nodes with the same ID and
    address. *)
Theorem CreateMetaNode_twice_duplicates d h1 h2 tcp :
  wf d → d_MaxNodeID d + 2 < 2 ^ 64 → node_by_tcp tcp (d_DataNodes d) = None →
  ∃ id d', (_ ← CreateMetaNode h1 tcp; CreateMetaNode h2 tcp) d = (Ok tt, d') ∧
    d_MetaNodes d' ≡ₚ mkNodeInfo id h1 tcp [] :: mkNodeInfo id h2 tcp [] :: d_MetaNodes d.
Proof.
  intros Hwf Hmax Hd.
  destruct (assignID_spec d tcp Hwf ltac:(lia) Hd) as (id & m & H1 & Hm & Hid & Hn).
  assert (E1 : CreateMetaNode h1 tcp d = (Ok tt, set_MetaNodes
    (sortNodes (d_MetaNodes d ++ [mkNodeInfo id h1 tcp []])) (set_MaxNodeID m d))).
  { unfold CreateMetaNode. gom_simpl. by rewrite Hd, H1. }
  set (d1 := set_MetaNodes _ _) in E1.
  assert (Hw1 : wf d1) by by apply (wf_insert_meta d h1 tcp id m); try lia.
  destruct (assignID_spec d1 tcp Hw1) as (id2 & m2 & H2 & _ & _ & Hn2); [simpl; lia|done|].
  assert (id2 = id) as ->.
  { symmetry. apply (Hn2 (mkNodeInfo id h1 tcp [])); [|done]. unfold all_nodes, d1. simpl.
    rewrite sortNodes_perm. set_solver. }
  exists id. eexists. gom_simpl. rewrite E1. unfold CreateMetaNode. gom_simpl.
  change (d_DataNodes d1) with (d_DataNodes d). rewrite Hd, H2. split; [done|].
  simpl. rewrite !sortNodes_perm. rewrite <- app_assoc. simpl.
  rewrite (Permutation_app_comm (d_MetaNodes d)). done.
Qed.

Lemma CreateMetaNode_twice_duplicates_witness :
  ∃ id d', (_ ← CreateMetaNode "x" "d"; CreateMetaNode "y" "d") demo_data = (Ok tt, d') ∧
    d_MetaNodes d' ≡ₚ mkNodeInfo id "x" "d" [] :: mkNodeInfo id "y" "d" [] :: d_MetaNodes demo_data.
Proof.
  apply (CreateMetaNode_twice_duplicates demo_data "x" "y" "d");
    [apply demo_data_wf|vm_compute; reflexivity|vm_compute; reflexivity].
Defined.

(** ** Shards *)

(** C3. On a timestamp that no live group covers, [CreateShardGroup] adds one
    group: [len(DataNodes) / replicaN] shards with consecutive new IDs, each
    with exactly [replicaN] owners, all owners of the group being different
    data nodes; its aligned time range contains the timestamp, and no other
    retention policy changes. *)
Theorem CreateShardGroup_places_shards `{OssMeta} d database policy ts pos rpi :
  OssMetaLaws → wf d → d_DataNodes d ≠ [] →
  oss_RetentionPolicy (d_Data d) database policy = Ok (Some pos) →
  rp_at (d_Data d) pos = Some rpi → oss_ShardGroupByTimestamp rpi ts = None →
  0 ≤ rpi_ReplicaN rpi → 0 ≤ od_MaxShardID (d_Data d) →
  od_MaxShardID (d_Data d) + len (d_DataNodes d) < 2 ^ 64 →
  rpi_Name rpi = policy ∧ (∀ g, g ∈ rpi_ShardGroups rpi → ¬ covers g ts) ∧
  ∃ g groups d', CreateShardGroup database policy ts d = (Ok tt, d') ∧
    rp_at (d_Data d') pos = Some (set_ShardGroups groups rpi) ∧
    groups ≡ₚ rpi_ShardGroups rpi ++ [g] ∧
    (∀ pos', pos' ≠ pos → rp_at (d_Data d') pos' = rp_at (d_Data d) pos') ∧
    group_ok (d_DataNodes d) rpi (od_MaxShardID (d_Data d)) ts g.
Proof.
  intros Hlaws Hwf Hne Hrp Hat Hts Hr Hs Hsb.
  destruct (retention_policy_at _ _ _ _ Hrp) as (r & Hat' & Hname).
  split; [congruence|]. split; [by apply shard_group_by_timestamp|].
  destruct (CreateShardGroup_spec d database policy ts pos rpi)
    as (g & groups & d' & ? & ? & ? & ? & _ & _ & _ & _ & ?); try done.
  - by apply wf_data_ids.
  - by exists g, groups, d'.
Qed.

Lemma CreateShardGroup_places_shards_witness :
  rpi_Name demo_policy = "autogen"%string ∧
  (∀ g, g ∈ rpi_ShardGroups demo_policy → ¬ covers g 5000) ∧
  ∃ g groups d', CreateShardGroup (H := demo_oss) "db" "autogen" 5000 demo_data = (Ok tt, d') ∧
    rp_at (d_Data d') (0, 0)%nat = Some (set_ShardGroups groups demo_policy) ∧
    groups ≡ₚ rpi_ShardGroups demo_policy ++ [g] ∧
    (∀ pos', pos' ≠ (0, 0)%nat → rp_at (d_Data d') pos' = rp_at (d_Data demo_data) pos') ∧
    group_ok (d_DataNodes demo_data) demo_policy (od_MaxShardID (d_Data demo_data)) 5000 g.
Proof.
  apply (CreateShardGroup_places_shards (H := demo_oss) demo_data "db" "autogen" 5000 (0, 0)%nat
    demo_policy); [apply demo_oss_laws|apply demo_data_wf|done|vm_compute; reflexivity
    |vm_compute; reflexivity|vm_compute; reflexivity|vm_compute; discriminate
    |vm_compute; discriminate|vm_compute; reflexivity].
Defined.

(** C38. Deleting a meta node removes it from the node list and takes its
    ownership away from every shard; a shard group is marked deleted exactly
    when none of its shards is owned any more.  An unknown ID changes nothing.
    Deleting a data node leaves all shard owners as they are. *)
Theorem DeleteMetaNode_releases_shards now id d :
  Forall (λ s, NoDup (si_Owners s)) (all_shards (d_Data d)) →
  (id ∉ (n_ID <$> d_MetaNodes d) → DeleteMetaNode now id d = (Err ErrNodeNotFound, d)) ∧
  (id ∈ (n_ID <$> d_MetaNodes d) → ∃ d', DeleteMetaNode now id d = (Ok tt, d') ∧
     (id ∉ n_ID <$> d_MetaNodes d') ∧ d_DataNodes d' = d_DataNodes d ∧
     (∀ s, s ∈ all_shards (d_Data d') → mkShardOwner id ∉ si_Owners s) ∧
     si_ID <$> all_shards (d_Data d') = si_ID <$> all_shards (d_Data d) ∧
     ∀ i g, all_groups (d_Data d) !! i = Some g →
       ∃ g', all_groups (d_Data d') !! i = Some g' ∧ sgi_DeletedAt g' =
         if decide (Forall (λ s, si_Owners s = []) (sgi_Shards g'))
         then now else sgi_DeletedAt g) ∧
  d_Data (DeleteDataNode id d).2 = d_Data d.
Proof.
  intros Hnd. split; [|split].
  - intros Hid. unfold DeleteMetaNode. gom_simpl.
    rewrite (proj2 (Z.eqb_eq _ _)); [done|]. unfold len. f_equal. apply filter_keeps_length.
    apply Forall_forall. intros n Hn E. apply Hid. apply list_elem_of_fmap. by exists n.
  - intros (n & -> & Hn)%list_elem_of_fmap. unfold DeleteMetaNode. gom_simpl.
    rewrite (proj2 (Z.eqb_neq _ _)).
    2: { unfold len. rewrite Nat2Z.inj_iff, filter_keeps_length, Forall_forall.
         intros Hall. by apply (Hall n). }
    eexists. split; [done|]. simpl. split; [|split; [done|split; [|split; [|intros; by apply release_group_at]]]].
    + intros (m & E & [Hm _]%list_elem_of_filter)%list_elem_of_fmap. done.
    + intros s. rewrite all_shards_release. intros (s0 & -> & Hs)%list_elem_of_fmap.
      rewrite Forall_forall in Hnd. rewrite dropOwner_owners by auto.
      intros [Ho _]%list_elem_of_filter. done.
    + rewrite all_shards_release, <- list_fmap_compose. apply list_fmap_ext.
      intros i s _. simpl. unfold dropOwner. by destruct (last_owner _ _).
  - unfold DeleteDataNode. gom_simpl. by case_match.
Qed.

Definition owned_data : Data :=
  set_Data (mkOssData 1 7 99 [mkDatabaseInfo "db" "autogen" [
    set_ShardGroups [mkShardGroupInfo 1 0 time.Hour zeroTime
      [mkShardInfo 1 [mkShardOwner 1; mkShardOwner 2]; mkShardInfo 2 [mkShardOwner 1]]]
      demo_policy]] 1 2) demo_data.

Lemma DeleteMetaNode_releases_shards_witness :
  (DeleteMetaNode 5 9 owned_data = (Err ErrNodeNotFound, owned_data)) ∧
  (∃ d', DeleteMetaNode 5 1 owned_data = (Ok tt, d') ∧
     (1 ∉ n_ID <$> d_MetaNodes d') ∧ d_DataNodes d' = d_DataNodes owned_data ∧
     (∀ s, s ∈ all_shards (d_Data d') → mkShardOwner 1 ∉ si_Owners s) ∧
     si_ID <$> all_shards (d_Data d') = si_ID <$> all_shards (d_Data owned_data) ∧
     ∀ i g, all_groups (d_Data owned_data) !! i = Some g →
       ∃ g', all_groups (d_Data d') !! i = Some g' ∧ sgi_DeletedAt g' =
         if decide (Forall (λ s, si_Owners s = []) (sgi_Shards g'))
         then 5 else sgi_DeletedAt g) ∧
  d_Data (DeleteDataNode 1 owned_data).2 = d_Data owned_data.
Proof.
  assert (Hnd : Forall (λ s, NoDup (si_Owners s)) (all_shards (d_Data owned_data)))
    by (apply (bool_decide_unpack _); vm_compute; exact I).
  split; [|split].
  - apply (DeleteMetaNode_releases_shards 5 9 owned_data Hnd).
    apply (bool_decide_unpack _). vm_compute. exact I.
  - apply (DeleteMetaNode_releases_shards 5 1 owned_data Hnd).
    apply (bool_decide_unpack _). vm_compute. exact I.
  - apply (DeleteMetaNode_releases_shards 5 1 owned_data Hnd).
Defined.

(** Ownership of a shard can be neither added nor removed: [AddShardOwner]
    never changes the metadata and fails whenever the shard exists and a known
    node does not own it yet; [RemoveShardOwner] does nothing to a shard that
    exists and panics on one that does not. *)
Theorem shard_ownership_never_changes `{OssMeta} d shardID nodeID :
  OssMetaLaws →
  (AddShardOwner shardID nodeID d).2 = d ∧
  (∀ s, ShardLocation d shardID = Ok s → mkShardOwner nodeID ∉ si_Owners s →
     nodeID ≤ d_MaxNodeID d → ∃ e, AddShardOwner shardID nodeID d = (Err e, d)) ∧
  (RemoveShardOwner shardID nodeID d).2 = d ∧
  ((RemoveShardOwner shardID nodeID d).1 = Panics ↔
     ∀ s, s ∈ all_shards (d_Data d) → si_ID s ≠ shardID).
Proof.
  intros Hlaws. unfold AddShardOwner, RemoveShardOwner, ShardLocation. gom_simpl.
  destruct (list_find (λ s, si_ID s = shardID) (all_shards (d_Data d))) as [[i s]|] eqn:Hf.
  - apply list_find_Some in Hf as (Hi & Hid & _). split.
    { by destruct (oss_OwnedBy s nodeID), (d_MaxNodeID d <? nodeID). }
    split; [|split; [done|]].
    + intros s' [= <-] Hno Hmax. destruct (oss_OwnedBy s nodeID) eqn:Ho;
        [by apply owned_by in Ho|]. zbool. eauto.
    + split; [done|]. intros Hall. by destruct (Hall s); [eapply list_elem_of_lookup_2|].
  - apply list_find_None in Hf. rewrite Forall_forall in Hf. done.
Qed.

Lemma shard_ownership_never_changes_witness :
  (AddShardOwner (H := demo_oss) 2 3 owned_data).2 = owned_data ∧
  (∀ s, ShardLocation owned_data 2 = Ok s → mkShardOwner 3 ∉ si_Owners s →
     3 ≤ d_MaxNodeID owned_data →
     ∃ e, AddShardOwner (H := demo_oss) 2 3 owned_data = (Err e, owned_data)) ∧
  (RemoveShardOwner 2 3 owned_data).2 = owned_data ∧
  ((RemoveShardOwner 2 3 owned_data).1 = Panics ↔
     ∀ s, s ∈ all_shards (d_Data owned_data) → si_ID s ≠ 2).
Proof.
  apply (shard_ownership_never_changes (H := demo_oss) owned_data 2 3). apply demo_oss_laws.
Defined.

(** ** Encoding *)

(** No metadata can be encoded: [marshal] never sets the required field
    [MaxNodeID], so [MarshalBinary] returns an error for every state. *)
Theorem MarshalBinary_always_fails `{OssMeta} d :
  OssMetaLaws → ∃ e, MarshalBinary d = Err e.
Proof. intros Hlaws. by apply marshal_required. Qed.

Lemma MarshalBinary_always_fails_witness :
  ∃ e, MarshalBinary (H := demo_oss) demo_data = Err e.
Proof. apply (MarshalBinary_always_fails (H := demo_oss) demo_data). apply demo_oss_laws. Defined.

(** Encoding a node and decoding it gives the node back exactly when it has
    no pending shard owners; otherwise as many zeros are put in front of them. *)
Theorem node_marshal_roundtrip n :
  node_unmarshal (node_marshal n) =
    mkNodeInfo (n_ID n) (n_Host n) (n_TCPHost n)
      (replicate (length (n_PendingShardOwners n)) 0 ++ n_PendingShardOwners n) ∧
  (node_unmarshal (node_marshal n) = n ↔ n_PendingShardOwners n = []).
Proof.
  split; [done|]. destruct n as [id h t p]. unfold node_unmarshal, node_marshal. simpl. split.
  - intros [= E]. apply (f_equal length) in E. rewrite length_app, length_replicate in E.
    destruct p; [done|simpl in E; lia].
  - by intros ->.
Qed.

(** ** Users *)

(** Creating a user makes it known and leaves the others alone; dropping it
    again restores the user list; an empty name, a taken name and an unknown
    name are refused without a change. *)
Theorem user_create_drop name hash admin d :
  (name = ""%string → CreateUser name hash admin d = (Err ErrUsernameRequired, d)) ∧
  (name ≠ ""%string → User d name ≠ None → CreateUser name hash admin d = (Err ErrUserExists, d)) ∧
  (User d name = None → DropUser name d = (Err ErrUserNotFound, d)) ∧
  (name ≠ ""%string → User d name = None → ∃ d', CreateUser name hash admin d = (Ok tt, d') ∧
     User d' name = Some (mkUserInfo name hash admin) ∧
     (∀ other, other ≠ name → User d' other = User d other) ∧
     DropUser name d' = (Ok tt, d)).
Proof.
  unfold CreateUser, DropUser, User. gom_simpl. split; [|split; [|split]].
  - intros ->. done.
  - intros Hne Hu. rewrite decide_False by done.
    by destruct (list_find (λ u, u_Name u = name) (d_Users d)).
  - intros Hu. by destruct (list_find (λ u, u_Name u = name) (d_Users d)).
  - intros Hne Hu. rewrite decide_False by done.
    destruct (list_find (λ u, u_Name u = name) (d_Users d)) eqn:Hf; [done|].
    simpl. eexists. split; [done|].
    assert (Hnew : list_find (λ u, u_Name u = name) (d_Users d ++ [mkUserInfo name hash admin])
      = Some (length (d_Users d), mkUserInfo name hash admin)).
    { rewrite list_find_app_r by done. simpl. rewrite decide_True by done. simpl.
      by rewrite ?Nat.add_0_r. }
    simpl. rewrite Hnew. split; [done|]. split.
    + intros other Ho. destruct (list_find (λ u, u_Name u = other) (d_Users d)) as [[i u]|] eqn:Hf2.
      * erewrite list_find_app_l by exact Hf2. done.
      * rewrite list_find_app_r by done. simpl. by rewrite decide_False.
    + unfold set_Users. cbn [d_Users]. rewrite take_app_length, drop_ge by (rewrite length_app; simpl; lia).
      rewrite app_nil_r. by destruct d.
Qed.

Lemma user_create_drop_witness :
  CreateUser "jane" "x" false demo_data = (Err ErrUserExists, demo_data) ∧
  ∃ d', CreateUser "joe" "x" false demo_data = (Ok tt, d') ∧
    User d' "joe" = Some (mkUserInfo "joe" "x" false) ∧
    (∀ other, other ≠ "joe"%string → User d' other = User demo_data other) ∧
    DropUser "joe" d' = (Ok tt, demo_data).
Proof.
  split.
  - apply (user_create_drop "jane" "x" false demo_data); [done|vm_compute; discriminate].
  - apply (user_create_drop "joe" "x" false demo_data); [done|vm_compute; reflexivity].
Defined.

(** Cloning the metadata, which every applied command does, forgets all
    users, and a role does not find its own users: [RemoveUser] keeps the user,
    and [HasUser] searches an unordered list by bisection. *)
Theorem Clone_and_roles_lose_users `{OssMeta} d name :
  name ≠ ""%string →
  User (Clone d) name = None ∧ len (d_Users (Clone d)) = len (d_Users d) ∧
  (∀ u r, RemoveUser u r = r) ∧
  (∀ a b, a ≠ b → HasUser a (AddUsers [a; b] (mkRoleInfo [])) = false).
Proof.
  intros Hne. split; [|split; [|split]].
  - unfold User. apply fmap_None, list_find_None, Forall_forall.
    intros u (x & -> & _)%list_elem_of_fmap. simpl. congruence.
  - unfold Clone, CloneUsers, len. simpl. by rewrite length_fmap.
  - intros u r. unfold RemoveUser. by case_match.
  - intros a b Hab. unfold HasUser, AddUsers, AddUser. simpl.
    unfold sort.Search. simpl. rewrite (bool_decide_false (Some b = Some a)) by congruence.
    done.
Qed.

Lemma Clone_and_roles_lose_users_witness :
  User (Clone (H := demo_oss) demo_data) "jane" = None ∧
  len (d_Users (Clone (H := demo_oss) demo_data)) = len (d_Users demo_data) ∧
  (∀ u r, RemoveUser u r = r) ∧
  (∀ a b, a ≠ b → HasUser a (AddUsers [a; b] (mkRoleInfo [])) = false).
Proof. apply (Clone_and_roles_lose_users (H := demo_oss) demo_data "jane"). done. Defined.
