(* ===== verification/StoreFSM.v ===== *)
(** * The replicated state machine of the meta store (meta/store_fsm.go)

    Every meta server applies the same log of commands to its copy of [Data].
    The OSS metadata operations are those of services/meta, the consensus
    library is hashicorp/raft and the codec is gogo/protobuf; all three are
    parameters. *)

From Stdlib Require Import ZArith Lia.
From Stdlib Require Import Strings.Byte.
From S2P Require Import Prelude GoLib MetaData.

Local Open Scope Z_scope.

(** ** Commands (meta/internal/meta.proto) *)

Inductive CommandType : Type :=
  | CreateDatabaseCommand | DropDatabaseCommand | CreateRetentionPolicyCommand
  | DropRetentionPolicyCommand | SetDefaultRetentionPolicyCommand
  | UpdateRetentionPolicyCommand | CreateShardGroupCommand | DeleteShardGroupCommand
  | CreateContinuousQueryCommand | DropContinuousQueryCommand | CreateUserCommand
  | DropUserCommand | UpdateUserCommand | SetPrivilegeCommand | CreateRoleCommand
  | DropRoleCommand | AddRoleUsersCommand | RemoveRoleUsersCommand
  | AddRolePermissionsCommand | RemoveRolePermissionsCommand | SetDataCommand
  | SetAdminPrivilegeCommand | CreateSubscriptionCommand | DropSubscriptionCommand
  | RemovePeerCommand | CreateMetaNodeCommand | CreateDataNodeCommand
  | UpdateDataNodeCommand | DeleteMetaNodeCommand | DeleteDataNodeCommand
  | SetMetaNodeCommand | DropShardCommand | ImportDataCommand | SetUserPasswordCommand
  | AddUserPermissionsCommand | RemoveUserPermissionsCommand | AddShardOwnerCommand
  | RemoveShardOwnerCommand | AddPendingShardOwnerCommand
  | CommitPendingShardOwnerCommand | RemovePendingShardOwnerCommand
  | TruncateShardGroupsCommand | ChangeRoleNameCommand | CreateBalancedShardGroupCommand.

#[export] Instance CommandType_eq_dec : EqDecision CommandType.
Proof. solve_decision. Defined.

(** The extension messages, with what their getters return. *)
Inductive Extension : Type :=
  | ExtRemovePeer (addr : string)
  | ExtCreateDatabase (name : string) (retentionPolicy : list byte)
  | ExtDropDatabase (name : string)
  | ExtCreateRetentionPolicy (database : string) (retentionPolicy : list byte)
  | ExtDropRetentionPolicy (database name : string)
  | ExtSetDefaultRetentionPolicy (database name : string)
  | ExtUpdateRetentionPolicy (database name : string) (newName : option string)
      (duration replicaN : option Z)
  | ExtCreateShardGroup (database policy : string) (timestamp : Z)
  | ExtDeleteShardGroup (database policy : string) (shardGroupID : Z)
  | ExtCreateContinuousQuery (database name query : string)
  | ExtDropContinuousQuery (database name : string)
  | ExtCreateSubscription (database retentionPolicy name mode : string)
      (destinations : list string)
  | ExtDropSubscription (database retentionPolicy name : string)
  | ExtCreateUser (name hash : string) (admin : bool)
  | ExtDropUser (name : string)
  | ExtUpdateUser (name hash : string)
  | ExtSetPrivilege (username database : string) (privilege : Z)
  | ExtSetAdminPrivilege (username : string) (admin : bool)
  | ExtSetData (data : list byte)
  | ExtCreateMetaNode (httpAddr tcpAddr : string) (rand : Z)
  | ExtSetMetaNode (httpAddr tcpAddr : string) (rand : Z)
  | ExtDeleteMetaNode (id : Z)
  | ExtCreateDataNode (httpAddr tcpAddr : string)
  | ExtUpdateDataNode (id : Z) (host tcpHost : string)
  | ExtDeleteDataNode (id : Z)
  | ExtDropShard (id : Z).

Record Command : Type := mkCommand { c_type : CommandType; c_ext : option Extension }.

Record Log : Type := mkLog { l_Term : Z; l_Index : Z; l_Data : list byte }.

Record RetentionPolicyUpdate : Type := mkRPU {
  rpu_Name : option string; rpu_Duration : option Z; rpu_ReplicaN : option Z;
  rpu_ShardGroupDuration : option Z }.

(** ** Parameters *)

Class OssCommands : Type := {
  oss_CreateDatabase : string → GoM OssData unit;
  oss_DropDatabase : string → GoM OssData unit;
  oss_CreateRetentionPolicy : string → RetentionPolicyInfo → bool → GoM OssData unit;
  oss_DropRetentionPolicy : string → string → GoM OssData unit;
  oss_UpdateRetentionPolicy : string → string → RetentionPolicyUpdate → bool → GoM OssData unit;
  oss_CreateShardGroup : string → string → Z → GoM OssData unit;
  oss_DeleteShardGroup : string → string → Z → GoM OssData unit;
  oss_CreateContinuousQuery : string → string → string → GoM OssData unit;
  oss_DropContinuousQuery : string → string → GoM OssData unit;
  oss_CreateSubscription : string → string → string → string → list string → GoM OssData unit;
  oss_DropSubscription : string → string → string → GoM OssData unit;
  oss_CreateUser : string → string → bool → GoM OssData unit;
  oss_DropUser : string → GoM OssData unit;
  oss_UpdateUser : string → string → GoM OssData unit;
  oss_SetPrivilege : string → string → Z → GoM OssData unit;
  oss_SetAdminPrivilege : string → bool → GoM OssData unit;
  oss_rpi_UnmarshalBinary : list byte → res RetentionPolicyInfo;
  oss_NewRetentionPolicyInfo : string → RetentionPolicyInfo;
  cmd_Unmarshal : list byte → option Command;
  cmd_Marshal : Command → res (list byte);
}.

(** hashicorp/raft: leadership, the peer store, membership changes, and
    committing an entry, which assigns its term and index. *)
Class Raft : Type := {
  raft_t : Type;
  raft_IsLeader : raft_t → bool;
  raft_Leader : raft_t → string;
  raft_Peers : raft_t → res (list string);
  raft_AddPeer : string → GoM raft_t unit;
  raft_RemovePeer : string → GoM raft_t unit;
  raft_Commit : list byte → GoM raft_t Log;
}.

Section fsm.
  Context `{OssMeta, OssCommands, Raft}.

(** The fields of [store] that the state machine uses; [st_raftState] is [None]
    until the raft store is open, [st_changed] is the channel [dataChanged] with the
    heap it lives in. *)
Record notifier : Type := mkNotifier { nt_ch : nat; nt_heap : chan.heap }.

Record store : Type := mkStore {
  st_data : Data;
  st_raftState : option raft_t;
  st_changed : notifier;
  st_RetentionAutoCreate : bool;
  st_raftAddr : string;
  st_opened : bool;
  st_closing : bool;
}.

Definition set_data (d : Data) (s : store) : store :=
  mkStore d (st_raftState s) (st_changed s) (st_RetentionAutoCreate s) (st_raftAddr s)
    (st_opened s) (st_closing s).
Definition set_raftState (r : option raft_t) (s : store) : store :=
  mkStore (st_data s) r (st_changed s) (st_RetentionAutoCreate s) (st_raftAddr s)
    (st_opened s) (st_closing s).
Definition set_changed (n : notifier) (s : store) : store :=
  mkStore (st_data s) (st_raftState s) n (st_RetentionAutoCreate s) (st_raftAddr s)
    (st_opened s) (st_closing s).

Definition StoreM (A : Type) : Type := GoM store A.

(** A call on the heap of channels. *)
Definition onChans {A} (m : GoM chan.heap A) : GoM store A :=
  zoom (λ s, nt_heap (st_changed s)) (λ h s, set_changed (mkNotifier (nt_ch (st_changed s)) h) s) m.

(** A call on the raft state; a nil pointer panics. *)
Definition onRaft {A} (m : GoM raft_t A) : GoM store A := λ s,
  match st_raftState s with
  | None => (Panics, s)
  | Some r => let '(x, r') := m r in (x, set_raftState (Some r') s)
  end.

(** ** raft_state.go: the operations the state machine calls *)

(** [addPeer(addr)] *)
Definition addPeer (addr : string) : GoM raft_t unit := λ r,
  match raft_Peers r with
  | Ok peers => if decide (addr ∈ peers) then (Ok tt, r) else raft_AddPeer addr r
  | Err e => (Err e, r)
  | Panics => (Panics, r)
  end.

(** [removePeer(addr)] *)
Definition removePeer (addr : string) : GoM raft_t unit := λ r,
  if negb (raft_IsLeader r) then (Err ErrNotLeader, r)
  else
    match raft_Peers r with
    | Ok peers => if decide (addr ∈ peers) then raft_RemovePeer addr r else (Ok tt, r)
    | Err e => (Err e, r)
    | Panics => (Panics, r)
    end.

(** [leave(n)] of store.go *)
Definition leave (n : NodeInfo) : GoM store unit := onRaft (removePeer (n_TCPHost n)).

(** ** Applying commands *)

(** "Copy data and update": the changed copy replaces the data unless the
    change failed. *)
Definition withClone (m : GoM Data unit) : GoM store unit := λ s,
  match m (Clone (st_data s)) with
  | (Ok _, other) => (Ok tt, set_data other s)
  | (Err e, _) => (Err e, s)
  | (Panics, _) => (Panics, s)
  end.

(** A method of [other.Data]. *)
Definition onOss {A} (m : GoM OssData A) : GoM Data A := zoom d_Data set_Data m.

Definition maxAutoCreatedRetentionPolicyReplicaN : Z := 3.
Definition autoCreateRetentionPolicyName : string := "default".
Definition autoCreateRetentionPolicyPeriod : Z := 0.

Definition applyRemovePeerCommand (cmd : Command) : GoM store unit :=
  match c_ext cmd with
  | Some (ExtRemovePeer addr) =>
      leader ← onRaft (gets raft_IsLeader);
      if leader : bool then _ ← attempt (onRaft (removePeer addr)); mret tt else mret tt
  | _ => panic
  end.

(** Reads the extension of another command, so the type assertion fails. *)
Definition applyUpdateDataNodeCommand (cmd : Command) : GoM store unit :=
  match c_ext cmd with
  | Some (ExtCreateDataNode _ _) => panic
  | _ => panic
  end.

Definition autoReplicaN (dataNodes : Z) : Z :=
  if maxAutoCreatedRetentionPolicyReplicaN <? dataNodes
  then maxAutoCreatedRetentionPolicyReplicaN
  else if dataNodes <? 1 then 1 else dataNodes.

Definition applyCreateDatabaseCommand (cmd : Command) : GoM store unit :=
  match c_ext cmd with
  | Some (ExtCreateDatabase name retentionPolicy) =>
      autoCreate ← gets st_RetentionAutoCreate;
      withClone (
        _ ← onOss (oss_CreateDatabase name);
        match oss_rpi_UnmarshalBinary retentionPolicy with
        | Ok rpi =>
            r ← attempt (onOss (oss_CreateRetentionPolicy name
                   (mkRetentionPolicyInfo (rpi_Name rpi) (rpi_ReplicaN rpi) (rpi_Duration rpi)
                      (rpi_ShardGroupDuration rpi) []) true));
            match r with
            | inl ErrRetentionPolicyExists => throw ErrRetentionPolicyConflict
            | inl e => throw e
            | inr _ => mret tt
            end
        | Panics => panic
        | Err _ =>
            if autoCreate : bool then
              n ← gets (λ d, len (d_DataNodes d));
              let rpi := oss_NewRetentionPolicyInfo autoCreateRetentionPolicyName in
              onOss (oss_CreateRetentionPolicy name
                (mkRetentionPolicyInfo (rpi_Name rpi) (autoReplicaN n)
                   autoCreateRetentionPolicyPeriod (rpi_ShardGroupDuration rpi)
                   (rpi_ShardGroups rpi)) true)
            else mret tt
        end)
  | _ => panic
  end.

Definition applyDropDatabaseCommand (cmd : Command) : GoM store unit :=
  match c_ext cmd with
  | Some (ExtDropDatabase name) => withClone (onOss (oss_DropDatabase name))
  | _ => panic
  end.

(** The update is commented out in the source. *)
Definition applyCreateRetentionPolicyCommand (cmd : Command) : GoM store unit :=
  withClone (mret tt).

Definition applyDropRetentionPolicyCommand (cmd : Command) : GoM store unit :=
  match c_ext cmd with
  | Some (ExtDropRetentionPolicy database name) =>
      withClone (onOss (oss_DropRetentionPolicy database name))
  | _ => panic
  end.

(** The update is commented out in the source. *)
Definition applySetDefaultRetentionPolicyCommand (cmd : Command) : GoM store unit :=
  withClone (mret tt).

Definition applyUpdateRetentionPolicyCommand (cmd : Command) : GoM store unit :=
  match c_ext cmd with
  | Some (ExtUpdateRetentionPolicy database name newName duration replicaN) =>
      withClone (onOss (oss_UpdateRetentionPolicy database name
        (mkRPU newName duration replicaN None) false))
  | _ => panic
  end.

Definition applyCreateShardGroupCommand (cmd : Command) : GoM store unit :=
  match c_ext cmd with
  | Some (ExtCreateShardGroup database policy timestamp) =>
      withClone (onOss (oss_CreateShardGroup database policy timestamp))
  | _ => panic
  end.

Definition applyDeleteShardGroupCommand (cmd : Command) : GoM store unit :=
  match c_ext cmd with
  | Some (ExtDeleteShardGroup database policy id) =>
      withClone (onOss (oss_DeleteShardGroup database policy id))
  | _ => panic
  end.

Definition applyCreateContinuousQueryCommand (cmd : Command) : GoM store unit :=
  match c_ext cmd with
  | Some (ExtCreateContinuousQuery database name query) =>
      withClone (onOss (oss_CreateContinuousQuery database name query))
  | _ => panic
  end.

Definition applyDropContinuousQueryCommand (cmd : Command) : GoM store unit :=
  match c_ext cmd with
  | Some (ExtDropContinuousQuery database name) =>
      withClone (onOss (oss_DropContinuousQuery database name))
  | _ => panic
  end.

Definition applyCreateSubscriptionCommand (cmd : Command) : GoM store unit :=
  match c_ext cmd with
  | Some (ExtCreateSubscription database rp name mode destinations) =>
      withClone (onOss (oss_CreateSubscription database rp name mode destinations))
  | _ => panic
  end.

Definition applyDropSubscriptionCommand (cmd : Command) : GoM store unit :=
  match c_ext cmd with
  | Some (ExtDropSubscription database rp name) =>
      withClone (onOss (oss_DropSubscription database rp name))
  | _ => panic
  end.

(** These change the users of the OSS metadata, not [data.Users]. *)
Definition applyCreateUserCommand (cmd : Command) : GoM store unit :=
  match c_ext cmd with
  | Some (ExtCreateUser name hash admin) => withClone (onOss (oss_CreateUser name hash admin))
  | _ => panic
  end.

Definition applyDropUserCommand (cmd : Command) : GoM store unit :=
  match c_ext cmd with
  | Some (ExtDropUser name) => withClone (onOss (oss_DropUser name))
  | _ => panic
  end.

Definition applyUpdateUserCommand (cmd : Command) : GoM store unit :=
  match c_ext cmd with
  | Some (ExtUpdateUser name hash) => withClone (onOss (oss_UpdateUser name hash))
  | _ => panic
  end.

Definition applySetPrivilegeCommand (cmd : Command) : GoM store unit :=
  match c_ext cmd with
  | Some (ExtSetPrivilege username database privilege) =>
      withClone (onOss (oss_SetPrivilege username database privilege))
  | _ => panic
  end.

Definition applySetAdminPrivilegeCommand (cmd : Command) : GoM store unit :=
  match c_ext cmd with
  | Some (ExtSetAdminPrivilege username admin) =>
      withClone (onOss (oss_SetAdminPrivilege username admin))
  | _ => panic
  end.

(** The zero [Data]; its [*meta.Data] is nil until it is decoded. *)
Definition zeroData : Data := mkData zeroOss [] [] [] [] 0.

(** The decoding error is ignored; a failed decoding leaves the nil [*meta.Data],
    which the assignment of the term then dereferences. *)
Definition applySetDataCommand (cmd : Command) : GoM store unit :=
  match c_ext cmd with
  | Some (ExtSetData data) => λ s,
      match UnmarshalBinary data zeroData with
      | (Ok _, d) => (Ok tt, set_data d s)
      | (_, d) => (Panics, set_data d s)
      end
  | _ => panic
  end.

(** The error of [CreateMetaNode] is ignored. *)
Definition applyCreateMetaNodeCommand (cmd : Command) : GoM store unit :=
  match c_ext cmd with
  | Some (ExtCreateMetaNode httpAddr tcpAddr rand) =>
      withClone (
        _ ← attempt (CreateMetaNode httpAddr tcpAddr);
        onOss (modify (λ o, if od_ClusterID o =? 0 then set_ClusterID (u64 rand) o else o)))
  | _ => panic
  end.

(** The node ID is the cluster ID. *)
Definition applySetMetaNodeCommand (cmd : Command) : GoM store unit :=
  match c_ext cmd with
  | Some (ExtSetMetaNode httpAddr tcpAddr rand) =>
      withClone (
        _ ← onOss (modify (λ o, if od_ClusterID o =? 0 then set_ClusterID (u64 rand) o else o));
        id ← gets (λ d, od_ClusterID (d_Data d));
        _ ← attempt (SetMetaNode id httpAddr tcpAddr);
        mret tt)
  | _ => panic
  end.

(** [now] is the local clock. *)
Definition applyDeleteMetaNodeCommand (now : Z) (cmd : Command) : GoM store unit :=
  match c_ext cmd with
  | Some (ExtDeleteMetaNode id) =>
      node ← gets (λ s, MetaNode (Clone (st_data s)) id);
      match node with
      | None => throw ErrNodeNotFound
      | Some n =>
          r ← attempt (leave n);
          match r with
          | inl ErrNotLeader | inr _ => withClone (DeleteMetaNode now id)
          | inl e => throw e
          end
      end
  | _ => panic
  end.

(** The update is missing in the source. *)
Definition applyCreateDataNodeCommand (cmd : Command) : GoM store unit :=
  withClone (mret tt).

Definition applyDeleteDataNodeCommand (cmd : Command) : GoM store unit :=
  match c_ext cmd with
  | Some (ExtDeleteDataNode id) => withClone (DeleteDataNode id)
  | _ => panic
  end.

(** The switch of [Apply]. *)
Definition applyCommand (now : Z) (cmd : Command) : GoM store unit :=
  match c_type cmd with
  | RemovePeerCommand => applyRemovePeerCommand cmd
  | CreateDatabaseCommand => applyCreateDatabaseCommand cmd
  | DropDatabaseCommand => applyDropDatabaseCommand cmd
  | CreateRetentionPolicyCommand => applyCreateRetentionPolicyCommand cmd
  | DropRetentionPolicyCommand => applyDropRetentionPolicyCommand cmd
  | SetDefaultRetentionPolicyCommand => applySetDefaultRetentionPolicyCommand cmd
  | UpdateRetentionPolicyCommand => applyUpdateRetentionPolicyCommand cmd
  | CreateShardGroupCommand => applyCreateShardGroupCommand cmd
  | DeleteShardGroupCommand => applyDeleteShardGroupCommand cmd
  | CreateContinuousQueryCommand => applyCreateContinuousQueryCommand cmd
  | DropContinuousQueryCommand => applyDropContinuousQueryCommand cmd
  | CreateSubscriptionCommand => applyCreateSubscriptionCommand cmd
  | DropSubscriptionCommand => applyDropSubscriptionCommand cmd
  | CreateUserCommand => applyCreateUserCommand cmd
  | DropUserCommand => applyDropUserCommand cmd
  | UpdateUserCommand => applyUpdateUserCommand cmd
  | SetPrivilegeCommand => applySetPrivilegeCommand cmd
  | SetAdminPrivilegeCommand => applySetAdminPrivilegeCommand cmd
  | SetDataCommand => applySetDataCommand cmd
  | CreateMetaNodeCommand => applyCreateMetaNodeCommand cmd
  | DeleteMetaNodeCommand => applyDeleteMetaNodeCommand now cmd
  | SetMetaNodeCommand => applySetMetaNodeCommand cmd
  | CreateDataNodeCommand => applyCreateDataNodeCommand cmd
  | DeleteDataNodeCommand => applyDeleteDataNodeCommand cmd
  | AddShardOwnerCommand => mret tt
  | _ => panic
  end.

(** [close(s.dataChanged)] and its replacement by a new channel. *)
Definition signalChanged : GoM store unit :=
  s ← get_state;
  _ ← onChans (chan.close (nt_ch (st_changed s)));
  ch ← onChans chan.make;
  modify (λ s, set_changed (mkNotifier ch (nt_heap (st_changed s))) s).

(** [Apply(l)]: the error of the command is the response. *)
Definition Apply (now : Z) (l : Log) : GoM store (option error) :=
  match cmd_Unmarshal (l_Data l) with
  | None => panic
  | Some cmd =>
      r ← attempt (applyCommand now cmd);
      _ ← modify (λ s, set_data
            (set_Data (set_TermIndex (l_Term l) (l_Index l) (d_Data (st_data s))) (st_data s)) s);
      _ ← signalChanged;
      mret (match r with inl e => Some e | inr _ => None end)
  end.

(** [Restore(r)] with the bytes of the reader. *)
Definition Restore (b : list byte) : GoM store unit := λ s,
  match UnmarshalBinary b zeroData with
  | (Ok _, d) => (Ok tt, set_data d s)
  | (Err e, _) => (Err e, s)
  | (Panics, _) => (Panics, s)
  end.

(** [Persist(sink)] *)
Section persist.
  Context {K : Type}.
  Context (sink_Write : list byte → GoM K unit) (sink_Close sink_Cancel : GoM K unit).

Definition Persist (d : Data) : GoM K unit :=
  r ← attempt (
    p ← lift_res (MarshalBinary d);
    _ ← sink_Write p;
    sink_Close);
  match r with
  | inl e => _ ← attempt sink_Cancel; throw e
  | inr _ => mret tt
  end.

End persist.
End fsm.
