(* ===== verification/Store.v ===== *)
(** * The meta store (meta/store.go)

    Commands go through raft: the store encodes a command, raft commits it and
    the state machine applies it; the response is the state machine's. *)

From Stdlib Require Import ZArith Lia.
From Stdlib Require Import Strings.Byte.
From S2P Require Import Prelude GoLib MetaData StoreFSM.

Local Open Scope Z_scope.

Section store.
  Context `{OssMeta, OssCommands, Raft}.

Definition ErrStoreNotOpen : error := errorf "store not open".

(** [newStore(c, httpAddr, raftAddr)] *)
Definition newStore (retentionAutoCreate : bool) (raftAddr : string) : store :=
  mkStore (mkData (mkOssData 0 1 0 [] 0 0) [] [] [] [] 0) None (mkNotifier 0 [false]) retentionAutoCreate
    raftAddr false false.

(** [setOpen()] *)
Definition setOpen : GoM store unit :=
  s ← get_state;
  if st_opened s then throw ErrStoreOpen
  else modify (λ s, mkStore (st_data s) (st_raftState s) (st_changed s)
                      (st_RetentionAutoCreate s) (st_raftAddr s) true (st_closing s)).

(** [peers()] *)
Definition peers (s : store) : list string :=
  match st_raftState s with
  | None => [st_raftAddr s]
  | Some r => match raft_Peers r with Ok ps => ps | _ => [st_raftAddr s] end
  end.

(** [ready()] *)
Definition ready (s : store) : bool := 2 <=? len (peers s).

(** [snapshot()] and [setSnapshot(data)] *)
Definition snapshot (s : store) : Data := Clone (st_data s).
Definition setSnapshot (d : Data) : GoM store unit := modify (set_data d).

(** [afterIndex(index)]: a channel that is closed at once, or [dataChanged]. *)
Definition afterIndex (index : Z) : GoM store nat :=
  s ← get_state;
  if index <? od_Index (d_Data (st_data s)) then
    ch ← onChans chan.make;
    _ ← onChans (chan.close ch);
    mret ch
  else mret (nt_ch (st_changed s)).

(** Whether a receive from the channel goes through. *)
Definition isClosed (s : store) (ch : nat) : bool := chan.closed (nt_heap (st_changed s)) ch.

(** [isLeader()], [leader()] *)
Definition isLeader (s : store) : bool :=
  match st_raftState s with None => false | Some r => raft_IsLeader r end.
Definition leader (s : store) : string :=
  match st_raftState s with None => ""%string | Some r => raft_Leader r end.

(** [leaderHTTP()] *)
Definition leaderHTTP (s : store) : string :=
  match st_raftState s with
  | None => ""%string
  | Some r =>
      match node_by_tcp (raft_Leader r) (d_MetaNodes (st_data s)) with
      | Some n => n_Host n
      | None => ""%string
      end
  end.

(** [otherMetaServersHTTP()] *)
Definition otherMetaServersHTTP (s : store) : list string :=
  n_Host <$> filter (λ n, n_TCPHost n ≠ st_raftAddr s) (d_MetaNodes (st_data s)).

(** [dataNode()], [dataNodeByTCPHost(tcpHost)], [index()] *)
Definition dataNode (s : store) : list NodeInfo := d_DataNodes (st_data s).
Definition dataNodeByTCPHost (tcpHost : string) (s : store) : option NodeInfo :=
  node_by_tcp tcpHost (d_DataNodes (st_data s)).
Definition index (s : store) : Z := od_Index (d_Data (st_data s)).

(** [nodeByHTTPAddr(addr)] *)
Definition nodeByHTTPAddr (addr : string) (s : store) : res NodeInfo :=
  match list_find (λ n, n_Host n = addr) (d_DataNodes (st_data s)) with
  | Some (_, n) => Ok n
  | None =>
      match list_find (λ n, n_Host n = addr) (d_MetaNodes (st_data s)) with
      | Some (_, n) => Ok n
      | None => Err ErrNodeNotFound
      end
  end.

(** [raftState.apply(b)]: the entry is committed, the state machine runs, and its
    response is returned if it is an error. *)
Definition raftState_apply (now : Z) (b : list byte) : GoM store unit :=
  l ← onRaft (raft_Commit b);
  resp ← Apply now l;
  match resp with
  | Some e => throw e
  | None => mret tt
  end.

(** [apply(b)] *)
Definition store_apply (now : Z) (b : list byte) : GoM store unit :=
  s ← get_state;
  match st_raftState s with
  | None => throw ErrStoreNotOpen
  | Some _ => raftState_apply now b
  end.

(** Encoding of a command and its application. *)
Definition applyEncoded (now : Z) (cmd : Command) : GoM store unit :=
  b ← lift_res (cmd_Marshal cmd);
  store_apply now b.

(** [createMetaNode(addr, raftAddr)]; [rand] is [rand.Int63()]. *)
Definition createMetaNode (now rand : Z) (addr raftAddr : string) : GoM store unit :=
  applyEncoded now
    (mkCommand CreateMetaNodeCommand (Some (ExtCreateMetaNode addr raftAddr (u64 rand)))).

(** [deleteMetaNode(id)]: an encoding error is reported as success. *)
Definition deleteMetaNode (now id : Z) : GoM store unit :=
  match cmd_Marshal (mkCommand DeleteMetaNodeCommand (Some (ExtDeleteMetaNode id))) with
  | Ok b => store_apply now b
  | Err _ => mret tt
  | Panics => panic
  end.

(** [createDataNode(addr, raftAddr)], [deleteDataNode(id)],
    [updateDataNode(id, host, tcpHost)] *)
Definition createDataNode (now : Z) (addr raftAddr : string) : GoM store unit :=
  applyEncoded now (mkCommand CreateDataNodeCommand (Some (ExtCreateDataNode addr raftAddr))).
Definition deleteDataNode (now id : Z) : GoM store unit :=
  applyEncoded now (mkCommand DeleteDataNodeCommand (Some (ExtDeleteDataNode id))).
Definition updateDataNode (now id : Z) (host tcpHost : string) : GoM store unit :=
  applyEncoded now (mkCommand UpdateDataNodeCommand (Some (ExtUpdateDataNode id host tcpHost))).

(** [join(n)] *)
Definition join (now rand : Z) (n : NodeInfo) : GoM store NodeInfo :=
  s ← get_state;
  match st_raftState s with
  | None => throw ErrStoreNotOpen
  | Some _ =>
      _ ← onRaft (addPeer (n_TCPHost n));
      _ ← createMetaNode now rand (n_Host n) (n_TCPHost n);
      s ← get_state;
      match list_find (λ node, n_TCPHost node = n_TCPHost n ∧ n_Host node = n_Host n)
              (d_MetaNodes (st_data s)) with
      | Some (_, node) => mret node
      | None => throw ErrNodeNotFound
      end
  end.

(** ** Shards *)

(** [copyShard(src, dst, shardID)].  The nodes are looked up by their address, where
    the source takes a missing node for a nil pointer.  The entry [b] that is
    applied at the end is not defined in the source; [dial] connects to a node. *)
Definition copyShard (now : Z) (dial : string → res unit) (b : list byte) (src dst : string) (shardID : Z)
    : GoM store unit :=
  s ← get_state;
  if negb (ready s) then throw ErrServiceUnavailable
  else
    si ← lift_res (ShardLocation (st_data s) shardID);
    match dataNodeByTCPHost dst s with
    | None => throw ErrNodeNotFound
    | Some dstNode =>
        if oss_OwnedBy si (n_ID dstNode) then mret tt
        else
          match dataNodeByTCPHost src s with
          | None => throw ErrNodeNotFound
          | Some srcNode =>
              if negb (oss_OwnedBy si (n_ID srcNode)) then throw (errorf "source node does not contain shard")
              else
                _ ← lift_res (dial (n_TCPHost srcNode));
                store_apply now b
          end
    end.

(** [removeShard(dst, shardID)].  The source sets the command type to the description of
    the extension of DropShard, where the type of that command is meant. *)
Definition removeShard (now : Z) (dst : string) (shardID : Z) : GoM store unit :=
  s ← get_state;
  if negb (ready s) then throw ErrServiceUnavailable
  else
    match dataNodeByTCPHost dst s with
    | None => throw ErrNodeNotFound
    | Some _ =>
        _ ← lift_res (ShardLocation (st_data s) shardID);
        applyEncoded now (mkCommand DropShardCommand (Some (ExtDropShard shardID)))
    end.

(** [killCopyShard(dst, id)]: the test for a ready store is inverted, and neither
    outcome of the lookup is an error. *)
Definition killCopyShard (dst : string) (id : Z) (s : store) : res unit :=
  if ready s then Err ErrServiceUnavailable else Ok tt.

(** [removePeer(peer)] *)
Definition storeRemovePeer (peer : string) : GoM store unit := onRaft (removePeer peer).

End store.
