(* ===== verification/StoreTheorems.v ===== *)
(** * Properties of the replicated meta store

    The theorems about meta/store_fsm.go and meta/store.go, with an instance of
    the consensus and codec interfaces to run them on. *)

From Stdlib Require Import ZArith Lia.
From Stdlib Require Import Strings.Byte.
From S2P Require Import Prelude GoLib MetaData MetaNodes MetaShards MetaTheorems StoreFSM Store.

Local Open Scope Z_scope.

Create HintDb fsm.

(** The handlers of the commands. *)
Ltac unfold_commands :=
  unfold applyRemovePeerCommand, applyCreateDatabaseCommand, applyDropDatabaseCommand,
      applyCreateRetentionPolicyCommand, applyDropRetentionPolicyCommand,
      applySetDefaultRetentionPolicyCommand, applyUpdateRetentionPolicyCommand,
      applyCreateShardGroupCommand, applyDeleteShardGroupCommand,
      applyCreateContinuousQueryCommand, applyDropContinuousQueryCommand,
      applyCreateSubscriptionCommand, applyDropSubscriptionCommand, applyCreateUserCommand,
      applyDropUserCommand, applyUpdateUserCommand, applySetPrivilegeCommand,
      applySetAdminPrivilegeCommand, applyCreateMetaNodeCommand, applySetMetaNodeCommand,
      applyCreateDataNodeCommand, applyDeleteDataNodeCommand.

Section theorems.
  Context `{OssMeta, OssCommands, Raft}.

(** ** Failed commands *)

(** The data with the term and index of a log entry. *)
Definition stamp (l : Log) (d : Data) : Data :=
  set_Data (set_TermIndex (l_Term l) (l_Index l) (d_Data d)) d.

(** A call that keeps the data when it returns an error. *)
Definition keeps {A} (m : GoM store A) : Prop :=
  ∀ s e s', m s = (Err e, s') → st_data s' = st_data s.

Lemma withClone_keeps m : keeps (withClone m).
Proof. intros s e s'. unfold withClone. destruct (m _) as [[]]; naive_solver. Qed.

Lemma panic_keeps {A} : keeps (@panic _ A).
Proof. by intros s e s'. Qed.

Lemma ret_keeps {A} (a : A) : keeps (mret a).
Proof. by intros s e s'. Qed.

Lemma throw_keeps {A} e : keeps (@throw _ A e).
Proof. unfold throw. intros s e' s' E. by simplify_eq. Qed.

(** Calls that never touch the data at all, in front of such a call. *)
Definition reads {A} (m : GoM store A) : Prop := ∀ s, st_data (m s).2 = st_data s.

Lemma bind_keeps {A B} (m : GoM store A) (k : A → GoM store B) :
  reads m → (∀ a, keeps (k a)) → keeps (m ≫= k).
Proof.
  intros Hm Hk s e s'. specialize (Hm s). unfold mbind, gom_bind.
  destruct (m s) as [[a|e'|] s1]; simpl in Hm; intros E; [|naive_solver|naive_solver].
  apply Hk in E. congruence.
Qed.

Lemma gets_reads {A} (f : store → A) : reads (gets f).
Proof. done. Qed.

Lemma onRaft_reads {A} (m : GoM raft_t A) : reads (onRaft m).
Proof. intros s. unfold onRaft. destruct (st_raftState s); [|done]. by destruct (m _). Qed.

Lemma attempt_reads {A} (m : GoM store A) : reads m → reads (attempt m).
Proof. intros Hm s. specialize (Hm s). unfold attempt. by destruct (m s) as [[]]. Qed.

Hint Resolve withClone_keeps panic_keeps ret_keeps throw_keeps bind_keeps gets_reads onRaft_reads
  attempt_reads : fsm.

Lemma applyCommand_keeps now cmd : keeps (applyCommand now cmd).
Proof.
  unfold applyCommand. destruct (c_type cmd); auto with fsm;
    unfold_commands;
    try (destruct (c_ext cmd) as [[]|]; auto with fsm; fail).
  - (* SetData *)
    unfold applySetDataCommand. destruct (c_ext cmd) as [[]|]; auto with fsm.
    intros s e s'. destruct (UnmarshalBinary data zeroData) as [[]]; naive_solver.
  - (* RemovePeer *)
    destruct (c_ext cmd) as [[]|]; auto with fsm. apply bind_keeps; [auto with fsm|].
    intros []; [|auto with fsm]. apply bind_keeps; auto with fsm.
  - (* DeleteMetaNode *)
    unfold applyDeleteMetaNodeCommand. destruct (c_ext cmd) as [[]|]; auto with fsm.
    apply bind_keeps; [auto with fsm|]. intros [n|]; [|auto with fsm].
    apply bind_keeps; [apply attempt_reads, onRaft_reads|].
    intros [[]|]; auto with fsm.
Qed.

(** A call that leaves the change counter alone. *)
Definition quiet {A} (m : GoM store A) : Prop := ∀ s, st_changed (m s).2 = st_changed s.

Lemma withClone_quiet m : quiet (withClone m).
Proof. intros s. unfold withClone. by destruct (m _) as [[]]. Qed.

Lemma bind_quiet {A B} (m : GoM store A) (k : A → GoM store B) :
  quiet m → (∀ a, quiet (k a)) → quiet (m ≫= k).
Proof.
  intros Hm Hk s. specialize (Hm s). unfold mbind, gom_bind.
  destruct (m s) as [[a|e'|] s1]; simpl in *; [|done|done]. by rewrite Hk.
Qed.

Lemma onRaft_quiet {A} (m : GoM raft_t A) : quiet (onRaft m).
Proof. intros s. unfold onRaft. destruct (st_raftState s); [|done]. by destruct (m _). Qed.

Lemma attempt_quiet {A} (m : GoM store A) : quiet m → quiet (attempt m).
Proof. intros Hm s. specialize (Hm s). unfold attempt. by destruct (m s) as [[]]. Qed.

Lemma pure_quiet {A} :
  quiet (@panic _ A) ∧ (∀ a : A, quiet (mret a)) ∧ (∀ e, quiet (@throw _ A e)) ∧
  (∀ f : store → A, quiet (gets f)).
Proof. done. Qed.

Hint Resolve withClone_quiet bind_quiet onRaft_quiet attempt_quiet : fsm.
Hint Extern 1 (quiet _) => apply pure_quiet : fsm.

Lemma applyCommand_quiet now cmd : quiet (applyCommand now cmd).
Proof.
  unfold applyCommand. destruct (c_type cmd); auto with fsm; unfold_commands;
    try (destruct (c_ext cmd) as [[]|]; auto with fsm; fail).
  - unfold applySetDataCommand. destruct (c_ext cmd) as [[]|]; auto with fsm.
    intros s. by destruct (UnmarshalBinary data zeroData) as [[]].
  - destruct (c_ext cmd) as [[]|]; auto with fsm. apply bind_quiet; [auto with fsm|].
    intros []; auto with fsm.
  - unfold applyDeleteMetaNodeCommand. destruct (c_ext cmd) as [[]|]; auto with fsm.
    apply bind_quiet; [auto with fsm|]. intros [n|]; [|auto with fsm].
    apply bind_quiet; [apply attempt_quiet, onRaft_quiet|]. intros [[]|]; auto with fsm.
Qed.

(** The channel [dataChanged] is open, as it is whenever no call is in progress. *)
Definition live (n : notifier) : Prop := nt_heap n !! nt_ch n = Some false.

#[export] Instance live_dec n : Decision (live n).
Proof. unfold live. apply _. Defined.

(** The old channel is closed and a new one takes its place. *)
Definition notified (n : notifier) : notifier :=
  mkNotifier (length (nt_heap n)) (<[nt_ch n := true]> (nt_heap n) ++ [false]).

Lemma signalChanged_eq s :
  signalChanged s = if decide (live (st_changed s)) then (Ok tt, set_changed (notified (st_changed s)) s) else (Panics, s).
Proof.
  destruct s as [d r [ch h]]. unfold signalChanged, onChans, chan.close. gom_simpl. unfold zoom, notified.
  cbn -[live]. case_decide as Hl; unfold live in Hl; cbn in Hl.
  - rewrite Hl. cbn. by rewrite length_insert.
  - by destruct (h !! ch) as [[]|].
Qed.

Lemma notified_live n : live (notified n).
Proof. unfold live. cbn. rewrite lookup_app_r by (by rewrite length_insert). by rewrite length_insert, Nat.sub_diag. Qed.

Lemma notified_closed n : live n →
  chan.closed (nt_heap (notified n)) (nt_ch n) = true ∧
  chan.closed (nt_heap (notified n)) (nt_ch (notified n)) = false.
Proof.
  intros Hl. split; [apply chan.closed_true|apply bool_decide_eq_false].
  - cbn. apply lookup_app_l_Some. apply list_lookup_insert_eq. by eapply lookup_lt_Some.
  - by rewrite (notified_live n).
Qed.

Definition applied (l : Log) (s : store) : store :=
  set_changed (notified (st_changed s)) (set_data (stamp l (st_data s)) s).

Lemma Apply_cases now l cmd s :
  cmd_Unmarshal (l_Data l) = Some cmd → live (st_changed s) →
  Apply now l s =
    match applyCommand now cmd s with
    | (Ok _, s1) => (Ok None, applied l s1)
    | (Err e, s1) => (Ok (Some e), applied l s1)
    | (Panics, s1) => (Panics, s1)
    end.
Proof.
  intros Hc Hl. unfold Apply. rewrite Hc. pose proof (applyCommand_quiet now cmd s) as Hq. gom_simpl.
  destruct (applyCommand now cmd s) as [[u|e|] s1]; cbn [snd] in Hq; [| |done];
    rewrite signalChanged_eq; cbn [st_changed set_data]; by rewrite decide_True by (by rewrite Hq).
Qed.

(** An entry is only applied while the channel is open. *)
Lemma Apply_live now l s r s' : Apply now l s = (Ok r, s') →
  live (st_changed s) ∧ ∃ cmd, cmd_Unmarshal (l_Data l) = Some cmd.
Proof.
  unfold Apply. destruct (cmd_Unmarshal (l_Data l)) as [cmd|]; [|done].
  pose proof (applyCommand_quiet now cmd s) as Hq. gom_simpl.
  destruct (applyCommand now cmd s) as [[u|e|] s1]; cbn [snd] in Hq; [| |done];
    rewrite signalChanged_eq; cbn [st_changed set_data]; rewrite Hq; case_decide; [eauto|done|eauto|done].
Qed.

Lemma Apply_changed now l s r s' :
  Apply now l s = (Ok r, s') → st_changed s' = notified (st_changed s).
Proof.
  intros HA. destruct (Apply_live _ _ _ _ _ HA) as [Hl [cmd Hc]].
  rewrite (Apply_cases _ _ _ _ Hc Hl) in HA. pose proof (applyCommand_quiet now cmd s) as Hq.
  destruct (applyCommand now cmd s) as [[u|e|] s1]; simplify_eq; simpl in *; by rewrite Hq.
Qed.

(** C5. An applied entry always stamps its term and index and wakes the waiting
    clients: the channel they wait for is closed and replaced by a new one; when
    the command returns an error, nothing else of the data changes. *)
Theorem Apply_error_keeps_data now l s r s' :
  Apply now l s = (Ok r, s') →
  od_Term (d_Data (st_data s')) = l_Term l ∧ od_Index (d_Data (st_data s')) = l_Index l ∧
  isClosed s' (nt_ch (st_changed s)) = true ∧ isClosed s' (nt_ch (st_changed s')) = false ∧
  (∀ e, r = Some e → st_data s' = stamp l (st_data s)).
Proof.
  intros HA. pose proof (Apply_changed _ _ _ _ _ HA) as Hch. destruct (Apply_live _ _ _ _ _ HA) as [Hl [cmd Hc]].
  destruct (notified_closed _ Hl) as [Hold Hnew]. unfold isClosed. rewrite Hch.
  rewrite (Apply_cases _ _ _ _ Hc Hl) in HA.
  destruct (applyCommand now cmd s) as [[u|e|] s1] eqn:Hr; simplify_eq; [by split_and!|].
  split_and!; try done. intros e' [= <-]. cbn. by rewrite (applyCommand_keeps _ _ _ _ _ Hr).
Qed.

(** ** Commands without effect *)

(** Creating a retention policy, choosing the default policy and creating a
    data node report success without doing it: the databases, the node lists
    and the node counter stay as they are. *)
Theorem Apply_accepts_without_effect now l cmd s :
  OssMetaLaws → cmd_Unmarshal (l_Data l) = Some cmd → live (st_changed s) →
  c_type cmd ∈ [CreateRetentionPolicyCommand; SetDefaultRetentionPolicyCommand;
                CreateDataNodeCommand; AddShardOwnerCommand] →
  ∃ s', Apply now l s = (Ok None, s') ∧
    od_Databases (d_Data (st_data s')) = od_Databases (d_Data (st_data s)) ∧
    d_MetaNodes (st_data s') = d_MetaNodes (st_data s) ∧
    d_DataNodes (st_data s') = d_DataNodes (st_data s) ∧
    d_MaxNodeID (st_data s') = d_MaxNodeID (st_data s).
Proof.
  intros Hlaws Hc Hl Ht. rewrite (Apply_cases _ _ _ _ Hc Hl). unfold applyCommand.
  repeat (apply elem_of_cons in Ht as [->|Ht];
    [eexists; split; [reflexivity|]; simpl; by rewrite ?clone_copy|]).
  by apply elem_of_nil in Ht.
Qed.

(** Nineteen command types that the protocol defines, among them the update of
    a data node and every role and permission command, crash the server that
    applies them. *)
Theorem Apply_panics_on_unhandled now l cmd s :
  cmd_Unmarshal (l_Data l) = Some cmd →
  c_type cmd ∈ [CreateRoleCommand; DropRoleCommand; AddRoleUsersCommand; RemoveRoleUsersCommand;
    AddRolePermissionsCommand; RemoveRolePermissionsCommand; UpdateDataNodeCommand;
    DropShardCommand; ImportDataCommand; SetUserPasswordCommand; AddUserPermissionsCommand;
    RemoveUserPermissionsCommand; RemoveShardOwnerCommand; AddPendingShardOwnerCommand;
    CommitPendingShardOwnerCommand; RemovePendingShardOwnerCommand; TruncateShardGroupsCommand;
    ChangeRoleNameCommand; CreateBalancedShardGroupCommand] →
  Apply now l s = (Panics, s).
Proof.
  intros Hc Ht. unfold Apply. rewrite Hc. gom_simpl. unfold applyCommand.
  repeat (apply elem_of_cons in Ht as [->|Ht]; [reflexivity|]). by apply elem_of_nil in Ht.
Qed.

(** ** Snapshots *)

(** Persisting a snapshot always fails: the encoding error cancels the sink
    and nothing is written. *)
Theorem Persist_always_cancels {K} (sink_Write : list byte → GoM K unit)
    (sink_Close sink_Cancel : GoM K unit) d k :
  OssMetaLaws → (sink_Cancel k).1 ≠ Panics →
  ∃ e, Persist sink_Write sink_Close sink_Cancel d k = (Err e, (sink_Cancel k).2).
Proof.
  intros Hlaws Hp. destruct (marshal_required (marshal d)) as [e He]; [done|].
  exists e. unfold Persist, MarshalBinary. rewrite He. gom_simpl.
  destruct (sink_Cancel k) as [[]]; done.
Qed.

(** ** Determinism *)

(** Replicas that apply the same entry to the same state can diverge:
    deleting a meta node stamps shard groups with the local clock, so two
    followers with different clocks end with different data as soon as one
    group has no owned shard left. *)
Theorem Apply_depends_on_clock l s id n r i g now1 now2 :
  OssMetaLaws → live (st_changed s) → cmd_Unmarshal (l_Data l) =
    Some (mkCommand DeleteMetaNodeCommand (Some (ExtDeleteMetaNode id))) →
  MetaNode (st_data s) id = Some n → st_raftState s = Some r → raft_IsLeader r = false →
  all_groups (d_Data (st_data s)) !! i = Some g →
  Forall (λ s, si_Owners (dropOwner id s) = []) (sgi_Shards g) → now1 ≠ now2 →
  ∃ s1 s2, Apply now1 l s = (Ok None, s1) ∧ Apply now2 l s = (Ok None, s2) ∧
    st_data s1 ≠ st_data s2.
Proof.
  intros Hlaws Hl Hc Hn Hr Hf Hg Horph Hnow.
  assert (Hclone : d_MetaNodes (Clone (st_data s)) = d_MetaNodes (st_data s)) by done.
  assert (Hin : id ∈ n_ID <$> d_MetaNodes (st_data s)).
  { unfold MetaNode, node_by_id in Hn.
    apply fmap_Some in Hn as ([k n'] & (Hk & Hid & _)%list_find_Some & ->).
    apply list_elem_of_fmap. exists n'. split; [done|by eapply list_elem_of_lookup_2]. }
  assert (Hrun : ∀ now, ∃ s', Apply now l s = (Ok None, s') ∧
    all_groups (d_Data (st_data s')) = releaseGroup id now <$> all_groups (d_Data (st_data s))).
  { intros now. rewrite (Apply_cases _ _ _ _ Hc Hl). unfold applyCommand. cbn [c_type].
    unfold applyDeleteMetaNodeCommand. cbn [c_ext]. gom_simpl.
    unfold MetaNode. rewrite Hclone. change (node_by_id id (d_MetaNodes (st_data s)))
      with (MetaNode (st_data s) id). rewrite Hn. unfold leave, onRaft. rewrite Hr.
    unfold removePeer. rewrite Hf. simpl. unfold withClone, DeleteMetaNode. gom_simpl.
    unfold set_raftState, Clone. cbn [st_data d_MetaNodes d_Data]. rewrite (proj2 (Z.eqb_neq _ _)).
    - eexists. split; [reflexivity|]. simpl. rewrite <- all_groups_release.
      by rewrite clone_copy.
    - unfold len. rewrite Nat2Z.inj_iff, filter_keeps_length, Forall_forall.
      apply list_elem_of_fmap in Hin as (m & -> & Hm). intros Hall. by apply (Hall m). }
  destruct (Hrun now1) as (s1 & HA1 & G1), (Hrun now2) as (s2 & HA2 & G2).
  exists s1, s2. split; [done|]. split; [done|]. intros E. apply Hnow.
  rewrite E, G2 in G1. apply (f_equal (λ l, sgi_DeletedAt <$> l !! i)) in G1.
  rewrite !list_lookup_fmap, Hg in G1.
  change (Some (sgi_DeletedAt (releaseGroup id now2 g)) =
          Some (sgi_DeletedAt (releaseGroup id now1 g))) in G1.
  rewrite !releaseGroup_deleted, !decide_True in G1 by done. congruence.
Qed.

(** ** Waiting for changes *)

(** What happens to a store while a client waits: entries are applied, and other
    clients ask for channels. *)
Inductive storeEvent : Type :=
  | EvApply (now : Z) (l : Log)
  | EvAsk (idx : Z).

Definition storeStep (e : storeEvent) : GoM store unit :=
  match e with
  | EvApply now l => _ ← Apply now l; mret tt
  | EvAsk idx => _ ← afterIndex idx; mret tt
  end.

Definition isApply (e : storeEvent) : Prop := match e with EvApply _ _ => True | EvAsk _ => False end.

#[export] Instance isApply_dec e : Decision (isApply e).
Proof. destruct e; apply _. Defined.

Lemma afterIndex_eq idx s :
  let h := nt_heap (st_changed s) in
  afterIndex idx s =
  if idx <? index s then (Ok (length h), set_changed (mkNotifier (nt_ch (st_changed s)) (h ++ [true])) s)
  else (Ok (nt_ch (st_changed s)), s).
Proof.
  unfold afterIndex, onChans, index. gom_simpl. destruct (idx <? od_Index (d_Data (st_data s))); [|done].
  unfold zoom, chan.close. cbn. rewrite lookup_app_r, Nat.sub_diag by done. cbn.
  rewrite insert_app_r_alt, Nat.sub_diag by done. done.
Qed.

(** A channel that was closed stays so; the current one is closed exactly by an
    applied entry. *)
Lemma storeStep_closes e s s' ch : storeStep e s = (Ok tt, s') → live (st_changed s) →
  live (st_changed s') ∧ (isClosed s ch = true → isClosed s' ch = true) ∧
  (ch = nt_ch (st_changed s) → if decide (isApply e) then isClosed s' ch = true else ch = nt_ch (st_changed s')).
Proof.
  unfold isClosed. rewrite !chan.closed_true. destruct e as [now l|idx]; cbn; gom_simpl.
  - destruct (Apply now l s) as [[r| |] s1] eqn:E; [|done..]. intros [= <-] Hl.
    rewrite (Apply_changed _ _ _ _ _ E). split; [apply notified_live|]. split.
    + intros Hc. cbn. apply lookup_app_l_Some. rewrite list_lookup_insert_ne; [done|].
      intros <-. unfold live in Hl. congruence.
    + intros ->. rewrite decide_True by done. by apply notified_closed.
  - rewrite afterIndex_eq. destruct (idx <? index s); intros [= <-] Hl; [|by rewrite decide_False by (by intros [])].
    cbn. split; [by apply lookup_app_l_Some|]. split; [by intros; apply lookup_app_l_Some|done].
Qed.

Lemma storeSteps_close es s s' ch : for_each es storeStep s = (Ok tt, s') → live (st_changed s) →
  (isClosed s ch = true → isClosed s' ch = true) ∧
  (ch = nt_ch (st_changed s) → isClosed s' ch = true ↔ Exists isApply es).
Proof.
  revert s. induction es as [|e es IH]; intros s; cbn; gom_simpl.
  { intros [= <-] Hl. split; [done|]. intros ->. rewrite Exists_nil. unfold isClosed. rewrite chan.closed_true.
    unfold live in Hl. by rewrite Hl. }
  destruct (storeStep e s) as [[[]| |] s1] eqn:E; [|done..]. intros Hrun Hl.
  destruct (storeStep_closes e s s1 ch E Hl) as (Hl1 & Hkeep & Hcur). destruct (IH s1 Hrun Hl1) as [Hk Hc].
  split; [auto|]. intros Hch. specialize (Hcur Hch). rewrite Exists_cons. case_decide as He.
  - split; [by left|]. auto.
  - rewrite (Hc Hcur). naive_solver.
Qed.

Lemma storeSteps_live es s s' : for_each es storeStep s = (Ok tt, s') → live (st_changed s) → live (st_changed s').
Proof.
  revert s. induction es as [|e es IH]; intros s; cbn; gom_simpl; [by intros [= <-]|].
  destruct (storeStep e s) as [[[]| |] s1] eqn:E; [|done..]. intros Hrun Hl.
  by eapply IH; [|eapply (storeStep_closes e s s1 0)].
Qed.

(** C40. No wake-up is lost and none is made up: when a client has asked for the
    channel of an index, then whatever entries are applied and whatever other
    clients ask in the meantime, the channel is closed exactly when the store was
    ahead of the index at the start or an entry has been applied since; closing
    never panics, so that each entry can be applied. *)
Theorem afterIndex_no_lost_wakeup idx s ch s1 es s' :
  live (st_changed s) → afterIndex idx s = (Ok ch, s1) → for_each es storeStep s1 = (Ok tt, s') →
  (isClosed s' ch = true ↔ idx < index s ∨ Exists isApply es) ∧ live (st_changed s').
Proof.
  intros Hl Ha Hrun.
  assert (live (st_changed s1)) as Hl1 by (eapply (storeStep_closes (EvAsk idx) s s1 0); [|done]; cbn; gom_simpl; by rewrite Ha).
  split; [|by eapply storeSteps_live].
  rewrite afterIndex_eq in Ha. destruct (storeSteps_close es s1 s' ch Hrun Hl1) as [Hkeep Hcur].
  destruct (Z.ltb_spec idx (index s)); simplify_eq.
  - split; [by left|]. intros _. apply Hkeep. unfold isClosed. rewrite chan.closed_true. cbn.
    by rewrite lookup_app_r, Nat.sub_diag by done.
  - rewrite Hcur by done. split; [by right|]. intros [?|?]; [lia|done].
Qed.

(** ** Joining *)

(** The codec decodes what it encoded, and a committed entry carries the bytes
    that were proposed. *)
Definition codec_laws : Prop :=
  (∀ cmd b, cmd_Marshal cmd = Ok b → cmd_Unmarshal b = Some cmd) ∧
  (∀ b r l r', raft_Commit b r = (Ok l, r') → l_Data l = b).

Definition join_command (rand : Z) (n : NodeInfo) : Command :=
  mkCommand CreateMetaNodeCommand (Some (ExtCreateMetaNode (n_Host n) (n_TCPHost n) (u64 rand))).

(** Running the command of a join. *)
Lemma createMetaNode_run now rand n s r b l r' :
  codec_laws → live (st_changed s) → cmd_Marshal (join_command rand n) = Ok b → st_raftState s = Some r →
  raft_Commit b r = (Ok l, r') →
  ∃ s', createMetaNode now rand (n_Host n) (n_TCPHost n) s = (Ok tt, s') ∧
    st_raftState s' = Some r' ∧
    d_MetaNodes (st_data s') =
      d_MetaNodes (CreateMetaNode (n_Host n) (n_TCPHost n) (Clone (st_data s))).2.
Proof.
  intros [Hcodec Hcommit] Hlive Hb Hr Hl. unfold createMetaNode, applyEncoded. fold (join_command rand n).
  gom_simpl. rewrite Hb. unfold store_apply, raftState_apply. gom_simpl. rewrite Hr. unfold onRaft. rewrite Hr, Hl.
  rewrite (Apply_cases now l (join_command rand n)).
  2: { rewrite (Hcommit _ _ _ _ Hl). by apply Hcodec. }
  2: done.
  unfold applyCommand, join_command. cbn [c_type c_ext applyCreateMetaNodeCommand].
  unfold applyCreateMetaNodeCommand. cbn [c_ext]. unfold withClone, onOss. gom_simpl.
  unfold set_raftState at 1. cbn [st_data].
  assert (Hnp : (CreateMetaNode (n_Host n) (n_TCPHost n) (Clone (st_data s))).1 ≠ Panics).
  { unfold CreateMetaNode, assignID. gom_simpl. by repeat case_match. }
  destruct (CreateMetaNode (n_Host n) (n_TCPHost n) (Clone (st_data s))) as [[u|e|] d1];
    [|  |by destruct Hnp]; simpl; eexists; done.
Qed.

(** A server that joins with an address no data node uses is returned as a
    member of the meta nodes; when a data node uses the address, the refusal of
    the command is not reported and the join ends with "node not found" although
    the server was already added as a raft peer. *)
Theorem join_outcome now rand n s r r1 b l r2 :
  codec_laws → live (st_changed s) → wf (st_data s) → d_MaxNodeID (st_data s) + 1 < 2 ^ 64 →
  st_raftState s = Some r → addPeer (n_TCPHost n) r = (Ok tt, r1) →
  cmd_Marshal (join_command rand n) = Ok b → raft_Commit b r1 = (Ok l, r2) →
  (node_by_tcp (n_TCPHost n) (d_DataNodes (st_data s)) = None →
     ∃ node s', join now rand n s = (Ok node, s') ∧ node ∈ d_MetaNodes (st_data s') ∧
       n_Host node = n_Host n ∧ n_TCPHost node = n_TCPHost n ∧ st_raftState s' = Some r2) ∧
  (node_by_tcp (n_TCPHost n) (d_DataNodes (st_data s)) ≠ None →
   (∀ m, m ∈ d_MetaNodes (st_data s) → n_TCPHost m = n_TCPHost n → n_Host m ≠ n_Host n) →
     ∃ s', join now rand n s = (Err ErrNodeNotFound, s') ∧
       d_MetaNodes (st_data s') = d_MetaNodes (st_data s) ∧ st_raftState s' = Some r2).
Proof.
  intros Hlaws Hlive Hwf Hmax Hr Hadd Hb Hl.
  destruct (createMetaNode_run now rand n (set_raftState (Some r1) s) r1 b l r2)
    as (s' & Hrun & Hr' & Hnodes); try done.
  assert (Hjoin : join now rand n s =
    match list_find (λ node, n_TCPHost node = n_TCPHost n ∧ n_Host node = n_Host n)
            (d_MetaNodes (st_data s')) with
    | Some (_, node) => (Ok node, s')
    | None => (Err ErrNodeNotFound, s')
    end).
  { unfold join. gom_simpl. rewrite Hr. unfold onRaft. rewrite Hr, Hadd, Hrun.
    by destruct (list_find _ _) as [[]|]. }
  change (st_data (set_raftState (Some r1) s)) with (st_data s) in Hnodes.
  set (d0 := Clone (st_data s)) in *. unfold CreateMetaNode in Hnodes. gom_simpl.
  change (d_DataNodes d0) with (d_DataNodes (st_data s)) in Hnodes. split.
  - intros Hd. rewrite Hd in Hnodes.
    destruct (assignID_spec d0 (n_TCPHost n)) as (id & m & Hid & _); [|done|done|].
    { by destruct Hwf; split. }
    rewrite Hid in Hnodes. simpl in Hnodes.
    assert (Hin : mkNodeInfo id (n_Host n) (n_TCPHost n) [] ∈ d_MetaNodes (st_data s')).
    { rewrite Hnodes, sortNodes_perm. set_solver. }
    destruct (list_find _ _) as [[k node]|] eqn:Hf in Hjoin.
    + apply list_find_Some in Hf as (Hk & [Ht Hh] & _). exists node, s'.
      split; [done|]. split; [by eapply list_elem_of_lookup_2|done].
    + apply list_find_None in Hf. rewrite Forall_forall in Hf. by destruct (Hf _ Hin).
  - intros Hd Hnone. destruct (node_by_tcp (n_TCPHost n) (d_DataNodes (st_data s))); [|done]. simpl in Hnodes.
    exists s'. split; [|done]. rewrite Hnodes in Hjoin. rewrite Hjoin. clear Hjoin.
    destruct (list_find _ _) as [[k node]|] eqn:Hf; [|done].
    apply list_find_Some in Hf as (Hk & [Ht Hh] & _).
    by destruct (Hnone node (list_elem_of_lookup_2 _ _ _ Hk) Ht).
Qed.

End theorems.

(** ** Instances to run *)

#[export] Instance Extension_eq_dec : EqDecision Extension.
Proof. solve_decision. Defined.
#[export] Instance Command_eq_dec : EqDecision Command.
Proof. solve_decision. Defined.

(** A consensus group of one: a flag for leadership and the peers. *)
Definition demo_raft : Raft := {|
  raft_t := bool * list string;
  raft_IsLeader r := r.1;
  raft_Leader _ := "a"%string;
  raft_Peers r := Ok r.2;
  raft_AddPeer p := modify (λ r, (r.1, r.2 ++ [p]));
  raft_RemovePeer p := modify (λ r, (r.1, filter (λ q, q ≠ p) r.2));
  raft_Commit b := gets (λ _, mkLog 2 8 b);
|}.

(** The commands the examples use, encoded by their number. *)
Definition demo_table : list Command :=
  [mkCommand CreateRetentionPolicyCommand None;
   mkCommand UpdateDataNodeCommand (Some (ExtUpdateDataNode 1 "x" "y"));
   mkCommand DeleteMetaNodeCommand (Some (ExtDeleteMetaNode 1));
   mkCommand CreateMetaNodeCommand (Some (ExtCreateMetaNode "x" "d" 5));
   mkCommand CreateMetaNodeCommand (Some (ExtCreateMetaNode "x" "b" 5));
   mkCommand DeleteDataNodeCommand (Some (ExtDeleteDataNode 9))].

Definition demo_codes : list byte := [x00; x01; x02; x03; x04; x05].

Definition demo_commands : OssCommands := {|
  oss_CreateDatabase _ := mret tt;
  oss_DropDatabase n := throw (ErrDatabaseNotFound n);
  oss_CreateRetentionPolicy _ _ _ := mret tt;
  oss_DropRetentionPolicy _ _ := mret tt;
  oss_UpdateRetentionPolicy _ _ _ _ := mret tt;
  oss_CreateShardGroup _ _ _ := mret tt;
  oss_DeleteShardGroup _ _ _ := mret tt;
  oss_CreateContinuousQuery _ _ _ := mret tt;
  oss_DropContinuousQuery _ _ := mret tt;
  oss_CreateSubscription _ _ _ _ _ := mret tt;
  oss_DropSubscription _ _ _ := mret tt;
  oss_CreateUser _ _ _ := mret tt;
  oss_DropUser _ := mret tt;
  oss_UpdateUser _ _ := mret tt;
  oss_SetPrivilege _ _ _ := mret tt;
  oss_SetAdminPrivilege _ _ := mret tt;
  oss_rpi_UnmarshalBinary _ := Err ErrUnexpectedEOF;
  oss_NewRetentionPolicyInfo n := mkRetentionPolicyInfo n 1 0 time.Hour [];
  cmd_Unmarshal b :=
    match b with
    | [x] => '(i, _) ← list_find (λ y, y = x) demo_codes; demo_table !! i
    | _ => None
    end;
  cmd_Marshal c :=
    match list_find (λ c', c' = c) demo_table with
    | Some (i, _) => of_option EOF ((λ x, [x]) <$> demo_codes !! i)
    | None => Err EOF
    end;
|}.

#[local] Existing Instances demo_oss demo_commands demo_raft.

Lemma demo_codec : codec_laws.
Proof.
  split.
  - intros cmd b. cbn [cmd_Marshal cmd_Unmarshal demo_commands].
    destruct (list_find (λ c', c' = cmd) demo_table) as [[i c]|] eqn:Hf; [|done].
    apply list_find_Some in Hf as (Hi & <- & _).
    do 6 (destruct i as [|i]; [intros [= <-]; simpl in Hi; injection Hi as <-; reflexivity|]).
    done.
  - intros b r l r' [= <- _]. done.
Qed.

Definition demo_store (leader : bool) : store :=
  mkStore owned_data (Some (leader, ["a"%string])) (mkNotifier 1 [true; false]) true "a" true false.

(** Shard group 1 loses its only owner with node 1. *)
Definition lonely_data : Data :=
  set_Data (mkOssData 1 7 99 [mkDatabaseInfo "db" "autogen" [
    set_ShardGroups [mkShardGroupInfo 1 0 time.Hour zeroTime [mkShardInfo 2 [mkShardOwner 1]]]
      demo_policy]] 1 2) demo_data.
Definition lonely_store : store :=
  mkStore lonely_data (Some (false, ["a"%string])) (mkNotifier 1 [true; false]) true "a" true false.

Lemma owned_data_wf : wf owned_data.
Proof. destruct demo_data_wf. split; done. Qed.

(** Deleting an unknown data node. *)
Lemma Apply_error_keeps_data_witness :
  ∃ s', Apply 0 (mkLog 2 8 [x05]) (demo_store true) = (Ok (Some ErrNodeNotFound), s') ∧
    od_Term (d_Data (st_data s')) = 2 ∧ od_Index (d_Data (st_data s')) = 8 ∧
    isClosed s' 1 = true ∧ isClosed s' (nt_ch (st_changed s')) = false ∧
    (∀ e, Some ErrNodeNotFound = Some e → st_data s' = stamp (mkLog 2 8 [x05]) owned_data).
Proof.
  eexists. split; [vm_compute; reflexivity|].
  apply (Apply_error_keeps_data 0 (mkLog 2 8 [x05]) (demo_store true)). vm_compute. reflexivity.
Defined.

Lemma Apply_accepts_without_effect_witness :
  ∃ s', Apply 0 (mkLog 2 8 [x00]) (demo_store true) = (Ok None, s') ∧
    od_Databases (d_Data (st_data s')) = od_Databases (d_Data owned_data) ∧
    d_MetaNodes (st_data s') = d_MetaNodes owned_data ∧
    d_DataNodes (st_data s') = d_DataNodes owned_data ∧
    d_MaxNodeID (st_data s') = d_MaxNodeID owned_data.
Proof.
  apply (Apply_accepts_without_effect 0 (mkLog 2 8 [x00])
    (mkCommand CreateRetentionPolicyCommand None) (demo_store true)).
  - apply demo_oss_laws.
  - vm_compute. reflexivity.
  - reflexivity.
  - apply (bool_decide_unpack _). vm_compute. exact I.
Defined.

Lemma Apply_panics_on_unhandled_witness :
  Apply 0 (mkLog 2 8 [x01]) (demo_store true) = (Panics, demo_store true).
Proof.
  apply (Apply_panics_on_unhandled 0 (mkLog 2 8 [x01])
    (mkCommand UpdateDataNodeCommand (Some (ExtUpdateDataNode 1 "x" "y"))) (demo_store true)).
  - vm_compute. reflexivity.
  - apply (bool_decide_unpack _). vm_compute. exact I.
Defined.

(** A sink that collects what is written, with a flag for cancelled. *)
Lemma Persist_always_cancels_witness :
  ∃ e, Persist (K := list byte * bool) (λ b, modify (λ k, (k.1 ++ b, k.2))) (mret tt)
         (modify (λ k, (k.1, true))) owned_data ([], false) = (Err e, ([], true)).
Proof.
  apply (Persist_always_cancels (K := list byte * bool) (λ b, modify (λ k, (k.1 ++ b, k.2)))
    (mret tt) (modify (λ k, (k.1, true))) owned_data ([], false)).
  - apply demo_oss_laws.
  - vm_compute. discriminate.
Defined.

Lemma Apply_depends_on_clock_witness :
  ∃ s1 s2, Apply 5 (mkLog 2 8 [x02]) lonely_store = (Ok None, s1) ∧
    Apply 6 (mkLog 2 8 [x02]) lonely_store = (Ok None, s2) ∧ st_data s1 ≠ st_data s2.
Proof.
  eapply (Apply_depends_on_clock (mkLog 2 8 [x02]) lonely_store 1 (demo_node 1 "a")
    (false, ["a"%string]) 0 _ 5 6).
  - apply demo_oss_laws.
  - reflexivity.
  - vm_compute. reflexivity.
  - vm_compute. reflexivity.
  - reflexivity.
  - reflexivity.
  - vm_compute. reflexivity.
  - repeat constructor.
  - lia.
Defined.

(** A client waits for index 7; another asks for index 3, then an entry is applied. *)
Lemma afterIndex_no_lost_wakeup_witness :
  ∃ s', for_each [EvAsk 3; EvApply 0 (mkLog 2 8 [x00]); EvAsk 8] storeStep (demo_store true) = (Ok tt, s') ∧
    isClosed s' 1 = true ∧ isClosed (demo_store true) 1 = false.
Proof.
  eexists. split; [vm_compute; reflexivity|]. split; [|reflexivity].
  refine (proj2 (proj1 (afterIndex_no_lost_wakeup 7 (demo_store true) 1 (demo_store true)
    [EvAsk 3; EvApply 0 (mkLog 2 8 [x00]); EvAsk 8] _ _ _ _)) _); [reflexivity..|].
  right. right. by left.
Defined.

Lemma join_outcome_witness :
  (∃ node s', join 0 5 (mkNodeInfo 0 "x" "d" []) (demo_store true) = (Ok node, s') ∧
     node ∈ d_MetaNodes (st_data s') ∧ n_Host node = "x"%string ∧ n_TCPHost node = "d"%string ∧
     st_raftState s' = Some (true, ["a"; "d"]%string)) ∧
  (∃ s', join 0 5 (mkNodeInfo 0 "x" "b" []) (demo_store true) = (Err ErrNodeNotFound, s') ∧
     d_MetaNodes (st_data s') = d_MetaNodes owned_data ∧
     st_raftState s' = Some (true, ["a"; "b"]%string)).
Proof.
  split.
  - eapply (join_outcome 0 5 (mkNodeInfo 0 "x" "d" []) (demo_store true) (true, ["a"%string])
      (true, ["a"; "d"]%string)); [apply demo_codec|reflexivity|apply owned_data_wf|vm_compute; reflexivity..].
  - eapply (join_outcome 0 5 (mkNodeInfo 0 "x" "b" []) (demo_store true) (true, ["a"%string])
      (true, ["a"; "b"]%string)); [apply demo_codec|reflexivity|apply owned_data_wf|vm_compute; reflexivity..| |].
    + vm_compute. discriminate.
    + intros m Hm. vm_compute in Hm. apply elem_of_cons in Hm as [->|Hm]; [done|].
      by apply elem_of_nil in Hm.
Defined.
