(* ===== verification/StoreOps.v ===== *)
(** * What the store operations promise

    The operations of meta/store.go that go through raft, from the call over the
    command, the committed entry and the state machine to the node lists that a
    reader of the store sees.  The specification names no command and no handler:
    it relates the nodes before and after by membership. *)

From Stdlib Require Import ZArith Lia.
From Stdlib Require Import Strings.Byte.
From S2P Require Import Prelude GoLib MetaData MetaNodes MetaShards MetaTheorems StoreFSM Store StoreTheorems.

Local Open Scope Z_scope.

Section operations.
  Context `{OssMeta, OssCommands, Raft}.



(** ** Specification *)




(** ** From the operation to the state machine *)





(** ** The handlers meet the specification *)





(** ** Shards *)

(** What [removeShard] checks before it commits. *)
Definition removable (dst : string) (id : Z) (s : store) : Prop :=
  ready s = true ∧ is_Some (dataNodeByTCPHost dst s) ∧ ∃ si, ShardLocation (st_data s) id = Ok si.

(** Removing a shard is refused, without an entry, when a check fails. *)
Theorem removeShard_refused now dst id s : ¬ removable dst id s →
  ∃ e, removeShard now dst id s = (Err e, s).
Proof.
  intros Hg. unfold removeShard. gom_simpl. destruct (ready s) eqn:Hr; cbn [negb]; [|by eexists].
  destruct (dataNodeByTCPHost dst s) eqn:Hn; [|by eexists].
  destruct (ShardLocation (st_data s) id) eqn:Hs; [|by eexists|].
  - destruct Hg. by repeat eexists.
  - unfold ShardLocation in Hs. by destruct (list_find _ _) as [[]|].
Qed.

(** Copying a shard: what must hold for success.  The entry that the source means to
    apply adds a pending owner, which no server can apply, so a copy either has
    nothing to do, fails, or crashes the server. *)
Theorem copyShard_never_copies now dial b src dst id s cmd :
  codec_laws → cmd_Unmarshal b = Some cmd → c_type cmd = AddPendingShardOwnerCommand →
  let '(o, s') := copyShard now dial b src dst id s in
  (o = Ok tt → s' = s ∧ ready s = true ∧
     ∃ si n, ShardLocation (st_data s) id = Ok si ∧ dataNodeByTCPHost dst s = Some n ∧ oss_OwnedBy si (n_ID n) = true) ∧
  st_data s' = st_data s.
Proof.
  intros [_ Hcommit] Hcmd Ht. unfold copyShard. gom_simpl.
  destruct (ready s) eqn:Hr; cbn [negb]; [|done].
  destruct (ShardLocation (st_data s) id) as [si|e|] eqn:Hs; [|done..].
  destruct (dataNodeByTCPHost dst s) as [dn|]; [|done].
  destruct (oss_OwnedBy si (n_ID dn)) eqn:Ho; [split; [intros _|done]; split_and!; [done..|by eexists _, _]|].
  destruct (dataNodeByTCPHost src s) as [sn|]; [|done]. destruct (oss_OwnedBy si (n_ID sn)); cbn [negb]; [|done].
  destruct (dial (n_TCPHost sn)); [|done..]. unfold store_apply, raftState_apply. gom_simpl.
  destruct (st_raftState s) as [r|] eqn:Er; [|done]. unfold onRaft. rewrite Er.
  destruct (raft_Commit b r) as [[l|e|] r'] eqn:Hl; [|done..].
  rewrite (Apply_panics_on_unhandled now l cmd); [done|by rewrite (Hcommit _ _ _ _ Hl)|rewrite Ht; set_solver].
Qed.

End operations.

(** ** Runs *)

#[local] Existing Instances demo_oss demo_commands demo_raft.

