(* ===== verification/Snapshots.v ===== *)
(** * Snapshots of the state machine

    [Snapshot] of meta/store_fsm.go hands the pointer [s.data] to raft, and raft runs
    [Persist] on it while it goes on applying entries.  Here [data] is a pointer
    into a store of objects: a handler that succeeds assigns a new object, and the
    term and index of an entry are written into whatever object the pointer then
    names.  [Clone] copies everything below it, so the objects share nothing. *)

From Stdlib Require Import ZArith Lia.
From Stdlib Require Import Strings.Byte.
From S2P Require Import Prelude GoLib MetaData MetaTheorems StoreFSM Store StoreTheorems.

Local Open Scope Z_scope.

Section snapshots.
  Context `{OssMeta, OssCommands, Raft}.

(** ** The shared store *)

(** The store, the address its [data] has, and the objects it has pointed to before. *)
Record shared : Type := mkShared {
  sh_store : store;
  sh_ptr : nat;
  sh_old : gmap nat Data;
}.

Definition deref (h : shared) (p : nat) : option Data :=
  if decide (p = sh_ptr h) then Some (st_data (sh_store h)) else sh_old h !! p.

(** [fsm.data = other], where the store is now [s] *)
Definition assign (s : store) (h : shared) : shared :=
  mkShared s (S (sh_ptr h)) (<[sh_ptr h := st_data (sh_store h)]> (sh_old h)).

(** Writes through the pointer [fsm.data]. *)
Definition write (s : store) (h : shared) : shared := mkShared s (sh_ptr h) (sh_old h).

(** The handlers that never assign [fsm.data]; the others do unless they return an
    error. *)
Definition assigns (t : CommandType) (r : option error) : bool :=
  match r, t with
  | Some _, _ | _, (RemovePeerCommand | AddShardOwnerCommand) => false
  | None, _ => true
  end.

Definition entryAssigns (l : Log) (r : option error) : bool :=
  match cmd_Unmarshal (l_Data l) with Some cmd => assigns (c_type cmd) r | None => false end.

(** [Apply(l)] *)
Definition ApplyShared (now : Z) (l : Log) : GoM shared (option error) := λ h,
  match Apply now l (sh_store h) with
  | (Ok r, s') => (Ok r, if entryAssigns l r then assign s' h else write s' h)
  | (Err e, s') => (Err e, write s' h)
  | (Panics, s') => (Panics, write s' h)
  end.

(** [Restore(r)] *)
Definition RestoreShared (b : list byte) : GoM shared unit := λ h,
  match Restore b (sh_store h) with
  | (Ok u, s') => (Ok u, assign s' h)
  | (Err e, s') => (Err e, write s' h)
  | (Panics, s') => (Panics, write s' h)
  end.

(** [Snapshot()]: the snapshot is the pointer. *)
Definition Snapshot : GoM shared nat := gets sh_ptr.

(** [Persist(sink)] of such a snapshot *)
Definition PersistShared {K} (sink_Write : list byte → GoM K unit) (sink_Close sink_Cancel : GoM K unit)
    (h : shared) (p : nat) : GoM K unit :=
  match deref h p with Some d => Persist sink_Write sink_Close sink_Cancel d | None => panic end.

(** What raft asks of the state machine, one call after the other. *)
Inductive fsmCall : Type :=
  | CallApply (now : Z) (l : Log)
  | CallRestore (b : list byte).

Definition fsm_call (c : fsmCall) : GoM shared unit :=
  match c with
  | CallApply now l => _ ← ApplyShared now l; mret tt
  | CallRestore b => _ ← attempt (RestoreShared b); mret tt
  end.

Fixpoint fsm_calls (cs : list fsmCall) : GoM shared unit :=
  match cs with
  | [] => mret tt
  | c :: cs' => _ ← fsm_call c; fsm_calls cs'
  end.

(** ** A snapshot while calls go on *)

(** The last entry that was stamped before [data] was first assigned. *)
Fixpoint sharing (cs : list fsmCall) (h : shared) (last : option Log) : option Log :=
  match cs with
  | [] => last
  | c :: cs' =>
      let h' := (fsm_call c h).2 in
      if decide (sh_ptr h' = sh_ptr h) then
        sharing cs' h' (match c with CallApply _ l => Some l | CallRestore _ => last end)
      else last
  end.

Definition stamped (last : option Log) (d : Data) : Data :=
  match last with Some l => stamp l d | None => d end.

(** Old objects have smaller addresses. *)
Definition addressed (h : shared) : Prop := ∀ p, is_Some (sh_old h !! p) → (p < sh_ptr h)%nat.

Lemma stamp_stamp l l' d : stamp l (stamp l' d) = stamp l d.
Proof. done. Qed.

Lemma stamp_stamped l last d : stamp l (stamped last d) = stamp l d.
Proof. by destruct last. Qed.

Lemma assign_addressed s h : addressed h → addressed (assign s h).
Proof.
  intros Ha p. cbn. destruct (decide (p = sh_ptr h)) as [->|Hp]; [lia|].
  rewrite lookup_insert_ne by done. intros Hs%Ha. lia.
Qed.

Lemma assign_deref s h p : addressed h → (p ≤ sh_ptr h)%nat → deref (assign s h) p = deref h p.
Proof.
  intros Ha Hp. unfold deref. cbn. rewrite decide_False by lia.
  case_decide as E; [by subst; rewrite lookup_insert_eq|by rewrite lookup_insert_ne].
Qed.

(** An entry that does not assign [data] changes its term and index only. *)
Lemma Apply_writes now l s r s' :
  Apply now l s = (Ok r, s') → entryAssigns l r = false → st_data s' = stamp l (st_data s).
Proof.
  intros HA. unfold entryAssigns. destruct (Apply_live _ _ _ _ _ HA) as [Hl [cmd Hc]]. rewrite Hc.
  rewrite (Apply_cases _ _ _ _ Hc Hl) in HA. destruct (applyCommand now cmd s) as [[u|e|] s1] eqn:E; simplify_eq; cbn.
  - intros Hr. f_equal. unfold applyCommand in E. destruct (c_type cmd); try done; [|by injection E as _ <-].
    unfold applyRemovePeerCommand in E. destruct (c_ext cmd) as [[]|]; try done.
    enough (reads (leader ← onRaft (gets raft_IsLeader);
              if leader : bool then _ ← attempt (onRaft (removePeer addr)); mret tt else mret tt)) as Hreads.
    { specialize (Hreads s). by rewrite E in Hreads. }
    clear. intros s. gom_simpl. pose proof (onRaft_reads (removePeer addr) s) as Hp.
    unfold onRaft in *. destruct (st_raftState s) as [r|]; [|done]. cbn in *.
    destruct (raft_IsLeader r); [|done]. unfold attempt. cbn. by destruct (removePeer addr r) as [[]].
  - intros _. by rewrite (applyCommand_keeps _ _ _ _ _ E).
Qed.

(** What one call does to the object of the pointer and to the older ones. *)
Lemma call_effect c h h' :
  fsm_call c h = (Ok tt, h') → addressed h →
  addressed h' ∧
  (sh_ptr h' = sh_ptr h ∧ sh_old h' = sh_old h ∧
   st_data (sh_store h') = stamped (match c with CallApply _ l => Some l | CallRestore _ => None end)
     (st_data (sh_store h)) ∨
   ∃ s, h' = assign s h).
Proof.
  destruct c as [now l|b]; cbn; gom_simpl.
  - unfold ApplyShared. destruct (Apply now l (sh_store h)) as [[r|e|] s'] eqn:E; try done.
    destruct (entryAssigns l r) eqn:Ea; intros [= <-] Ha; (split; [by try apply assign_addressed|]); [by right; eexists|].
    left. split_and!; [done..|]. by apply (Apply_writes _ _ _ _ _ E Ea).
  - unfold RestoreShared, Restore. destruct (UnmarshalBinary b zeroData) as [[u|e|] d]; try done;
      intros [= <-] Ha; (split; [by try apply assign_addressed|]); [by right; eexists|by left].
Qed.

(** An object that is no longer the current one does not change. *)
Lemma calls_old cs h h' p :
  fsm_calls cs h = (Ok tt, h') → addressed h → (p < sh_ptr h)%nat → deref h' p = deref h p.
Proof.
  revert h. induction cs as [|c cs IH]; intros h; cbn; gom_simpl; [by intros [= <-]|].
  destruct (fsm_call c h) as [[[]|e|] h1] eqn:E; try done. intros Hrun Ha Hp.
  destruct (call_effect c h h1 E Ha) as [Ha1 [(Hptr & Hold & _)|[s ->]]].
  - rewrite (IH h1 Hrun Ha1) by lia. unfold deref. by rewrite Hptr, Hold, !decide_False by lia.
  - rewrite (IH _ Hrun Ha1) by (cbn; lia). apply assign_deref; [done|lia].
Qed.

Lemma calls_sharing cs h h' d last :
  fsm_calls cs h = (Ok tt, h') → addressed h → st_data (sh_store h) = stamped last d →
  deref h' (sh_ptr h) = Some (stamped (sharing cs h last) d).
Proof.
  revert h last. induction cs as [|c cs IH]; intros h last; cbn; gom_simpl.
  { intros [= <-] _ Hd. unfold deref. by rewrite decide_True, Hd. }
  destruct (fsm_call c h) as [[[]|e|] h1] eqn:E; try done. intros Hrun Ha Hd. cbn.
  destruct (call_effect c h h1 E Ha) as [Ha1 [(Hptr & Hold & Hd1)|[s ->]]].
  - rewrite decide_True by done. rewrite <- Hptr. apply IH; [done..|].
    rewrite Hd1, Hd. destruct c; [apply stamp_stamped|done].
  - rewrite decide_False by (cbn; lia). rewrite (calls_old cs _ _ _ Hrun Ha1) by (cbn; lia).
    rewrite assign_deref by (done || lia). unfold deref. by rewrite decide_True, Hd.
Qed.

(** C14. A snapshot that raft persists later, while it applies entries and restores
    other snapshots, is the data of the moment it was taken except for the term and
    index: those are of the last entry that was applied before a command first
    replaced the data, be it a command that failed. *)
Theorem snapshot_drifts_by_stamp cs h p h0 h' :
  addressed h → Snapshot h = (Ok p, h0) → fsm_calls cs h0 = (Ok tt, h') →
  deref h' p = Some (stamped (sharing cs h None) (st_data (sh_store h))) ∧
  ∀ K (sink_Write : list byte → GoM K unit) sink_Close sink_Cancel,
    PersistShared sink_Write sink_Close sink_Cancel h' p =
    Persist sink_Write sink_Close sink_Cancel (stamped (sharing cs h None) (st_data (sh_store h))).
Proof.
  intros Ha Hs Hrun. unfold Snapshot, gets in Hs. simplify_eq.
  assert (Hd : deref h' (sh_ptr h0) = Some (stamped (sharing cs h0 None) (st_data (sh_store h0))))
    by by apply calls_sharing.
  split; [exact Hd|]. intros. unfold PersistShared. by rewrite Hd.
Qed.

End snapshots.

(** ** An example *)

#[local] Existing Instances demo_oss demo_commands demo_raft.

(** Deleting an unknown data node at index 8 fails, creating a meta node at index 9 does
    not; the snapshot was taken at index 7. *)
Definition demo_shared : shared := mkShared (demo_store true) 3 ∅.

Definition demo_calls : list fsmCall :=
  [CallApply 0 (mkLog 2 8 [x05]); CallApply 0 (mkLog 2 9 [x03]); CallRestore []; CallApply 0 (mkLog 3 10 [x05])].

Lemma snapshot_drifts_by_stamp_witness :
  ∃ h', fsm_calls demo_calls demo_shared = (Ok tt, h') ∧ sh_ptr h' = 4%nat ∧
    od_Index (d_Data owned_data) = 7 ∧
    deref h' 3 = Some (stamp (mkLog 2 8 [x05]) owned_data).
Proof.
  eexists. split; [vm_compute; reflexivity|]. split; [reflexivity|]. split; [reflexivity|].
  refine (proj1 (snapshot_drifts_by_stamp demo_calls demo_shared 3 demo_shared _ _ _ _)).
  - intros p [d Hd]. cbn in Hd. by rewrite lookup_empty in Hd.
  - reflexivity.
  - vm_compute. reflexivity.
Defined.
