(* ===== verification/Pool.v ===== *)
(** * The bounded connection pool (cluster/pool.go, cluster/client_pool.go)

    A pool hands out connections to one node and takes them back.  The methods
    are modelled as they run alone; the interleavings of concurrent [Get] calls
    are a step relation at the end. *)

From Stdlib Require Import ZArith Lia.
From S2P Require Import Prelude GoLib.

Local Open Scope Z_scope.

(** Connections are told apart by number. *)
Definition conn : Type := nat.

(** [p_conns] is the buffered channel, [None] when the pool is closed;
    [p_closed] lists the connections that were really closed; [p_factory] is the
    number of the next connection and whether the factory still succeeds. *)
Record boundedPool : Type := mkPool {
  p_conns : option (list conn);
  p_cap : nat;
  p_total : Z;
  p_closed : list conn;
  p_next : nat;
  p_factoryOK : bool;
}.

Definition set_conns (c : option (list conn)) (p : boundedPool) : boundedPool :=
  mkPool c (p_cap p) (p_total p) (p_closed p) (p_next p) (p_factoryOK p).
Definition set_total (z : Z) (p : boundedPool) : boundedPool :=
  mkPool (p_conns p) (p_cap p) z (p_closed p) (p_next p) (p_factoryOK p).

Abbreviation PoolM := (GoM boundedPool).

(** [atomic.AddInt32(&c.total, d)] *)
Definition addTotal (d : Z) : PoolM unit := modify (λ p, set_total (i32 (p_total p + d)) p).

(** [conn.Close()] of the real connection. *)
Definition closeConn (c : conn) : PoolM unit := modify (λ p,
  mkPool (p_conns p) (p_cap p) (p_total p) (p_closed p ++ [c]) (p_next p) (p_factoryOK p)).

(** [factory()] *)
Definition factory : PoolM conn := λ p,
  if p_factoryOK p then
    (Ok (p_next p), mkPool (p_conns p) (p_cap p) (p_total p) (p_closed p) (S (p_next p)) true)
  else (Err (errorf "dial failed"), p).

(** [Close()] *)
Definition PoolClose : PoolM unit :=
  p ← get_state;
  _ ← modify (set_conns None);
  match p_conns p with
  | None => mret tt
  | Some conns => for_each conns closeConn
  end.

(** [NewBoundedPool(initialCap, maxCap, timeout, factory)]; [p0] carries the
    factory. *)
Fixpoint fillPool (n : nat) : PoolM unit :=
  match n with
  | O => mret tt
  | S n' =>
      r ← attempt factory;
      match r with
      | inl e => _ ← PoolClose; throw (wrap_err "factory is not able to fill the pool" e)
      | inr c =>
          _ ← modify (λ p, set_conns ((λ l, l ++ [c]) <$> p_conns p) p);
          _ ← addTotal 1;
          fillPool n'
      end
  end.

Definition NewBoundedPool (initialCap maxCap : Z) : PoolM unit :=
  if (initialCap <? 0) || (maxCap <=? 0) || (maxCap <? initialCap)
  then throw (errorf "invalid capacity settings")
  else
    _ ← modify (λ p, mkPool (Some []) (Z.to_nat maxCap) 0 (p_closed p) (p_next p) (p_factoryOK p));
    fillPool (Z.to_nat initialCap).

(** A connection that returns to its pool. *)
Record pooledConn : Type := mkPooledConn { pc_Conn : conn; pc_unusable : bool }.

Definition wrapConn (c : conn) : pooledConn := mkPooledConn c false.

(** [Get()] when no other goroutine returns a connection in the meantime: the
    second [select] can only time out.  A call that is served while it waits is
    a return followed by a [Get]. *)
Definition Get : PoolM pooledConn :=
  p ← get_state;
  match p_conns p with
  | None => throw ErrClosed
  | Some (c :: conns) => _ ← modify (set_conns (Some conns)); mret (wrapConn c)
  | Some [] =>
      if p_total p <? i32 (Z.of_nat (p_cap p)) then
        c ← factory;
        _ ← addTotal 1;
        mret (wrapConn c)
      else throw (errorf "timed out waiting for free connection")
  end.

(** [put(conn)] *)
Definition put (c : conn) : PoolM unit :=
  p ← get_state;
  match p_conns p with
  | None => closeConn c
  | Some conns =>
      if decide (length conns < p_cap p)%nat then modify (set_conns (Some (conns ++ [c])))
      else _ ← addTotal (-1); closeConn c
  end.

(** [pooledConn.Close()] and [pooledConn.MarkUnusable()] *)
Definition ConnClose (pc : pooledConn) : PoolM unit :=
  if pc_unusable pc then closeConn (pc_Conn pc) else put (pc_Conn pc).

Definition MarkUnusable (pc : pooledConn) : PoolM pooledConn :=
  _ ← addTotal (-1);
  mret (mkPooledConn (pc_Conn pc) true).

(** [Len()] *)
Definition Len (p : boundedPool) : Z := len (default [] (p_conns p)).

(** ** One pool per node (cluster/client_pool.go) *)

Definition clientPool : Type := gmap Z boundedPool.

Definition newClientPool : clientPool := ∅.
Definition setPool (nodeID : Z) (p : boundedPool) : GoM clientPool unit :=
  modify (λ c, <[nodeID := p]> c).
Definition getPool (nodeID : Z) (c : clientPool) : option boundedPool := c !! nodeID.
Definition clientPoolSize (c : clientPool) : Z :=
  fold_left (λ size kp, i64 (size + Len kp.2)) (map_to_list c) 0.
(** A missing pool is a nil interface. *)
Definition clientConn (nodeID : Z) : GoM clientPool pooledConn := λ c,
  match c !! nodeID with
  | None => (Panics, c)
  | Some p => let '(r, p') := Get p in (r, <[nodeID := p']> c)
  end.
Definition clientPoolClose : GoM clientPool unit := modify (λ c, (λ p, (PoolClose p).2) <$> c).

(** ** Clients that return every connection once *)

(** Connections that are out, and the pool. *)
Record clients : Type := mkClients { cl_pool : boundedPool; cl_out : list conn }.

Inductive client_step : clients → clients → Prop :=
  | step_get p out pc p' :
      Get p = (Ok pc, p') → client_step (mkClients p out) (mkClients p' (pc_Conn pc :: out))
  | step_get_fails p out e p' :
      Get p = (Err e, p') → client_step (mkClients p out) (mkClients p' out)
  | step_return p out1 c out2 p' :
      ConnClose (wrapConn c) p = (Ok tt, p') →
      client_step (mkClients p (out1 ++ c :: out2)) (mkClients p' (out1 ++ out2))
  | step_discard p out1 c out2 p' :
      (pc ← MarkUnusable (wrapConn c); ConnClose pc) p = (Ok tt, p') →
      client_step (mkClients p (out1 ++ c :: out2)) (mkClients p' (out1 ++ out2)).

Record pool_ok (s : clients) : Prop := {
  po_conns : ∃ idle, p_conns (cl_pool s) = Some idle ∧
    p_total (cl_pool s) = len idle + len (cl_out s) ∧
    NoDup (idle ++ cl_out s) ∧ Forall (λ c, c < p_next (cl_pool s))%nat (idle ++ cl_out s);
  po_cap : p_total (cl_pool s) ≤ Z.of_nat (p_cap (cl_pool s)) < 2 ^ 31;
}.

Lemma pool_step_ok s s' : client_step s s' → pool_ok s → pool_ok s'.
Proof.
  intros Hs [(idle & Hc & Ht & Hnd & Hn) Hcap]. simpl in *. inversion Hs as
    [p out pc p' Hg|p out e p' Hg|p o1 c o2 p' Hr|p o1 c o2 p' Hr]; subst; simpl in *.
  - unfold Get, factory, addTotal in Hg. gom_simpl.
    rewrite Hc, i32_small in Hg by lia. pose proof (len_nonneg out). destruct idle as [|c idle].
    + destruct (Z.ltb_spec (p_total p) (Z.of_nat (p_cap p))); [|done].
      destruct (p_factoryOK p); simplify_eq. simpl.
      rewrite i32_small by (autorewrite with golen in *; lia). split; simpl; [|lia].
      exists []. simpl in *. split; [done|]. autorewrite with golen in *. split; [lia|]. split.
      * constructor; [|done]. intros Hin. rewrite Forall_forall in Hn. specialize (Hn _ Hin). lia.
      * constructor; [lia|]. eapply Forall_impl; [exact Hn|]. simpl. lia.
    + simplify_eq. split; simpl; [|done]. exists idle. split; [done|].
      autorewrite with golen in *. split; [lia|]. by rewrite <- Permutation_middle.
  - unfold Get, factory, addTotal in Hg. gom_simpl.
    rewrite Hc, i32_small in Hg by lia. destruct idle as [|c idle]; [|done].
    destruct (Z.ltb_spec (p_total p) (Z.of_nat (p_cap p))); [destruct (p_factoryOK p)|]; simplify_eq;
      (split; [exists []|]; done).
  - unfold ConnClose, put, wrapConn, addTotal, closeConn in Hr. gom_simpl. cbn [pc_unusable pc_Conn] in Hr.
    rewrite Hc in Hr. pose proof (len_nonneg idle). pose proof (len_nonneg o1). pose proof (len_nonneg o2).
    autorewrite with golen in *.
    destruct (decide (length idle < p_cap p)%nat) as [Hl|Hl].
    + simplify_eq. split; simpl; [|done]. exists (idle ++ [c]). split; [done|].
      autorewrite with golen. split; [lia|].
      assert ((idle ++ [c]) ++ o1 ++ o2 ≡ₚ idle ++ o1 ++ c :: o2) as ->; [|done].
      rewrite <- app_assoc. apply Permutation_app_head. simpl. apply Permutation_middle.
    + exfalso. unfold len in *. lia.
  - unfold MarkUnusable, ConnClose, wrapConn, addTotal, closeConn in Hr. gom_simpl. cbn [pc_unusable pc_Conn] in Hr. simplify_eq. simpl.
    pose proof (len_nonneg idle). pose proof (len_nonneg o1). pose proof (len_nonneg o2).
    autorewrite with golen in *. rewrite i32_small by lia. split; simpl; [|lia].
    exists idle. split; [done|]. autorewrite with golen. split; [lia|].
    rewrite <- Permutation_middle in Hnd, Hn. simpl in *.
    rewrite Permutation_app_comm in Hnd, Hn. simpl in *.
    apply NoDup_cons in Hnd as [_ Hnd]. apply Forall_cons_1 in Hn as [_ Hn].
    rewrite Permutation_app_comm in Hnd, Hn. done.
Qed.

(** C23. As long as the methods do not overlap and every connection is returned or
    discarded once, the pool never has more connections than its capacity and
    never hands one connection to two clients. *)
Theorem pool_sequential_bound s s' :
  rtc client_step s s' → pool_ok s →
  pool_ok s' ∧ p_total (cl_pool s') ≤ Z.of_nat (p_cap (cl_pool s')) ∧ NoDup (cl_out s').
Proof.
  intros Hrun Hok. assert (Hok' : pool_ok s').
  { induction Hrun; [done|]. eauto using pool_step_ok. }
  split; [done|]. destruct Hok' as [(idle & _ & _ & Hnd & _) Hcap]. split; [lia|].
  by apply NoDup_app in Hnd as (_ & _ & ?).
Qed.

Definition demo_pool : boundedPool := mkPool (Some [0%nat]) 2 1 [] 1 true.

Lemma pool_sequential_bound_witness :
  ∃ s', rtc client_step (mkClients demo_pool []) s' ∧ cl_out s' = [1; 0]%nat ∧
    pool_ok s' ∧ p_total (cl_pool s') ≤ Z.of_nat (p_cap (cl_pool s')) ∧ NoDup (cl_out s').
Proof.
  assert (Hrun : rtc client_step (mkClients demo_pool [])
    (mkClients (mkPool (Some []) 2 2 [] 2 true) [1; 0]%nat)).
  { eapply rtc_l; [by eapply step_get|]. eapply rtc_l; [by eapply step_get|]. apply rtc_refl. }
  eexists. split; [exact Hrun|]. split; [done|].
  apply (pool_sequential_bound (mkClients demo_pool []) _ Hrun).
  split; [|simpl; lia]. exists [0%nat]. simpl. split; [done|]. split; [done|]. split.
  - apply (bool_decide_unpack _). vm_compute. exact I.
  - repeat constructor.
Defined.

(** Closing a pooled connection twice puts it into the pool twice, and two
    clients then get the same connection. *)
Theorem double_close_shares_connection c conns p :
  p_conns p = Some conns → (S (length conns) < p_cap p)%nat →
  ∃ p', (_ ← ConnClose (wrapConn c); ConnClose (wrapConn c)) p = (Ok tt, p') ∧
    p_conns p' = Some (conns ++ [c; c]) ∧
    (conns = [] → ∃ p'', (a ← Get; b ← Get; mret (a, b)) p' = (Ok (wrapConn c, wrapConn c), p'')).
Proof.
  intros Hc Hl. unfold ConnClose, put, wrapConn. gom_simpl. cbn [pc_unusable pc_Conn].
  rewrite Hc, decide_True by lia. cbn [p_conns set_conns p_cap]. unfold set_conns at 1. cbn [p_conns].
  rewrite decide_True by (unfold set_conns; simpl; rewrite length_app; simpl; lia).
  eexists. split; [done|]. split; [simpl; by rewrite <- app_assoc|].
  intros ->. unfold Get. gom_simpl. simpl. eexists. done.
Qed.

Lemma double_close_shares_connection_witness :
  ∃ p', (_ ← ConnClose (wrapConn 7%nat); ConnClose (wrapConn 7%nat)) (mkPool (Some []) 2 1 [] 1 true) =
      (Ok tt, p') ∧ p_conns p' = Some ([] ++ [7; 7])%nat ∧
    (@nil nat = [] → ∃ p'', (a ← Get; b ← Get; mret (a, b)) p' =
       (Ok (wrapConn 7%nat, wrapConn 7%nat), p'')).
Proof.
  apply (double_close_shares_connection 7%nat [] (mkPool (Some []) 2 1 [] 1 true)); [done|simpl; lia].
Defined.

(** ** Concurrent [Get] calls

    The check of [total] and its increment are separate atomic operations with
    the dial between them. *)
Module GetRace.

Inductive pc : Type := Loads | Dials | Got.

Record state : Type := mkState { total : Z; threads : list pc }.

Inductive step (cap : Z) : state → state → Prop :=
  | load t l1 l2 : t < cap → step cap (mkState t (l1 ++ Loads :: l2)) (mkState t (l1 ++ Dials :: l2))
  | dialled t l1 l2 :
      step cap (mkState t (l1 ++ Dials :: l2)) (mkState (t + 1) (l1 ++ Got :: l2)).

Lemma all_load cap t n k :
  t < cap → rtc (step cap) (mkState t (replicate k Dials ++ replicate n Loads))
                (mkState t (replicate (k + n) Dials)).
Proof.
  intros Ht. revert k. induction n as [|n IH]; intros k; simpl.
  - rewrite app_nil_r, Nat.add_0_r. apply rtc_refl.
  - eapply rtc_l; [by apply load|].
    replace (replicate k Dials ++ Dials :: replicate n Loads)
      with (replicate (S k) Dials ++ replicate n Loads).
    { replace (k + S n)%nat with (S k + n)%nat by lia. apply IH. }
    rewrite replicate_S_end, <- app_assoc. done.
Qed.

Lemma all_dialled cap t n k :
  rtc (step cap) (mkState t (replicate k Got ++ replicate n Dials))
    (mkState (t + Z.of_nat n) (replicate (k + n) Got)).
Proof.
  revert t k. induction n as [|n IH]; intros t k; simpl.
  - rewrite app_nil_r, Nat.add_0_r, Z.add_0_r. apply rtc_refl.
  - eapply rtc_l; [apply dialled|].
    replace (replicate k Got ++ Got :: replicate n Dials)
      with (replicate (S k) Got ++ replicate n Dials)
      by (rewrite replicate_S_end, <- app_assoc; done).
    replace (t + Z.of_nat (S n)) with (t + 1 + Z.of_nat n) by lia.
    replace (k + S n)%nat with (S k + n)%nat by lia. apply IH.
Qed.

(** The capacity does not bound concurrent clients: whatever the capacity,
    [n] concurrent [Get] calls on an empty pool can all see room and open [n]
    connections. *)
Theorem concurrent_get_exceeds_capacity cap n :
  0 < cap → rtc (step cap) (mkState 0 (replicate n Loads))
              (mkState (Z.of_nat n) (replicate n Got)).
Proof.
  intros Hc. etrans; [apply (all_load cap 0 n 0 Hc)|]. apply (all_dialled cap 0 n 0).
Qed.

Lemma concurrent_get_exceeds_capacity_witness :
  rtc (step 1) (mkState 0 (replicate 5 Loads)) (mkState 5 (replicate 5 Got)).
Proof. apply (concurrent_get_exceeds_capacity 1 5). lia. Defined.

End GetRace.
