(* ===== verification/PointsWriter.v ===== *)
(** * Writing points (cluster/points_writer.go)

    A batch of points is split by shard, every shard is written in its own
    goroutine, and the first error is returned.  The metadata client, the local
    store and the point type are the interfaces of the source and
    influxdata/influxdb, hence parameters. *)

From Stdlib Require Import ZArith Lia.
From Stdlib Require Import Strings.Byte.
From S2P Require Import Prelude GoLib MetaData.

Local Open Scope Z_scope.

Class Writing : Type := {
  wPoint : Type;
  pTime : wPoint → Z;
  pHashID : wPoint → Z;
  metaS : Type;
  mDatabase : string → metaS → option DatabaseInfo;
  mRetentionPolicy : string → string → metaS → res (option RetentionPolicyInfo);
  mCreateShardGroup : string → string → Z → GoM metaS (option ShardGroupInfo);
  sgShardFor : ShardGroupInfo → Z → res ShardInfo;
  tsdbS : Type;
  tsdbCreateShard : string → string → Z → GoM tsdbS unit;
  tsdbWriteToShard : Z → list wPoint → GoM tsdbS unit;
  (** The order in which [range] visits the keys of a map. *)
  rangeOrder : list Z → list Z;
  (** Whether the select takes the closed [closing] channel when a result is
      ready as well and so many more are awaited. *)
  selectClosing : nat → bool;
}.

Class WritingLaws `{Writing} : Prop := range_visits_all l : rangeOrder l ≡ₚ l.

Section writer.
  Context `{Writing}.

(** [closing] is closed; the subscription channel is nil or has room for so many
    requests. *)
Record PointsWriter : Type := mkPointsWriter {
  pw_meta : metaS;
  pw_tsdb : tsdbS;
  pw_closing : bool;
  pw_subPoints : option (nat * list (string * string * list wPoint));
}.

(** [NewPointsWriter()] with the metadata client and the store that its owner sets *)
Definition NewPointsWriter (m : metaS) (t : tsdbS) : PointsWriter := mkPointsWriter m t false None.

Definition PWM (A : Type) : Type := GoM PointsWriter A.

Definition onMeta {A} (m : GoM metaS A) : GoM PointsWriter A :=
  zoom pw_meta (λ x w, mkPointsWriter x (pw_tsdb w) (pw_closing w) (pw_subPoints w)) m.
Definition onTsdb {A} (m : GoM tsdbS A) : GoM PointsWriter A :=
  zoom pw_tsdb (λ x w, mkPointsWriter (pw_meta w) x (pw_closing w) (pw_subPoints w)) m.

(** [ShardMapping] *)
Record ShardMapping : Type := mkShardMapping {
  sm_Points : gmap Z (list wPoint);
  sm_Shards : gmap Z ShardInfo;
}.

(** [NewShardMapping()] *)
Definition NewShardMapping : ShardMapping := mkShardMapping ∅ ∅.

(** [MapPoint(shardInfo, p)] *)
Definition MapPoint (shardInfo : ShardInfo) (p : wPoint) (s : ShardMapping) : ShardMapping :=
  mkShardMapping
    (<[si_ID shardInfo :=
        match sm_Points s !! si_ID shardInfo with
        | None => [p]
        | Some points => points ++ [p]
        end]> (sm_Points s))
    (<[si_ID shardInfo := shardInfo]> (sm_Shards s)).

(** [Open()] and [Close()]; [points] is the channel of the subscriber.  Closing a
    closed channel panics. *)
Definition pw_Open (points : option (nat * list (string * string * list wPoint)))
    : GoM PointsWriter unit :=
  modify (λ w, mkPointsWriter (pw_meta w) (pw_tsdb w) false
                 (match points with Some _ => points | None => pw_subPoints w end)).
Definition pw_Close : GoM PointsWriter unit :=
  w ← get_state;
  if pw_closing w then panic
  else modify (λ w, mkPointsWriter (pw_meta w) (pw_tsdb w) true None).

(** ** Mapping points to shards *)

(** The start of the shard group of a point. *)
Definition groupStart (rp : RetentionPolicyInfo) (p : wPoint) : Z :=
  time.Truncate (pTime p) (rpi_ShardGroupDuration rp).

(** The keys of [timeRanges], in the order of the second loop. *)
Definition groupStarts (rp : RetentionPolicyInfo) (points : list wPoint) : list Z :=
  rangeOrder (elements (list_to_set (groupStart rp <$> points) : gset Z)).

(** The groups of all the needed starts. *)
Fixpoint createGroups (database policy : string) (ts : list Z)
    : GoM PointsWriter (gmap Z (option ShardGroupInfo)) :=
  match ts with
  | [] => mret ∅
  | t :: ts' =>
      sg ← onMeta (mCreateShardGroup database policy t);
      m ← createGroups database policy ts';
      mret (<[t := sg]> m)
  end.

(** The loop that maps every point; a nil group panics. *)
Fixpoint mapPoints (rp : RetentionPolicyInfo) (groups : gmap Z (option ShardGroupInfo))
    (points : list wPoint) (mapping : ShardMapping) : res ShardMapping :=
  match points with
  | [] => Ok mapping
  | p :: points' =>
      match groups !! groupStart rp p with
      | Some (Some sg) =>
          sh ← sgShardFor sg (pHashID p);
          mapPoints rp groups points' (MapPoint sh p mapping)
      | _ => Panics
      end
  end.

(** [MapShards(wp)] *)
Definition MapShards (database policy : string) (points : list wPoint)
    : GoM PointsWriter ShardMapping :=
  w ← get_state;
  rp ← lift_res (mRetentionPolicy database policy (pw_meta w));
  match rp with
  | None => throw (ErrRetentionPolicyNotFound policy)
  | Some rp =>
      groups ← createGroups database policy (groupStarts rp points);
      lift_res (mapPoints rp groups points NewShardMapping)
  end.

(** ** Writing *)

(** [writeToShard(shard, database, retentionPolicy, points)]: any error but a
    missing shard is followed by a second attempt. *)
Definition writeToShard (shard : ShardInfo) (database policy : string) (points : list wPoint)
    : GoM PointsWriter unit :=
  r ← attempt (onTsdb (tsdbWriteToShard (si_ID shard) points));
  match r with
  | inr _ => mret tt
  | inl err =>
      _ ← (if decide (err = ErrShardNotFound)
           then onTsdb (tsdbCreateShard database policy (si_ID shard)) else mret tt);
      onTsdb (tsdbWriteToShard (si_ID shard) points)
  end.

(** The goroutines, in the order in which they finish; all of them run to the
    end. *)
Fixpoint writeAll (database policy : string) (mapping : ShardMapping) (ids : list Z)
    : GoM PointsWriter (list (option error)) :=
  match ids with
  | [] => mret []
  | id :: ids' =>
      match sm_Shards mapping !! id, sm_Points mapping !! id with
      | Some shard, Some points =>
          r ← attempt (writeToShard shard database policy points);
          errs ← writeAll database policy mapping ids';
          mret (match r with inl e => Some e | inr _ => None end :: errs)
      | _, _ => panic
      end
  end.

(** Offer the points to the subscriptions without blocking. *)
Definition offer (database policy : string) (points : list wPoint) : GoM PointsWriter unit :=
  modify (λ w, mkPointsWriter (pw_meta w) (pw_tsdb w) (pw_closing w)
    (match pw_subPoints w with
     | Some (S room, sent) => Some (room, sent ++ [(database, policy, points)])
     | x => x
     end)).

(** The receiving loop. *)
Fixpoint collect (closed : bool) (errs : list (option error)) : res unit :=
  match errs with
  | [] => Ok tt
  | e :: errs' =>
      if closed && selectClosing (length errs') then Err ErrWriteFailed
      else match e with Some err => Err err | None => collect closed errs' end
  end.

(** [WritePoints(database, retentionPolicy, consistencyLevel, points)] *)
Definition WritePoints (database retentionPolicy : string) (points : list wPoint)
    : GoM PointsWriter unit :=
  w ← get_state;
  policy ← (if decide (retentionPolicy = ""%string) then
              match mDatabase database (pw_meta w) with
              | None => throw (ErrDatabaseNotFound database)
              | Some db => mret (dbi_DefaultRetentionPolicy db)
              end
            else mret retentionPolicy);
  mapping ← MapShards database policy points;
  errs ← writeAll database policy mapping (rangeOrder (map_to_list (sm_Points mapping)).*1);
  _ ← offer database policy points;
  lift_res (collect (pw_closing w) errs).

(** [WritePointsInto(p)] *)
Definition WritePointsInto (database retentionPolicy : string) (points : list wPoint)
    : GoM PointsWriter unit := WritePoints database retentionPolicy points.

(** ** The mapping is a partition *)

(** The points of shard [id] under an assignment of points to shards. *)
Definition points_of (f : wPoint → ShardInfo) (id : Z) (points : list wPoint) : list wPoint :=
  filter (λ p, si_ID (f p) = id) points.

Definition represents (f : wPoint → ShardInfo) (points : list wPoint) (m : ShardMapping) : Prop :=
  (∀ id, sm_Points m !! id =
     match points_of f id points with [] => None | l => Some l end) ∧
  (∀ id, is_Some (sm_Points m !! id) → ∃ sh, sm_Shards m !! id = Some sh ∧ si_ID sh = id).

Lemma represents_snoc f points m p :
  represents f points m → represents f (points ++ [p]) (MapPoint (f p) p m).
Proof.
  intros [Hp Hs]. unfold MapPoint. split; simpl.
  - intros id. unfold points_of in *. rewrite filter_app, filter_cons, filter_nil.
    destruct (decide (si_ID (f p) = id)) as [<-|Hne].
    + rewrite lookup_insert_eq, Hp. by destruct (filter (λ p0, si_ID (f p0) = si_ID (f p)) points).
    + rewrite lookup_insert_ne, app_nil_r by done. apply Hp.
  - intros id Hid. destruct (decide (si_ID (f p) = id)) as [<-|Hne].
    + rewrite lookup_insert_eq. eauto.
    + rewrite lookup_insert_ne in Hid by done. rewrite lookup_insert_ne by done. by apply Hs.
Qed.

(** The shard of a point, given the groups. *)
Definition shardOf (rp : RetentionPolicyInfo) (groups : gmap Z (option ShardGroupInfo))
    (p : wPoint) : ShardInfo :=
  match groups !! groupStart rp p with
  | Some (Some sg) => match sgShardFor sg (pHashID p) with Ok sh => sh | _ => mkShardInfo 0 [] end
  | _ => mkShardInfo 0 []
  end.

Lemma mapPoints_represents rp groups points done m m' :
  represents (shardOf rp groups) done m → mapPoints rp groups points m = Ok m' →
  represents (shardOf rp groups) (done ++ points) m' ∧
  Forall (λ p, ∃ sg, groups !! groupStart rp p = Some (Some sg) ∧
            sgShardFor sg (pHashID p) = Ok (shardOf rp groups p)) points.
Proof.
  revert done m. induction points as [|p points IH]; intros dn m Hr Hm; simpl in Hm.
  - injection Hm as <-. rewrite app_nil_r. done.
  - destruct (groups !! groupStart rp p) as [[sg|]|] eqn:Hg; [|done|done].
    apply bind_Ok in Hm as (sh & Hsh & Hm).
    assert (Hf : shardOf rp groups p = sh). { unfold shardOf. by rewrite Hg, Hsh. }
    rewrite <- Hf in Hm. apply (IH (dn ++ [p])) in Hm as [Hrep Hall]; [|by apply represents_snoc].
    rewrite <- app_assoc in Hrep. split; [done|]. constructor; [|done]. exists sg.
    by rewrite Hf.
Qed.

Lemma MapShards_represents database policy points w m w' :
  MapShards database policy points w = (Ok m, w') →
  ∃ rp groups, mRetentionPolicy database policy (pw_meta w) = Ok (Some rp) ∧
    createGroups database policy (groupStarts rp points) w = (Ok groups, w') ∧
    represents (shardOf rp groups) points m ∧
    Forall (λ p, ∃ sg, groups !! groupStart rp p = Some (Some sg) ∧
              sgShardFor sg (pHashID p) = Ok (shardOf rp groups p)) points.
Proof.
  unfold MapShards. gom_simpl.
  destruct (mRetentionPolicy database policy (pw_meta w)) as [[rp|]|e|]; [|done|done|done].
  destruct (createGroups _ _ _ w) as [[groups|e|] w1] eqn:Eg; [|done|done]. intros [= Hm <-].
  exists rp, groups. do 2 (split; [done|]).
  apply (mapPoints_represents rp groups points []) in Hm as [? ?]; [done|].
  split; [done|]. intros id [? Hid]. done.
Qed.

(** C24. Mapping a batch loses no point, repeats none and keeps their order: every
    point goes to the shard that its group and its hash select, and the list of
    a shard is exactly the sublist of the batch that belongs to it. *)
Theorem MapShards_partitions database policy points w m w' :
  MapShards database policy points w = (Ok m, w') →
  ∃ rp groups, mRetentionPolicy database policy (pw_meta w) = Ok (Some rp) ∧
    createGroups database policy (groupStarts rp points) w = (Ok groups, w') ∧
    represents (shardOf rp groups) points m ∧
    Forall (λ p, ∃ sg, groups !! groupStart rp p = Some (Some sg) ∧
              sgShardFor sg (pHashID p) = Ok (shardOf rp groups p)) points.
Proof. apply MapShards_represents. Qed.

(** ** Errors *)

Lemma collect_ok closed errs : collect closed errs = Ok tt → Forall (λ e, e = None) errs.
Proof.
  induction errs as [|e errs IH]; simpl; [done|]. destruct (closed && _); [done|]. destruct e; [done|].
  intros Hc. constructor; auto.
Qed.

(** The policy that is written to: the default one of the database when none is
    given. *)
Definition target (database retentionPolicy : string) (w : PointsWriter) (policy : string) : Prop :=
  (retentionPolicy ≠ ""%string ∧ policy = retentionPolicy) ∨
  (retentionPolicy = ""%string ∧
   ∃ db, mDatabase database (pw_meta w) = Some db ∧ policy = dbi_DefaultRetentionPolicy db).

(** The rest of [WritePoints]. *)
Definition writeMapped (database policy : string) (points : list wPoint) (w : PointsWriter) : res unit * PointsWriter :=
  match MapShards database policy points w with
  | (Ok mapping, w1) =>
      match writeAll database policy mapping (rangeOrder (map_to_list (sm_Points mapping)).*1) w1 with
      | (Ok errs, w2) => (collect (pw_closing w) errs, (offer database policy points w2).2)
      | (Err e, w2) => (Err e, w2)
      | (Panics, w2) => (Panics, w2)
      end
  | (Err e, w1) => (Err e, w1)
  | (Panics, w1) => (Panics, w1)
  end.

Lemma WritePoints_cases database retentionPolicy points w :
  WritePoints database retentionPolicy points w = (Err (ErrDatabaseNotFound database), w) ∨
  ∃ policy, target database retentionPolicy w policy ∧
    WritePoints database retentionPolicy points w = writeMapped database policy points w.
Proof.
  unfold WritePoints, writeMapped, target. gom_simpl.
  destruct (decide (retentionPolicy = ""%string)) as [->|Hne].
  - destruct (mDatabase database (pw_meta w)) as [db|]; [|by left]. right. exists (dbi_DefaultRetentionPolicy db).
    split; [right; eauto|]. cbn. destruct (MapShards _ _ _ w) as [[m|e|] w1]; [|done..].
    by destruct (writeAll _ _ _ _ w1) as [[errs|e|] w2].
  - right. exists retentionPolicy. split; [by left|]. destruct (MapShards _ _ _ w) as [[m|e|] w1]; [|done..].
    by destruct (writeAll _ _ _ _ w1) as [[errs|e|] w2].
Qed.

(** ** What an acknowledgement means

    The content of a shard is a value for every key, where a key is a series with a
    time and a field; a point has a value for each of its keys.  A write replaces
    the values of the keys that it has, the last point of a batch counts, and what a
    failed write leaves of them is not known; other keys, and other shards, are
    not touched. *)

Section stored.
  Context {K V : Type} `{EqDecision K} (fieldsOf : wPoint → list (K * V)).
  Context (holds : tsdbS → Z → K → option V).

(** The values of a key in a batch, and the one that counts. *)
Definition valuesAt (k : K) (points : list wPoint) : list V :=
  snd <$> filter (λ x, x.1 = k) (points ≫= fieldsOf).
Definition written (k : K) (points : list wPoint) : option V := last (valuesAt k points).

  Context (write_ok : ∀ id points t t' k,
    tsdbWriteToShard id points t = (Ok tt, t') →
    holds t' id k = match written k points with Some v => Some v | None => holds t id k end).
  Context (write_other : ∀ id points t id' k,
    id' ≠ id ∨ written k points = None → holds (tsdbWriteToShard id points t).2 id' k = holds t id' k).
  Context (create_keeps : ∀ db rp id t id' k,
    holds (tsdbCreateShard db rp id t).2 id' k = holds t id' k).
  (** The key of a point determines its time and its series, and that its hash. *)
  Context (keys_placed : ∀ p q k, k ∈ (fieldsOf p).*1 → k ∈ (fieldsOf q).*1 →
    pTime p = pTime q ∧ pHashID p = pHashID q).

Lemma valuesAt_app k l1 l2 : valuesAt k (l1 ++ l2) = valuesAt k l1 ++ valuesAt k l2.
Proof. unfold valuesAt. by rewrite bind_app, filter_app, fmap_app. Qed.

Lemma written_app k l1 l2 :
  written k (l1 ++ l2) = match written k l2 with Some v => Some v | None => written k l1 end.
Proof. unfold written. by rewrite valuesAt_app, last_app. Qed.

Lemma written_elem k v p points : p ∈ points → (k, v) ∈ fieldsOf p → is_Some (written k points).
Proof.
  intros Hp Hk. apply not_eq_None_Some. unfold written. rewrite last_None. intros Hn.
  assert (v ∈ valuesAt k points) as Hv; [|rewrite Hn in Hv; by apply elem_of_nil in Hv].
  apply list_elem_of_fmap. exists (k, v). split; [done|]. apply list_elem_of_filter. split; [done|].
  apply list_elem_of_bind. eauto.
Qed.

Lemma written_inv k v points : written k points = Some v → ∃ p, p ∈ points ∧ (k, v) ∈ fieldsOf p.
Proof.
  unfold written. intros Hl%last_Some_elem_of. unfold valuesAt in Hl.
  apply list_elem_of_fmap in Hl as ([k' v'] & -> & [Hk Hin]%list_elem_of_filter). cbn in *. subst k'.
  apply list_elem_of_bind in Hin as (p & ? & ?). eauto.
Qed.

Lemma valuesAt_none k p : k ∉ (fieldsOf p).*1 → valuesAt k [p] = [].
Proof.
  intros Hk. unfold valuesAt. cbn. rewrite app_nil_r.
  assert (Forall (λ x, x.1 ≠ k) (fieldsOf p)) as Hf.
  { apply Forall_forall. intros x Hx <-. apply Hk. by apply list_elem_of_fmap_2. }
  clear Hk. induction Hf as [|x l Hx _ IH]; [done|]. by rewrite filter_cons_False.
Qed.

(** The points of the shard of a key have all the values of the key. *)
Lemma valuesAt_points_of f id k points :
  (∀ q, q ∈ points → k ∈ (fieldsOf q).*1 → si_ID (f q) = id) →
  valuesAt k (points_of f id points) = valuesAt k points.
Proof.
  induction points as [|p points IH]; intros Hf; [done|]. unfold points_of in *. rewrite filter_cons.
  change (p :: points) with ([p] ++ points). rewrite valuesAt_app.
  rewrite <- IH by (intros q Hq; apply Hf; by right). case_decide as Hid.
  - apply (valuesAt_app k [p]).
  - rewrite valuesAt_none; [done|]. intros Hk. by apply Hid, Hf; [left|].
Qed.

Lemma written_points_of_none f id k points : written k points = None → written k (points_of f id points) = None.
Proof.
  unfold written. rewrite !last_None. induction points as [|p points IH]; [done|].
  change (p :: points) with ([p] ++ points). rewrite valuesAt_app. intros [Hp Hr]%app_eq_nil.
  unfold points_of in *. rewrite filter_app, valuesAt_app, IH, app_nil_r by done.
  rewrite filter_cons, filter_nil. by case_decide.
Qed.

(** One shard. *)
Lemma writeToShard_stores shard database policy points w w' k v :
  writeToShard shard database policy points w = (Ok tt, w') → written k points = Some v →
  holds (pw_tsdb w') (si_ID shard) k = Some v.
Proof using write_ok.
  unfold writeToShard, onTsdb. gom_simpl. intros E Hk.
  destruct (tsdbWriteToShard (si_ID shard) points (pw_tsdb w)) as [[[]|e|] t] eqn:E1; cbn in E; [| |done].
  { injection E as <-. apply (write_ok _ _ _ _ k) in E1. by rewrite Hk in E1. }
  destruct (decide (e = ErrShardNotFound)); cbn in E.
  1: destruct (tsdbCreateShard database policy (si_ID shard) t) as [[?|?|] t1]; [|done..]; cbn in E.
  all: match type of E with context [tsdbWriteToShard ?i ?ps ?s] =>
         destruct (tsdbWriteToShard i ps s) as [[[]|?|] t2] eqn:E2 end; simplify_eq;
       apply (write_ok _ _ _ _ k) in E2; by rewrite Hk in E2.
Qed.

Lemma writeToShard_frame shard database policy points w id k :
  id ≠ si_ID shard ∨ written k points = None →
  holds (pw_tsdb (writeToShard shard database policy points w).2) id k = holds (pw_tsdb w) id k.
Proof using write_other create_keeps.
  intros Hk. unfold writeToShard, onTsdb. gom_simpl.
  pose proof (write_other (si_ID shard) points (pw_tsdb w) id k Hk) as H1.
  destruct (tsdbWriteToShard (si_ID shard) points (pw_tsdb w)) as [[[]|e|] t]; cbn in *; [done| |done].
  destruct (decide (e = ErrShardNotFound)); cbn.
  - pose proof (create_keeps database policy (si_ID shard) t id k) as H2.
    destruct (tsdbCreateShard database policy (si_ID shard) t) as [[?|?|] t1]; cbn in *; [|congruence..].
    pose proof (write_other (si_ID shard) points t1 id k Hk).
    destruct (tsdbWriteToShard (si_ID shard) points t1). cbn in *. congruence.
  - pose proof (write_other (si_ID shard) points t id k Hk).
    destruct (tsdbWriteToShard (si_ID shard) points t). cbn in *. congruence.
Qed.

(** All the shards of a mapping. *)
Lemma writeAll_frame database policy m ids w id k :
  (∀ i, is_Some (sm_Points m !! i) → ∃ sh, sm_Shards m !! i = Some sh ∧ si_ID sh = i) →
  (∀ i l, i ∈ ids → sm_Points m !! i = Some l → id ≠ i ∨ written k l = None) →
  holds (pw_tsdb (writeAll database policy m ids w).2) id k = holds (pw_tsdb w) id k.
Proof using write_other create_keeps.
  intros Hsh. revert w. induction ids as [|i ids IH]; intros w Hk; simpl; [done|].
  destruct (sm_Points m !! i) as [l|] eqn:El; [|by destruct (sm_Shards m !! i)].
  destruct (Hsh i) as (sh & -> & Hid); [by rewrite El|]. gom_simpl.
  assert (id ≠ si_ID sh ∨ written k l = None) as Hk1 by (rewrite Hid; apply (Hk i); [left|done]).
  pose proof (writeToShard_frame sh database policy l w id k Hk1) as Hw.
  assert (Hrest : ∀ i l, i ∈ ids → sm_Points m !! i = Some l → id ≠ i ∨ written k l = None)
    by (intros i' l' Hi; apply Hk; by right).
  destruct (writeToShard sh database policy l w) as [[?|?|] w1]; cbn in Hw |- *; [..|done];
    (specialize (IH w1 Hrest); destruct (writeAll database policy m ids w1) as [[?|?|] w2]; cbn in *; congruence).
Qed.

Lemma writeAll_stores database policy m ids w w' errs id l k v :
  (∀ i, is_Some (sm_Points m !! i) → ∃ sh, sm_Shards m !! i = Some sh ∧ si_ID sh = i) →
  writeAll database policy m ids w = (Ok errs, w') → Forall (λ e, e = None) errs →
  id ∈ ids → sm_Points m !! id = Some l → written k l = Some v → holds (pw_tsdb w') id k = Some v.
Proof using write_ok write_other create_keeps.
  intros Hsh E Hall Hin Hl Hv. revert w errs E Hall.
  induction ids as [|i ids IH]; intros w errs E Hall; [by apply elem_of_nil in Hin|].
  simpl in E. destruct (sm_Shards m !! i) as [sh1|] eqn:Esh, (sm_Points m !! i) as [l1|] eqn:Ep; try done.
  revert E. gom_simpl.
  destruct (writeToShard sh1 database policy l1 w) as [r w1] eqn:Ew.
  destruct r as [[]|e|]; [| |done].
  2:{ destruct (writeAll database policy m ids w1) as [[errs1|?|] w2]; intros E; simplify_eq.
      by apply Forall_cons in Hall as [? _]. }
  destruct (writeAll database policy m ids w1) as [[errs1|?|] w2] eqn:Ea; intros E; simplify_eq.
  apply Forall_cons in Hall as [_ Hall]. destruct (decide (id ∈ ids)) as [Hi|Hi]; [by eapply IH|].
  apply elem_of_cons in Hin as [<-|Hin]; [|done]. simplify_eq.
  destruct (Hsh id) as (sh & Hs & Hid); [by rewrite Hl|]. simplify_eq.
  pose proof (writeToShard_stores _ _ _ _ _ _ _ _ Ew Hv) as Hst.
  pose proof (writeAll_frame database policy m ids w1 (si_ID sh) k Hsh) as Hf. rewrite Ea in Hf. cbn in Hf.
  rewrite Hf; [done|]. intros i' l' Hi' _. left. by intros <-.
Qed.

(** The metadata does not change what is stored. *)
Lemma createGroups_frame database policy ts w :
  let w' := (createGroups database policy ts w).2 in pw_tsdb w' = pw_tsdb w ∧ pw_closing w' = pw_closing w.
Proof.
  revert w. induction ts as [|t ts IH]; intros w; simpl; [done|]. unfold onMeta. gom_simpl.
  destruct (mCreateShardGroup database policy t (pw_meta w)) as [[sg|e|] m]; [|done..].
  set (w1 := mkPointsWriter m _ _ _). specialize (IH w1). cbv zeta in IH.
  by destruct (createGroups database policy ts w1) as [[?| |] w2].
Qed.

Lemma MapShards_frame database policy points w :
  pw_tsdb (MapShards database policy points w).2 = pw_tsdb w.
Proof.
  unfold MapShards. gom_simpl.
  destruct (mRetentionPolicy database policy (pw_meta w)) as [[rp|]| |]; try done.
  pose proof (createGroups_frame database policy (groupStarts rp points) w) as [Hg _].
  by destruct (createGroups _ _ _ w) as [[?| |] w1].
Qed.

(** A key that the batch does not have is not touched, whatever the outcome. *)
Lemma WritePoints_frame database retentionPolicy points w id k :
  written k points = None →
  holds (pw_tsdb (WritePoints database retentionPolicy points w).2) id k = holds (pw_tsdb w) id k.
Proof using write_other create_keeps.
  intros Hk. destruct (WritePoints_cases database retentionPolicy points w) as [-> |(policy & _ & ->)]; [done|].
  unfold writeMapped. pose proof (MapShards_frame database policy points w) as Ht.
  destruct (MapShards database policy points w) as [[m|e|] w1] eqn:Em; cbn in Ht |- *; [|by rewrite Ht..].
  destruct (MapShards_represents _ _ _ _ _ _ Em) as (rp & groups & _ & _ & [Hrep Hsh] & _).
  set (ids := rangeOrder _). pose proof (writeAll_frame database policy m ids w1 id k Hsh) as Hw.
  assert (Hf : holds (pw_tsdb (writeAll database policy m ids w1).2) id k = holds (pw_tsdb w1) id k).
  { apply Hw. intros i l _ Hl. right. rewrite Hrep in Hl.
    apply (written_points_of_none (shardOf rp groups) i) in Hk.
    destruct (points_of _ i points); [done|]. by injection Hl as <-. }
  rewrite Ht in Hf. by destruct (writeAll database policy m ids w1) as [[errs| |] w2].
Qed.

Lemma WritePoints_stores `{!WritingLaws} database retentionPolicy points w w' :
  WritePoints database retentionPolicy points w = (Ok tt, w') →
  ∃ policy rp groups w1, target database retentionPolicy w policy ∧
    mRetentionPolicy database policy (pw_meta w) = Ok (Some rp) ∧
    createGroups database policy (groupStarts rp points) w = (Ok groups, w1) ∧
    ∀ p, p ∈ points → ∃ sg sh, groups !! groupStart rp p = Some (Some sg) ∧
      sgShardFor sg (pHashID p) = Ok sh ∧
      ∀ k v, (k, v) ∈ fieldsOf p →
        ∃ v', written k points = Some v' ∧ holds (pw_tsdb w') (si_ID sh) k = Some v'.
Proof using write_ok write_other create_keeps keys_placed.
  destruct (WritePoints_cases database retentionPolicy points w) as [-> |(policy & Htar & ->)]; [done|].
  unfold writeMapped. destruct (MapShards database policy points w) as [[m|?|] w1] eqn:Em; [|done..].
  destruct (writeAll _ _ _ _ w1) as [[errs|?|] w2] eqn:Ea; [|done..].
  intros E. injection E as Hok <-. apply collect_ok in Hok.
  destruct (MapShards_represents _ _ _ _ _ _ Em) as (rp & groups & Hrp & Hgr & [Hrep Hsh] & Hall).
  exists policy, rp, groups, w1. do 3 (split; [done|]). intros p Hp.
  rewrite Forall_forall in Hall. destruct (Hall p Hp) as (sg & Hg & Hs).
  exists sg, (shardOf rp groups p). split_and!; [done|done|]. intros k v Hk.
  set (id := si_ID (shardOf rp groups p)).
  destruct (written_elem k v p points Hp Hk) as [v' Hv']. exists v'. split; [done|].
  assert (Hw : written k (points_of (shardOf rp groups) id points) = Some v').
  { unfold written. rewrite valuesAt_points_of; [done|]. intros q Hq Hkq.
    destruct (keys_placed p q k) as [Ht Hh]; [by apply (list_elem_of_fmap_2 fst) in Hk|done|].
    unfold id, shardOf, groupStart. by rewrite Ht, Hh. }
  assert (sm_Points m !! id = Some (points_of (shardOf rp groups) id points)) as Hl.
  { rewrite Hrep. by destruct (points_of _ _ _). }
  change (holds (pw_tsdb w2) id k = Some v'). eapply writeAll_stores; try done.
  rewrite range_visits_all. apply list_elem_of_fmap. exists (id, points_of (shardOf rp groups) id points).
  split; [done|]. by apply elem_of_map_to_list.
Qed.

(** C6. An acknowledged batch is stored: when [WritePoints] returns nil, every point of
    the batch went to the shard that its shard group selects for its hash, under
    the policy that was named, or under the default policy of the database when
    none was, and the shard holds, for each of the fields of the point, the value
    of the last point of the batch with that series, time and field; what the store
    held for other keys is unchanged; all this whatever the order in which the
    shards are written. *)
Theorem WritePoints_acknowledged_is_stored `{!WritingLaws} database retentionPolicy points w w' :
  WritePoints database retentionPolicy points w = (Ok tt, w') →
  (∃ policy rp groups w1, target database retentionPolicy w policy ∧
    mRetentionPolicy database policy (pw_meta w) = Ok (Some rp) ∧
    createGroups database policy (groupStarts rp points) w = (Ok groups, w1) ∧
    ∀ p, p ∈ points → ∃ sg sh, groups !! groupStart rp p = Some (Some sg) ∧
      sgShardFor sg (pHashID p) = Ok sh ∧
      ∀ k v, (k, v) ∈ fieldsOf p →
        ∃ v', written k points = Some v' ∧ holds (pw_tsdb w') (si_ID sh) k = Some v') ∧
  ∀ id k, written k points = None → holds (pw_tsdb w') id k = holds (pw_tsdb w) id k.
Proof using write_ok write_other create_keeps keys_placed.
  intros E. split; [by apply WritePoints_stores|]. intros id k Hk.
  pose proof (WritePoints_frame database retentionPolicy points w id k Hk) as Hf. by rewrite E in Hf.
Qed.

End stored.

(** A shard that the local store does not have is created and the write is
    repeated; any other failure is repeated once without creating the shard. *)
Theorem writeToShard_creates_missing shard database policy points w :
  let write := tsdbWriteToShard (si_ID shard) points in
  let at_store t := mkPointsWriter (pw_meta w) t (pw_closing w) (pw_subPoints w) in
  match write (pw_tsdb w) with
  | (Ok _, t) => writeToShard shard database policy points w = (Ok tt, at_store t)
  | (Err ErrShardNotFound, t) =>
      match tsdbCreateShard database policy (si_ID shard) t with
      | (Ok _, t') => writeToShard shard database policy points w =
                        ((write t').1, at_store (write t').2)
      | (Err e, t') => writeToShard shard database policy points w = (Err e, at_store t')
      | (Panics, t') => writeToShard shard database policy points w = (Panics, at_store t')
      end
  | (Err _, t) => writeToShard shard database policy points w = ((write t).1, at_store (write t).2)
  | (Panics, t) => writeToShard shard database policy points w = (Panics, at_store t)
  end.
Proof.
  cbv zeta. unfold writeToShard, onTsdb. gom_simpl.
  destruct (tsdbWriteToShard (si_ID shard) points (pw_tsdb w)) as [[[]|e|] t]; [done| |done].
  destruct (decide (e = ErrShardNotFound)) as [->|Hne].
  - cbn. destruct (tsdbCreateShard database policy (si_ID shard) t) as [[[]|e|] t']; [|done|done].
    cbn. by destruct (tsdbWriteToShard (si_ID shard) points t').
  - simpl. destruct (tsdbWriteToShard (si_ID shard) points t) as [r t'] eqn:Hw.
    destruct e; simpl; done.
Qed.

End writer.

(** ** An instance to run *)

Definition demo_group (t : Z) : ShardGroupInfo :=
  mkShardGroupInfo 1 t (t + time.Hour) zeroTime [mkShardInfo 1 []; mkShardInfo 2 []].

(** Points are their time, hash and value; the store is the list of shards that exist
    and what was written. *)
Definition demo_writing : Writing := {|
  wPoint := Z * Z * Z;
  pTime p := p.1.1;
  pHashID p := p.1.2;
  metaS := unit;
  mDatabase name _ := Some (mkDatabaseInfo name "autogen" []);
  mRetentionPolicy _ name _ := Ok (Some (mkRetentionPolicyInfo name 1 0 time.Hour []));
  mCreateShardGroup _ _ t := mret (Some (demo_group t));
  sgShardFor g h := of_option EOF (sgi_Shards g !! Z.to_nat (h mod len (sgi_Shards g)));
  tsdbS := list Z * list (Z * list (Z * Z * Z));
  tsdbCreateShard _ _ id := modify (λ t, (id :: t.1, t.2));
  tsdbWriteToShard id pts := λ t,
    if decide (id ∈ t.1) then (Ok tt, (t.1, t.2 ++ [(id, pts)])) else (Err ErrShardNotFound, t);
  rangeOrder l := l;
  selectClosing _ := true;
|}.

#[local] Existing Instance demo_writing.

(** The last point has the time and the hash of the first. *)
Definition demo_points : list (Z * Z * Z) := [(5, 0, 10); (6, 1, 20); (7, 2, 30); (5, 0, 11)].
Definition demo_writer : PointsWriter := mkPointsWriter (H := demo_writing) tt ([1], []) false None.

Definition demo_fields (p : Z * Z * Z) : list (Z * Z * Z) := [p].

Definition demo_content (t : list (Z * list (Z * Z * Z))) (id : Z) : list (Z * Z * Z) :=
  filter (λ x, x.1 = id) t ≫= snd.

Definition demo_holds (t : tsdbS) (id : Z) (k : Z * Z) : option Z :=
  written (H := demo_writing) demo_fields k (demo_content (snd (t : list Z * list (Z * list (Z * Z * Z)))) id).

Lemma demo_write id points (t : tsdbS) id' k :
  demo_holds (tsdbWriteToShard id points t).2 id' k =
  if decide (id ∈ fst (t : list Z * list (Z * list (Z * Z * Z))) ∧ id' = id)
  then match written (H := demo_writing) demo_fields k points with Some v => Some v | None => demo_holds t id' k end
  else demo_holds t id' k.
Proof.
  cbn. unfold demo_holds, demo_content. destruct (decide (id ∈ t.1)) as [Hi|Hi]; cbn [fst snd];
    [|by rewrite decide_False by naive_solver].
  rewrite filter_app, bind_app, filter_cons, filter_nil. cbn [fst].
  destruct (decide (id = id')) as [<-|Hne].
  - rewrite decide_True by done. cbn. rewrite app_nil_r. apply (written_app (H := demo_writing)).
  - rewrite decide_False by naive_solver. cbn. by rewrite app_nil_r.
Qed.

Lemma demo_write_ok id points t t' k :
  tsdbWriteToShard id points t = (Ok tt, t') →
  demo_holds t' id k =
  match written (H := demo_writing) demo_fields k points with Some v => Some v | None => demo_holds t id k end.
Proof.
  intros E. pose proof (demo_write id points t id k) as Hw. rewrite E in Hw. cbn in E.
  destruct (decide (id ∈ t.1)); [|done]. by rewrite decide_True in Hw.
Qed.

Lemma demo_write_other id points t id' k :
  id' ≠ id ∨ written (H := demo_writing) demo_fields k points = None →
  demo_holds (tsdbWriteToShard id points t).2 id' k = demo_holds t id' k.
Proof. intros Hk. rewrite demo_write. case_decide; [|done]. by destruct Hk as [?| ->]; [naive_solver|]. Qed.

Lemma demo_keys_placed (p q : Z * Z * Z) k :
  k ∈ (demo_fields p).*1 → k ∈ (demo_fields q).*1 →
  pTime (Writing := demo_writing) p = pTime (Writing := demo_writing) q ∧
  pHashID (Writing := demo_writing) p = pHashID (Writing := demo_writing) q.
Proof. cbn. intros ->%list_elem_of_singleton Hq%list_elem_of_singleton. by rewrite Hq. Qed.

Lemma MapShards_partitions_witness :
  ∃ m w', MapShards (H := demo_writing) "db" "autogen" demo_points demo_writer = (Ok m, w') ∧
  ∃ rp groups, mRetentionPolicy (Writing := demo_writing) "db" "autogen" (pw_meta demo_writer) =
      Ok (Some rp) ∧
    createGroups (H := demo_writing) "db" "autogen" (groupStarts rp demo_points) demo_writer =
      (Ok groups, w') ∧
    represents (H := demo_writing) (shardOf rp groups) demo_points m ∧
    Forall (λ p, ∃ sg, groups !! groupStart (H := demo_writing) rp p = Some (Some sg) ∧
      sgShardFor sg (pHashID p) = Ok (shardOf rp groups p)) demo_points.
Proof.
  eexists _, _. split; [vm_compute; reflexivity|].
  eapply (@MapShards_partitions demo_writing "db" "autogen" demo_points demo_writer).
  vm_compute. reflexivity.
Defined.

Lemma demo_create_keeps db rp id t id' k :
  demo_holds (tsdbCreateShard db rp id t).2 id' k = demo_holds t id' k.
Proof. done. Qed.

#[local] Instance demo_writing_laws : WritingLaws (H := demo_writing).
Proof. by intros l. Qed.

(** A batch without a policy: its two shards are written, the second after it was
    created, and the last point replaces the first. *)
Lemma WritePoints_acknowledged_is_stored_witness :
  let w' := (WritePoints "db" "" demo_points demo_writer).2 in
  (∃ policy rp groups w1, target "db" "" demo_writer policy ∧
    mRetentionPolicy "db" policy (pw_meta demo_writer) = Ok (Some rp) ∧
    createGroups "db" policy (groupStarts rp demo_points) demo_writer = (Ok groups, w1) ∧
    ∀ p, p ∈ demo_points → ∃ sg sh, groups !! groupStart rp p = Some (Some sg) ∧
      sgShardFor sg (pHashID p) = Ok sh ∧
      ∀ k v, (k, v) ∈ demo_fields p →
        ∃ v', written demo_fields k demo_points = Some v' ∧ demo_holds (pw_tsdb w') (si_ID sh) k = Some v') ∧
  written demo_fields (5, 0) demo_points = Some 11.
Proof.
  intros w'. split; [|vm_compute; reflexivity].
  refine (proj1 (WritePoints_acknowledged_is_stored (H := demo_writing) demo_fields demo_holds
    demo_write_ok demo_write_other demo_create_keeps demo_keys_placed "db" "" demo_points demo_writer w' _)).
  subst w'. vm_compute. reflexivity.
Defined.
