(* ===== verification/MetaClient.v ===== *)
(** * The client of the meta service (meta/client.go)

    A client caches the metadata, sends commands to the meta servers over HTTP
    and waits until the cache has caught up.  The HTTP transport, bcrypt,
    SHA-256, the random source and the OSS metadata methods are parameters.  What
    the other goroutines of the client do while a call sleeps, waits for an answer
    or blocks on a channel is a schedule of events that the environment chooses:
    the poller receives a snapshot, the client is closed, the waiting call gets
    the processor. *)

From Stdlib Require Import ZArith Lia.
From Stdlib Require Import Strings.Byte Strings.String.
From S2P Require Import Prelude GoLib MetaData MetaShards StoreFSM.

Local Open Scope Z_scope.

Definition maxRetries : Z := 10.
Definition MinRetentionPolicyDuration : Z := time.Hour.

(** [http.StatusOK] and the other codes the client tells apart. *)
Definition StatusOK : Z := 200.
Definition StatusTemporaryRedirect : Z := 307.
Definition StatusBadRequest : Z := 400.
Definition StatusConflict : Z := 409.
Definition StatusInternalServerError : Z := 500.
Definition StatusServiceUnavailable : Z := 503.

Record HttpResponse : Type := mkResponse {
  hr_StatusCode : Z;
  hr_Location : string;
  hr_Body : res (list byte);   (* what reading the body gives *)
}.

(** [internal.Response], with what its getters return. *)
Record pbResponse : Type := mkPbResponse { pr_Error : string; pr_Index : Z }.

(** A user in the authentication cache. *)
Record authUser : Type := mkAuthUser {
  au_bhash : string;
  au_salt : list byte;
  au_hash : list byte;
}.

(** What can happen while a call of the client is not running: the request of the
    poller is answered with a body, another goroutine closes the client, or the
    call itself gets the processor. *)
Inductive clientEvent : Type :=
  | EvPoll (body : list byte)
  | EvClose
  | EvResume.

#[export] Instance clientEvent_eq_dec : EqDecision clientEvent.
Proof. solve_decision. Defined.

(** The HTTP client, the codecs of the responses and the cryptography. *)
Class Transport : Type := {
  net : Type;
  httpPost : string → list byte → GoM net HttpResponse;
  httpGet : string → GoM net HttpResponse;
  response_Unmarshal : list byte → res pbResponse;
  lease_Unmarshal : list byte → res (string * Z);   (* lease name and owner *)
  strings_Unmarshal : list byte → res (list string);
  node_MarshalJSON : NodeInfo → res (list byte);
  node_UnmarshalJSON : list byte → NodeInfo → res NodeInfo;
  schedule : GoM net (list clientEvent);   (* any events, at each such point *)
  bcryptCompare : string → string → bool;   (* stored hash, password *)
  bcryptGenerate : string → res string;
  sha256 : list byte → list byte;
  randomSalt : GoM net (list byte);
}.

(** The methods of the OSS metadata that only the client calls. *)
Class OssClient : Type := {
  rpi_MarshalBinary : RetentionPolicyInfo → res (list byte);
  dbi_RetentionPolicy : DatabaseInfo → string → option RetentionPolicyInfo;
  sgi_Deleted : ShardGroupInfo → bool;
  sgi_Overlaps : ShardGroupInfo → Z → Z → bool;
  od_ShardGroupByTimestamp : OssData → string → string → Z → res (option ShardGroupInfo);
  od_UserAdmins : OssData → list bool;   (* the Admin fields of Data.Users *)
  od_UserPrivileges : OssData → string → res (gmap string Z);
  od_UserPrivilege : OssData → string → string → res Z;
}.

Section client.
  Context `{OssMeta, OssCommands, Transport, OssClient}.

Record Client : Type := mkClient {
  c_tls : bool;
  c_nodeID : Z;
  c_metaServers : list string;
  c_closingCh : option bool;   (* nil until the client is opened; true when it is closed *)
  c_changed : option notifier;   (* nil until the client is opened *)
  c_cacheData : Data;
  c_authCache : gmap string authUser;
  c_net : net;
}.

(** Whether a receive from [c.closing] goes through. *)
Definition c_closing (c : Client) : bool := default false (c_closingCh c).

Definition set_nodeID (z : Z) (c : Client) : Client :=
  mkClient (c_tls c) z (c_metaServers c) (c_closingCh c) (c_changed c) (c_cacheData c) (c_authCache c) (c_net c).
Definition set_metaServers (l : list string) (c : Client) : Client :=
  mkClient (c_tls c) (c_nodeID c) l (c_closingCh c) (c_changed c) (c_cacheData c) (c_authCache c) (c_net c).
Definition set_cache (d : Data) (a : gmap string authUser) (c : Client) : Client :=
  mkClient (c_tls c) (c_nodeID c) (c_metaServers c) (c_closingCh c) (c_changed c) d a (c_net c).

Definition ClientM (A : Type) : Type := GoM Client A.

Definition onNet {A} (m : GoM net A) : GoM Client A :=
  zoom c_net (λ n c, mkClient (c_tls c) (c_nodeID c) (c_metaServers c) (c_closingCh c)
                       (c_changed c) (c_cacheData c) (c_authCache c) n) m.

(** ** State of the client *)

(** [NewClient()]; the transport is given.  The pointer [cacheData.Data] is nil until
    the first snapshot: a call that waits for an index panics on it (below), while
    the readers of the cache, which the source expects to be called on an open
    client, see empty metadata here. *)
Definition NewClient (n : net) : Client := mkClient false 0 [] None None zeroData ∅ n.

Definition SetMetaServers (a : list string) : GoM Client unit := modify (set_metaServers a).
Definition MetaServers (c : Client) : list string := c_metaServers c.
Definition SetTLS (v : bool) : GoM Client unit := modify (λ c,
  mkClient v (c_nodeID c) (c_metaServers c) (c_closingCh c) (c_changed c) (c_cacheData c) (c_authCache c) (c_net c)).
(** [Close()]: closing the nil channel of a client that was never opened panics. *)
Definition ClientClose : GoM Client unit := λ c,
  match c_closingCh c with
  | None => (Panics, c)
  | Some true => (Ok tt, c)
  | Some false => (Ok tt, mkClient (c_tls c) (c_nodeID c) (c_metaServers c) (Some true) (c_changed c) (c_cacheData c)
                            (c_authCache c) (c_net c))
  end.
Definition setData (d : Data) : GoM Client unit := modify (λ c, set_cache d (c_authCache c) c).

(** [url(server)] *)
Definition url (tls : bool) (server : string) : string :=
  ((if tls then "https" else "http") +:+ "://" +:+ server)%string.

(** ** Executing commands *)

(** [exec(url, typ, desc, value)] *)
Definition exec (u : string) (cmd : Command) : GoM Client Z :=
  b ← lift_res (cmd_Marshal cmd);
  resp ← onNet (httpPost u b);
  if hr_StatusCode resp =? StatusTemporaryRedirect then throw (errRedirect (hr_Location resp))
  else if negb (hr_StatusCode resp =? StatusOK) then throw (errorf "meta service returned")
  else
    body ← lift_res (hr_Body resp);
    r ← lift_res (response_Unmarshal body);
    if decide (pr_Error r = ""%string) then mret (pr_Index r) else throw (errCommand (pr_Error r)).

(** [updateAuthCache()] *)
Definition updateAuthCache (d : Data) (cache : gmap string authUser) : gmap string authUser :=
  fold_left (λ newCache userInfo,
    match cache !! u_Name userInfo with
    | Some cached =>
        if decide (au_bhash cached = u_Hash userInfo)
        then <[u_Name userInfo := cached]> newCache else newCache
    | None => newCache
    end) (d_Users d) ∅.

(** A call on the heap of [c.changed]; before [Open] the pointers it uses are nil. *)
Definition onChanged {A} (m : notifier → GoM chan.heap A) : GoM Client A := λ c,
  match c_changed c with
  | None => (Panics, c)
  | Some n =>
      let '(x, h) := m n (nt_heap n) in
      (x, mkClient (c_tls c) (c_nodeID c) (c_metaServers c) (c_closingCh c) (Some (mkNotifier (nt_ch n) h))
            (c_cacheData c) (c_authCache c) (c_net c))
  end.

Definition setChanged (ch : nat) : GoM Client unit := modify (λ c,
  mkClient (c_tls c) (c_nodeID c) (c_metaServers c) (c_closingCh c)
    ((λ n, mkNotifier ch (nt_heap n)) <$> c_changed c) (c_cacheData c) (c_authCache c) (c_net c)).

(** What [pollForUpdates()] does with a snapshot: the cache is replaced, and calls that
    wait are woken when its index has grown. *)
Definition installSnapshot (d : Data) : GoM Client unit :=
  c ← get_state;
  let idx := od_Index (d_Data (c_cacheData c)) in
  _ ← modify (λ c, set_cache d (updateAuthCache d (c_authCache c)) c);
  if idx <? od_Index (d_Data d) then
    _ ← onChanged (λ n, chan.close (nt_ch n));
    ch ← onChanged (λ _, chan.make);
    setChanged ch
  else mret tt.

(** Decoding the body of a snapshot, as [getSnapshot] does. *)
Definition decodeSnapshot (b : list byte) : res Data :=
  match UnmarshalBinary b zeroData with
  | (Ok _, d) => Ok d
  | (Err e, _) => Err e
  | (Panics, _) => Panics
  end.

(** One iteration of [pollForUpdates()] whose request was answered with body
    [b]: a snapshot that does not decode is asked for again. *)
Definition pollSnapshot (b : list byte) : GoM Client unit :=
  r ← attempt (lift_res (decodeSnapshot b));
  match r with
  | inr d => installSnapshot d
  | inl _ => mret tt
  end.

(** Whether a receive from the channel goes through. *)
Definition changedClosed (c : Client) (ch : nat) : bool :=
  match c_changed c with Some n => chan.closed (nt_heap n) ch | None => false end.

(** Where a call of [waitForIndex] is: it has returned, it is about to look at the cache,
    or it receives from a channel. *)
Inductive waiting : Type := Returned | Looking | Receiving (ch : nat).

#[export] Instance waiting_eq_dec : EqDecision waiting.
Proof. solve_decision. Defined.

(** One step of the loop of [waitForIndex(idx)]. *)
Definition waitStep (idx : Z) (w : waiting) : GoM Client waiting :=
  c ← get_state;
  match w with
  | Returned => mret Returned
  | Looking =>
      match c_changed c with
      | None => panic   (* c.cacheData.Data is nil *)
      | Some n => if idx <=? od_Index (d_Data (c_cacheData c)) then mret Returned else mret (Receiving (nt_ch n))
      end
  | Receiving ch => mret (if changedClosed c ch then Looking else Receiving ch)
  end.

(** The other goroutines; the poller runs once the client has been opened. *)
Definition otherStep (e : clientEvent) : GoM Client unit :=
  match e with
  | EvPoll b => c ← get_state; if c_changed c is Some _ then pollSnapshot b else mret tt
  | EvClose => ClientClose
  | EvResume => mret tt
  end.

(** The loop under a schedule; what is left of the schedule when the call returns
    happens later. *)
Fixpoint waitLoop (idx : Z) (events : list clientEvent) (w : waiting) : GoM Client waiting :=
  match events with
  | [] => mret w
  | e :: events' =>
      w' ← (match e with EvResume => waitStep idx w | _ => _ ← otherStep e; mret w end);
      match w' with Returned => mret Returned | _ => waitLoop idx events' w' end
  end.

(** [waitForIndex(idx)]; the first look at the cache needs no event. *)
Definition waitForIndex (idx : Z) : GoM Client waiting :=
  w ← waitStep idx Looking;
  match w with
  | Returned => mret Returned
  | _ => events ← onNet schedule; waitLoop idx events w
  end.

(** What happens while a request is answered and while the loop sleeps. *)
Definition interleave : GoM Client unit :=
  events ← onNet schedule;
  for_each events otherStep.

(** How the loop of [retryUntilExec] ends: it returns nil, it still waits when the
    schedule ends, or the fuel runs out. *)
Inductive retried : Type := RetNil | RetWaits (idx : Z) (w : waiting) | RetFuel.

(** The loop of [retryUntilExec]. *)
Fixpoint retryExec (fuel : nat) (cmd : Command) (tries currentServer : Z)
    (redirectServer : string) : GoM Client retried :=
  match fuel with
  | O => mret RetFuel
  | S fuel' =>
      c ← get_state;
      if c_closing c then mret RetNil
      else
        '(u, cur) ← (if decide (redirectServer = ""%string) then
                       let cur := if len (c_metaServers c) <=? currentServer then 0
                                  else currentServer in
                       match c_metaServers c !! Z.to_nat cur with
                       | None => panic
                       | Some server => mret ((url (c_tls c) server +:+ "/execute")%string, cur)
                       end
                     else mret (redirectServer, currentServer));
        r ← attempt (exec u cmd);
        let tries := tries + 1 in
        match r with
        | inr index =>
            _ ← interleave;
            w ← waitForIndex index;
            mret (match w with Returned => RetNil | _ => RetWaits index w end)
        | inl err =>
            if maxRetries <? tries then throw err
            else match err with
                 | errRedirect host => _ ← interleave; retryExec fuel' cmd tries (cur + 1) host
                 | errCommand _ => throw err
                 | _ => _ ← interleave; retryExec fuel' cmd tries (cur + 1) ""
                 end
        end
  end.

(** [retryUntilExec(typ, desc, value)].  A call that has not returned when the schedule
    ends has the outcome [Panics], like one that never returns: nothing after it is
    run. *)
Definition retryUntilExec (cmd : Command) : GoM Client unit :=
  r ← retryExec (Z.to_nat maxRetries + 1) cmd 0 0 "";
  match r with RetNil => mret tt | _ => panic end.

Definition runCmd (t : CommandType) (e : Extension) : GoM Client unit :=
  retryUntilExec (mkCommand t (Some e)).

(** ** Reading the cache *)

Definition clusterID (c : Client) : Z := od_ClusterID (d_Data (c_cacheData c)).

(** [DataNode(id)], [DataNodes()], [DataNodeByHTTPHost(httpAddr)],
    [DataNodeByTCPHost(tcpAddr)] *)
Definition ClientDataNode (id : Z) (c : Client) : res NodeInfo :=
  of_option ErrNodeNotFound (node_by_id id (d_DataNodes (c_cacheData c))).
Definition DataNodes (c : Client) : list NodeInfo := d_DataNodes (c_cacheData c).
Definition DataNodeByHTTPHost (httpAddr : string) (c : Client) : res NodeInfo :=
  of_option ErrNodeNotFound (snd <$> list_find (λ n, n_Host n = httpAddr) (DataNodes c)).
Definition DataNodeByTCPHost (tcpAddr : string) (c : Client) : res NodeInfo :=
  of_option ErrNodeNotFound (node_by_tcp tcpAddr (DataNodes c)).
Definition MetaNodes (c : Client) : list NodeInfo := d_MetaNodes (c_cacheData c).
Definition MetaNodeByAddr (addr : string) (c : Client) : option NodeInfo :=
  snd <$> list_find (λ n, n_Host n = addr) (MetaNodes c).

(** [Database(name)], [Databases()] *)
Definition Database (name : string) (c : Client) : option DatabaseInfo :=
  snd <$> list_find (λ d, dbi_Name d = name) (od_Databases (d_Data (c_cacheData c))).
Definition Databases (c : Client) : list DatabaseInfo := od_Databases (d_Data (c_cacheData c)).

(** [RetentionPolicy(database, name)] *)
Definition RetentionPolicy (database name : string) (c : Client)
    : res (option RetentionPolicyInfo) :=
  match Database database c with
  | None => Err (ErrDatabaseNotFound database)
  | Some db => Ok (dbi_RetentionPolicy db name)
  end.

(** [Users()], [User(name)] *)
Definition Users (c : Client) : list UserInfo := d_Users (c_cacheData c).
Definition ClientUser (name : string) (c : Client) : res UserInfo :=
  of_option ErrUserNotFound (snd <$> list_find (λ u, u_Name u = name) (Users c)).

(** [AdminUserExists()], [UserCount()], [UserPrivileges(username)] and
    [UserPrivilege(username, database)] read the users of the OSS data. *)
Definition AdminUserExists (c : Client) : bool :=
  existsb id (od_UserAdmins (d_Data (c_cacheData c))).
Definition UserCount (c : Client) : Z := len (od_UserAdmins (d_Data (c_cacheData c))).
Definition UserPrivileges (username : string) (c : Client) : res (gmap string Z) :=
  od_UserPrivileges (d_Data (c_cacheData c)) username.
Definition UserPrivilege (username database : string) (c : Client) : res Z :=
  od_UserPrivilege (d_Data (c_cacheData c)) username database.

(** [Data()], [MarshalBinary()] and [index()] *)
Definition ClientData (c : Client) : Data := Clone (c_cacheData c).
Definition ClientMarshalBinary (c : Client) : res (list byte) := MarshalBinary (c_cacheData c).
Definition ClientIndex (c : Client) : Z := od_Index (d_Data (c_cacheData c)).

(** ** Commands *)

(** [CreateDataNode(httpAddr, tcpAddr)] *)
Definition ClientCreateDataNode (httpAddr tcpAddr : string) : GoM Client NodeInfo :=
  _ ← runCmd CreateDataNodeCommand (ExtCreateDataNode httpAddr tcpAddr);
  c ← get_state;
  n ← lift_res (DataNodeByTCPHost tcpAddr c);
  _ ← modify (set_nodeID (n_ID n));
  mret n.

Definition ClientDeleteDataNode (id : Z) : GoM Client unit :=
  runCmd DeleteDataNodeCommand (ExtDeleteDataNode id).

(** [CreateMetaNode(httpAddr, tcpAddr)] *)
Definition ClientCreateMetaNode (rand : Z) (httpAddr tcpAddr : string) : GoM Client NodeInfo :=
  _ ← runCmd CreateMetaNodeCommand (ExtCreateMetaNode httpAddr tcpAddr (u64 rand));
  c ← get_state;
  match MetaNodeByAddr httpAddr c with
  | None => throw (errorf "new meta node not found")
  | Some n => _ ← modify (set_nodeID (n_ID n)); mret n
  end.

Definition ClientDeleteMetaNode (id : Z) : GoM Client unit :=
  runCmd DeleteMetaNodeCommand (ExtDeleteMetaNode id).

(** [CreateDatabase(name)] *)
Definition CreateDatabase (name : string) : GoM Client (option DatabaseInfo) :=
  c ← get_state;
  match Database name c with
  | Some db => mret (Some db)
  | None =>
      _ ← runCmd CreateDatabaseCommand (ExtCreateDatabase name []);
      gets (Database name)
  end.

Definition tooShort (rpi : RetentionPolicyInfo) : bool :=
  (rpi_Duration rpi <? MinRetentionPolicyDuration) && negb (rpi_Duration rpi =? 0).

(** [CreateDatabaseWithRetentionPolicy(name, rpi)] *)
Definition CreateDatabaseWithRetentionPolicy (name : string) (rpi : RetentionPolicyInfo)
    : GoM Client (option DatabaseInfo) :=
  if tooShort rpi then throw ErrRetentionPolicyDurationTooLow
  else
    c ← get_state;
    let existing := db ← Database name c; rp ← dbi_RetentionPolicy db (rpi_Name rpi); Some (db, rp) in
    match existing with
    | Some (db, rp) =>
        if negb (rpi_ReplicaN rp =? rpi_ReplicaN rpi) || negb (rpi_Duration rp =? rpi_Duration rpi)
        then throw ErrRetentionPolicyConflict else mret (Some db)
    | None =>
        rpiB ← lift_res (rpi_MarshalBinary rpi);
        _ ← runCmd CreateDatabaseCommand (ExtCreateDatabase name rpiB);
        gets (Database name)
    end.

Definition DropDatabase (name : string) : GoM Client unit :=
  runCmd DropDatabaseCommand (ExtDropDatabase name).

(** [CreateRetentionPolicy(database, rpi)] *)
Definition CreateRetentionPolicy (database : string) (rpi : RetentionPolicyInfo)
    : GoM Client (option RetentionPolicyInfo) :=
  c ← get_state;
  match RetentionPolicy database (rpi_Name rpi) c with
  | Ok (Some rp) => mret (Some rp)
  | _ =>
      if tooShort rpi then throw ErrRetentionPolicyDurationTooLow
      else
        rpiB ← lift_res (rpi_MarshalBinary rpi);
        _ ← runCmd CreateRetentionPolicyCommand (ExtCreateRetentionPolicy database rpiB);
        c ← get_state;
        lift_res (RetentionPolicy database (rpi_Name rpi) c)
  end.

Definition DropRetentionPolicy (database name : string) : GoM Client unit :=
  runCmd DropRetentionPolicyCommand (ExtDropRetentionPolicy database name).
Definition SetDefaultRetentionPolicy (database name : string) : GoM Client unit :=
  runCmd SetDefaultRetentionPolicyCommand (ExtSetDefaultRetentionPolicy database name).
(** [UpdateRetentionPolicy(database, name, rpu)]: the replication factor is sent
    as a [uint32]. *)
Definition UpdateRetentionPolicy (database name : string) (rpu : RetentionPolicyUpdate)
    : GoM Client unit :=
  runCmd UpdateRetentionPolicyCommand
    (ExtUpdateRetentionPolicy database name (rpu_Name rpu) (rpu_Duration rpu)
       (u32 <$> rpu_ReplicaN rpu)).

(** ** Users *)

(** [CreateUser(name, password, admin)] *)
Definition ClientCreateUser (name password : string) (admin : bool) : GoM Client UserInfo :=
  c ← get_state;
  match MetaData.User (Clone (c_cacheData c)) name with
  | Some u =>
      if negb (bcryptCompare (u_Hash u) password) || negb (bool_decide (u_Admin u = admin))
      then throw ErrUserExists else mret u
  | None =>
      hash ← lift_res (bcryptGenerate password);
      _ ← runCmd CreateUserCommand (ExtCreateUser name hash admin);
      c ← get_state;
      lift_res (ClientUser name c)
  end.

Definition UpdateUser (name password : string) : GoM Client unit :=
  hash ← lift_res (bcryptGenerate password);
  runCmd UpdateUserCommand (ExtUpdateUser name hash).
Definition ClientDropUser (name : string) : GoM Client unit :=
  runCmd DropUserCommand (ExtDropUser name).
Definition SetPrivilege (username database : string) (p : Z) : GoM Client unit :=
  runCmd SetPrivilegeCommand (ExtSetPrivilege username database (i32 p)).
Definition SetAdminPrivilege (username : string) (admin : bool) : GoM Client unit :=
  runCmd SetAdminPrivilegeCommand (ExtSetAdminPrivilege username admin).

(** [hashWithSalt(salt, password)], [saltedHash(password)] *)
Definition hashWithSalt (salt : list byte) (password : string) : list byte :=
  sha256 (salt ++ list_byte_of_string password).
Definition saltedHash (password : string) : GoM Client (list byte * list byte) :=
  salt ← onNet randomSalt;
  mret (salt, hashWithSalt salt password).

(** [Authenticate(username, password)] *)
Definition Authenticate (username password : string) : GoM Client UserInfo :=
  c ← get_state;
  match MetaData.User (c_cacheData c) username with
  | None => throw ErrUserNotFound
  | Some userInfo =>
      let cached := match c_authCache c !! username with
                    | Some au => bool_decide (hashWithSalt (au_salt au) password = au_hash au)
                    | None => false
                    end in
      if cached then mret userInfo
      else if negb (bcryptCompare (u_Hash userInfo) password) then throw ErrAuthenticate
      else
        '(salt, hashed) ← saltedHash password;
        _ ← modify (λ c, set_cache (c_cacheData c)
              (<[username := mkAuthUser (u_Hash userInfo) salt hashed]> (c_authCache c)) c);
        mret userInfo
  end.

(** ** Shards *)

(** [ShardIDs()] *)
Definition ShardIDs (c : Client) : list Z :=
  sort.Sort Z.ltb (si_ID <$> all_shards (d_Data (c_cacheData c))).

(** [ShardGroupsByTimeRange(database, policy, min, max)] *)
Definition ShardGroupsByTimeRange (database policy : string) (min max : Z) (c : Client)
    : res (list ShardGroupInfo) :=
  pos ← oss_RetentionPolicy (d_Data (c_cacheData c)) database policy;
  match pos with
  | None => Err (ErrRetentionPolicyNotFound policy)
  | Some pos =>
      match rp_at (d_Data (c_cacheData c)) pos with
      | None => Panics
      | Some rpi =>
          Ok (filter (λ g, sgi_Deleted g || negb (sgi_Overlaps g min max) = false) (rpi_ShardGroups rpi))
      end
  end.

(** [ShardsByTimeRange(sources, tmin, tmax)]: a source is a measurement (its
    database and policy) or something else.  The shards are collected in a map
    keyed by their addresses, so none is dropped. *)
Fixpoint ShardsByTimeRange (sources : list (option (string * string))) (tmin tmax : Z) (c : Client)
    : res (list ShardInfo) :=
  match sources with
  | [] => Ok []
  | None :: _ => Err (errorf "invalid source type")
  | Some (database, policy) :: sources' =>
      groups ← ShardGroupsByTimeRange database policy tmin tmax c;
      rest ← ShardsByTimeRange sources' tmin tmax c;
      Ok ((g ← groups; sgi_Shards g) ++ rest)
  end.

(** [CreateShardGroup(database, policy, timestamp)] *)
Definition ClientCreateShardGroup (database policy : string) (timestamp : Z)
    : GoM Client (option ShardGroupInfo) :=
  c ← get_state;
  match od_ShardGroupByTimestamp (d_Data (c_cacheData c)) database policy timestamp with
  | Panics => panic
  | Ok (Some sg) => mret (Some sg)
  | _ =>
      _ ← runCmd CreateShardGroupCommand (ExtCreateShardGroup database policy (i64 timestamp));
      c ← get_state;
      rpi ← lift_res (RetentionPolicy database policy c);
      match rpi with
      | None => throw (errorf "retention policy deleted after shard group created")
      | Some rpi => mret (oss_ShardGroupByTimestamp rpi timestamp)
      end
  end.

Definition ClientDeleteShardGroup (database policy : string) (id : Z) : GoM Client unit :=
  runCmd DeleteShardGroupCommand (ExtDeleteShardGroup database policy id).

(** The body of the loop over the policies of a database: a nil new group is
    dereferenced by the log message. *)
Definition precreate (from to : Z) (dbName : string) (rp : RetentionPolicyInfo) : GoM Client unit :=
  match last (rpi_ShardGroups rp) with
  | None => mret tt
  | Some g =>
      if negb (sgi_Deleted g) && (sgi_EndTime g <? to) && (from <? sgi_EndTime g) then
        r ← attempt (ClientCreateShardGroup dbName (rpi_Name rp) (sgi_EndTime g + 1));
        match r with
        | inr None => panic
        | _ => mret tt
        end
      else mret tt
  end.

(** [PrecreateShardGroups(from, to)]: returns after the first database. *)
Definition PrecreateShardGroups (from to : Z) : GoM Client unit :=
  c ← get_state;
  match od_Databases (d_Data (c_cacheData c)) with
  | [] => mret tt
  | di :: _ => for_each (dbi_RetentionPolicies di) (precreate from to (dbi_Name di))
  end.

(** [ShardOwner(shardID)] *)
Definition owner_entries (d : OssData) : list (string * string * ShardGroupInfo) :=
  dbi ← od_Databases d; rpi ← dbi_RetentionPolicies dbi; g ← rpi_ShardGroups rpi;
  [(dbi_Name dbi, rpi_Name rpi, g)].

Definition ShardOwner (shardID : Z) (c : Client) : option (string * string * ShardGroupInfo) :=
  snd <$> list_find (λ e, sgi_Deleted e.2 = false ∧ shardID ∈ (si_ID <$> sgi_Shards e.2))
            (owner_entries (d_Data (c_cacheData c))).

(** ** Other commands *)

Definition CreateContinuousQuery (database name query : string) : GoM Client unit :=
  runCmd CreateContinuousQueryCommand (ExtCreateContinuousQuery database name query).
Definition DropContinuousQuery (database name : string) : GoM Client unit :=
  runCmd DropContinuousQueryCommand (ExtDropContinuousQuery database name).
Definition CreateSubscription (database rp name mode : string) (destinations : list string)
    : GoM Client unit :=
  runCmd CreateSubscriptionCommand (ExtCreateSubscription database rp name mode destinations).
Definition DropSubscription (database rp name : string) : GoM Client unit :=
  runCmd DropSubscriptionCommand (ExtDropSubscription database rp name).
(** [SetData(data)]: the encoding error is ignored. *)
Definition SetData (data : Data) : GoM Client unit :=
  runCmd SetDataCommand
    (ExtSetData (match MarshalBinary data with Ok b => b | _ => [] end)).

(** ** Leases *)

(** The loop over the servers of [acquireLease]; a conflict is only remembered
    in a variable that is not returned. *)
Fixpoint tryLease (servers : list string) (name : string) : GoM Client (string * Z) :=
  match servers with
  | [] => throw (errorf "unrecognized meta service error")
  | server :: servers' =>
      c ← get_state;
      resp ← onNet (httpGet (url (c_tls c) server +:+ "/lease?name=" +:+ name +:+ "&nodeid="
                              +:+ strconv.FormatUint (c_nodeID c))%string);
      if hr_StatusCode resp =? StatusOK then
        b ← lift_res (hr_Body resp);
        lift_res (lease_Unmarshal b)
      else if hr_StatusCode resp =? StatusConflict then tryLease servers' name
      else if hr_StatusCode resp =? StatusServiceUnavailable then throw ErrServiceUnavailable
      else if hr_StatusCode resp =? StatusBadRequest then
        _ ← lift_res (hr_Body resp);
        throw (errorf "meta service")
      else if hr_StatusCode resp =? StatusInternalServerError
      then throw (errorf "meta service internal error")
      else throw (errorf "unrecognized meta service error")
  end.

(** [acquireLease(name)] *)
Definition acquireLease (name : string) : GoM Client (string * Z) :=
  c ← get_state;
  tryLease (MetaServers c) name.

(** The attempts of [AcquireLease(name)]: [n] of them are left. *)
Fixpoint leaseAttempts (n : nat) (name : string) : GoM Client (string * Z) :=
  match n with
  | O => throw ErrServiceUnavailable
  | S n' =>
      r ← attempt (acquireLease name);
      match r with
      | inr l => mret l
      | inl ErrServiceUnavailable | inl ErrService =>
          match n' with
          | O => throw (match r with inl e => e | inr _ => ErrService end)
          | S _ => leaseAttempts n' name
          end
      | inl e => throw e
      end
  end.

Definition AcquireLease (name : string) : GoM Client (string * Z) := leaseAttempts 10 name.

(** ** Snapshots *)

(** [getSnapshot(server, index)] *)
Definition getSnapshot (server : string) (index : Z) : GoM Client Data :=
  c ← get_state;
  resp ← onNet (httpGet (url (c_tls c) server +:+ "?index=" +:+ strconv.FormatUint index)%string);
  if negb (hr_StatusCode resp =? StatusOK) then throw (errorf "meta server returned non-200")
  else
    b ← lift_res (hr_Body resp);
    lift_res (decodeSnapshot b).

(** [retryUntilSnapshot(idx)] asks the servers in turn for ever: [None] means
    the fuel ran out, [Some None] that the client was closed. *)
Fixpoint retryUntilSnapshot (fuel : nat) (currentServer idx : Z)
    : GoM Client (option (option Data)) :=
  match fuel with
  | O => mret None
  | S fuel' =>
      c ← get_state;
      if c_closing c then mret (Some None)
      else
        let cur := if len (c_metaServers c) <=? currentServer then 0 else currentServer in
        match c_metaServers c !! Z.to_nat cur with
        | None => panic
        | Some server =>
            r ← attempt (getSnapshot server idx);
            match r with
            | inr d => mret (Some (Some d))
            | inl _ => retryUntilSnapshot fuel' (cur + 1) idx
            end
        end
  end.

(** [c.changed = make(chan struct{})] *)
Definition newChanged (n : option notifier) : notifier :=
  match n with
  | None => mkNotifier 0 [false]
  | Some n => mkNotifier (length (nt_heap n)) (nt_heap n ++ [false])
  end.

(** [Open()], without starting the poller: true when the first snapshot came
    within the fuel (a client closed meanwhile has no snapshot). *)
Definition ClientOpen (fuel : nat) : GoM Client bool :=
  _ ← modify (λ c, mkClient (c_tls c) (c_nodeID c) (c_metaServers c) (Some false)
                     (Some (newChanged (c_changed c))) (c_cacheData c) (c_authCache c) (c_net c));
  r ← retryUntilSnapshot fuel 0 0;
  match r with
  | Some (Some d) => _ ← setData d; mret true
  | _ => mret false
  end.

(** [Ping(checkAllMetaServers)] *)
Definition Ping (checkAllMetaServers : bool) : GoM Client unit :=
  c ← get_state;
  match c_metaServers c with
  | [] => panic
  | server :: _ =>
      let u := (url (c_tls c) server +:+ "/ping")%string in
      resp ← onNet (httpGet (if checkAllMetaServers then u +:+ "?all=true" else u)%string);
      if hr_StatusCode resp =? StatusOK then mret tt
      else
        b ← lift_res (hr_Body resp);
        throw (errorf (string_of_list_byte b))
  end.

(** [JoinMetaServer(httpAddr, tcpAddr)] retries for ever; [None] means the fuel
    ran out.  Any transport error counts as a failed attempt. *)
Fixpoint tryJoin (fuel : nat) (node : NodeInfo) (b : list byte) (currentServer : Z)
    (redirectServer : string) : GoM Client (option NodeInfo) :=
  match fuel with
  | O => mret None
  | S fuel' =>
      c ← get_state;
      '(u, cur) ← (if decide (redirectServer = ""%string) then
                     let cur := if len (c_metaServers c) <=? currentServer then 0
                                else currentServer in
                     match c_metaServers c !! Z.to_nat cur with
                     | None => panic
                     | Some server => mret ((url (c_tls c) server +:+ "/join")%string, cur)
                     end
                   else mret (redirectServer, currentServer));
      r ← attempt (onNet (httpPost u b));
      match r with
      | inl _ => tryJoin fuel' node b (cur + 1) ""
      | inr resp =>
          if hr_StatusCode resp =? StatusOK then
            body ← lift_res (hr_Body resp);
            n ← lift_res (node_UnmarshalJSON body node);
            mret (Some n)
          else if hr_StatusCode resp =? StatusTemporaryRedirect
          then tryJoin fuel' node b cur (hr_Location resp)
          else tryJoin fuel' node b (cur + 1) ""
      end
  end.

Definition JoinMetaServer (fuel : nat) (httpAddr tcpAddr : string) : GoM Client (option NodeInfo) :=
  let node := mkNodeInfo 0 httpAddr tcpAddr [] in
  b ← lift_res (node_MarshalJSON node);
  tryJoin fuel node b 0 "".

(** ** Peers *)

(** The distinct addresses; Go's map iteration returns them in any order. *)
Definition PeersUnique (p : list string) : list string := elements (list_to_set p : gset string).
Definition PeersAppend (peers p : list string) : list string := PeersUnique (peers ++ p).
Definition PeersContains (peers : list string) (p : string) : bool := bool_decide (p ∈ peers).

(** [peers()]: servers that do not answer are skipped. *)
Definition askPeers (tls : bool) (server : string) : GoM Client (list string) :=
  resp ← onNet (httpGet (url tls server +:+ "/peers")%string);
  if negb (hr_StatusCode resp =? StatusOK) then mret []
  else
    body ← lift_res (hr_Body resp);
    lift_res (strings_Unmarshal body).

Fixpoint collectPeers (servers : list string) (acc : list string) : GoM Client (list string) :=
  match servers with
  | [] => mret acc
  | server :: servers' =>
      c ← get_state;
      r ← attempt (askPeers (c_tls c) server);
      match r with
      | inr p => collectPeers servers' (PeersAppend acc p)
      | inl _ => collectPeers servers' acc
      end
  end.

Definition ClientPeers : GoM Client (list string) :=
  c ← get_state;
  p ← collectPeers (c_metaServers c) [];
  mret (PeersUnique p).

End client.
