(* ===== verification/ClientTheorems.v ===== *)
(** * Theorems about the client of the meta service

    Commands are retried a bounded number of times and a reported success is in
    the cache; the authentication cache accepts nothing bcrypt would refuse; a
    client never sees a data node or a user, because snapshots do not decode
    them; pre-creation of shard groups stops after the first database. *)

From Stdlib Require Import ZArith Lia.
From Stdlib Require Import Strings.Byte Strings.String.
From S2P Require Import Prelude GoLib MetaData MetaShards MetaTheorems StoreFSM StoreTheorems MetaClient.

Local Open Scope Z_scope.

Section client.
  Context `{OssMeta, OssCommands, Transport, OssClient}.

Definition set_net (n : net) (c : Client) : Client :=
  mkClient (c_tls c) (c_nodeID c) (c_metaServers c) (c_closingCh c) (c_changed c) (c_cacheData c) (c_authCache c) n.

Definition set_notif (o : option notifier) (c : Client) : Client :=
  mkClient (c_tls c) (c_nodeID c) (c_metaServers c) (c_closingCh c) o (c_cacheData c) (c_authCache c) (c_net c).

(** ** What the operations leave alone *)

Lemma onNet_eq {A} (m : GoM net A) c : onNet m c = ((m (c_net c)).1, set_net (m (c_net c)).2 c).
Proof. unfold onNet, zoom. by destruct (m (c_net c)). Qed.

Lemma set_net_id c : set_net (c_net c) c = c.
Proof. by destruct c. Qed.

(** A request of [exec] posts at most once and changes only the network. *)
Lemma exec_net u cmd c r c' :
  exec u cmd c = (r, c') →
  c' = c ∨ ∃ b, c' = set_net (httpPost u b (c_net c)).2 c.
Proof.
  unfold exec. gom_simpl. destruct (cmd_Marshal cmd) as [b| |]; [|intros [= <- <-]; by left..].
  rewrite onNet_eq. intros E. right. exists b.
  destruct (httpPost u b (c_net c)) as [[resp| |] n]; cbn in *; [|by injection E as _ <-..].
  repeat case_match; by simplify_eq.
Qed.

Lemma updateAuthCache_lookup_inv d cache name au :
  updateAuthCache d cache !! name = Some au →
  cache !! name = Some au ∧ ∃ u, u ∈ d_Users d ∧ u_Name u = name ∧ u_Hash u = au_bhash au.
Proof.
  unfold updateAuthCache.
  enough (∀ us (acc : gmap string authUser), (∀ u, u ∈ us → u ∈ d_Users d) →
    (acc !! name = Some au → cache !! name = Some au ∧
       ∃ u, u ∈ d_Users d ∧ u_Name u = name ∧ u_Hash u = au_bhash au) →
    fold_left (λ newCache userInfo,
      match cache !! u_Name userInfo with
      | Some cached => if decide (au_bhash cached = u_Hash userInfo)
                       then <[u_Name userInfo := cached]> newCache else newCache
      | None => newCache
      end) us acc !! name = Some au →
    cache !! name = Some au ∧ ∃ u, u ∈ d_Users d ∧ u_Name u = name ∧ u_Hash u = au_bhash au) as G.
  { apply G; [done|]. by rewrite lookup_empty. }
  intros us. induction us as [|u us IH]; intros acc Hin Hacc; simpl; [done|].
  apply IH; [intros; apply Hin; by right|].
  destruct (cache !! u_Name u) as [cached|] eqn:Eu; [|done].
  case_decide as Eh; [|done]. rewrite lookup_insert_Some.
  intros [[<- <-]|[_ ?]]; [|by apply Hacc].
  split; [done|]. exists u. split; [apply Hin; left|]. done.
Qed.

(** Snapshots hold neither data nodes nor users. *)
Lemma decodeSnapshot_blind b d : decodeSnapshot b = Ok d → d_DataNodes d = [] ∧ d_Users d = [].
Proof.
  unfold decodeSnapshot, UnmarshalBinary. gom_simpl.
  destruct (proto_Unmarshal b) as [pb| |]; [|done..]. unfold unmarshal.
  destruct (oss_UnmarshalBinary _ _) as [? o]. by intros [= <-].
Qed.

(** ** The other goroutines *)

(** The client whose cache is a snapshot. *)
Definition cached (d : Data) (c : Client) : Client := set_cache d (updateAuthCache d (c_authCache c)) c.

Definition grows (d : Data) (c : Client) : bool := ClientIndex c <? od_Index (d_Data d).

Lemma installSnapshot_cases d c :
  (∃ n, c_changed c = Some n ∧ live n ∧ grows d c = true ∧
     installSnapshot d c = (Ok tt, set_notif (Some (notified n)) (cached d c))) ∨
  (grows d c = false ∧ installSnapshot d c = (Ok tt, cached d c)) ∨
  ((∀ n, c_changed c = Some n → ¬ live n) ∧ installSnapshot d c = (Panics, cached d c)).
Proof.
  destruct c as [tls id ms cl [[ch h]|] cd au nt]; unfold installSnapshot, grows, ClientIndex; gom_simpl;
    cbn -[chan.close]; destruct (od_Index (d_Data cd) <? od_Index (d_Data d)); auto.
  - unfold onChanged. cbn -[chan.close]. unfold chan.close. destruct (h !! ch) as [[]|] eqn:E; cbn.
    + right. right. split; [|done]. intros n [= <-]. unfold live. cbn. by rewrite E.
    + left. exists (mkNotifier ch h). split_and!; [done|done|done|]. unfold notified, set_notif. cbn.
      by rewrite length_insert.
    + right. right. split; [|done]. intros n [= <-]. unfold live. cbn. by rewrite E.
  - right. right. by split.
Qed.

(** What a client keeps when another goroutine runs. *)
Lemma installSnapshot_state d c : ∃ o, (installSnapshot d c).2 = set_notif o (cached d c).
Proof.
  destruct (installSnapshot_cases d c) as [(n & _ & _ & _ & ->)|[[_ ->]|[_ ->]]]; [by eexists|..];
    exists (c_changed c); by destruct c.
Qed.

Lemma pollSnapshot_cases b c :
  (∃ d, decodeSnapshot b = Ok d ∧ pollSnapshot b c = installSnapshot d c) ∨
  (∃ e, decodeSnapshot b = Err e ∧ pollSnapshot b c = (Ok tt, c)) ∨
  (decodeSnapshot b = Panics ∧ pollSnapshot b c = (Panics, c)).
Proof.
  unfold pollSnapshot. gom_simpl. destruct (decodeSnapshot b) as [d|e|]; cbn; [left|right; left|right; right]; eauto.
Qed.

Lemma waitStep_state idx w c : (waitStep idx w c).2 = c.
Proof. unfold waitStep. gom_simpl. by repeat case_match. Qed.

(** A property of clients that the other goroutines and network traffic keep is kept
    by [waitForIndex] and [retryUntilExec]. *)
Section kept.
  Context (P : Client → Prop).
  Context (P_net : ∀ n c, P c → P (set_net n c)).
  Context (P_other : ∀ e c, P c → P (otherStep e c).2).

Lemma others_keep events c : P c → P (for_each events otherStep c).2.
Proof using P_other.
  revert c. induction events as [|e events IH]; intros c HP; simpl; [done|]. gom_simpl.
  pose proof (P_other e c HP). destruct (otherStep e c) as [[?| |] c1]; simpl in *; auto.
Qed.

Lemma interleave_keeps c : P c → P (interleave c).2.
Proof using P_net P_other.
  intros HP. unfold interleave. gom_simpl. rewrite onNet_eq.
  destruct (schedule (c_net c)) as [[events| |] n]; cbn; auto. apply others_keep. auto.
Qed.

Lemma waitLoop_keeps idx events w c : P c → P (waitLoop idx events w c).2.
Proof using P_other.
  revert w c. induction events as [|e events IH]; intros w c HP; [done|]. cbn [waitLoop]. gom_simpl.
  match goal with |- P (match ?m with _ => _ end).2 => assert (P m.2) as Hm; [|destruct m as [[[| |ch]| |] c1]; auto] end.
  destruct e; [| |by rewrite waitStep_state].
  1: pose proof (P_other (EvPoll body) c HP). 2: pose proof (P_other EvClose c HP).
  all: by destruct (otherStep _ c) as [[?| |] c1].
Qed.

Lemma waitForIndex_keeps idx c : P c → P (waitForIndex idx c).2.
Proof using P_net P_other.
  intros HP. unfold waitForIndex. gom_simpl. pose proof (waitStep_state idx Looking c) as Hs.
  destruct (waitStep idx Looking c) as [[w| |] c1]; cbn in Hs; subst c1; [|done..].
  destruct w; [done|..]; rewrite onNet_eq; destruct (schedule (c_net c)) as [[events| |] n]; cbn; auto;
    apply waitLoop_keeps; auto.
Qed.

Lemma retryExec_keeps fuel cmd tries cur redir c : P c → P (retryExec fuel cmd tries cur redir c).2.
Proof using P_net P_other.
  revert tries cur redir c. induction fuel as [|fuel IH]; intros tries cur redir c HP; [done|].
  simpl. gom_simpl. destruct (c_closing c); [done|].
  match goal with |- P (match ?m with _ => _ end).2 => destruct m as [[[u cur']| |] c1] eqn:E1 end.
  2,3: repeat case_match; simplify_eq; done.
  assert (c1 = c) as -> by (repeat case_match; by simplify_eq).
  destruct (exec u cmd c) as [r c1] eqn:E2.
  assert (P c1) as HP1 by (destruct (exec_net _ _ _ _ _ E2) as [->|[? ->]]; auto).
  pose proof (interleave_keeps c1 HP1) as HP2.
  destruct r as [idx|e|]; [|destruct (maxRetries <? tries + 1); [done|]|done].
  - destruct (interleave c1) as [[?| |] c2]; [|done..]. pose proof (waitForIndex_keeps idx c2 HP2).
    by destruct (waitForIndex idx c2) as [[?| |] ?].
  - destruct e; try done; destruct (interleave c1) as [[?| |] c2]; auto.
Qed.

Lemma retryUntilExec_keeps cmd c : P c → P (retryUntilExec cmd c).2.
Proof using P_net P_other.
  intros HP. unfold retryUntilExec. gom_simpl.
  pose proof (retryExec_keeps (Z.to_nat maxRetries + 1) cmd 0 0 "" c HP).
  by destruct (retryExec _ _ _ _ _ c) as [[[]| |] ?].
Qed.

End kept.

(** Other goroutines send nothing, and a closed client stays closed. *)
Lemma otherStep_frame e c :
  c_net (otherStep e c).2 = c_net c ∧ c_metaServers (otherStep e c).2 = c_metaServers c ∧
  (c_closing c = true → c_closing (otherStep e c).2 = true).
Proof.
  destruct e as [b| |]; cbn; gom_simpl; [|unfold ClientClose, c_closing; by destruct (c_closingCh c) as [[]|] eqn:E; cbn; rewrite ?E|done].
  destruct (c_changed c); [|done].
  destruct (pollSnapshot_cases b c) as [(d & _ & ->)|[(? & _ & ->)|(_ & ->)]]; [|done..].
  destruct (installSnapshot_state d c) as [o ->]. by split_and!.
Qed.

(** ** Retries *)

(** The address [retryUntilExec] tries first. *)
Definition first_url (c : Client) (server : string) : string :=
  (url (c_tls c) server +:+ "/execute")%string.

Lemma retryExec_first_closed fuel cmd c :
  c_closing c = true → retryExec (S fuel) cmd 0 0 "" c = (Ok RetNil, c).
Proof. intros Hc. simpl. gom_simpl. by rewrite Hc. Qed.

Lemma retryExec_first_none fuel cmd c :
  c_closing c = false → c_metaServers c = [] → retryExec (S fuel) cmd 0 0 "" c = (Panics, c).
Proof. intros Hc Hs. simpl. gom_simpl. by rewrite Hc, Hs. Qed.

Lemma retryExec_first_refused fuel cmd c server servers m c1 :
  c_closing c = false → c_metaServers c = server :: servers →
  exec (first_url c server) cmd c = (Err (errCommand m), c1) →
  retryExec (S fuel) cmd 0 0 "" c = (Err (errCommand m), c1).
Proof.
  intros Hc Hs Hx. unfold first_url in Hx. simpl. gom_simpl. rewrite Hc, Hs.
  replace (len (server :: servers) <=? 0) with false
    by (symmetry; apply Z.leb_gt; unfold len; simpl; lia).
  change ((server :: servers) !! Z.to_nat 0) with (Some server). cbv beta iota. by rewrite Hx.
Qed.

(** *** Waiting for an index *)

(** A client that has been opened: [changed] is an open channel. *)
Definition opened (c : Client) : Prop := ∃ n, c_changed c = Some n ∧ live n.

(** Where a waiting call is, against the cache: the channel it receives from has been
    closed, or it is the current one and the cache is behind. *)
Definition wait_inv (idx : Z) (w : waiting) (c : Client) : Prop :=
  match w with
  | Receiving ch => changedClosed c ch = true ∨
      ClientIndex c < idx ∧ ∃ n, c_changed c = Some n ∧ nt_ch n = ch
  | _ => True
  end.

Lemma otherStep_wait_inv idx w e c :
  opened c → wait_inv idx w c → opened (otherStep e c).2 ∧ wait_inv idx w (otherStep e c).2.
Proof.
  intros (n & Hn & Hl) Hw. destruct e as [b| |]; cbn; gom_simpl.
  - rewrite Hn. destruct (pollSnapshot_cases b c) as [(d & _ & ->)|[(? & _ & ->)|(_ & ->)]];
      [|by split; [exists n|]..].
    destruct (installSnapshot_cases d c) as [(n' & Hn' & _ & _ & ->)|[[Hg ->]|[Hno ->]]].
    + assert (n' = n) as -> by congruence. split; [exists (notified n); split; [done|apply notified_live]|].
      destruct w as [| |ch]; cbn; [done..|]. left. unfold changedClosed. cbn [set_notif c_changed].
      destruct Hw as [Hw|(_ & n' & ? & <-)].
      * unfold changedClosed in Hw. rewrite Hn, chan.closed_true in Hw. apply chan.closed_true. cbn. apply lookup_app_l_Some.
        rewrite list_lookup_insert_ne; [done|]. intros <-. unfold live in Hl. congruence.
      * assert (n' = n) as -> by congruence. by apply notified_closed.
    + split; [by exists n|]. destruct w as [| |ch]; cbn; [done..|]. destruct Hw as [Hw|(Hi & Hc)]; [by left|right].
      split; [|done]. unfold grows in Hg. apply Z.ltb_ge in Hg. unfold ClientIndex in *. cbn. lia.
    + by destruct (Hno n Hn).
  - unfold ClientClose. destruct (c_closingCh c) as [[]|]; (split; [by exists n|done]).
  - split; [by exists n|done].
Qed.

Lemma waitStep_spec idx w c : opened c → wait_inv idx w c →
  ∃ w', waitStep idx w c = (Ok w', c) ∧ wait_inv idx w' c ∧
    (w' = Returned → w = Returned ∨ idx ≤ ClientIndex c) ∧
    (idx ≤ ClientIndex c → w = Looking → w' = Returned) ∧
    (idx ≤ ClientIndex c → ∀ ch, w = Receiving ch → w' = Looking).
Proof.
  intros (n & Hn & Hl) Hw. unfold waitStep. gom_simpl. destruct w as [| |ch].
  - exists Returned. split_and!; auto; done.
  - rewrite Hn. change (od_Index (d_Data (c_cacheData c))) with (ClientIndex c).
    destruct (Z.leb_spec idx (ClientIndex c)); eexists; split_and!; try done; try lia.
    right. split; [lia|eauto].
  - destruct (changedClosed c ch) eqn:Hc; eexists; split_and!; try done.
    intros Hi. destruct Hw as [Hw|[Hlt _]]; [congruence|lia].
Qed.

Lemma waitLoop_spec idx events w c r c' :
  opened c → wait_inv idx w c → w ≠ Returned → waitLoop idx events w c = (r, c') →
  opened c' ∧ (r = Ok Returned → idx ≤ ClientIndex c') ∧ (∀ w', r = Ok w' → wait_inv idx w' c').
Proof.
  revert w c. induction events as [|e events IH]; intros w c Ho Hw Hne; cbn [waitLoop]; gom_simpl.
  { intros [= <- <-]. split_and!; [done|congruence|]. by intros w' [= <-]. }
  destruct (decide (e = EvResume)) as [->|He].
  - destruct (waitStep_spec idx w c Ho Hw) as (w1 & -> & Hw1 & Hr & _). destruct (decide (w1 = Returned)) as [->|Hn1].
    + intros [= <- <-]. split_and!; [done| |by intros w' [= <-]]. intros _. by destruct Hr.
    + intros E. apply (IH w1 c); [done..|]. by destruct w1.
  - destruct (otherStep_wait_inv idx w e c Ho Hw) as [Ho1 Hw1].
    assert (∀ r1 c1, otherStep e c = (r1, c1) →
      match e with EvResume => waitStep idx w | _ => _ ← otherStep e; mret w end c =
      (match r1 with Ok _ => Ok w | Err e => Err e | Panics => Panics end, c1)) as Hm.
    { intros r1 c1 E. destruct e; [| |done]; gom_simpl; rewrite E; by destruct r1. }
    destruct (otherStep e c) as [r1 c1]. specialize (Hm _ _ eq_refl). gom_simpl. rewrite Hm. cbn [snd] in *.
    destruct r1 as [u|err|]; [|by intros [= <- <-]..].
    intros E. apply (IH w c1); [done..|]. by destruct w.
Qed.

(** A waiting call whose index has been reached returns after two turns. *)
Lemma waitLoop_two_turns idx w c :
  opened c → wait_inv idx w c → idx ≤ ClientIndex c → w ≠ Returned →
  waitLoop idx [EvResume; EvResume] w c = (Ok Returned, c).
Proof.
  intros Ho Hw Hi Hne. cbn [waitLoop]. gom_simpl.
  destruct (waitStep_spec idx w c Ho Hw) as (w1 & -> & Hw1 & _ & Hlook & Hrecv). destruct w as [| |ch]; [done| |].
  - by rewrite Hlook.
  - rewrite (Hrecv Hi ch) in * by done. destruct (waitStep_spec idx Looking c Ho I) as (w2 & -> & _ & _ & Hlook2 & _).
    by rewrite Hlook2.
Qed.

Lemma waitForIndex_spec idx c r c' :
  opened c → waitForIndex idx c = (r, c') →
  opened c' ∧ (r = Ok Returned → idx ≤ ClientIndex c') ∧ (∀ w', r = Ok w' → wait_inv idx w' c').
Proof.
  intros Ho. unfold waitForIndex. gom_simpl.
  destruct (waitStep_spec idx Looking c Ho I) as (w & -> & Hw & Hr & _). destruct w as [| |ch].
  { intros [= <- <-]. split_and!; [done| |by intros w' [= <-]]. intros _. by destruct Hr. }
  all: rewrite onNet_eq; destruct (schedule (c_net c)) as [[events|e|] n]; cbn;
    [by apply waitLoop_spec|by intros [= <- <-]..].
Qed.

(** A client that was never opened cannot wait. *)
Lemma waitForIndex_unopened idx c : c_changed c = None → waitForIndex idx c = (Panics, c).
Proof. intros Hn. unfold waitForIndex, waitStep. gom_simpl. by rewrite Hn. Qed.

Section retries.
  (** [requests] counts the posts that the network has seen. *)
  Context (requests : net → Z).
  Context (post_counts : ∀ u b n, requests (httpPost u b n).2 ≤ requests n + 1).
  (** What other goroutines do is no post of a command. *)
  Context (schedule_counts : ∀ n, requests (schedule n).2 ≤ requests n).

Let bounded (k : Z) (c : Client) : Prop := requests (c_net c) ≤ k.

Lemma other_bounded k e c : bounded k c → bounded k (otherStep e c).2.
Proof. unfold bounded. by destruct (otherStep_frame e c) as [-> _]. Qed.

Lemma schedule_bounded k c : bounded k c → bounded k (set_net (schedule (c_net c)).2 c).
Proof using schedule_counts. unfold bounded. cbn. pose proof (schedule_counts (c_net c)). lia. Qed.

Lemma interleave_requests k c : bounded k c → bounded k (interleave c).2.
Proof using schedule_counts.
  intros Hk. unfold interleave. gom_simpl. rewrite onNet_eq. pose proof (schedule_bounded k c Hk) as Hs.
  destruct (schedule (c_net c)) as [[events| |] n]; cbn in *; [|done..].
  apply (others_keep (bounded k)); [apply other_bounded|done].
Qed.

Lemma waitForIndex_requests k idx c : bounded k c → bounded k (waitForIndex idx c).2.
Proof using schedule_counts.
  intros Hk. unfold waitForIndex. gom_simpl. pose proof (waitStep_state idx Looking c) as Hst.
  destruct (waitStep idx Looking c) as [[w| |] c1]; cbn in Hst; subst c1; [|done..].
  pose proof (schedule_bounded k c Hk) as Hs. destruct w; [done|..]; rewrite onNet_eq;
    destruct (schedule (c_net c)) as [[events| |] n]; cbn in *; try done;
    (apply (waitLoop_keeps (bounded k)); [apply other_bounded|done]).
Qed.

(** How a call can end. *)
Definition ended (cmd : Command) (r : res retried) (c' : Client) : Prop :=
  r ≠ Ok RetFuel ∧
  (r = Ok RetNil → c_closing c' = true ∨
     ∃ u c1 idx c2, exec u cmd c1 = (Ok idx, c2) ∧ idx ≤ ClientIndex c') ∧
  (∀ idx w, r = Ok (RetWaits idx w) →
     (∃ u c1 c2, exec u cmd c1 = (Ok idx, c2)) ∧
     (idx ≤ ClientIndex c' → waitLoop idx [EvResume; EvResume] w c' = (Ok Returned, c'))).

Lemma ended_error cmd c' : (∀ e, ended cmd (Err e) c') ∧ ended cmd Panics c'.
Proof. split; [intros e|]; by split_and!. Qed.

Lemma others_opened events c : opened c → opened (for_each events otherStep c).2.
Proof. apply others_keep. intros e c1 Ho. by apply (otherStep_wait_inv 0 Looking e c1). Qed.

Lemma interleave_opened c : opened c → opened (interleave c).2.
Proof.
  apply interleave_keeps; [done|]. intros e c1 Ho. by apply (otherStep_wait_inv 0 Looking e c1).
Qed.

Lemma retryExec_spec fuel cmd tries cur redir c r c' :
  opened c → tries ≤ maxRetries < tries + Z.of_nat fuel →
  retryExec fuel cmd tries cur redir c = (r, c') →
  requests (c_net c') ≤ requests (c_net c) + (maxRetries + 1 - tries) ∧ ended cmd r c'.
Proof using post_counts schedule_counts.
  revert tries cur redir c. induction fuel as [|fuel IH]; intros tries cur redir c Ho Hf; [lia|].
  simpl. gom_simpl. destruct (c_closing c) eqn:Ec.
  { intros [= <- <-]. split; [lia|]. by split_and!; auto. }
  match goal with |- match ?m with _ => _ end = _ → _ => destruct m as [[[u cur']| |] c1] eqn:E1 end.
  2,3: assert (c1 = c) as -> by (repeat case_match; by simplify_eq);
       intros [= <- <-]; split; [lia|apply ended_error].
  assert (c1 = c) as -> by (repeat case_match; by simplify_eq). clear E1.
  destruct (exec u cmd c) as [r1 c1] eqn:E2.
  assert (bounded (requests (c_net c) + 1) c1 ∧ opened c1) as [Hr Ho1].
  { unfold bounded. destruct (exec_net _ _ _ _ _ E2) as [->|[b ->]]; split; try done; cbn; [lia|apply post_counts]. }
  pose proof (interleave_requests _ c1 Hr) as Hr2. pose proof (interleave_opened c1 Ho1) as Ho2.
  unfold bounded in Hr, Hr2.
  destruct r1 as [idx|e|]; [|destruct (Z.ltb_spec maxRetries (tries + 1))|].
  - destruct (interleave c1) as [[?| |] c2]; cbn in *; [|intros [= <- <-]; split; [lia|apply ended_error]..].
    pose proof (waitForIndex_requests _ idx c2 Hr2) as Hr3. unfold bounded in Hr3.
    destruct (waitForIndex idx c2) as [rw c3] eqn:E3. cbn in Hr3.
    destruct (waitForIndex_spec idx c2 rw c3 Ho2 E3) as (Ho3 & Hret & Hinv).
    destruct rw as [w| |]; intros [= <- <-]; (split; [lia|]); [|apply ended_error..].
    destruct w as [| |ch]; split_and!; try done.
    + intros _. right. eauto 10.
    + intros ? ? [= <- <-]. split; [by eauto|]. intros Hi. by apply waitLoop_two_turns; [|apply Hinv|..].
    + intros ? ? [= <- <-]. split; [by eauto|]. intros Hi. by apply waitLoop_two_turns; [|apply Hinv|..].
  - intros [= <- <-]. split; [lia|apply ended_error].
  - destruct e; try (destruct (interleave c1) as [[?| |] c2]; cbn in *;
      [intros E; apply IH in E as [? ?]; [split; [lia|done]|done|lia]
      |intros [= <- <-]; split; [lia|apply ended_error]..]).
    intros [= <- <-]. split; [lia|apply ended_error].
  - intros [= <- <-]. split; [lia|apply ended_error].
Qed.

(** C15. Executing a command on an open client, however the servers answer and
    whatever the poller and other goroutines that close the client do in between:
    at most eleven requests are sent and the loop ends.  It returns nil only when
    the client was closed, or when a server accepted the command and the cached
    metadata have reached the index of its entry; a call that still waits for that
    index returns as soon as the cache has reached it and the call got the
    processor twice, so no wake-up is lost.  A client that is closed at the start
    returns nil without sending anything; an open one without servers panics; a
    refusal by the first server asked is returned at once. *)
Theorem retryUntilExec_outcome cmd c r c' :
  opened c → retryExec (Z.to_nat maxRetries + 1) cmd 0 0 "" c = (r, c') →
  requests (c_net c') ≤ requests (c_net c) + 11 ∧ r ≠ Ok RetFuel ∧
  (r = Ok RetNil → c_closing c' = true ∨
     ∃ u c1 idx c2, exec u cmd c1 = (Ok idx, c2) ∧ idx ≤ ClientIndex c') ∧
  (∀ idx w, r = Ok (RetWaits idx w) →
     (∃ u c1 c2, exec u cmd c1 = (Ok idx, c2)) ∧
     (idx ≤ ClientIndex c' → waitLoop idx [EvResume; EvResume] w c' = (Ok Returned, c'))) ∧
  (c_closing c = true → r = Ok RetNil ∧ c' = c) ∧
  (c_closing c = false → c_metaServers c = [] → r = Panics) ∧
  (∀ server servers m c1, c_closing c = false → c_metaServers c = server :: servers →
     exec (first_url c server) cmd c = (Err (errCommand m), c1) →
     r = Err (errCommand m) ∧ c' = c1) ∧
  (retryUntilExec cmd c).1 = match r with Ok RetNil => Ok tt | Ok _ | Panics => Panics | Err e => Err e end.
Proof using post_counts schedule_counts.
  intros Ho E. change (Z.to_nat maxRetries + 1)%nat with (S 10) in E.
  pose proof E as (Hreq & Hfuel & Hnil & Hwaits)%retryExec_spec; [|done|unfold maxRetries; lia].
  split_and!; [exact Hreq|done|done|done|..].
  - intros Hc. rewrite (retryExec_first_closed _ _ _ Hc) in E. by simplify_eq.
  - intros Hc Hs. rewrite (retryExec_first_none _ _ _ Hc Hs) in E. by simplify_eq.
  - intros server servers m c1 Hc Hs Hx.
    rewrite (retryExec_first_refused _ _ _ _ _ _ _ Hc Hs Hx) in E. by simplify_eq.
  - unfold retryUntilExec. gom_simpl. change (Z.to_nat maxRetries + 1)%nat with (S 10). rewrite E.
    by destruct r as [[]| |].
Qed.

End retries.

(** ** Authentication *)

(** Every cached entry belongs to a known user with the same stored hash, and
    is the salted hash of a password that bcrypt accepted for it. *)
Definition auth_inv (c : Client) : Prop :=
  ∀ name au, c_authCache c !! name = Some au →
  ∃ u pw, MetaData.User (c_cacheData c) name = Some u ∧ u_Hash u = au_bhash au ∧
    bcryptCompare (u_Hash u) pw = true ∧ au_hash au = hashWithSalt (au_salt au) pw.

Lemma User_unique d u :
  NoDup (u_Name <$> d_Users d) → u ∈ d_Users d → MetaData.User d (u_Name u) = Some u.
Proof.
  unfold MetaData.User. intros Hnd Hu.
  destruct (list_find_elem_of (λ u', u_Name u' = u_Name u) _ _ Hu eq_refl) as [[i u'] Hf].
  rewrite Hf. cbn. f_equal. apply list_find_Some in Hf as (Hi & Hn & _).
  apply list_elem_of_lookup in Hu as [j Hj].
  assert (i = j) as ->; [|congruence].
  eapply NoDup_lookup; [exact Hnd|rewrite list_lookup_fmap, Hi; cbn; by rewrite Hn
    |by rewrite list_lookup_fmap, Hj].
Qed.

Lemma installSnapshot_auth_inv d c :
  NoDup (u_Name <$> d_Users d) → auth_inv c → auth_inv (installSnapshot d c).2.
Proof.
  intros Hnd Hinv name au. destruct (installSnapshot_state d c) as [o ->]. intros Hau. cbn in Hau.
  apply updateAuthCache_lookup_inv in Hau as (Hau & u & Hu & Hn & Hh).
  destruct (Hinv _ _ Hau) as (u0 & pw & _ & Hu0 & Hb & Hs).
  exists u, pw. split_and!; [|done|congruence|done]. subst name. by apply User_unique.
Qed.

(** What [Authenticate] does: the cache hit, the refusal, and a new entry. *)
Lemma Authenticate_cases name pw c r c' u :
  MetaData.User (c_cacheData c) name = Some u →
  Authenticate name pw c = (r, c') →
  (∃ au, c_authCache c !! name = Some au ∧ hashWithSalt (au_salt au) pw = au_hash au ∧
     r = Ok u ∧ c' = c) ∨
  (bcryptCompare (u_Hash u) pw = false ∧ r = Err ErrAuthenticate ∧ c' = c) ∨
  (bcryptCompare (u_Hash u) pw = true ∧
   ((∃ salt, r = Ok u ∧ (randomSalt (c_net c)).1 = Ok salt ∧
       c_cacheData c' = c_cacheData c ∧
       c_authCache c' = <[name := mkAuthUser (u_Hash u) salt (hashWithSalt salt pw)]> (c_authCache c)) ∨
    ((∀ salt, (randomSalt (c_net c)).1 ≠ Ok salt) ∧ (∀ u, r ≠ Ok u) ∧
       c' = set_net (randomSalt (c_net c)).2 c))).
Proof.
  intros Hu. unfold Authenticate, saltedHash. gom_simpl. rewrite Hu.
  case_match eqn:Ec.
  { intros [= <- <-]. left. destruct (c_authCache c !! name) as [au|]; [|done].
    apply bool_decide_eq_true in Ec. eauto. }
  destruct (bcryptCompare (u_Hash u) pw); cbn; [|intros [= <- <-]; auto].
  rewrite onNet_eq. intros E. right; right. split; [done|].
  destruct (randomSalt (c_net c)) as [[salt| |] n]; cbn in *; injection E as <- <-; eauto 10.
Qed.

(** C22. [Authenticate] agrees with bcrypt in spite of its cache.  With the cache
    invariant, a user it returns is the known user of that name and bcrypt
    accepts the password for the stored hash, unless another accepted password
    has the same salted SHA-256 sum; a password that bcrypt refuses is refused
    whenever no such collision exists, one that it accepts is accepted whenever
    salt can be drawn.  The invariant is kept, also by installing a snapshot with
    distinct user names. *)
Theorem Authenticate_agrees_with_bcrypt name pw c r c' :
  auth_inv c →
  Authenticate name pw c = (r, c') →
  auth_inv c' ∧
  (∀ d, NoDup (u_Name <$> d_Users d) → auth_inv (installSnapshot d c').2) ∧
  (∀ u, r = Ok u → MetaData.User (c_cacheData c) name = Some u ∧
     (bcryptCompare (u_Hash u) pw = true ∨
      ∃ salt pw', pw' ≠ pw ∧ bcryptCompare (u_Hash u) pw' = true ∧
        hashWithSalt salt pw' = hashWithSalt salt pw)) ∧
  (∀ u salt, MetaData.User (c_cacheData c) name = Some u →
     bcryptCompare (u_Hash u) pw = true → (randomSalt (c_net c)).1 = Ok salt → r = Ok u) ∧
  (MetaData.User (c_cacheData c) name = None → r = Err ErrUserNotFound ∧ c' = c).
Proof.
  intros Hinv E.
  assert (auth_inv c' ∧
    (∀ u, r = Ok u → MetaData.User (c_cacheData c) name = Some u ∧
     (bcryptCompare (u_Hash u) pw = true ∨
      ∃ salt pw', pw' ≠ pw ∧ bcryptCompare (u_Hash u) pw' = true ∧
        hashWithSalt salt pw' = hashWithSalt salt pw)) ∧
    (∀ u salt, MetaData.User (c_cacheData c) name = Some u →
     bcryptCompare (u_Hash u) pw = true → (randomSalt (c_net c)).1 = Ok salt → r = Ok u) ∧
    (MetaData.User (c_cacheData c) name = None → r = Err ErrUserNotFound ∧ c' = c)) as (Hi & ? & ? & ?);
    [|split_and!; auto using installSnapshot_auth_inv].
  destruct (MetaData.User (c_cacheData c) name) as [u|] eqn:Hu.
  2:{ unfold Authenticate in E. revert E. gom_simpl. rewrite Hu. intros [= <- <-].
      split_and!; [done|done|done|done]. }
  destruct (Authenticate_cases _ _ _ _ _ _ Hu E)
    as [(au & Hau & Hh & -> & ->)|[(Hb & -> & ->)|(Hb & [(salt & -> & Hs & Hd & Ha)|(Hs & Hr & ->)])]].
  - split_and!; [done| |congruence|done]. intros ? [= <-]. split; [done|].
    destruct (Hinv _ _ Hau) as (u' & pw' & Hu' & Hx & Hpw & Hs). simplify_eq.
    destruct (decide (pw' = pw)) as [->|]; [by left|right]. exists (au_salt au), pw'. by rewrite Hh.
  - split_and!; [done|done|congruence|done].
  - split_and!; [|intros ? [= <-]; auto|congruence|done].
    intros name' au. rewrite Ha, Hd, lookup_insert_Some. intros [[<- <-]|[_ ?]]; [|by apply Hinv].
    exists u, pw. done.
  - split_and!; [done|naive_solver|naive_solver|done].
Qed.

(** ** What a client can see *)

(** The operations of a client that replace its cache or talk to the servers;
    every command of the interface is an [op_exec]. *)
Inductive client_op : Type :=
  | op_SetMetaServers (a : list string)
  | op_SetTLS (v : bool)
  | op_Close
  | op_Open (fuel : nat)
  | op_poll (body : list byte)
  | op_exec (cmd : Command)
  | op_Authenticate (name pw : string)
  | op_AcquireLease (name : string).

Definition run_op (o : client_op) (c : Client) : Client :=
  match o with
  | op_SetMetaServers a => (SetMetaServers a c).2
  | op_SetTLS v => (SetTLS v c).2
  | op_Close => (ClientClose c).2
  | op_Open fuel => (ClientOpen fuel c).2
  | op_poll b => (otherStep (EvPoll b) c).2
  | op_exec cmd => (retryUntilExec cmd c).2
  | op_Authenticate name pw => (Authenticate name pw c).2
  | op_AcquireLease name => (AcquireLease name c).2
  end.

Definition blind (c : Client) : Prop := DataNodes c = [] ∧ Users c = [].

Lemma otherStep_blind e c : blind c → blind (otherStep e c).2.
Proof.
  intros Hb. destruct e as [b| |]; cbn; gom_simpl; [|unfold ClientClose; by destruct (c_closingCh c) as [[]|]|done].
  destruct (c_changed c); [|done].
  destruct (pollSnapshot_cases b c) as [(d & Hd & ->)|[(? & _ & ->)|(_ & ->)]]; [|done..].
  destruct (installSnapshot_state d c) as [o ->]. by apply (decodeSnapshot_blind b d).
Qed.

Lemma getSnapshot_net server idx c :
  ∃ n, (getSnapshot server idx c).2 = set_net n c ∧
    ∀ d, (getSnapshot server idx c).1 = Ok d → d_DataNodes d = [] ∧ d_Users d = [].
Proof.
  unfold getSnapshot. gom_simpl. rewrite onNet_eq.
  match goal with |- context [httpGet ?u] => destruct (httpGet u (c_net c)) as [[resp| |] n] end;
    cbn; [|by exists n..].
  destruct (negb _); [by exists n|]. destruct (hr_Body resp) as [b| |]; [|by exists n..].
  exists n. split; [done|]. apply decodeSnapshot_blind.
Qed.

Lemma retryUntilSnapshot_net fuel cur idx c :
  ∃ n, (retryUntilSnapshot fuel cur idx c).2 = set_net n c ∧
    ∀ d, (retryUntilSnapshot fuel cur idx c).1 = Ok (Some (Some d)) →
      d_DataNodes d = [] ∧ d_Users d = [].
Proof.
  revert cur c. induction fuel as [|fuel IH]; intros cur c; simpl.
  { exists (c_net c). by rewrite set_net_id. }
  gom_simpl. destruct (c_closing c); [exists (c_net c); by rewrite set_net_id|].
  case_match; [|exists (c_net c); by rewrite set_net_id].
  match goal with |- context [getSnapshot ?s idx c] => destruct (getSnapshot_net s idx c) as (n & Hn & Hd);
    destruct (getSnapshot s idx c) as [[d| |] c1] end; cbn in *; subst c1.
  - exists n. split; [done|]. intros ? [= <-]. by apply Hd.
  - match goal with |- context [retryUntilSnapshot fuel ?k idx] =>
      destruct (IH k (set_net n c)) as (n' & Hn' & Hd') end.
    exists n'. by rewrite Hn'.
  - by exists n.
Qed.

Lemma tryLease_net servers name c : ∃ n, (tryLease servers name c).2 = set_net n c.
Proof.
  revert c. induction servers as [|s servers IH]; intros c; simpl.
  { exists (c_net c). symmetry. apply set_net_id. }
  gom_simpl. rewrite onNet_eq.
  match goal with |- context [httpGet ?u] => destruct (httpGet u (c_net c)) as [[resp| |] n] end;
    cbn; [|by exists n..].
  repeat (case_match; [by exists n|]).
  destruct (hr_StatusCode resp =? StatusOK); [destruct (hr_Body resp); by exists n|].
  destruct (hr_StatusCode resp =? StatusConflict).
  { destruct (IH (set_net n c)) as [n' ->]. by exists n'. }
  repeat case_match; by exists n.
Qed.

Lemma leaseAttempts_net k name c : ∃ n, (leaseAttempts k name c).2 = set_net n c.
Proof.
  revert c. induction k as [|k IH]; intros c; simpl.
  { exists (c_net c). symmetry. apply set_net_id. }
  gom_simpl. unfold acquireLease. gom_simpl. destruct (tryLease_net (MetaServers c) name c) as [n Hn].
  destruct (tryLease _ name c) as [[l|e|] c1]; cbn in *; subst c1; [by exists n| |by exists n].
  destruct e; try by exists n; cbn.
  all: destruct k; [by exists n|]; destruct (IH (set_net n c)) as [n' ->]; by exists n'.
Qed.

Lemma run_op_blind o c : blind c → blind (run_op o c).
Proof.
  intros Hb. destruct o; simpl;
    [first [done|unfold ClientClose; by destruct (c_closingCh c) as [[]|]]..| | | | |].
  - unfold ClientOpen. gom_simpl.
    match goal with |- context [retryUntilSnapshot fuel 0 0 ?c1] =>
      destruct (retryUntilSnapshot_net fuel 0 0 c1) as (n & Hn & Hd);
      destruct (retryUntilSnapshot fuel 0 0 c1) as [[[[d|]|]| |] c2] end; cbn in *; subst c2; try done.
    by apply Hd.
  - by apply (otherStep_blind (EvPoll body)).
  - apply retryUntilExec_keeps; [done|apply otherStep_blind|done].
  - destruct (MetaData.User (c_cacheData c) name) as [u|] eqn:Hu.
    { unfold MetaData.User in Hu. destruct Hb as [_ Hb]. unfold Users in Hb. by rewrite Hb in Hu. }
    unfold Authenticate. gom_simpl. by rewrite Hu.
  - unfold AcquireLease. destruct (leaseAttempts_net 10 name c) as [n ->]. done.
Qed.

(** A client never sees a data node or a user, whatever it does and whatever
    the servers answer: starting from a new client, after any operations the
    cached lists are empty, every lookup of a data node reports
    [ErrNodeNotFound], authentication reports [ErrUserNotFound], and
    [CreateDataNode] cannot succeed. *)
Theorem client_never_sees_nodes_or_users n0 ops :
  let c := fold_left (λ c o, run_op o c) ops (NewClient n0) in
  DataNodes c = [] ∧ Users c = [] ∧
  (∀ id, ClientDataNode id c = Err ErrNodeNotFound) ∧
  (∀ name pw, Authenticate name pw c = (Err ErrUserNotFound, c)) ∧
  (∀ httpAddr tcpAddr n, (ClientCreateDataNode httpAddr tcpAddr c).1 ≠ Ok n).
Proof.
  intros c.
  assert (blind c) as [Hn Hu].
  { subst c. assert (blind (NewClient n0)) as Hb by done. revert Hb. generalize (NewClient n0).
    induction ops as [|o ops IH]; intros c Hb; simpl; [done|]. apply IH. by apply run_op_blind. }
  split_and!; [done|done| | |].
  - intros id. unfold ClientDataNode, node_by_id. unfold DataNodes in Hn. by rewrite Hn.
  - intros name pw. unfold Authenticate, MetaData.User. gom_simpl. unfold Users in Hu. by rewrite Hu.
  - intros h a n. unfold ClientCreateDataNode, runCmd. gom_simpl.
    match goal with |- context [retryUntilExec ?k c] =>
      pose proof (retryUntilExec_keeps blind (λ _ _ Hb, Hb) otherStep_blind k c (conj Hn Hu)) as [Hn1 _];
      destruct (retryUntilExec k c) as [[?| |] c1] end; [|done..].
    cbn. unfold DataNodeByTCPHost, node_by_tcp. cbn in Hn1. by rewrite Hn1.
Qed.

(** ** Pre-creation and leases *)

(** The last group of a policy is live and ends within the window. *)
Definition due (from to : Z) (rp : RetentionPolicyInfo) : bool :=
  match last (rpi_ShardGroups rp) with
  | None => false
  | Some g => negb (sgi_Deleted g) && (sgi_EndTime g <? to) && (from <? sgi_EndTime g)
  end.

(** [PrecreateShardGroups] looks at the first database only: when none of
    its policies is due it reports success and sends nothing, whichever policies
    of the other databases are due. *)
Theorem PrecreateShardGroups_first_database from to c di rest :
  od_Databases (d_Data (c_cacheData c)) = di :: rest →
  Forall (λ rp, due from to rp = false) (dbi_RetentionPolicies di) →
  PrecreateShardGroups from to c = (Ok tt, c).
Proof.
  intros Hd Hf. unfold PrecreateShardGroups. gom_simpl. rewrite Hd.
  induction Hf as [|rp rps Hrp _ IH]; simpl; [done|]. gom_simpl.
  unfold precreate at 1. unfold due in Hrp.
  destruct (last (rpi_ShardGroups rp)) as [g|]; [rewrite Hrp|]; exact IH.
Qed.

(** A conflict on every server is reported as an unrecognized error. *)
Lemma acquireLease_conflict name c :
  (∀ u n, (httpGet u n).1 = Ok (mkResponse StatusConflict "" (Ok []))) →
  ∃ n, AcquireLease name c = (Err (errorf "unrecognized meta service error"), set_net n c).
Proof.
  intros Hc. assert (∀ servers c, ∃ n,
    tryLease servers name c = (Err (errorf "unrecognized meta service error"), set_net n c)) as Ht.
  { intros servers. induction servers as [|s servers IH]; intros c1; simpl.
    - exists (c_net c1). by rewrite set_net_id.
    - gom_simpl. rewrite onNet_eq, Hc. cbn. destruct (IH (set_net (httpGet
        (url (c_tls c1) s +:+ "/lease?name=" +:+ name +:+ "&nodeid="
           +:+ strconv.FormatUint (c_nodeID c1)) (c_net c1)).2 c1)) as [n Hn].
      exists n. by rewrite Hn. }
  unfold AcquireLease, leaseAttempts, acquireLease. gom_simpl.
  destruct (Ht (MetaServers c) c) as [n ->]. by exists n.
Qed.

End client.

(** ** Instances to run *)

(** A snapshot is encoded by as many bytes as its index. *)
Definition demo_snapshots : OssMeta := {|
  oss_Clone d := d;
  oss_MarshalBinary _ := Ok [];
  oss_UnmarshalBinary b := modify (set_TermIndex 1 (len b));
  oss_RetentionPolicy d db rp := Ok (find_policy d db rp);
  oss_ShardGroupByTimestamp r t := snd <$> list_find (λ g, covers g t) (rpi_ShardGroups r);
  oss_ShardGroupLess a b := sgi_StartTime a <? sgi_StartTime b;
  oss_OwnedBy s n := bool_decide (mkShardOwner n ∈ si_Owners s);
  proto_Marshal pb := Err (errorf "required field not set");
  proto_Unmarshal b := Ok (mkPbClusterData (Some b) (Some 0) [] [] []);
|}.

(** A network that counts the posts: the first is answered with an error, the
    later ones with the index 5.  Bcrypt and SHA-256 are replaced by the
    identity. *)
Definition demo_transport : Transport := {|
  net := Z;
  httpPost _ _ n := (Ok (mkResponse (if n =? 0 then StatusServiceUnavailable else StatusOK) "" (Ok [])), n + 1);
  httpGet _ n := (Err (errorf "connection refused"), n);
  response_Unmarshal _ := Ok (mkPbResponse "" 5);
  lease_Unmarshal _ := Err EOF;
  strings_Unmarshal _ := Err EOF;
  node_MarshalJSON _ := Err EOF;
  node_UnmarshalJSON _ _ := Err EOF;
  schedule n := (Ok [EvResume; EvPoll []; EvPoll (replicate 5 x00); EvResume; EvResume], n);
  bcryptCompare h p := bool_decide (h = p);
  bcryptGenerate p := Ok p;
  sha256 b := b;
  randomSalt n := (Ok [x07], n);
|}.

Definition demo_client_oss : OssClient := {|
  rpi_MarshalBinary _ := Ok [];
  dbi_RetentionPolicy d n := snd <$> list_find (λ r, rpi_Name r = n) (dbi_RetentionPolicies d);
  sgi_Deleted g := negb (sgi_DeletedAt g =? zeroTime);
  sgi_Overlaps g lo hi := (sgi_StartTime g <=? hi) && (lo <? sgi_EndTime g);
  od_ShardGroupByTimestamp _ _ _ _ := Ok None;
  od_UserAdmins _ := [];
  od_UserPrivileges _ _ := Ok ∅;
  od_UserPrivilege _ _ _ := Ok 0;
|}.

#[local] Existing Instances demo_snapshots demo_commands demo_transport demo_client_oss.

Definition demo_cmd : Command := mkCommand DeleteMetaNodeCommand (Some (ExtDeleteMetaNode 1)).

Definition demo_client : Client :=
  set_cache (set_Data (set_TermIndex 1 1 zeroOss) demo_data) ∅
    (set_metaServers ["m0"%string; "m1"%string] (NewClient (0 : net))).

(** The client after it has been opened. *)
Definition demo_opened : Client := set_notif (Some (newChanged None)) demo_client.

(** The second server accepts the command; the poller then receives an old snapshot and
    one with the index 5 before the call looks again. *)
Lemma retryUntilExec_outcome_witness :
  let '(r, c') := retryExec (Z.to_nat maxRetries + 1) demo_cmd 0 0 "" demo_opened in
  r = Ok RetNil ∧ (c_net c' : Z) ≤ 0 + 11 ∧
  (retryUntilExec demo_cmd demo_opened).1 = Ok tt ∧
  (c_closing c' = true ∨ ∃ u c1 idx c2, exec u demo_cmd c1 = (Ok idx, c2) ∧ idx ≤ ClientIndex c').
Proof.
  destruct (retryExec (Z.to_nat maxRetries + 1) demo_cmd 0 0 "" demo_opened) as [r c'] eqn:E.
  assert (r = Ok RetNil) as Hr by (vm_compute in E; by injection E).
  destruct (retryUntilExec_outcome (H1 := demo_transport) (λ n : Z, n) (λ _ _ n, Z.le_refl (n + 1)) (λ n, Z.le_refl n)
    demo_cmd demo_opened r c') as (Hreq & _ & Hnil & _ & _ & _ & _ & Hu).
  - eexists. split; [reflexivity|]. reflexivity.
  - exact E.
  - split; [exact Hr|]. split; [exact Hreq|]. split; [by rewrite Hu, Hr|exact (Hnil Hr)].
Defined.

(** Jane logs in with the password that is her hash. *)
Lemma Authenticate_agrees_with_bcrypt_witness :
  let c' := (Authenticate "jane" "h" demo_client).2 in
  auth_inv c' ∧ (Authenticate "jane" "h" demo_client).1 = Ok (mkUserInfo "jane" "h" true).
Proof.
  intros c'.
  destruct (Authenticate_agrees_with_bcrypt "jane" "h" demo_client
    (Authenticate "jane" "h" demo_client).1 c') as (Hi & _ & _ & Hok & _).
  - intros name au. cbn. by rewrite lookup_empty.
  - subst c'. by destruct (Authenticate "jane" "h" demo_client).
  - split; [exact Hi|]. apply (Hok _ [x07]); reflexivity.
Defined.

Definition two_databases : Data :=
  set_Data (set_Databases [mkDatabaseInfo "idle" "autogen" [];
    mkDatabaseInfo "db" "autogen" [
      set_ShardGroups [mkShardGroupInfo 1 0 time.Hour zeroTime []] demo_policy]] zeroOss) zeroData.

(** The policy of the second database is due, and nothing is sent. *)
Lemma PrecreateShardGroups_first_database_witness :
  let c := set_cache two_databases ∅ (NewClient (0 : net)) in
  due 0 (2 * time.Hour)
    (set_ShardGroups [mkShardGroupInfo 1 0 time.Hour zeroTime []] demo_policy) = true ∧
  PrecreateShardGroups 0 (2 * time.Hour) c = (Ok tt, c).
Proof.
  intros c. split; [reflexivity|].
  eapply (PrecreateShardGroups_first_database 0 (2 * time.Hour) c); [reflexivity|]. constructor.
Defined.
