(* ===== verification/Handler.v ===== *)
(** * The HTTP handler of a meta server (meta/handler.go)

    The handler serves the commands, snapshots, leases and pings of the clients
    from its store.  Requests, the response writer and the codecs are those of
    net/http, gogo/protobuf and encoding/json; the lease table is not defined in
    the repository and is a parameter. *)

From Stdlib Require Import ZArith Lia.
From Stdlib Require Import Strings.Byte Strings.String DecimalString.
From S2P Require Import Prelude GoLib MetaData MetaTheorems StoreFSM Store StoreTheorems MetaClient ClientTheorems.

Local Open Scope Z_scope.

Record Request : Type := mkRequest {
  rq_Method : string;
  rq_Path : string;
  rq_Query : list (string * string);
  rq_Body : res (list byte);   (* what reading the body gives *)
}.

(** [r.URL.Query().Get(key)] *)
Definition queryGet (key : string) (r : Request) : string :=
  default ""%string (snd <$> (snd <$> list_find (λ kv, kv.1 = key) (rq_Query r))).

(** What a handler has sent: [None] until the status line is written. *)
Record ResponseWriter : Type := mkWriter {
  rw_Status : option Z;
  rw_Location : string;
  rw_Body : list byte;
}.

Definition newWriter : ResponseWriter := mkWriter None "" [].

Class Serving : Type := {
  (** [proto.Marshal(&internal.Response{OK, Error, Index})] *)
  response_Marshal : bool → option string → option Z → res (list byte);
  errText : error → string;   (* err.Error() *)
  leases_t : Type;
  lease_t : Type;
  (** [Leases.Acquire(name, nodeID)]: always a lease, and whether it is ours. *)
  leases_Acquire : string → Z → GoM leases_t (lease_t * bool);
  lease_Marshal : lease_t → res (list byte);
  queryEncode : list (string * string) → string;
  (** GET of a url of another meta server: the body of the answer. *)
  peerGet : string → res (list byte);
}.

Section handler.
  Context `{OssMeta, OssCommands, Raft, Serving}.

(** [hd_remoteAddr] is the value of [h.s.remoteAddr(h.s.httpAddr)]. *)
Record handler : Type := mkHandler {
  hd_store : store;
  hd_leases : leases_t;
  hd_closing : bool;
  hd_HTTPSEnabled : bool;
  hd_remoteAddr : string;
}.

Definition set_store (s : store) (h : handler) : handler :=
  mkHandler s (hd_leases h) (hd_closing h) (hd_HTTPSEnabled h) (hd_remoteAddr h).
Definition set_leases (l : leases_t) (h : handler) : handler :=
  mkHandler (hd_store h) l (hd_closing h) (hd_HTTPSEnabled h) (hd_remoteAddr h).

(** A handler function runs with the response writer of its request. *)
Definition HandlerM (A : Type) : Type := GoM (handler * ResponseWriter) A.

Definition onStore {A} (m : GoM store A) : HandlerM A :=
  zoom (λ s, hd_store s.1) (λ st s, (set_store st s.1, s.2)) m.
Definition onLeases {A} (m : GoM leases_t A) : HandlerM A :=
  zoom (λ s, hd_leases s.1) (λ l s, (set_leases l s.1, s.2)) m.

(** ** net/http *)

(** [w.WriteHeader(code)]: only the first call counts. *)
Definition WriteHeader (code : Z) : HandlerM unit := modify (λ s,
  (s.1, mkWriter (Some (default code (rw_Status s.2))) (rw_Location s.2) (rw_Body s.2))).

(** [w.Write(b)] *)
Definition WriteBody (b : list byte) : HandlerM unit := modify (λ s,
  (s.1, mkWriter (Some (default StatusOK (rw_Status s.2))) (rw_Location s.2) (rw_Body s.2 ++ b))).

(** [http.Error(w, text, code)] *)
Definition http_Error (text : string) (code : Z) : HandlerM unit :=
  _ ← WriteHeader code;
  WriteBody (list_byte_of_string text ++ [x0a]).

(** [http.Redirect(w, r, url, http.StatusTemporaryRedirect)], without the body
    that it writes for a GET. *)
Definition Redirect (u : string) : HandlerM unit :=
  _ ← modify (λ s, (s.1, mkWriter (rw_Status s.2) u (rw_Body s.2)));
  WriteHeader StatusTemporaryRedirect.

(** [httpError(err, w, status)] *)
Definition httpError (status : Z) : HandlerM unit := http_Error "" status.

(** ** The handlers *)

(** [Close()], which may be called again, and [isClosed()] *)
Definition HandlerClose (h : handler) : handler :=
  mkHandler (hd_store h) (hd_leases h) true (hd_HTTPSEnabled h) (hd_remoteAddr h).
Definition handlerClosed (h : handler) : bool := hd_closing h.

Definition scheme (h : handler) : string := (if hd_HTTPSEnabled h then "https://" else "http://")%string.

(** [validateCommand(b)] *)
Definition validateCommand (b : list byte) : bool :=
  match cmd_Unmarshal b with Some _ => true | None => false end.

Definition sendMarshalled (b : res (list byte)) : HandlerM unit :=
  match b with
  | Ok b => WriteBody b
  | Err _ => httpError StatusInternalServerError
  | Panics => panic
  end.

(** [serveExec(w, r)] *)
Definition serveExec (now : Z) (r : Request) : HandlerM unit :=
  h ← gets fst;
  if handlerClosed h then httpError StatusServiceUnavailable
  else
    match rq_Body r with
    | Panics => panic
    | Err _ => httpError StatusInternalServerError
    | Ok body =>
        if negb (validateCommand body) then httpError StatusBadRequest
        else
          a ← attempt (onStore (store_apply now body));
          h ← gets fst;
          match a with
          | inl ErrNotLeader =>
              let l := leaderHTTP (hd_store h) in
              if decide (l = ""%string) then httpError StatusServiceUnavailable
              else Redirect (scheme h +:+ l +:+ "/execute")%string
          | inl err => sendMarshalled (response_Marshal false (Some (errText err)) None)
          | inr _ => sendMarshalled (response_Marshal false None (Some (index (hd_store h))))
          end
    end.

(** The index that [serveSnapshot] waits for: a query that does not parse is
    answered with an error, and the handler goes on with the value that
    [ParseUint] returned, zero for a syntax error and the largest number for one
    out of range. *)
Definition snapshotIndex (r : Request) : HandlerM Z :=
  match strconv.ParseUint (queryGet "index" r) with
  | Some index => mret index
  | None => _ ← http_Error "error parsing index" StatusBadRequest;
            mret (if NilZero.uint_of_string (queryGet "index" r) is Some _ then 2 ^ 64 - 1 else 0)
  end.

(** The cases of the select of [serveSnapshot]. *)
Inductive wakeup : Type := DataWakeup | CloseNotify | ClosingWakeup.

(** [serveSnapshot(w, r)] when the select receives [e]; false when the channel of
    the store is not closed yet and the request keeps waiting. *)
Definition serveSnapshot (e : wakeup) (r : Request) : HandlerM bool :=
  h ← gets fst;
  if handlerClosed h then _ ← httpError StatusInternalServerError; mret true
  else
    index ← snapshotIndex r;
    match e with
    | DataWakeup =>
        ch ← onStore (afterIndex index);
        h ← gets fst;
        if isClosed (hd_store h) ch then
          _ ← sendMarshalled (MarshalBinary (snapshot (hd_store h)));
          mret true
        else mret false
    | CloseNotify => mret true
    | ClosingWakeup => _ ← httpError StatusInternalServerError; mret true
    end.

(** The loop of [servePing] over the other servers. *)
Fixpoint allHealthy (h : handler) (leader : string) (servers : list string) : bool :=
  match servers with
  | [] => true
  | n :: servers' =>
      match peerGet (scheme h +:+ n +:+ "/ping")%string with
      | Ok b => if decide (leader = string_of_list_byte b) then allHealthy h leader servers' else false
      | _ => false
      end
  end.

(** [servePing(w, r)] *)
Definition servePing (r : Request) : HandlerM unit :=
  h ← gets fst;
  let leader := leader (hd_store h) in
  if decide (queryGet "all" r = ""%string) then WriteBody (list_byte_of_string leader)
  else if allHealthy h leader (otherMetaServersHTTP (hd_store h))
  then WriteBody (list_byte_of_string leader)
  else httpError StatusInternalServerError.

(** [serveLease(w, r)] *)
Definition serveLease (r : Request) : HandlerM unit :=
  let name := queryGet "name" r in
  let nodeIDStr := queryGet "nodeid" r in
  if decide (name = ""%string) then http_Error "lease name required" StatusBadRequest
  else if decide (nodeIDStr = ""%string) then http_Error "node ID required" StatusBadRequest
  else
    h ← gets fst;
    let leader := leaderHTTP (hd_store h) in
    if decide (leader ≠ hd_remoteAddr h) then
      if decide (leader = ""%string) then httpError StatusServiceUnavailable
      else Redirect (scheme h +:+ leader +:+ "/lease?" +:+ queryEncode (rq_Query r))%string
    else
      match strconv.ParseUint nodeIDStr with
      | None => http_Error "invalid node ID" StatusBadRequest
      | Some nodeID =>
          '(l, own) ← onLeases (leases_Acquire name nodeID);
          match lease_Marshal l with
          | Panics => panic
          | Err _ => httpError StatusInternalServerError
          | Ok b =>
              _ ← WriteHeader (if own : bool then StatusOK else StatusConflict);
              WriteBody b
          end
      end.

(** ** Routing *)

(** An [http.Handler] value; [None] is the nil interface, whose method panics. *)
Definition Handler : Type := option (HandlerM unit).

Definition callHandler (f : Handler) : HandlerM unit :=
  match f with Some m => m | None => panic end.

(** [gzipFilter], [versionHeader], [requestID] and [logging] call the handler
    they wrap; what they do to the response and the log is in [ResponseLogger].
    [recovery] swallows a panic. *)
Definition wrapped (inner : Handler) : Handler := Some (callHandler inner).

Definition recovery (inner : Handler) : Handler := Some (λ s,
  match callHandler inner s with
  | (Panics, s') => (Ok tt, s')
  | x => x
  end).

(** [WrapHandler(name, hf)]: the conversion of [hf] is commented out, so the
    innermost handler is the nil interface. *)
Definition WrapHandler (name : string) (hf : HandlerM unit) : Handler :=
  let handler : Handler := None in
  let handler := wrapped (wrapped (wrapped handler)) in
  recovery handler.

(** [ServeHTTP(w, r)] *)
Definition ServeHTTP (now : Z) (e : wakeup) (r : Request) : HandlerM unit :=
  if decide (rq_Method r = "GET"%string) then
    if decide (rq_Path r = "/ping"%string) then callHandler (WrapHandler "ping" (servePing r))
    else if decide (rq_Path r = "/lease"%string) then callHandler (WrapHandler "lease" (serveLease r))
    else callHandler (WrapHandler "snapshot" (_ ← serveSnapshot e r; mret tt))
  else if decide (rq_Method r = "POST"%string) then callHandler (WrapHandler "execute" (serveExec now r))
  else http_Error "" StatusBadRequest.

(** What the client receives. *)
Definition toResponse (w : ResponseWriter) : HttpResponse :=
  mkResponse (default StatusOK (rw_Status w)) (rw_Location w) (Ok (rw_Body w)).

(** ** Properties *)

(** No handler ever runs: [WrapHandler] wraps the nil handler, so every GET and
    POST panics inside, the panic is swallowed, and the client receives status
    200 with an empty body while store and leases stay as they are; any other
    method is a bad request. *)
Theorem ServeHTTP_runs_no_handler now e r h :
  ServeHTTP now e r (h, newWriter) =
  if decide (rq_Method r = "GET"%string ∨ rq_Method r = "POST"%string)
  then (Ok tt, (h, newWriter))
  else (Ok tt, (h, mkWriter (Some StatusBadRequest) "" [x0a])).
Proof.
  unfold ServeHTTP.
  destruct (decide (rq_Method r = "GET"%string)) as [Hg|Hg].
  { destruct (decide (rq_Method r = "GET"%string ∨ _)); [|tauto]. by repeat case_decide. }
  destruct (decide (rq_Method r = "POST"%string)) as [Hp|Hp].
  - by destruct (decide (rq_Method r = "GET"%string ∨ rq_Method r = "POST"%string)); [|tauto].
  - by destruct (decide (rq_Method r = "GET"%string ∨ rq_Method r = "POST"%string)); [tauto|].
Qed.

(** ** A command from the client to the store and back *)

(** What the wire preserves: the fields of a response that the client reads; no
    error has an empty text. *)
Class ServingLaws `{Transport} : Prop := {
  response_roundtrip ok e i :
    ∃ b, response_Marshal ok e i = Ok b ∧
      response_Unmarshal b = Ok (mkPbResponse (default ""%string e) (default 0 i));
  errText_nonempty e : errText e ≠ ""%string;
}.

(** The network of a client whose posts reach the [serveExec] of one server. *)
Definition serverTransport (base : Transport) (now : Z) : Transport := {|
  net := handler;
  httpPost u b h :=
    match serveExec now (mkRequest "POST" "/execute" [] (Ok b)) (h, newWriter) with
    | (Ok _, (h', w)) => (Ok (toResponse w), h')
    | (Err e, (h', _)) => (Err e, h')
    | (Panics, (h', _)) => (Panics, h')
    end;
  httpGet u h := (Err (errorf "connection refused"), h);
  response_Unmarshal := @response_Unmarshal base;
  lease_Unmarshal := @lease_Unmarshal base;
  strings_Unmarshal := @strings_Unmarshal base;
  node_MarshalJSON := @node_MarshalJSON base;
  node_UnmarshalJSON := @node_UnmarshalJSON base;
  schedule h := (Ok [], h);
  bcryptCompare := @bcryptCompare base;
  bcryptGenerate := @bcryptGenerate base;
  sha256 := @sha256 base;
  randomSalt h := (Err EOF, h);
|}.

(** What the client concludes from the outcome of the store. *)
Definition reply (h : handler) (o : res unit * store) : res Z :=
  match o with
  | (Ok _, s') => Ok (index s')
  | (Err ErrNotLeader, s') =>
      if decide (leaderHTTP s' = ""%string) then Err (errorf "meta service returned")
      else Err (errRedirect (scheme h +:+ leaderHTTP s' +:+ "/execute"))
  | (Err e, _) => Err (errCommand (errText e))
  | (Panics, _) => Panics
  end.

(** What [serveExec] sends for a valid command. *)
Lemma serveExec_eval {T : Transport} `{!ServingLaws} now b h :
  hd_closing h = false → validateCommand b = true →
  let o := store_apply now b (hd_store h) in
  let h' := set_store o.2 h in
  match o.1 with
  | Ok _ => ∃ body, serveExec now (mkRequest "POST" "/execute" [] (Ok b)) (h, newWriter) =
      (Ok tt, (h', mkWriter (Some StatusOK) "" body)) ∧
      response_Unmarshal body = Ok (mkPbResponse "" (index o.2))
  | Err ErrNotLeader => serveExec now (mkRequest "POST" "/execute" [] (Ok b)) (h, newWriter) =
      (Ok tt, (h', if decide (leaderHTTP o.2 = ""%string)
                   then mkWriter (Some StatusServiceUnavailable) "" [x0a]
                   else mkWriter (Some StatusTemporaryRedirect)
                          (scheme h +:+ leaderHTTP o.2 +:+ "/execute") []))
  | Err e => ∃ body, serveExec now (mkRequest "POST" "/execute" [] (Ok b)) (h, newWriter) =
      (Ok tt, (h', mkWriter (Some StatusOK) "" body)) ∧
      response_Unmarshal body = Ok (mkPbResponse (errText e) 0)
  | Panics => serveExec now (mkRequest "POST" "/execute" [] (Ok b)) (h, newWriter) =
      (Panics, (h', newWriter))
  end.
Proof.
  intros Hc Hv. cbv zeta. unfold serveExec, onStore, handlerClosed. gom_simpl. cbn [fst rq_Body]. rewrite Hc, Hv.
  destruct (store_apply now b (hd_store h)) as [[[]|e|] s'] eqn:E; cbn [negb fst snd]; rewrite E;
    cbv beta iota; clear E.
  - destruct (response_roundtrip false None (Some (index s'))) as (body & Hm & Hu).
    exists body. split; [|done]. cbn. by rewrite Hm.
  - destruct (response_roundtrip false (Some (errText e)) None) as (body & Hm & Hu).
    destruct e; try (exists body; rewrite Hm; done).
    cbn -[leaderHTTP String.append]. by destruct (decide (leaderHTTP s' = ""%string)).
  - done.
Qed.

(** C11. A command travels from the client through the server to the store and
    back: against a server that runs [serveExec], the client's [exec] returns the
    index of the store after the command was applied exactly when the store
    accepted it; a refusal comes back as a command error with its text; a server
    that is not the leader redirects to the leader's execute address, or reports
    that the service is unavailable when it knows none. *)
Theorem exec_end_to_end (base : Transport) now u cmd b (c : @Client (serverTransport base now)) h :
  @ServingLaws base → cmd_Marshal cmd = Ok b → validateCommand b = true →
  c_net c = h → hd_closing h = false →
  @exec _ (serverTransport base now) u cmd c =
    (reply h (store_apply now b (hd_store h)),
     set_net (set_store (store_apply now b (hd_store h)).2 h : @net (serverTransport base now)) c).
Proof.
  intros Hl Hm Hv Hn Hc. unfold exec. gom_simpl. rewrite Hm, onNet_eq, Hn.
  cbn [httpPost serverTransport]. pose proof (@serveExec_eval base Hl now b h Hc Hv) as He.
  cbv zeta in He. unfold reply.
  destruct (store_apply now b (hd_store h)) as [[[]|e|] s']; cbn [fst snd] in *.
  - destruct He as (body & -> & Hu). cbn. by rewrite Hu.
  - pose proof (errText_nonempty e) as Ht.
    destruct e; try (destruct He as (body & -> & Hu); cbn; rewrite Hu; cbn; by rewrite decide_False).
    rewrite He. cbn. by case_decide.
  - by rewrite He.
Qed.

End handler.

(** ** An instance to run *)

(** A response as its index in unary, a separator and the error text. *)
Fixpoint demo_decode (acc : Z) (b : list byte) : res pbResponse :=
  match b with
  | x01 :: b' => demo_decode (acc + 1) b'
  | x02 :: b' => demo_decode (acc - 1) b'
  | x00 :: b' => Ok (mkPbResponse (string_of_list_byte b') acc)
  | _ => Err EOF
  end.

Definition demo_encode (e : option string) (i : option Z) : list byte :=
  let z := default 0 i in
  replicate (Z.to_nat (Z.abs z)) (if z <? 0 then x02 else x01)
    ++ x00 :: list_byte_of_string (default ""%string e).

Lemma demo_decode_units sign n acc b :
  demo_decode acc (replicate n (if sign : bool then x02 else x01) ++ b) =
  demo_decode (if sign then acc - Z.of_nat n else acc + Z.of_nat n) b.
Proof.
  revert acc. induction n as [|n IH]; intros acc.
  - by replace (if sign then acc - Z.of_nat 0 else acc + Z.of_nat 0) with acc by (destruct sign; lia).
  - rewrite replicate_S. destruct sign; cbn -[Z.of_nat]; rewrite IH; f_equal; lia.
Qed.

Lemma demo_decode_encode e i :
  demo_decode 0 (demo_encode e i) = Ok (mkPbResponse (default ""%string e) (default 0 i)).
Proof.
  unfold demo_encode. rewrite demo_decode_units. cbn. rewrite string_of_list_byte_of_string.
  do 2 f_equal. destruct (Z.ltb_spec (default 0 i) 0); lia.
Qed.

Definition demo_serving : Serving := {|
  response_Marshal _ e i := Ok (demo_encode e i);
  errText _ := "failed"%string;
  leases_t := unit;
  lease_t := unit;
  leases_Acquire _ _ := mret (tt, true);
  lease_Marshal _ := Ok [];
  queryEncode _ := ""%string;
  peerGet _ := Err EOF;
|}.

Definition demo_wire : Transport := {|
  net := unit;
  httpPost _ _ n := (Err EOF, n);
  httpGet _ n := (Err EOF, n);
  response_Unmarshal := demo_decode 0;
  lease_Unmarshal _ := Err EOF;
  strings_Unmarshal _ := Err EOF;
  node_MarshalJSON _ := Err EOF;
  node_UnmarshalJSON _ _ := Err EOF;
  schedule n := (Ok [], n);
  bcryptCompare h p := bool_decide (h = p);
  bcryptGenerate p := Ok p;
  sha256 b := b;
  randomSalt n := (Ok [x07], n);
|}.

#[local] Existing Instances demo_oss demo_commands demo_raft demo_serving.

Definition demo_handler : handler := mkHandler (demo_store true) tt false false "a".

Definition demo_remote : Transport := serverTransport demo_wire 0.

Definition demo_remote_client : @Client demo_remote :=
  @NewClient demo_remote (demo_handler : @net demo_remote).

(** Node 1 is removed on the leader, whose log entry has index 8. *)
Lemma exec_end_to_end_witness :
  let b := [x02] in
  let o := store_apply 0 b (hd_store demo_handler) in
  reply demo_handler o = Ok 8 ∧
  @exec _ demo_remote "http://m0/execute" (mkCommand DeleteMetaNodeCommand (Some (ExtDeleteMetaNode 1)))
    demo_remote_client =
  (reply demo_handler o,
   set_net (set_store o.2 demo_handler : @net demo_remote) demo_remote_client).
Proof.
  intros b o. split; [vm_compute; reflexivity|].
  apply (exec_end_to_end demo_wire 0 "http://m0/execute"
    (mkCommand DeleteMetaNodeCommand (Some (ExtDeleteMetaNode 1))) b demo_remote_client demo_handler).
  - split; [|done]. intros ok e i. exists (demo_encode e i). split; [done|]. apply demo_decode_encode.
  - vm_compute. reflexivity.
  - vm_compute. reflexivity.
  - reflexivity.
  - reflexivity.
Defined.
