(* ===== verification/GoTime.v ===== *)
(** * Formatting instants and durations

    What the executor prints with Go's [time] package: [t.UTC().Format(time.RFC3339)]
    and [d.String()]. *)

From Stdlib Require Import ZArith Lia.
From S2P Require Import Prelude GoLib.

Local Open Scope Z_scope.

Module timefmt.

(** ** Calendar *)

(** The proleptic Gregorian year, month and day of a number of days since the
    epoch.  An era has 400 years, and years start in March so that a leap day is
    the last day of its year. *)
Definition civil (days : Z) : Z * Z * Z :=
  let z := days + 719468 in
  let era := z / 146097 in
  let doe := z mod 146097 in
  let yoe := (doe - doe / 1460 + doe / 36524 - doe / 146096) / 365 in
  let doy := doe - (365 * yoe + yoe / 4 - yoe / 100) in
  let mp := (5 * doy + 2) / 153 in
  let d := doy - (153 * mp + 2) / 5 + 1 in
  let m := if mp <? 10 then mp + 3 else mp - 9 in
  ((yoe + era * 400) + (if m <=? 2 then 1 else 0), m, d).

(** [appendInt(b, x, width)]: zero padded, the sign in front. *)
Fixpoint zeros (n : nat) : string :=
  (match n with O => "" | S n' => "0" +:+ zeros n' end)%string.
Definition pad (width : nat) (z : Z) : string :=
  let digits := strconv.FormatUint (Z.abs z) in
  let sign := if z <? 0 then "-"%string else ""%string in
  (sign +:+ zeros (width - String.length digits) +:+ digits)%string.

(** [t.UTC().Format(time.RFC3339)] *)
Definition RFC3339 (t : Z) : string :=
  let sec := t / time.Second in
  let '(y, m, d) := civil (sec / 86400) in
  let s := sec mod 86400 in
  (pad 4 y +:+ "-" +:+ pad 2 m +:+ "-" +:+ pad 2 d +:+ "T" +:+
   pad 2 (s / 3600) +:+ ":" +:+ pad 2 (s / 60 mod 60) +:+ ":" +:+ pad 2 (s mod 60) +:+ "Z")%string.

Example RFC3339_epoch : RFC3339 0 = "1970-01-01T00:00:00Z"%string.
Proof. vm_compute. reflexivity. Qed.
Example RFC3339_leap_day : RFC3339 (1456790399 * time.Second) = "2016-02-29T23:59:59Z"%string.
Proof. vm_compute. reflexivity. Qed.
Example RFC3339_zero : RFC3339 (- time.zero_to_epoch) = "0001-01-01T00:00:00Z"%string.
Proof. vm_compute. reflexivity. Qed.

(** ** Durations *)

(** [fmtFrac(buf, v, prec)]: the last [prec] digits of [v] as a fraction, without
    trailing zeros, and no point when there is none left. *)
Fixpoint fmtFrac (prec : nat) (v : Z) (acc : string) (print : bool) : string * Z :=
  match prec with
  | O => ((if print then "." +:+ acc else acc)%string, v)
  | S prec' =>
      let digit := v mod 10 in
      let print := print || negb (digit =? 0) in
      fmtFrac prec' (v / 10)
        (if print then (strconv.FormatUint digit +:+ acc)%string else acc) print
  end.

(** [d.String()] *)
Definition Duration_String (d : Z) : string :=
  let u := Z.abs d in
  let sign := if d <? 0 then "-"%string else ""%string in
  if u =? 0 then "0s"%string
  else if u <? time.Second then
    let '(prec, unit) := if u <? 1000 then (0%nat, "ns"%string)
                         else if u <? time.Millisecond then (3%nat, "µs"%string)
                         else (6%nat, "ms"%string) in
    let '(frac, v) := fmtFrac prec u unit false in
    (sign +:+ strconv.FormatUint v +:+ frac)%string
  else
    let '(frac, secs) := fmtFrac 9 u "s" false in
    let s := (strconv.FormatUint (secs mod 60) +:+ frac)%string in
    let mins := secs / 60 in
    if mins =? 0 then (sign +:+ s)%string
    else
      let s := (strconv.FormatUint (mins mod 60) +:+ "m" +:+ s)%string in
      let hours := mins / 60 in
      if hours =? 0 then (sign +:+ s)%string
      else (sign +:+ strconv.FormatUint hours +:+ "h" +:+ s)%string.

Example Duration_week : Duration_String (168 * time.Hour) = "168h0m0s"%string.
Proof. vm_compute. reflexivity. Qed.
Example Duration_frac : Duration_String (- 1500 * time.Millisecond) = "-1.5s"%string.
Proof. vm_compute. reflexivity. Qed.
Example Duration_ms : Duration_String (1050 * 1000) = "1.05ms"%string.
Proof. vm_compute. reflexivity. Qed.

End timefmt.
