(* ===== verification/Rpc.v ===== *)
(** * Messages between data nodes (rpc/rpc.go)

    Requests and responses wrap the generated messages of rpc/internal, which
    are records here with [None] for an unset pointer.  The protobuf runtime,
    the point type and the query options are third-party code: the runtime is
    the class [Proto] for each message type, its documented behaviour is
    [ProtoLaws].  Every message is an instance of [Tlv.Message]; [Codec] adds
    which values can be encoded and what comes back. *)

From Stdlib Require Import ZArith Lia.
From Stdlib Require Import Strings.Byte.
From S2P Require Import Prelude GoLib Tlv.

Local Open Scope Z_scope.

(** ** The generated messages (rpc/internal/data.proto) *)

Record pbWriteShardRequest : Type := mkPbWriteShardRequest {
  pwq_ShardID : option Z;
  pwq_Points : list (list byte);
  pwq_Database : option string;
  pwq_RetentionPolicy : option string;
}.
Record pbWriteShardResponse : Type := mkPbWriteShardResponse {
  pwr_Code : option Z;
  pwr_Message : option string;
}.
Record pbExecuteStatementRequest : Type := mkPbExecuteStatementRequest {
  peq_Statement : option string;
  peq_Database : option string;
}.
Record pbCreateIteratorRequest : Type := mkPbCreateIteratorRequest {
  pcq_ShardIDs : list Z;
  pcq_Opt : option (list byte);
}.
Record pbCreateIteratorResponse : Type := mkPbCreateIteratorResponse { pcr_Err : option string }.
Record pbFieldDimensionsRequest : Type := mkPbFieldDimensionsRequest {
  pfq_ShardIDs : list Z;
  pfq_Sources : option (list byte);
}.
Record pbFieldDimensionsResponse : Type := mkPbFieldDimensionsResponse {
  pfr_Fields : list string;
  pfr_Dimensions : list string;
  pfr_Err : option string;
}.
Record pbJoinClusterRequest : Type := mkPbJoinClusterRequest {
  pjq_NodeID : option Z;
  pjq_NodeAddr : option string;
  pjq_MetaAddrs : list string;
  pjq_ImportMetaData : option string;
}.

(** The fields declared [required] are set, and integers have their width. *)
Class PbMessage (P : Type) : Type := { required : P → bool; in_range : P → Prop }.

Definition isSet {A} (o : option A) : bool := match o with Some _ => true | None => false end.

Definition uint64 (z : Z) : Prop := 0 ≤ z < 2 ^ 64.
Definition int32 (z : Z) : Prop := - 2 ^ 31 ≤ z < 2 ^ 31.

#[export] Instance pb_write_req : PbMessage pbWriteShardRequest := {|
  required p := isSet (pwq_ShardID p);
  in_range p := uint64 (default 0 (pwq_ShardID p)) |}.
#[export] Instance pb_write_resp : PbMessage pbWriteShardResponse := {|
  required p := isSet (pwr_Code p);
  in_range p := int32 (default 0 (pwr_Code p)) |}.
#[export] Instance pb_execute_req : PbMessage pbExecuteStatementRequest := {|
  required p := isSet (peq_Statement p) && isSet (peq_Database p);
  in_range p := True |}.
#[export] Instance pb_iterator_req : PbMessage pbCreateIteratorRequest := {|
  required p := isSet (pcq_Opt p);
  in_range p := Forall uint64 (pcq_ShardIDs p) |}.
#[export] Instance pb_iterator_resp : PbMessage pbCreateIteratorResponse := {|
  required p := true;
  in_range p := True |}.
#[export] Instance pb_dimensions_req : PbMessage pbFieldDimensionsRequest := {|
  required p := isSet (pfq_Sources p);
  in_range p := Forall uint64 (pfq_ShardIDs p) |}.
#[export] Instance pb_dimensions_resp : PbMessage pbFieldDimensionsResponse := {|
  required p := true;
  in_range p := True |}.
#[export] Instance pb_join_req : PbMessage pbJoinClusterRequest := {|
  required p := isSet (pjq_NodeID p) && isSet (pjq_NodeAddr p) && isSet (pjq_ImportMetaData p);
  in_range p := uint64 (default 0 (pjq_NodeID p)) |}.

(** [proto.Marshal] and [proto.Unmarshal] at a message type. *)
Class Proto (P : Type) : Type := {
  pb_Marshal : P → res (list byte);
  pb_Unmarshal : list byte → res P;
}.

Class ProtoLaws (P : Type) `{PbMessage P, Proto P} : Prop := {
  pb_roundtrip p : in_range p → required p = true →
    ∃ b, pb_Marshal p = Ok b ∧ pb_Unmarshal b = Ok p;
  pb_required_unset p : required p = false → ∃ e, pb_Marshal p = Err e;
}.

(** ** Third-party types inside the messages *)

(** models.Point of influxdata/influxdb. *)
Class Models : Type := {
  Point : Type;
  Tags : Type;
  nilTags : Tags;
  NewPoint : string → Tags → gmap string iface → Z → res Point;
  point_Marshal : Point → res (list byte);
  NewPointFromBytes : list byte → res Point;
}.

Class ModelsLaws `{Models} : Prop :=
  point_roundtrip p b : point_Marshal p = Ok b → NewPointFromBytes b = Ok p.

(** influxql.IteratorOptions and influxql.Sources. *)
Class Influxql : Type := {
  IteratorOptions : Type;
  opt_Marshal : IteratorOptions → res (list byte);
  opt_Unmarshal : list byte → res IteratorOptions;
  Sources : Type;
  sources_Marshal : Sources → res (list byte);
  sources_Unmarshal : list byte → res Sources;
}.

Class InfluxqlLaws `{Influxql} : Prop := {
  opt_roundtrip o b : opt_Marshal o = Ok b → opt_Unmarshal b = Ok o;
  sources_roundtrip s b : sources_Marshal s = Ok b → sources_Unmarshal b = Ok s;
}.

(** The text of an error, [err.Error()], and the order of a map iteration. *)
Class RpcEnv : Type := {
  error_text : error → string;
  rangeStrings : gset string → list string;
}.

Class RpcEnvLaws `{RpcEnv} : Prop := {
  error_text_new s : error_text (errorf s) = s;
  range_strings_all s : rangeStrings s ≡ₚ elements s;
}.

(** ** Encodable values

    [wf_msg] are the values the code can encode; [norm m] is what the receiver
    has after decoding the encoding of [m]. *)
Class Codec (M : Type) `{Message M} : Type := {
  wf_msg : M → Prop;
  norm : M → M;
  codec_ok m : wf_msg m → ∃ b, MarshalBinary m = Ok b ∧ UnmarshalBinary b = Ok (norm m);
}.

(** ** WriteShardRequest *)
Section write_shard_request.
  Context `{Models} `{Proto pbWriteShardRequest}.

Record WriteShardRequest : Type := mkWriteShardRequest { wq_pb : pbWriteShardRequest }.

Definition newWriteShardRequest : WriteShardRequest :=
  mkWriteShardRequest (mkPbWriteShardRequest None [] None None).

Definition SetShardID (id : Z) (w : WriteShardRequest) : WriteShardRequest :=
  let pb := wq_pb w in
  mkWriteShardRequest
    (mkPbWriteShardRequest (Some id) (pwq_Points pb) (pwq_Database pb) (pwq_RetentionPolicy pb)).
Definition SetDatabase (db : string) (w : WriteShardRequest) : WriteShardRequest :=
  let pb := wq_pb w in
  mkWriteShardRequest
    (mkPbWriteShardRequest (pwq_ShardID pb) (pwq_Points pb) (Some db) (pwq_RetentionPolicy pb)).
Definition SetRetentionPolicy (rp : string) (w : WriteShardRequest) : WriteShardRequest :=
  let pb := wq_pb w in
  mkWriteShardRequest
    (mkPbWriteShardRequest (pwq_ShardID pb) (pwq_Points pb) (pwq_Database pb) (Some rp)).

Definition ShardID (w : WriteShardRequest) : Z := default 0 (pwq_ShardID (wq_pb w)).
Definition Database (w : WriteShardRequest) : string := default ""%string (pwq_Database (wq_pb w)).
Definition RetentionPolicy (w : WriteShardRequest) : string :=
  default ""%string (pwq_RetentionPolicy (wq_pb w)).

(** [AddPoints(points)] panics when a point cannot be encoded. *)
Fixpoint AddPoints (points : list Point) : GoM WriteShardRequest unit :=
  match points with
  | [] => mret tt
  | p :: points' =>
      match point_Marshal p with
      | Ok b =>
          _ ← modify (λ w, let pb := wq_pb w in mkWriteShardRequest
                (mkPbWriteShardRequest (pwq_ShardID pb) (pwq_Points pb ++ [b]) (pwq_Database pb)
                   (pwq_RetentionPolicy pb)));
          AddPoints points'
      | _ => panic
      end
  end.

(** [AddPoint(name, value, timestamp, tags)] drops a point that is not valid. *)
Definition AddPoint (name : string) (value : iface) (timestamp : Z) (tags : Tags)
    : GoM WriteShardRequest unit :=
  match NewPoint name tags {[ "value"%string := value ]} timestamp with
  | Ok pt => AddPoints [pt]
  | Err _ => mret tt
  | Panics => panic
  end.

(** [unmarshalPoints()] and [Points()] panic when a point cannot be parsed. *)
Fixpoint unmarshalPoints (bs : list (list byte)) : res (list Point) :=
  match bs with
  | [] => Ok []
  | b :: bs' =>
      match NewPointFromBytes b with
      | Ok p => ps ← unmarshalPoints bs'; Ok (p :: ps)
      | _ => Panics
      end
  end.
Definition Points (w : WriteShardRequest) : res (list Point) := unmarshalPoints (pwq_Points (wq_pb w)).

#[export] Instance WriteShardRequest_Message : Message WriteShardRequest := {|
  MarshalBinary w := pb_Marshal (wq_pb w);
  UnmarshalBinary b := pb ← pb_Unmarshal b; Ok (mkWriteShardRequest pb) |}.

End write_shard_request.

(** [WritePointsRequest] and its [AddPoint] *)
Section write_points_request.
  Context `{Models}.

Record WritePointsRequest : Type := mkWritePointsRequest {
  wpr_Database : string;
  wpr_RetentionPolicy : string;
  wpr_ConsistencyLevel : Z;
  wpr_Points : list Point;
}.

Definition wpr_AddPoint (name : string) (value : iface) (timestamp : Z) (tags : Tags)
    : GoM WritePointsRequest unit :=
  match NewPoint name tags {[ "value"%string := value ]} timestamp with
  | Ok pt => modify (λ w, mkWritePointsRequest (wpr_Database w) (wpr_RetentionPolicy w)
                            (wpr_ConsistencyLevel w) (wpr_Points w ++ [pt]))
  | Err _ => mret tt
  | Panics => panic
  end.

End write_points_request.

(** ** Responses with a code and a message

    [ExecuteStatementResponse] wraps the generated [WriteShardResponse] too. *)
Section responses.
  Context `{Proto pbWriteShardResponse} `{Proto pbExecuteStatementRequest}.

Record WriteShardResponse : Type := mkWriteShardResponse { wr_pb : pbWriteShardResponse }.
Definition newWriteShardResponse : WriteShardResponse :=
  mkWriteShardResponse (mkPbWriteShardResponse None None).
Definition SetCode (code : Z) (w : WriteShardResponse) : WriteShardResponse :=
  mkWriteShardResponse (mkPbWriteShardResponse (Some (i32 code)) (pwr_Message (wr_pb w))).
Definition SetMessage (message : string) (w : WriteShardResponse) : WriteShardResponse :=
  mkWriteShardResponse (mkPbWriteShardResponse (pwr_Code (wr_pb w)) (Some message)).
Definition Code (w : WriteShardResponse) : Z := default 0 (pwr_Code (wr_pb w)).
Definition Message_ (w : WriteShardResponse) : string := default ""%string (pwr_Message (wr_pb w)).

#[export] Instance WriteShardResponse_Message : Message WriteShardResponse := {|
  MarshalBinary w := pb_Marshal (wr_pb w);
  UnmarshalBinary b := pb ← pb_Unmarshal b; Ok (mkWriteShardResponse pb) |}.

Record ExecuteStatementResponse : Type := mkExecuteStatementResponse { er_pb : pbWriteShardResponse }.
Definition es_SetCode (code : Z) (w : ExecuteStatementResponse) : ExecuteStatementResponse :=
  mkExecuteStatementResponse (mkPbWriteShardResponse (Some (i32 code)) (pwr_Message (er_pb w))).
Definition es_SetMessage (message : string) (w : ExecuteStatementResponse)
    : ExecuteStatementResponse :=
  mkExecuteStatementResponse (mkPbWriteShardResponse (pwr_Code (er_pb w)) (Some message)).
Definition es_Code (w : ExecuteStatementResponse) : Z := default 0 (pwr_Code (er_pb w)).
Definition es_Message (w : ExecuteStatementResponse) : string :=
  default ""%string (pwr_Message (er_pb w)).

#[export] Instance ExecuteStatementResponse_Message : Message ExecuteStatementResponse := {|
  MarshalBinary w := pb_Marshal (er_pb w);
  UnmarshalBinary b := pb ← pb_Unmarshal b; Ok (mkExecuteStatementResponse pb) |}.

Record ExecuteStatementRequest : Type := mkExecuteStatementRequest { eq_pb : pbExecuteStatementRequest }.
Definition newExecuteStatementRequest : ExecuteStatementRequest :=
  mkExecuteStatementRequest (mkPbExecuteStatementRequest None None).
Definition SetStatement (s : string) (r : ExecuteStatementRequest) : ExecuteStatementRequest :=
  mkExecuteStatementRequest (mkPbExecuteStatementRequest (Some s) (peq_Database (eq_pb r))).
Definition es_SetDatabase (d : string) (r : ExecuteStatementRequest) : ExecuteStatementRequest :=
  mkExecuteStatementRequest (mkPbExecuteStatementRequest (peq_Statement (eq_pb r)) (Some d)).
Definition Statement (r : ExecuteStatementRequest) : string :=
  default ""%string (peq_Statement (eq_pb r)).
Definition es_Database (r : ExecuteStatementRequest) : string :=
  default ""%string (peq_Database (eq_pb r)).

#[export] Instance ExecuteStatementRequest_Message : Message ExecuteStatementRequest := {|
  MarshalBinary w := pb_Marshal (eq_pb w);
  UnmarshalBinary b := pb ← pb_Unmarshal b; Ok (mkExecuteStatementRequest pb) |}.

End responses.

(** ** Remote iterators and field dimensions *)
Section iterators.
  Context `{Influxql, RpcEnv}.
  Context `{Proto pbCreateIteratorRequest} `{Proto pbCreateIteratorResponse}.
  Context `{Proto pbFieldDimensionsRequest} `{Proto pbFieldDimensionsResponse}.

Record CreateIteratorRequest : Type := mkCreateIteratorRequest {
  cq_ShardIDs : list Z;
  cq_Opt : IteratorOptions;
}.

#[export] Instance CreateIteratorRequest_Message : Message CreateIteratorRequest := {|
  MarshalBinary r :=
    buf ← opt_Marshal (cq_Opt r);
    pb_Marshal (mkPbCreateIteratorRequest (cq_ShardIDs r) (Some buf));
  UnmarshalBinary data :=
    pb ← pb_Unmarshal data;
    opt ← opt_Unmarshal (default [] (pcq_Opt pb));
    Ok (mkCreateIteratorRequest (pcq_ShardIDs pb) opt) |}.

Record CreateIteratorResponse : Type := mkCreateIteratorResponse { cr_Err : option error }.

#[export] Instance CreateIteratorResponse_Message : Message CreateIteratorResponse := {|
  MarshalBinary r := pb_Marshal (mkPbCreateIteratorResponse (error_text <$> cr_Err r));
  UnmarshalBinary data :=
    pb ← pb_Unmarshal data;
    Ok (mkCreateIteratorResponse (errorf <$> pcr_Err pb)) |}.

Record FieldDimensionsRequest : Type := mkFieldDimensionsRequest {
  fq_ShardIDs : list Z;
  fq_Sources : Sources;
}.

#[export] Instance FieldDimensionsRequest_Message : Message FieldDimensionsRequest := {|
  MarshalBinary r :=
    buf ← sources_Marshal (fq_Sources r);
    pb_Marshal (mkPbFieldDimensionsRequest (fq_ShardIDs r) (Some buf));
  UnmarshalBinary data :=
    pb ← pb_Unmarshal data;
    sources ← sources_Unmarshal (default [] (pfq_Sources pb));
    Ok (mkFieldDimensionsRequest (pfq_ShardIDs pb) sources) |}.

Record FieldDimensionsResponse : Type := mkFieldDimensionsResponse {
  fr_Fields : gset string;
  fr_Dimensions : gset string;
  fr_Err : option error;
}.

#[export] Instance FieldDimensionsResponse_Message : Message FieldDimensionsResponse := {|
  MarshalBinary r :=
    pb_Marshal (mkPbFieldDimensionsResponse (rangeStrings (fr_Fields r))
                  (rangeStrings (fr_Dimensions r)) (error_text <$> fr_Err r));
  UnmarshalBinary data :=
    pb ← pb_Unmarshal data;
    Ok (mkFieldDimensionsResponse (list_to_set (pfr_Fields pb)) (list_to_set (pfr_Dimensions pb))
          (errorf <$> pfr_Err pb)) |}.

End iterators.

(** ** Joining *)
Section join.
  Context `{Proto pbJoinClusterRequest}.

Record JoinClusterRequest : Type := mkJoinClusterRequest {
  jc_NodeID : Z;
  jc_NodeAddr : string;
  jc_MetaAddrs : list string;
}.

(** The loop of [MarshalBinary] assigns to the elements of a slice that is nil:
    the first assignment panics. *)
Definition copyMetaAddrs (addrs : list string) : res (list string) :=
  match addrs with
  | [] => Ok []
  | _ :: _ => Panics
  end.

#[export] Instance JoinClusterRequest_Message : Message JoinClusterRequest := {|
  MarshalBinary jc :=
    addrs ← copyMetaAddrs (jc_MetaAddrs jc);
    pb_Marshal (mkPbJoinClusterRequest (Some (jc_NodeID jc)) (Some (jc_NodeAddr jc)) addrs None);
  UnmarshalBinary data :=
    pb ← pb_Unmarshal data;
    Ok (mkJoinClusterRequest (default 0 (pjq_NodeID pb)) (default ""%string (pjq_NodeAddr pb))
          (pjq_MetaAddrs pb)) |}.

(** A node can never send a [JoinClusterRequest]: with meta addresses its
    encoding panics, and without any it fails, because the required field
    ImportMetaData is never set. *)
Theorem JoinClusterRequest_never_encodes jc :
  ProtoLaws pbJoinClusterRequest →
  match jc_MetaAddrs jc with
  | [] => ∃ e, MarshalBinary jc = Err e
  | _ :: _ => MarshalBinary jc = Panics
  end.
Proof.
  intros Hl. destruct jc as [id addr addrs]. cbn [jc_MetaAddrs]. destruct addrs as [|a addrs]; [|done].
  by apply (pb_required_unset (ProtoLaws := Hl)).
Qed.

End join.

(** ** What comes back *)

Lemma res_bind_Ok {A B} (a : A) (k : A → res B) : (Ok a ≫= k) = k a.
Proof. done. Qed.

Section codecs.
  Context `{Models, !ModelsLaws, Influxql, !InfluxqlLaws, RpcEnv, !RpcEnvLaws}.
  Context `{Proto pbWriteShardRequest, !ProtoLaws pbWriteShardRequest}.
  Context `{Proto pbWriteShardResponse, !ProtoLaws pbWriteShardResponse}.
  Context `{Proto pbExecuteStatementRequest, !ProtoLaws pbExecuteStatementRequest}.
  Context `{Proto pbCreateIteratorRequest, !ProtoLaws pbCreateIteratorRequest}.
  Context `{Proto pbCreateIteratorResponse, !ProtoLaws pbCreateIteratorResponse}.
  Context `{Proto pbFieldDimensionsRequest, !ProtoLaws pbFieldDimensionsRequest}.
  Context `{Proto pbFieldDimensionsResponse, !ProtoLaws pbFieldDimensionsResponse}.

#[export, program] Instance WriteShardRequest_Codec : Codec WriteShardRequest := {|
  wf_msg w := required (wq_pb w) = true ∧ in_range (wq_pb w);
  norm w := w |}.
Next Obligation.
  intros w [Hq Hr]. destruct (pb_roundtrip (wq_pb w) Hr Hq) as (b & Hm & Hu).
  exists b. cbn. rewrite Hm, Hu. by destruct w.
Qed.

#[export, program] Instance WriteShardResponse_Codec : Codec WriteShardResponse := {|
  wf_msg w := required (wr_pb w) = true ∧ in_range (wr_pb w);
  norm w := w |}.
Next Obligation.
  intros w [Hq Hr]. destruct (pb_roundtrip (wr_pb w) Hr Hq) as (b & Hm & Hu).
  exists b. cbn. rewrite Hm, Hu. by destruct w.
Qed.

#[export, program] Instance ExecuteStatementRequest_Codec : Codec ExecuteStatementRequest := {|
  wf_msg w := required (eq_pb w) = true;
  norm w := w |}.
Next Obligation.
  intros w Hq. destruct (pb_roundtrip (eq_pb w)) as (b & Hm & Hu); [exact I|exact Hq|].
  exists b. cbn. rewrite Hm, Hu. by destruct w.
Qed.

#[export, program] Instance CreateIteratorRequest_Codec : Codec CreateIteratorRequest := {|
  wf_msg r := Forall uint64 (cq_ShardIDs r) ∧ ∃ b, opt_Marshal (cq_Opt r) = Ok b;
  norm r := r |}.
Next Obligation.
  intros [ids opt] [Hr [buf Hb]]. cbn [cq_ShardIDs cq_Opt] in *.
  destruct (pb_roundtrip (mkPbCreateIteratorRequest ids (Some buf))) as (b & Hm & Hu); [exact Hr|done|].
  exists b. cbn. rewrite Hb, res_bind_Ok, Hm, Hu. cbn. by rewrite (opt_roundtrip _ _ Hb).
Qed.

#[export, program] Instance FieldDimensionsRequest_Codec : Codec FieldDimensionsRequest := {|
  wf_msg r := Forall uint64 (fq_ShardIDs r) ∧ ∃ b, sources_Marshal (fq_Sources r) = Ok b;
  norm r := r |}.
Next Obligation.
  intros [ids src] [Hr [buf Hb]]. cbn [fq_ShardIDs fq_Sources] in *.
  destruct (pb_roundtrip (mkPbFieldDimensionsRequest ids (Some buf))) as (b & Hm & Hu); [exact Hr|done|].
  exists b. cbn. rewrite Hb, res_bind_Ok, Hm, Hu. cbn. by rewrite (sources_roundtrip _ _ Hb).
Qed.

(** An error arrives as a new error with the same text. *)
Definition resent (e : option error) : option error := errorf ∘ error_text <$> e.

#[export, program] Instance CreateIteratorResponse_Codec : Codec CreateIteratorResponse := {|
  wf_msg r := True;
  norm r := mkCreateIteratorResponse (resent (cr_Err r)) |}.
Next Obligation.
  intros [e] _.
  destruct (pb_roundtrip (mkPbCreateIteratorResponse (error_text <$> e))) as (b & Hm & Hu); [exact I|done|].
  exists b. cbn. rewrite Hm, Hu. cbn. unfold resent. by rewrite option_fmap_compose.
Qed.

#[export, program] Instance FieldDimensionsResponse_Codec : Codec FieldDimensionsResponse := {|
  wf_msg r := True;
  norm r := mkFieldDimensionsResponse (fr_Fields r) (fr_Dimensions r) (resent (fr_Err r)) |}.
Next Obligation.
  intros [fs ds e] _. cbn [fr_Fields fr_Dimensions fr_Err].
  destruct (pb_roundtrip (mkPbFieldDimensionsResponse (rangeStrings fs) (rangeStrings ds)
    (error_text <$> e))) as (b & Hm & Hu); [exact I|done|].
  exists b. cbn. rewrite Hm, Hu. split; [done|]. cbn. do 2 f_equal.
  - apply set_eq. intros x. rewrite elem_of_list_to_set, range_strings_all. apply elem_of_elements.
  - apply set_eq. intros x. rewrite elem_of_list_to_set, range_strings_all. apply elem_of_elements.
  - unfold resent. by rewrite option_fmap_compose.
Qed.

(** ** Round trips *)

Lemma AddPoints_app points w w' :
  AddPoints points w = (Ok tt, w') →
  ∃ bs, Forall2 (λ p b, point_Marshal p = Ok b) points bs ∧
    wq_pb w' = mkPbWriteShardRequest (pwq_ShardID (wq_pb w)) (pwq_Points (wq_pb w) ++ bs)
                 (pwq_Database (wq_pb w)) (pwq_RetentionPolicy (wq_pb w)).
Proof.
  revert w. induction points as [|p points IH]; intros w; simpl.
  - intros [= <-]. exists []. split; [done|]. rewrite app_nil_r. by destruct (wq_pb w).
  - destruct (point_Marshal p) as [b| |] eqn:Hp; [|done..]. gom_simpl. intros (bs & Hb & ->)%IH.
    exists (b :: bs). cbn. rewrite <- app_assoc. by split; [constructor|].
Qed.

Lemma unmarshalPoints_marshalled points bs :
  Forall2 (λ p b, point_Marshal p = Ok b) points bs → unmarshalPoints bs = Ok points.
Proof.
  induction 1 as [|p b points bs Hp _ IH]; simpl; [done|].
  by rewrite (point_roundtrip _ _ Hp), IH.
Qed.

(** The write request that a node sends for a batch of a shard. *)
Definition buildWrite (shardID : Z) (database policy : string) (points : list Point)
    : res WriteShardRequest :=
  match AddPoints points
          (SetRetentionPolicy policy (SetDatabase database (SetShardID shardID newWriteShardRequest)))
  with
  | (Ok _, w) => Ok w
  | (Err e, _) => Err e
  | (Panics, _) => Panics
  end.

Lemma buildWrite_fields shardID database policy points w :
  buildWrite shardID database policy points = Ok w →
  ShardID w = shardID ∧ Database w = database ∧ RetentionPolicy w = policy ∧ Points w = Ok points.
Proof.
  unfold buildWrite. destruct (AddPoints _ _) as [[[]| |] w'] eqn:E; [|done..]. intros [= ->].
  apply AddPoints_app in E as (bs & Hb & Hw).
  unfold ShardID, Database, RetentionPolicy, Points. rewrite Hw. cbn.
  split_and!; [done..|]. by apply unmarshalPoints_marshalled.
Qed.

Lemma buildWrite_wf shardID database policy points w :
  uint64 shardID → buildWrite shardID database policy points = Ok w → wf_msg w.
Proof.
  intros Hid. unfold buildWrite. destruct (AddPoints _ _) as [[[]| |] w'] eqn:E; [|done..].
  intros [= ->]. apply AddPoints_app in E as (bs & _ & Hw). cbn. by rewrite Hw.
Qed.

(** A message that is sent over a connection is read as its normal form. *)
Lemma codec_tlv {M} `{Codec M} typ (m : M) rest :
  wf_msg m → ∃ b, MarshalBinary m = Ok b ∧ (len b < MaxMessageSize →
    EncodeTLV typ m (mkWriter [] None) = (Ok tt, mkWriter (frame typ b) None) ∧
    DecodeTLV (frame typ b ++ rest) = (Ok (typ, norm m), rest)).
Proof.
  intros Hw. destruct (codec_ok m Hw) as (b & Hm & Hu). exists b. split; [done|]. intros Hl. split.
  - unfold EncodeTLV, EncodeLV. gom_simpl.
    pose proof (WriteTLV_frame typ b (mkWriter [] None) eq_refl) as Ht.
    unfold WriteTLV in Ht. gom_simpl. destruct (WriteType typ _) as [[]]; try done. by rewrite Hm.
  - pose proof (ReadTLV_frame typ b rest Hl) as Hr. unfold ReadTLV, DecodeTLV, DecodeLV in *.
    gom_simpl. destruct (ReadType _) as [[]]; try done. destruct (ReadLV _) as [[]]; simplify_eq.
    by rewrite Hu.
Qed.

(** C10. A batch survives the wire: a write request built from a shard, a database,
    a policy and points that encode, sent as one record, is decoded by the
    receiver to a request with the same shard, database, policy and points, in
    order, whatever follows it on the connection. *)
Theorem WriteShardRequest_over_tlv typ shardID database policy points w rest :
  uint64 shardID → buildWrite shardID database policy points = Ok w →
  ∃ b, MarshalBinary w = Ok b ∧ (len b < MaxMessageSize →
    EncodeTLV typ w (mkWriter [] None) = (Ok tt, mkWriter (frame typ b) None) ∧
    ∃ w', DecodeTLV (frame typ b ++ rest) = (Ok (typ, w'), rest) ∧
      ShardID w' = shardID ∧ Database w' = database ∧ RetentionPolicy w' = policy ∧
      Points w' = Ok points).
Proof.
  intros Hid Hb. pose proof (buildWrite_wf _ _ _ _ _ Hid Hb) as Hw.
  destruct (codec_tlv typ w rest Hw) as (b & Hm & Ht).
  exists b. split; [exact Hm|]. intros Hl. destruct (Ht Hl) as [He Hd]. split; [exact He|].
  exists w. split; [exact Hd|]. by apply buildWrite_fields.
Qed.

(** The other messages over the wire: requests for iterators and field
    dimensions arrive as they were sent; a response keeps its sets of fields and
    dimensions whatever the order in which the sender visits them, and an error
    arrives as a new error with the same text, so that comparing it with a
    sentinel error no longer works; a response code is cut to 32 bits. *)
Theorem rpc_messages_over_tlv typ rest :
  (∀ r : CreateIteratorRequest, wf_msg r → ∃ b, MarshalBinary r = Ok b ∧
     (len b < MaxMessageSize → DecodeTLV (frame typ b ++ rest) = (Ok (typ, r), rest))) ∧
  (∀ r : FieldDimensionsRequest, wf_msg r → ∃ b, MarshalBinary r = Ok b ∧
     (len b < MaxMessageSize → DecodeTLV (frame typ b ++ rest) = (Ok (typ, r), rest))) ∧
  (∀ e, ∃ b, MarshalBinary (mkCreateIteratorResponse e) = Ok b ∧
     (len b < MaxMessageSize → DecodeTLV (frame typ b ++ rest) =
        (Ok (typ, mkCreateIteratorResponse (errorf ∘ error_text <$> e)), rest))) ∧
  (∀ fs ds e, ∃ b, MarshalBinary (mkFieldDimensionsResponse fs ds e) = Ok b ∧
     (len b < MaxMessageSize → DecodeTLV (frame typ b ++ rest) =
        (Ok (typ, mkFieldDimensionsResponse fs ds (errorf ∘ error_text <$> e)), rest))) ∧
  (∀ code message, ∃ b,
     MarshalBinary (SetMessage message (SetCode code newWriteShardResponse)) = Ok b ∧
     (len b < MaxMessageSize → ∃ w, DecodeTLV (frame typ b ++ rest) = (Ok (typ, w), rest) ∧
        Code w = i32 code ∧ Message_ w = message)).
Proof.
  split_and!.
  - intros r Hw. destruct (codec_tlv typ r rest Hw) as (b & Hm & Ht). exists b.
    split; [exact Hm|]. apply Ht.
  - intros r Hw. destruct (codec_tlv typ r rest Hw) as (b & Hm & Ht). exists b.
    split; [exact Hm|]. apply Ht.
  - intros e. destruct (codec_tlv typ (mkCreateIteratorResponse e) rest) as (b & Hm & Ht); [exact I|].
    exists b. split; [exact Hm|]. apply Ht.
  - intros fs ds e. destruct (codec_tlv typ (mkFieldDimensionsResponse fs ds e) rest) as (b & Hm & Ht); [exact I|].
    exists b. split; [exact Hm|]. apply Ht.
  - intros code message. set (w := SetMessage message (SetCode code newWriteShardResponse)).
    destruct (codec_tlv typ w rest) as (b & Hm & Ht).
    { split; [done|]. apply i32_range. }
    exists b. split; [exact Hm|]. intros Hl. exists w. split; [by apply Ht|done].
Qed.

End codecs.

(** ** An instance to run

    Any countable message type has a codec: the bits of its number, refused when
    a required field is unset. *)
Section countable_proto.
  Context {P : Type} `{PbMessage P, Countable P}.

Fixpoint bits (p : positive) : list byte :=
  match p with
  | xH => []
  | xO p => x00 :: bits p
  | xI p => x01 :: bits p
  end.

Fixpoint unbits (b : list byte) : option positive :=
  match b with
  | [] => Some xH
  | x00 :: b => xO <$> unbits b
  | x01 :: b => xI <$> unbits b
  | _ => None
  end.

Lemma unbits_bits p : unbits (bits p) = Some p.
Proof. induction p as [p IH|p IH|]; simpl; [by rewrite IH..|done]. Qed.

Definition countable_proto : Proto P := {|
  pb_Marshal p :=
    if required p then Ok (bits (encode p)) else Err (errorf "required field not set");
  pb_Unmarshal b := of_option EOF (unbits b ≫= decode) |}.

Lemma countable_proto_laws : @ProtoLaws P _ countable_proto.
Proof.
  split; intros p.
  - intros _ Hq. exists (bits (encode p)). cbn. rewrite Hq. split; [done|].
    by rewrite unbits_bits; cbn; rewrite decode_encode.
  - intros Hq. cbn. rewrite Hq. eauto.
Qed.

End countable_proto.

#[export] Instance byte_countable : Countable byte := inj_countable Byte.to_N Byte.of_N Byte.of_to_N.

#[export] Instance pbWriteShardRequest_eq_dec : EqDecision pbWriteShardRequest.
Proof. solve_decision. Defined.
#[export] Instance pbWriteShardResponse_eq_dec : EqDecision pbWriteShardResponse.
Proof. solve_decision. Defined.
#[export] Instance pbCreateIteratorRequest_eq_dec : EqDecision pbCreateIteratorRequest.
Proof. solve_decision. Defined.
#[export] Instance pbCreateIteratorResponse_eq_dec : EqDecision pbCreateIteratorResponse.
Proof. solve_decision. Defined.
#[export] Instance pbFieldDimensionsRequest_eq_dec : EqDecision pbFieldDimensionsRequest.
Proof. solve_decision. Defined.
#[export] Instance pbFieldDimensionsResponse_eq_dec : EqDecision pbFieldDimensionsResponse.
Proof. solve_decision. Defined.
#[export] Instance pbJoinClusterRequest_eq_dec : EqDecision pbJoinClusterRequest.
Proof. solve_decision. Defined.

#[export, refine] Instance pb_write_req_countable : Countable pbWriteShardRequest :=
  inj_countable' (λ p, (pwq_ShardID p, pwq_Points p, pwq_Database p, pwq_RetentionPolicy p))
    (λ t, let '(a, b, c, d) := t in mkPbWriteShardRequest a b c d) _.
Proof. by intros []. Defined.
#[export, refine] Instance pb_write_resp_countable : Countable pbWriteShardResponse :=
  inj_countable' (λ p, (pwr_Code p, pwr_Message p))
    (λ t, let '(a, b) := t in mkPbWriteShardResponse a b) _.
Proof. by intros []. Defined.
#[export, refine] Instance pb_iterator_req_countable : Countable pbCreateIteratorRequest :=
  inj_countable' (λ p, (pcq_ShardIDs p, pcq_Opt p))
    (λ t, let '(a, b) := t in mkPbCreateIteratorRequest a b) _.
Proof. by intros []. Defined.
#[export, refine] Instance pb_iterator_resp_countable : Countable pbCreateIteratorResponse :=
  inj_countable' pcr_Err mkPbCreateIteratorResponse _.
Proof. by intros []. Defined.
#[export, refine] Instance pb_dimensions_req_countable : Countable pbFieldDimensionsRequest :=
  inj_countable' (λ p, (pfq_ShardIDs p, pfq_Sources p))
    (λ t, let '(a, b) := t in mkPbFieldDimensionsRequest a b) _.
Proof. by intros []. Defined.
#[export, refine] Instance pb_dimensions_resp_countable : Countable pbFieldDimensionsResponse :=
  inj_countable' (λ p, (pfr_Fields p, pfr_Dimensions p, pfr_Err p))
    (λ t, let '(a, b, c) := t in mkPbFieldDimensionsResponse a b c) _.
Proof. by intros []. Defined.
#[export, refine] Instance pb_join_req_countable : Countable pbJoinClusterRequest :=
  inj_countable' (λ p, (pjq_NodeID p, pjq_NodeAddr p, pjq_MetaAddrs p, pjq_ImportMetaData p))
    (λ t, let '(a, b, c, d) := t in mkPbJoinClusterRequest a b c d) _.
Proof. by intros []. Defined.

(** Points, options and sources are their encodings. *)
Definition demo_models : Models := {|
  Point := list byte;
  Tags := unit;
  nilTags := tt;
  NewPoint n _ fs _ := if decide (fs = ∅) then Err (errorf "no fields") else Ok [];
  point_Marshal p := Ok p;
  NewPointFromBytes b := Ok b;
|}.
Definition demo_influxql : Influxql := {|
  IteratorOptions := list byte; opt_Marshal o := Ok o; opt_Unmarshal b := Ok b;
  Sources := list byte; sources_Marshal s := Ok s; sources_Unmarshal b := Ok b |}.
Definition demo_env : RpcEnv := {|
  error_text e := match e with errorf s => s | _ => "error"%string end;
  rangeStrings := elements |}.

Lemma demo_models_laws : @ModelsLaws demo_models.
Proof. intros p b [= ->]. done. Qed.
Lemma demo_influxql_laws : @InfluxqlLaws demo_influxql.
Proof. split; intros x b [= ->]; done. Qed.
Lemma demo_env_laws : @RpcEnvLaws demo_env.
Proof. by split. Qed.

Lemma JoinClusterRequest_never_encodes_witness :
  @MarshalBinary _ (@JoinClusterRequest_Message countable_proto)
    (mkJoinClusterRequest 1 "a" ["m0"%string]) = Panics ∧
  ∃ e, @MarshalBinary _ (@JoinClusterRequest_Message countable_proto)
    (mkJoinClusterRequest 1 "a" []) = Err e.
Proof.
  split.
  - apply (@JoinClusterRequest_never_encodes countable_proto
      (mkJoinClusterRequest 1 "a" ["m0"%string]) countable_proto_laws).
  - apply (@JoinClusterRequest_never_encodes countable_proto
      (mkJoinClusterRequest 1 "a" []) countable_proto_laws).
Defined.

#[local] Existing Instances demo_models demo_influxql demo_env.
#[local] Existing Instances demo_models_laws demo_influxql_laws demo_env_laws.
#[local] Existing Instances countable_proto countable_proto_laws.

Definition demo_points : list (@Point demo_models) := [[x61]; [x62]].

Definition demo_write : WriteShardRequest :=
  mkWriteShardRequest (mkPbWriteShardRequest (Some 3) [[x61]; [x62]] (Some "db"%string) (Some "rp"%string)).

Lemma WriteShardRequest_over_tlv_witness :
  ∃ b, MarshalBinary demo_write = Ok b ∧ (len b < MaxMessageSize →
    EncodeTLV x01 demo_write (mkWriter [] None) = (Ok tt, mkWriter (frame x01 b) None) ∧
    ∃ w', DecodeTLV (frame x01 b ++ [x07]) = (Ok (x01, w'), [x07]) ∧
      ShardID w' = 3 ∧ Database w' = "db"%string ∧ RetentionPolicy w' = "rp"%string ∧
      Points (H := demo_models) w' = Ok demo_points).
Proof.
  apply (WriteShardRequest_over_tlv (H := demo_models) x01 3 "db" "rp" demo_points demo_write [x07]).
  - split; vm_compute; congruence.
  - reflexivity.
Defined.

Lemma rpc_messages_over_tlv_witness :
  ∃ b, MarshalBinary (mkCreateIteratorResponse (Some EOF)) = Ok b ∧
     (len b < MaxMessageSize → DecodeTLV (frame x06 b ++ []) =
        (Ok (x06, mkCreateIteratorResponse (Some (errorf "error"))), [])).
Proof. destruct (rpc_messages_over_tlv x06 []) as (_ & _ & He & _). exact (He (Some EOF)). Defined.
