(* ===== verification/Query.v ===== *)
(** * Queries and the local store, as the cluster code uses them

    The statements of influxql that cluster/statement_executor.go and
    cluster/service.go tell apart, with the fields they read; expressions,
    SELECT statements and iterators stay abstract.  [TSDBStore] is the interface
    of the same name in statement_executor.go together with
    [ShardIteratorCreator]. *)

From Stdlib Require Import ZArith Lia.
From Stdlib Require Import Strings.Byte.
From S2P Require Import Prelude GoLib Tlv MetaData Rpc.

Local Open Scope Z_scope.

(** models.Row *)
Record Row `{Models} : Type := mkRow {
  row_Name : string;
  row_Tags : Tags;
  row_Columns : list string;
  row_Values : list (list iface);
}.

Arguments mkRow {_} _ _ _ _.

(** influxql.Measurement; [m_Regex] tells whether the regular expression is set. *)
Record Measurement : Type := mkMeasurement {
  m_Database : string;
  m_RetentionPolicy : string;
  m_Name : string;
  m_Regex : bool;
  m_IsTarget : bool;
}.

(** influxql.SelectOptions, without the interrupt channel. *)
Record SelectOptions : Type := mkSelectOptions { so_MinTime : Z; so_MaxTime : Z }.

(** influxql: expressions, iterators and what the executor does with a SELECT. *)
Class QueryLang `{Models, Influxql} : Type := {
  Expr : Type;
  Iterator : Type;
  IteratorCreator : Type;
  Reduce : Expr → Z → Expr;   (* with now() *)
  HasTimeExpr : Expr → bool;
  TimeRange : Expr → res (Z * Z);
  ics_CreateIterator : list IteratorCreator → IteratorOptions → res (option Iterator);
  ics_FieldDimensions : list IteratorCreator → Sources → res (gset string * gset string);
  (** [influxql.NewIteratorEncoder(w).EncodeIterator(itr)] *)
  EncodeIterator : Iterator → WriterM unit;
  (** *influxql.SelectStatement *)
  SelectStatement : Type;
  sel_Condition : SelectStatement → Expr;
  sel_setCondition : Expr → SelectStatement → SelectStatement;
  sel_mapDimensions : (Expr → Expr) → SelectStatement → SelectStatement;
  sel_Sources : SelectStatement → Sources;
  sel_setSources : Sources → SelectStatement → SelectStatement;
  sel_Target : SelectStatement → option Measurement;
  sel_IsRawQuery : SelectStatement → bool;
  sel_RewriteDistinct : SelectStatement → SelectStatement;
  sel_RewriteTimeFields : SelectStatement → SelectStatement;
  sel_RewriteWildcards : IteratorCreator → SelectStatement → res SelectStatement;
  sel_GroupByInterval : SelectStatement → res Z;
  sel_String : SelectStatement → string;
  sources_HasRegex : Sources → bool;
  ic_ExpandSources : IteratorCreator → Sources → res Sources;
  Select : SelectStatement → IteratorCreator → SelectOptions → res (list Iterator);
  itrs_SeriesN : list Iterator → Z;
  (** The rows that the emitter of the iterators returns before its end for a
      chunk size, and the error that ends it, if any. *)
  emitted_rows : SelectStatement → list Iterator → Z → list Row * option error;
}.

Section query.
  Context `{QueryLang}.

(** The statements, with the fields that the executor reads. *)
Inductive Statement : Type :=
  | AlterRetentionPolicyStatement (Name Database : string)
      (Duration Replication ShardGroupDuration : option Z) (Default : bool)
  | CreateContinuousQueryStatement (Name Database : string) (Source : SelectStatement)
  | CreateDatabaseStatement (Name : string) (IfNotExists RetentionPolicyCreate : bool)
      (RetentionPolicyName : string)
      (RetentionPolicyDuration RetentionPolicyReplication RetentionPolicyShardGroupDuration : Z)
  | CreateRetentionPolicyStatement (Name Database : string)
      (Duration Replication ShardGroupDuration : Z) (Default : bool)
  | CreateSubscriptionStatement (Name Database RetentionPolicy Mode : string)
      (Destinations : list string)
  | CreateUserStatement (Name Password : string) (Admin : bool)
  | DeleteSeriesStatement (Srcs : Sources) (Condition : Expr)
  | DropContinuousQueryStatement (Name Database : string)
  | DropDatabaseStatement (Name : string)
  | DropMeasurementStatement (Name : string)
  | DropSeriesStatement (Srcs : Sources) (Condition : Expr)
  | DropRetentionPolicyStatement (Name Database : string)
  | DropShardStatement (ID : Z)
  | DropSubscriptionStatement (Name Database RetentionPolicy : string)
  | DropUserStatement (Name : string)
  | GrantStatement (Privilege : Z) (On User : string)
  | GrantAdminStatement (User : string)
  | RevokeStatement (Privilege : Z) (On User : string)
  | RevokeAdminStatement (User : string)
  | ShowContinuousQueriesStatement
  | ShowDatabasesStatement
  | ShowDiagnosticsStatement (Module : string)
  | ShowGrantsForUserStatement (Name : string)
  | ShowRetentionPoliciesStatement (Database : string)
  | ShowShardsStatement
  | ShowShardGroupsStatement
  | ShowStatsStatement (Module : string)
  | ShowSubscriptionsStatement
  | ShowUsersStatement
  | SetPasswordUserStatement (Name Password : string)
  | SelectStmt (s : SelectStatement)
  | OtherStatement.

(** Printing statements, and the measurements that [influxql.WalkFunc] visits in
    a statement, in order; the visitor may change them. *)
Class StatementLang : Type := {
  stmt_String : Statement → string;
  stmt_Measurements : Statement → list Measurement;
  stmt_setMeasurements : list Measurement → Statement → Statement;
}.

Class StatementLangLaws `{StatementLang} : Prop := {
  measurements_set ms stmt : length ms = length (stmt_Measurements stmt) →
    stmt_Measurements (stmt_setMeasurements ms stmt) = ms;
  set_measurements_same stmt : stmt_setMeasurements (stmt_Measurements stmt) stmt = stmt;
}.

(** The interface TSDBStore. *)
Class TSDBStore : Type := {
  tsdb : Type;
  ts_CreateShard : string → string → Z → GoM tsdb unit;
  ts_WriteToShard : Z → list Point → GoM tsdb unit;
  ts_DeleteDatabase : string → GoM tsdb unit;
  ts_DeleteMeasurement : string → string → GoM tsdb unit;
  ts_DeleteRetentionPolicy : string → string → GoM tsdb unit;
  ts_DeleteSeries : string → Sources → Expr → GoM tsdb unit;
  ts_DeleteShard : Z → GoM tsdb unit;
  ts_IteratorCreator : list ShardInfo → tsdb → res IteratorCreator;
  ts_ShardIteratorCreator : Z → tsdb → option IteratorCreator;
}.

End query.

Arguments TSDBStore {_ _} _.
Arguments StatementLang {_ _} _.
Arguments StatementLangLaws {_ _ _} _.

(** ** An instance to run

    An expression is the time range it stands for; a SELECT gives its rows; the
    store keeps the points of each shard. *)
Record demo_select : Type := mkDemoSelect {
  ds_condition : Z * Z;
  ds_target : option Measurement;
  ds_interval : Z;
  ds_rows : list (@Row demo_models);
}.

Definition demo_sources : @Sources demo_influxql := [].

Definition demo_lang : @QueryLang demo_models demo_influxql := {|
  Expr := Z * Z;
  Iterator := list Z;
  IteratorCreator := list Z;
  Reduce e _ := e;
  HasTimeExpr e := negb (bool_decide (e = (0, 0)));
  TimeRange e := Ok e;
  ics_CreateIterator ics _ := Ok (Some (concat ics));
  ics_FieldDimensions ics _ := Ok (∅, ∅);
  EncodeIterator _ := Write [x00];
  SelectStatement := demo_select;
  sel_Condition := ds_condition;
  sel_setCondition e s := mkDemoSelect e (ds_target s) (ds_interval s) (ds_rows s);
  sel_mapDimensions _ s := s;
  sel_Sources _ := demo_sources;
  sel_setSources _ s := s;
  sel_Target := ds_target;
  sel_IsRawQuery s := ds_interval s =? 0;
  sel_RewriteDistinct s := s;
  sel_RewriteTimeFields s := s;
  sel_RewriteWildcards _ s := Ok s;
  sel_GroupByInterval s := Ok (ds_interval s);
  sel_String _ := "SELECT"%string;
  sources_HasRegex _ := false;
  ic_ExpandSources _ s := Ok s;
  Select _ ic _ := Ok [ic];
  itrs_SeriesN := len;
  emitted_rows s _ _ := (ds_rows s, None);
|}.

Definition demo_shards : Type := gmap Z (list (list byte)).

Definition demo_tsdb : @TSDBStore demo_models demo_influxql demo_lang :=
  @Build_TSDBStore demo_models demo_influxql demo_lang demo_shards
    (λ _ _ id t, (Ok tt, <[id := []]> t))
    (λ id ps t, match t !! id with
                | Some old => (Ok tt, <[id := old ++ ps]> t)
                | None => (Err ErrShardNotFound, t)
                end)
    (λ _ t, (Ok tt, ∅))
    (λ _ _ t, (Ok tt, ∅))
    (λ _ _ t, (Ok tt, ∅))
    (λ _ _ _ t, (Ok tt, ∅))
    (λ id t, (Ok tt, delete id t))
    (λ shards _, Ok (si_ID <$> shards))
    (λ id t, (λ _, [id]) <$> t !! id).
