(* ===== verification/ClusterService.v ===== *)
(** * The service of a data node (cluster/service.go)

    A connection carries records of the TLV framing; the service reads one
    request after the other, works on the local store and writes one response
    each.  The constants of the message types and processExecuteStatementRequest
    are used by the source but not defined in it, and are parameters. *)

From Stdlib Require Import ZArith Lia.
From Stdlib Require Import Strings.Byte.
From S2P Require Import Prelude GoLib Tlv Rpc Query.

Local Open Scope Z_scope.

Class MessageTypes : Type := {
  writeShardRequestMessage : byte;
  writeShardResponseMessage : byte;
  executeStatementRequestMessage : byte;
  createIteratorRequestMessage : byte;
  createIteratorResponseMessage : byte;
  fieldDimensionsRequestMessage : byte;
  fieldDimensionsResponseMessage : byte;
}.

(** The cases of a switch are distinct constants. *)
Class MessageTypesLaws `{MessageTypes} : Prop :=
  request_types_distinct : NoDup [writeShardRequestMessage; executeStatementRequestMessage;
    createIteratorRequestMessage; fieldDimensionsRequestMessage].

Section service.
  Context `{QueryLang, !TSDBStore _, MessageTypes, RpcEnv}.
  Context `{Proto pbWriteShardRequest} `{Proto pbWriteShardResponse}.
  Context `{Proto pbCreateIteratorRequest} `{Proto pbCreateIteratorResponse}.
  Context `{Proto pbFieldDimensionsRequest} `{Proto pbFieldDimensionsResponse}.
  (** [processExecuteStatementRequest(buf)] *)
  Context (processExecuteStatementRequest : list byte → GoM tsdb unit).

(** ** Statements sent to a node *)

(** [executeStatement(stmt, database)] *)
Definition executeStatement (stmt : Statement) (database : string) : GoM tsdb unit :=
  match stmt with
  | DropDatabaseStatement name => ts_DeleteDatabase name
  | DropMeasurementStatement name => ts_DeleteMeasurement database name
  | DropSeriesStatement sources condition => ts_DeleteSeries database sources condition
  | DropRetentionPolicyStatement name _ => ts_DeleteRetentionPolicy database name
  | _ => throw (errorf "should not be executed across a cluster")
  end.

(** ** Writes *)

(** [processWriteShardRequest(buf)] after decoding the request. *)
Definition applyWrite (req : WriteShardRequest) : GoM tsdb unit :=
  points ← lift_res (Points req);
  r ← attempt (ts_WriteToShard (ShardID req) points);
  match r with
  | inr _ => mret tt
  | inl ErrShardNotFound =>
      if decide (Database req = ""%string ∨ RetentionPolicy req = ""%string) then mret tt
      else
        _ ← wrapping "create shard"
              (ts_CreateShard (Database req) (RetentionPolicy req) (ShardID req));
        wrapping "write shard" (ts_WriteToShard (ShardID req) points)
  | inl err => throw (wrap_err "write shard" err)
  end.

(** [processWriteShardRequest(buf)] *)
Definition processWriteShardRequest (buf : list byte) : GoM tsdb unit :=
  req ← lift_res (UnmarshalBinary buf : res WriteShardRequest);
  applyWrite req.

(** ** A connection *)

(** The bytes to read, the bytes written, and the store. *)
Record connection : Type := mkConnection {
  co_in : list byte;
  co_out : writer;
  co_closed : bool;
  co_store : tsdb;
}.

Definition ConnM (A : Type) : Type := GoM connection A.

Definition onIn {A} (m : ReaderM A) : ConnM A :=
  zoom co_in (λ i c, mkConnection i (co_out c) (co_closed c) (co_store c)) m.
Definition onOut {A} (m : WriterM A) : ConnM A :=
  zoom co_out (λ o c, mkConnection (co_in c) o (co_closed c) (co_store c)) m.
Definition onTsdb {A} (m : GoM tsdb A) : ConnM A :=
  zoom co_store (λ s c, mkConnection (co_in c) (co_out c) (co_closed c) s) m.
Definition closeConn : ConnM unit :=
  modify (λ c, mkConnection (co_in c) (co_out c) true (co_store c)).

(** The response that [writeShardResponse] builds. *)
Definition buildResponse (e : option error) : WriteShardResponse :=
  match e with
  | Some e => SetMessage (error_text e) (SetCode 1 newWriteShardResponse)
  | None => SetCode 0 newWriteShardResponse
  end.

(** [writeShardResponse(conn, e)]: failures to encode or write are logged. *)
Definition writeShardResponse (e : option error) : ConnM unit :=
  match MarshalBinary (buildResponse e) with
  | Ok buf => _ ← attempt (onOut (WriteTLV writeShardResponseMessage buf)); mret tt
  | Err _ => mret tt
  | Panics => panic
  end.

(** The iterator creators of the shards; [None] when a shard has none. *)
Definition collectCreators (shardIDs : list Z) (t : tsdb) : option (list IteratorCreator) :=
  mapM (λ id, ts_ShardIteratorCreator id t) shardIDs.

(** The function literal of [processCreateIteratorRequest]: the iterator, [None]
    when a shard is missing or no iterator was created. *)
Definition createIterator : ConnM (option Iterator) :=
  req ← onIn (DecodeLV : ReaderM CreateIteratorRequest);
  c ← get_state;
  match collectCreators (cq_ShardIDs req) (co_store c) with
  | None => mret None
  | Some ics => lift_res (ics_CreateIterator ics (cq_Opt req))
  end.

(** [processCreateIteratorRequest(conn)]: when the request fails the iterator is
    still the nil interface, and closing it panics. *)
Definition processCreateIteratorRequest : ConnM unit :=
  r ← attempt createIterator;
  match r with
  | inl _ => _ ← closeConn; panic
  | inr itr =>
      w ← attempt (onOut (EncodeTLV createIteratorResponseMessage (mkCreateIteratorResponse None)));
      match w, itr with
      | inr _, Some i => _ ← attempt (onOut (EncodeIterator i)); closeConn
      | _, _ => closeConn
      end
  end.

(** The function literal of [processFieldDimensionsRequest]. *)
Definition fieldDimensions : ConnM (gset string * gset string) :=
  req ← onIn (DecodeLV : ReaderM FieldDimensionsRequest);
  c ← get_state;
  match collectCreators (fq_ShardIDs req) (co_store c) with
  | None => mret (∅, ∅)
  | Some ics => lift_res (ics_FieldDimensions ics (fq_Sources req))
  end.

(** [processFieldDimensionsRequest(conn)] *)
Definition processFieldDimensionsRequest : ConnM unit :=
  r ← attempt fieldDimensions;
  _ ← attempt (onOut (EncodeTLV fieldDimensionsResponseMessage
        (match r with
         | inl err => mkFieldDimensionsResponse ∅ ∅ (Some err)
         | inr (fields, dimensions) => mkFieldDimensionsResponse fields dimensions None
         end)));
  mret tt.

(** A request that is answered with a code: read its value, process it, answer;
    false when the value cannot be read. *)
Definition serveRequest (process : list byte → GoM tsdb unit) : ConnM bool :=
  r ← attempt (onIn ReadLV);
  match r with
  | inl _ => mret false
  | inr buf =>
      e ← attempt (onTsdb (process buf));
      _ ← writeShardResponse (match e with inl err => Some err | inr _ => None end);
      mret true
  end.

(** One iteration of the loop of [handleConn]: whether it goes on. *)
Definition handleOne : ConnM bool :=
  t ← attempt (onIn ReadType);
  match t with
  | inl _ => mret false
  | inr typ =>
      if decide (typ = writeShardRequestMessage) then serveRequest processWriteShardRequest
      else if decide (typ = executeStatementRequestMessage)
      then serveRequest processExecuteStatementRequest
      else if decide (typ = createIteratorRequestMessage)
      then _ ← processCreateIteratorRequest; mret false
      else if decide (typ = fieldDimensionsRequestMessage)
      then _ ← processFieldDimensionsRequest; mret false
      else mret true
  end.

(** [handleConn(conn)]; [None] means the fuel ran out. *)
Fixpoint handleConn (fuel : nat) : ConnM (option unit) :=
  match fuel with
  | O => mret None
  | S fuel' =>
      go ← handleOne;
      if go : bool then handleConn fuel' else _ ← closeConn; mret (Some tt)
  end.

(** ** The service *)

(** Its listener (nil, or whether it is open), the channel [closing] and the
    goroutines of the wait group. *)
Record Service : Type := mkService {
  sv_Listener : option bool;
  sv_closing : bool;
  sv_wg : nat;
}.

Definition NewService : Service := mkService None false 0.

(** [Open()] starts the goroutine of [serve]. *)
Definition service_Open : GoM Service unit :=
  modify (λ s, mkService (sv_Listener s) (sv_closing s) (S (sv_wg s))).

(** [Close()]: closing the channel a second time panics; the listener is closed
    before that.  The goroutines end once their connections are closed, and the
    call returns when none is left. *)
Definition service_Close : GoM Service unit :=
  _ ← modify (λ s, mkService ((λ _, false) <$> sv_Listener s) (sv_closing s) (sv_wg s));
  s ← get_state;
  if sv_closing s then panic else modify (λ s, mkService (sv_Listener s) true 0).

(** ** Accepting connections *)

(** What [Listener.Accept()] returns. *)
Inductive acceptance : Type :=
  | Accepted (c : connection)
  | AcceptError (text : string).

(** [serve()]: a trace lists whether [closing] was closed at the head of the loop
    and what [Accept] returned; the connections that get a goroutine. *)
Fixpoint serve (trace : list (bool * acceptance)) : list connection :=
  match trace with
  | [] => []
  | (true, _) :: _ => []
  | (false, Accepted c) :: trace' => c :: serve trace'
  | (false, AcceptError text) :: trace' =>
      if String.index 0 "connection closed" text is Some _ then [] else serve trace'
  end.

End service.
