(* ===== verification/ServiceTheorems.v ===== *)
(** * Properties of the service of a data node

    The request loop ends on every input, serves the writes of a connection in
    order with one response each, and what happens to writes for missing shards,
    failing iterator requests and unknown message types. *)

From Stdlib Require Import ZArith Lia.
From Stdlib Require Import Strings.Byte.
From S2P Require Import Prelude GoLib Tlv Rpc Query ClusterService.

Local Open Scope Z_scope.

(** ** Reading only shortens the input *)

Lemma ReadFull_shrinks n r : (length (ReadFull n r).2 ≤ length r)%nat.
Proof. unfold ReadFull. case_match; cbn; [lia|]. rewrite length_drop. lia. Qed.

Lemma ReadType_shrinks r t r' : ReadType r = (Ok t, r') → r = t :: r'.
Proof.
  unfold ReadType, wrapping, ReadFull. gom_simpl. destruct r as [|b r]; [done|].
  replace (len (b :: r) <? 1) with false by (symmetry; apply Z.ltb_ge; unfold len; cbn; lia).
  cbn. intros [= <- <-]. by rewrite drop_0.
Qed.

Lemma ReadLV_shrinks r : (length (ReadLV r).2 ≤ length r)%nat.
Proof.
  unfold ReadLV, ReadInt64, wrapping. gom_simpl.
  pose proof (ReadFull_shrinks 8 r) as H8. destruct (ReadFull 8 r) as [[bs| |] r1]; cbn in *; [|lia..].
  repeat case_match; simplify_eq; cbn; try lia;
    match goal with E : ReadFull ?n r1 = _ |- _ => pose proof (ReadFull_shrinks n r1) as Hn; rewrite E in Hn end;
    cbn in *; lia.
Qed.

Section service.
  Context `{QueryLang, !TSDBStore _, MessageTypes, RpcEnv}.
  Context `{Proto pbWriteShardRequest} `{Proto pbWriteShardResponse}.
  Context `{Proto pbCreateIteratorRequest} `{Proto pbCreateIteratorResponse}.
  Context `{Proto pbFieldDimensionsRequest} `{Proto pbFieldDimensionsResponse}.
  Context (exec : list byte → GoM tsdb unit).

Lemma writeShardResponse_in e c : co_in (writeShardResponse e c).2 = co_in c.
Proof.
  unfold writeShardResponse, onOut. gom_simpl. destruct (MarshalBinary _) as [b| |]; [|done..].
  by destruct (WriteTLV writeShardResponseMessage b (co_out c)) as [[?| |] w].
Qed.

Lemma serveRequest_shrinks process c :
  (length (co_in (serveRequest process c).2) ≤ length (co_in c))%nat.
Proof.
  unfold serveRequest, onIn, onTsdb. gom_simpl. pose proof (ReadLV_shrinks (co_in c)) as Hl.
  destruct (ReadLV (co_in c)) as [[buf| |] i]; cbn in *; [|lia..].
  destruct (process buf (co_store c)) as [[?| |] s]; cbn; [| |lia].
  all: match goal with |- context [writeShardResponse ?e ?c1] =>
         pose proof (writeShardResponse_in e c1) as Hw; destruct (writeShardResponse e c1) as [[?| |] c2] end;
       cbn in *; rewrite Hw; lia.
Qed.

Lemma handleOne_shrinks c c' :
  handleOne exec c = (Ok true, c') → (length (co_in c') < length (co_in c))%nat.
Proof.
  unfold handleOne, onIn. gom_simpl.
  destruct (ReadType (co_in c)) as [[t| |] r] eqn:Et; cbn; [|done..].
  apply ReadType_shrinks in Et. rewrite Et.
  set (c1 := mkConnection r (co_out c) (co_closed c) (co_store c)).
  destruct (decide (t = writeShardRequestMessage)).
  { intros E. pose proof (serveRequest_shrinks processWriteShardRequest c1) as Hs.
    rewrite E in Hs. cbn in *. lia. }
  destruct (decide (t = executeStatementRequestMessage)).
  { intros E. pose proof (serveRequest_shrinks exec c1) as Hs. rewrite E in Hs. cbn in *. lia. }
  destruct (decide (t = createIteratorRequestMessage)).
  { by destruct (processCreateIteratorRequest c1) as [[?| |] c2]. }
  destruct (decide (t = fieldDimensionsRequestMessage)).
  { by destruct (processFieldDimensionsRequest c1) as [[?| |] c2]. }
  intros [= <-]. cbn. lia.
Qed.

(** Errors are logged or answered, never returned. *)
Lemma attempt_no_Err {S A} (m : GoM S A) s e : (attempt m s).1 ≠ Err e.
Proof. unfold attempt. by destruct (m s) as [[?| |] ?]. Qed.

Lemma bind_no_Err {S A B} (m : GoM S A) (k : A → GoM S B) s :
  (∀ e, (m s).1 ≠ Err e) → (∀ a s e, (k a s).1 ≠ Err e) → ∀ e, ((m ≫= k) s).1 ≠ Err e.
Proof. intros Hm Hk e. gom_simpl. destruct (m s) as [[a|a|] s']; [apply Hk|by destruct (Hm a)|done]. Qed.

Lemma writeShardResponse_no_Err x c e : (writeShardResponse x c).1 ≠ Err e.
Proof.
  unfold writeShardResponse. destruct (MarshalBinary _); [|done..].
  apply bind_no_Err; [apply attempt_no_Err|done].
Qed.

Lemma serveRequest_no_Err process c e : (serveRequest process c).1 ≠ Err e.
Proof.
  apply bind_no_Err; [apply attempt_no_Err|]. intros [?|buf] c1; [done|].
  apply bind_no_Err; [apply attempt_no_Err|]. intros r c2.
  apply bind_no_Err; [intros ?; apply writeShardResponse_no_Err|done].
Qed.

Lemma iterator_request_no_Err c e : (processCreateIteratorRequest c).1 ≠ Err e.
Proof.
  apply bind_no_Err; [apply attempt_no_Err|]. intros [?|itr] c1; [done|].
  apply bind_no_Err; [apply attempt_no_Err|]. intros [?|u] c2; [done|]. destruct itr; [|done].
  apply bind_no_Err; [apply attempt_no_Err|done].
Qed.

Lemma handleOne_no_Err c e : (handleOne exec c).1 ≠ Err e.
Proof.
  apply bind_no_Err; [apply attempt_no_Err|]. intros [?|t] c1; [done|].
  case_decide; [intros ?; apply serveRequest_no_Err|].
  case_decide; [intros ?; apply serveRequest_no_Err|].
  case_decide; [apply bind_no_Err; [intros ?; apply iterator_request_no_Err|done]|].
  case_decide; [|done]. apply bind_no_Err; [|done].
  apply bind_no_Err; [apply attempt_no_Err|]. intros r c2. apply bind_no_Err; [apply attempt_no_Err|done].
Qed.

(** C39. A connection is served to its end, whatever its input: with as many
    iterations as the input has bytes and one more, the loop of [handleConn] never
    runs out, since every iteration that goes on has consumed a byte.  It gives no
    error; either it returns with the connection closed, or it panics (on a
    negative length, for example), which nothing recovers. *)
Theorem handleConn_terminates fuel c :
  (length (co_in c) < fuel)%nat →
  match handleConn exec fuel c with
  | (Ok (Some _), c') => co_closed c' = true
  | (Ok None, _) | (Err _, _) => False
  | (Panics, _) => True
  end.
Proof.
  revert c. induction fuel as [|fuel IH]; intros c Hf; [lia|]. simpl. gom_simpl.
  pose proof (handleOne_no_Err c) as He.
  destruct (handleOne exec c) as [[[]|e|] c1] eqn:E; [|done|by destruct (He e)|done].
  apply IH. apply handleOne_shrinks in E. lia.
Qed.

(** ** Writes in order *)

(** Requests applied one after the other to a store: the error of each, and the
    store at the end. *)
Inductive serves : list WriteShardRequest → tsdb → list (option error) → tsdb → Prop :=
  | serves_nil t : serves [] t [] t
  | serves_ok req reqs t t1 es t' :
      applyWrite req t = (Ok tt, t1) → serves reqs t1 es t' → serves (req :: reqs) t (None :: es) t'
  | serves_err req reqs t e t1 es t' :
      applyWrite req t = (Err e, t1) → serves reqs t1 es t' → serves (req :: reqs) t (Some e :: es) t'.

Definition bytes_of {M} `{Message M} (m : M) : list byte :=
  match MarshalBinary m with Ok b => b | _ => [] end.

(** What the sender writes, and what it gets back. *)
Definition request_stream (reqs : list WriteShardRequest) : list byte :=
  concat ((λ r, frame writeShardRequestMessage (bytes_of r)) <$> reqs).
Definition response_stream (es : list (option error)) : list byte :=
  concat ((λ e, frame writeShardResponseMessage (bytes_of (buildResponse e))) <$> es).

Lemma buildResponse_wf `{!ProtoLaws pbWriteShardResponse} e : wf_msg (buildResponse e).
Proof. destruct e; (split; [done|apply i32_range]). Qed.

Lemma buildResponse_bytes `{!ProtoLaws pbWriteShardResponse} e :
  MarshalBinary (buildResponse e) = Ok (bytes_of (buildResponse e)) ∧
  UnmarshalBinary (bytes_of (buildResponse e)) = Ok (buildResponse e).
Proof.
  destruct (codec_ok _ (buildResponse_wf e)) as (b & Hm & Hu). unfold bytes_of. by rewrite Hm.
Qed.

Lemma writeShardResponse_eval `{!ProtoLaws pbWriteShardResponse} e i out t :
  writeShardResponse e (mkConnection i (mkWriter out None) false t) =
  (Ok tt, mkConnection i (mkWriter (out ++ response_stream [e]) None) false t).
Proof.
  unfold writeShardResponse, onOut. destruct (buildResponse_bytes e) as [-> _]. gom_simpl. cbn [co_out].
  rewrite WriteTLV_frame by done. cbn. by rewrite app_nil_r.
Qed.

Lemma request_stream_cons req reqs :
  request_stream (req :: reqs) = frame writeShardRequestMessage (bytes_of req) ++ request_stream reqs.
Proof. done. Qed.
Lemma response_stream_cons e es : response_stream (e :: es) = response_stream [e] ++ response_stream es.
Proof. unfold response_stream. cbn [fmap list_fmap concat]. by rewrite app_nil_r. Qed.

Lemma handleConn_step fuel c c1 :
  handleOne exec c = (Ok true, c1) → handleConn exec (S fuel) c = handleConn exec fuel c1.
Proof. intros E. simpl. gom_simpl. by rewrite E. Qed.

(** One write request at the head of the input. *)
Lemma handleOne_write `{!ProtoLaws pbWriteShardResponse} req b rest out t r t1 :
  MarshalBinary req = Ok b → UnmarshalBinary b = Ok req → len b < MaxMessageSize →
  applyWrite req t = (r, t1) → r ≠ Panics →
  handleOne exec (mkConnection (frame writeShardRequestMessage b ++ rest) (mkWriter out None) false t) =
  (Ok true, mkConnection rest
     (mkWriter (out ++ response_stream [match r with Err e => Some e | _ => None end]) None) false t1).
Proof.
  intros Hm Hu Hl Ha Hr.
  pose proof (ReadTLV_frame writeShardRequestMessage b rest Hl) as Ht.
  unfold ReadTLV in Ht. unfold handleOne, serveRequest, onIn, onTsdb. gom_simpl. cbn [co_in].
  destruct (ReadType _) as [[typ| |] r1] eqn:E1; [|done..].
  destruct (ReadLV r1) as [[buf| |] r2] eqn:E2; [|done..]. simplify_eq.
  rewrite decide_True by done. cbn [co_in]. rewrite E2. cbn [co_store].
  unfold processWriteShardRequest. gom_simpl. rewrite Hu, Ha.
  destruct r as [[]|e|]; [| |done]; cbn [co_in co_out co_closed]; by rewrite writeShardResponse_eval.
Qed.

(** C4. The writes of a connection are served in order: for a sequence of encoded
    write requests and then the end of the input, the loop applies the requests
    to the store one after the other and writes exactly one response per
    request, in the same order, with code 0 or with code 1 and the text of the
    error; a failed write does not end the connection. *)
Theorem handleConn_serves_in_order `{!ProtoLaws pbWriteShardResponse} reqs t es t' out fuel :
  serves reqs t es t' →
  Forall (λ r, MarshalBinary r = Ok (bytes_of r) ∧ UnmarshalBinary (bytes_of r) = Ok r ∧
               len (bytes_of r) < MaxMessageSize) reqs →
  (length reqs < fuel)%nat →
  handleConn exec fuel (mkConnection (request_stream reqs) (mkWriter out None) false t) =
  (Ok (Some tt), mkConnection [] (mkWriter (out ++ response_stream es) None) true t') ∧
  Forall (λ e, ∃ w, UnmarshalBinary (bytes_of (buildResponse e)) = Ok w ∧
    match e with None => Code w = 0 | Some e => Code w = 1 ∧ Message_ w = error_text e end) es.
Proof.
  intros Hs Hwf Hf. split.
  - revert out fuel Hwf Hf. induction Hs as [t|req reqs t t1 es t' Ha Hs IH|req reqs t e t1 es t' Ha Hs IH];
      intros out fuel Hwf Hf; (destruct fuel as [|fuel]; [cbn in Hf; lia|]).
    + cbn. by rewrite app_nil_r.
    + apply Forall_cons in Hwf as [(Hm & Hu & Hl) Hwf]. rewrite request_stream_cons, response_stream_cons.
      erewrite handleConn_step by (by apply (handleOne_write req _ _ _ _ (Ok tt) t1)).
      rewrite IH by (done || cbn in *; lia). by rewrite app_assoc.
    + apply Forall_cons in Hwf as [(Hm & Hu & Hl) Hwf]. rewrite request_stream_cons, response_stream_cons.
      erewrite handleConn_step by (by apply (handleOne_write req _ _ _ _ (Err e) t1)).
      rewrite IH by (done || cbn in *; lia). by rewrite app_assoc.
  - apply Forall_true. intros e. exists (buildResponse e). split; [apply buildResponse_bytes|].
    by destruct e.
Qed.

(** ** Missing shards *)

(** What a write request does to the store.  A shard that is there is written
    once.  For a missing shard, a request with database and policy creates it and
    writes again; a request without one of them is dropped, and the sender still
    gets a success although nothing was stored.  Any other error is reported. *)
Theorem applyWrite_outcome req points t r t1 :
  Points req = Ok points →
  ts_WriteToShard (ShardID req) points t = (r, t1) →
  match r with
  | Ok _ => applyWrite req t = (Ok tt, t1)
  | Err ErrShardNotFound =>
      if decide (Database req = ""%string ∨ RetentionPolicy req = ""%string)
      then applyWrite req t = (Ok tt, t1)
      else match ts_CreateShard (Database req) (RetentionPolicy req) (ShardID req) t1 with
           | (Ok _, t2) =>
               match ts_WriteToShard (ShardID req) points t2 with
               | (Err e, t3) => applyWrite req t = (Err (wrap_err "write shard" e), t3)
               | x => applyWrite req t = x
               end
           | (Err e, t2) => applyWrite req t = (Err (wrap_err "create shard" e), t2)
           | (Panics, t2) => applyWrite req t = (Panics, t2)
           end
  | Err e => applyWrite req t = (Err (wrap_err "write shard" e), t1)
  | Panics => applyWrite req t = (Panics, t1)
  end.
Proof.
  intros Hp Hw. unfold applyWrite, wrapping. rewrite Hp. gom_simpl. rewrite Hw.
  destruct r as [[]|e|]; [done| |done]. destruct e; try done.
  case_decide; [done|].
  destruct (ts_CreateShard _ _ _ t1) as [[?|e|] t2]; [|done..].
  by destruct (ts_WriteToShard (ShardID req) points t2) as [[[]|e|] t3].
Qed.

(** ** Iterators *)

(** Iterator requests: any failure (a request that cannot be read, or an error
    while creating the iterator) ends in a nil dereference that brings the node
    down, so the error response is never sent; and a request that names a shard
    the node does not have is answered with success and no data. *)
Theorem processCreateIteratorRequest_outcome c :
  (∀ e c1, createIterator c = (Err e, c1) → (processCreateIteratorRequest c).1 = Panics) ∧
  (∀ req i, DecodeLV (co_in c) = (Ok req, i) → collectCreators (cq_ShardIDs req) (co_store c) = None →
     let w := EncodeTLV createIteratorResponseMessage (mkCreateIteratorResponse None) (co_out c) in
     w.1 ≠ Panics →
     processCreateIteratorRequest c = (Ok tt, mkConnection i w.2 true (co_store c))).
Proof.
  split.
  - intros e c1 E. unfold processCreateIteratorRequest. gom_simpl. by rewrite E.
  - intros req i Hd Hm w Hw. unfold processCreateIteratorRequest, createIterator, onIn, onOut, closeConn.
    gom_simpl. rewrite Hd. cbn [co_store co_out co_in co_closed]. rewrite Hm. cbn [co_out]. fold w.
    by destruct w as [[?| |] w'].
Qed.

(** ** Unknown message types *)

Definition isRequest (t : byte) : bool :=
  bool_decide (t ∈ [writeShardRequestMessage; executeStatementRequestMessage;
                    createIteratorRequestMessage; fieldDimensionsRequestMessage]).

Lemma handleOne_unknown t rest out cl s :
  isRequest t = false →
  handleOne exec (mkConnection (t :: rest) out cl s) = (Ok true, mkConnection rest out cl s).
Proof.
  intros Hn. apply bool_decide_eq_false in Hn. unfold handleOne, onIn. gom_simpl. cbn [co_in].
  destruct (ReadType (t :: rest)) as [[t'| |] r] eqn:E.
  - apply ReadType_shrinks in E. injection E as <- <-.
    rewrite !decide_False by set_solver. done.
  - unfold ReadType, wrapping, ReadFull in E. revert E. gom_simpl.
    replace (len (t :: rest) <? 1) with false by (symmetry; apply Z.ltb_ge; unfold len; cbn; lia). done.
  - unfold ReadType, wrapping, ReadFull in E. revert E. gom_simpl.
    replace (len (t :: rest) <? 1) with false by (symmetry; apply Z.ltb_ge; unfold len; cbn; lia). done.
Qed.

Lemma handleConn_skips hdr rest out cl s fuel :
  Forall (λ t, isRequest t = false) hdr →
  handleConn exec (length hdr + fuel) (mkConnection (hdr ++ rest) out cl s) =
  handleConn exec fuel (mkConnection rest out cl s).
Proof.
  induction 1 as [|t hdr Ht _ IH]; [done|].
  cbn [length Nat.add app]. erewrite handleConn_step by (by apply handleOne_unknown). done.
Qed.

(** A record of an unknown type is not skipped: only its type byte is dropped,
    and when the bytes of its length are no request types either, its value is
    served as requests of its own.  A write request inside the value of such a
    record is executed. *)
Theorem unknown_record_value_is_served typ buf rest out cl s fuel :
  isRequest typ = false → Forall (λ t, isRequest t = false) (BigEndian.PutUint64 (u64 (len buf))) →
  handleConn exec (9 + fuel) (mkConnection (frame typ buf ++ rest) out cl s) =
  handleConn exec fuel (mkConnection (buf ++ rest) out cl s).
Proof.
  intros Ht Hh. unfold frame.
  pose proof (handleConn_skips (typ :: BigEndian.PutUint64 (u64 (len buf))) (buf ++ rest) out cl s fuel) as Hs.
  cbn [length] in Hs. rewrite BigEndian.PutUint64_length in Hs.
  replace ((typ :: BigEndian.PutUint64 (u64 (len buf)) ++ buf) ++ rest)
    with ((typ :: BigEndian.PutUint64 (u64 (len buf))) ++ buf ++ rest)
    by (cbn [app]; by rewrite <- app_assoc).
  apply Hs. by constructor.
Qed.

End service.

(** ** Runs *)

Definition demo_types : MessageTypes := {|
  writeShardRequestMessage := x01; writeShardResponseMessage := x02;
  executeStatementRequestMessage := x03;
  createIteratorRequestMessage := x05; createIteratorResponseMessage := x06;
  fieldDimensionsRequestMessage := x07; fieldDimensionsResponseMessage := x08 |}.

#[local] Existing Instances demo_models demo_influxql demo_env demo_lang demo_tsdb demo_types.
#[local] Existing Instances countable_proto countable_proto_laws.

Definition demo_exec : list byte → GoM (@tsdb _ _ _ demo_tsdb) unit := λ _, mret tt.

Definition demo_connection (i : list byte) (shards : demo_shards) : connection :=
  mkConnection i (mkWriter [] None) false shards.

(** A write to a shard that is there, one that creates its shard, and one that
    names neither database nor policy. *)
Definition demo_request (id : Z) (db : string) : WriteShardRequest :=
  mkWriteShardRequest (mkPbWriteShardRequest (Some id) [[x61]] (Some db) (Some db)).

Definition demo_requests : list WriteShardRequest :=
  [demo_request 1 "db"; demo_request 2 "db"; demo_request 3 ""].

Definition demo_before : demo_shards := {[1 := []]}.
Definition demo_after : demo_shards := {[1 := [[x61]]; 2 := [[x61]]]}.

(** One input ends in the middle of a length, the other has a negative length. *)
Lemma handleConn_terminates_witness :
  let cut := handleConn demo_exec 4 (demo_connection [x01; x00; x00] demo_before) in
  let negative := handleConn demo_exec 10
    (demo_connection [x01; xff; x00; x00; x00; x00; x00; x00; x00] demo_before) in
  cut.1 = Ok (Some tt) ∧ co_closed cut.2 = true ∧ negative.1 = Panics.
Proof.
  cbv zeta. assert (Hc : (handleConn demo_exec 4 (demo_connection [x01; x00; x00] demo_before)).1 = Ok (Some tt))
    by (vm_compute; reflexivity).
  split_and!; [exact Hc| |vm_compute; reflexivity].
  pose proof (handleConn_terminates demo_exec 4 (demo_connection [x01; x00; x00] demo_before) ltac:(cbn; lia)) as Ht.
  destruct (handleConn demo_exec 4 _) as [r c]. cbn [fst snd] in *. rewrite Hc in Ht. exact Ht.
Defined.

Lemma handleConn_serves_in_order_witness :
  handleConn demo_exec 4 (demo_connection (request_stream demo_requests) demo_before) =
  (Ok (Some tt), mkConnection [] (mkWriter (response_stream [None; None; None]) None) true demo_after).
Proof.
  refine (proj1 (handleConn_serves_in_order demo_exec demo_requests demo_before
    [None; None; None] demo_after [] 4 _ _ _)).
  - eapply serves_ok; [vm_compute; reflexivity|].
    eapply serves_ok; [vm_compute; reflexivity|].
    eapply serves_ok; [vm_compute; reflexivity|]. apply serves_nil.
  - repeat constructor.
  - cbn. lia.
Defined.

Lemma applyWrite_outcome_witness :
  applyWrite (demo_request 3 "") demo_before = (Ok tt, demo_before).
Proof.
  exact (applyWrite_outcome (demo_request 3 "") [[x61]] demo_before
    (Err ErrShardNotFound) demo_before eq_refl eq_refl).
Defined.

Definition demo_iterator_request : CreateIteratorRequest := mkCreateIteratorRequest [7] [x61].

Lemma processCreateIteratorRequest_outcome_witness :
  (processCreateIteratorRequest (demo_connection [] demo_before)).1 = Panics ∧
  (processCreateIteratorRequest (demo_connection
     (drop 1 (frame x05 (bytes_of demo_iterator_request))) demo_before)).1 = Ok tt.
Proof.
  split.
  - refine (proj1 (processCreateIteratorRequest_outcome (demo_connection [] demo_before))
      (wrap_err "read message size" EOF) (demo_connection [] demo_before) _).
    reflexivity.
  - rewrite (proj2 (processCreateIteratorRequest_outcome (demo_connection
      (drop 1 (frame x05 (bytes_of demo_iterator_request))) demo_before)) demo_iterator_request []).
    + reflexivity.
    + reflexivity.
    + reflexivity.
    + discriminate.
Defined.

(** The value of a record of the unknown type 0x40 is a write request. *)
Lemma unknown_record_value_is_served_witness :
  handleConn demo_exec 11 (demo_connection
    (frame x40 (request_stream [demo_request 1 "db"]) ++ [x41]) demo_before) =
  handleConn demo_exec 2 (demo_connection (request_stream [demo_request 1 "db"] ++ [x41]) demo_before).
Proof.
  apply (unknown_record_value_is_served demo_exec x40 _ [x41] (mkWriter [] None) false demo_before 2).
  - reflexivity.
  - repeat constructor.
Defined.
