(* ===== verification/StatementExecutor.v ===== *)
(** * Executing statements (cluster/statement_executor.go)

    The executor sends changes of the metadata to the meta client, deletes data
    in the local store and streams the rows of a SELECT.  [ClusterMeta] is the
    interface [MetaClient] of the source, [IntoWriter] that of the points writer
    and [Monitoring] that of the monitor; their states are kept side by side with
    the results sent so far. *)

From Stdlib Require Import ZArith Lia.
From S2P Require Import Prelude GoLib MetaData StoreFSM Rpc Query.

Local Open Scope Z_scope.

(** ** What the executor calls *)

Record SubscriptionInfo : Type := mkSubscriptionInfo {
  sub_Name : string; sub_Mode : string; sub_Destinations : list string }.
Record ContinuousQueryInfo : Type := mkContinuousQueryInfo { cq_Name : string; cq_Query : string }.

(** The interface MetaClient, with the accessors of the OSS metadata that only
    the executor uses. *)
Class ClusterMeta `{Influxql} : Type := {
  metaState : Type;
  mc_CreateContinuousQuery : string → string → string → GoM metaState unit;
  mc_CreateDatabase : string → GoM metaState unit;
  mc_CreateDatabaseWithRetentionPolicy : string → RetentionPolicyInfo → GoM metaState unit;
  mc_CreateRetentionPolicy : string → RetentionPolicyInfo → GoM metaState unit;
  mc_CreateSubscription : string → string → string → string → list string → GoM metaState unit;
  mc_CreateUser : string → string → bool → GoM metaState unit;
  mc_Database : string → metaState → option DatabaseInfo;
  mc_Databases : metaState → list DatabaseInfo;
  mc_DropContinuousQuery : string → string → GoM metaState unit;
  mc_DropDatabase : string → GoM metaState unit;
  mc_DropRetentionPolicy : string → string → GoM metaState unit;
  mc_DropShard : Z → GoM metaState unit;
  mc_DropSubscription : string → string → string → GoM metaState unit;
  mc_DropUser : string → GoM metaState unit;
  mc_SetAdminPrivilege : string → bool → GoM metaState unit;
  mc_SetDefaultRetentionPolicy : string → string → GoM metaState unit;
  mc_SetPrivilege : string → string → Z → GoM metaState unit;
  mc_ShardsByTimeRange : Sources → Z → Z → metaState → res (list ShardInfo);
  mc_UpdateRetentionPolicy : string → string → RetentionPolicyUpdate → GoM metaState unit;
  mc_UpdateUser : string → string → GoM metaState unit;
  mc_UserPrivilege : string → string → metaState → res (option Z);
  mc_UserPrivileges : string → metaState → res (gmap string Z);
  mc_Users : metaState → list UserInfo;
  NewRetentionPolicyInfo : string → RetentionPolicyInfo;
  Deleted : ShardGroupInfo → bool;
  ContinuousQueries : DatabaseInfo → list ContinuousQueryInfo;
  Subscriptions : RetentionPolicyInfo → list SubscriptionInfo;
}.

(** IntoWriteRequest *)
Record IntoWriteRequest `{Models} : Type := mkIntoWriteRequest {
  iw_Database : string; iw_RetentionPolicy : string; iw_Points : list Point }.
Arguments mkIntoWriteRequest {_} _ _ _.

Class IntoWriter `{Models} : Type := {
  writerState : Type;
  WritePointsInto : IntoWriteRequest → GoM writerState unit;
}.

(** monitor.Statistic, with the result of its method [ValueNames]. *)
Record Statistic `{Models} : Type := mkStatistic {
  st_Name : string; st_Tags : Tags; st_ValueNames : list string; st_Values : gmap string iface }.

(** The monitor, the privileges of influxql and the order of a map iteration. *)
Class Monitoring `{Models} : Type := {
  Diagnostics : res (gmap string (list string * list (list iface)));
  Statistics : res (list Statistic);
  NoPrivileges : Z;
  AllPrivileges : Z;
  privilege_String : Z → string;
  rangeGrants : gmap string Z → list (string * Z);
  ReadOnlyWarning : string → string;
}.

Class MonitoringLaws `{Monitoring} : Prop := {
  no_privileges : NoPrivileges = 0;
  range_grants_all m : rangeGrants m ≡ₚ map_to_list m;
}.

(** ** State *)

(** influxql.Result; a message is a warning with its text. *)
Record Result `{Models} : Type := mkResult {
  rs_StatementID : Z; rs_Series : list Row; rs_Messages : list string }.
Arguments mkResult {_} _ _ _.

(** influxql.ExecutionContext.  [ctx_Interrupt n] tells whether the select
    statement of the [n]-th row (or after the last one) takes the interrupt. *)
Record ExecutionContext : Type := mkContext {
  ctx_StatementID : Z;
  ctx_Database : string;
  ctx_ReadOnly : bool;
  ctx_ChunkSize : Z;
  ctx_Interrupt : nat → bool;
}.

(** The limits of a StatementExecutor. *)
Record limits : Type := mkLimits {
  MaxSelectPointN : Z; MaxSelectSeriesN : Z; MaxSelectBucketsN : Z }.

Section executor.
  Context `{QueryLang, !TSDBStore _, !ClusterMeta, !IntoWriter, !Monitoring}.

(** [ex_monitors] are the point limits registered for running queries. *)
Record executor : Type := mkExecutor {
  ex_meta : metaState;
  ex_tsdb : tsdb;
  ex_points : writerState;
  ex_results : list Result;
  ex_monitors : list (list Iterator * Z);
}.

Definition ExecM (A : Type) : Type := GoM executor A.

Definition onMetaClient {A} (m : GoM metaState A) : ExecM A :=
  zoom ex_meta (λ x e, mkExecutor x (ex_tsdb e) (ex_points e) (ex_results e) (ex_monitors e)) m.
Definition onStore {A} (m : GoM tsdb A) : ExecM A :=
  zoom ex_tsdb (λ x e, mkExecutor (ex_meta e) x (ex_points e) (ex_results e) (ex_monitors e)) m.
Definition onWriter {A} (m : GoM writerState A) : ExecM A :=
  zoom ex_points (λ x e, mkExecutor (ex_meta e) (ex_tsdb e) x (ex_results e) (ex_monitors e)) m.

(** Methods that only read the metadata or the store. *)
Definition askMeta {A} (f : metaState → res A) : ExecM A := λ e, (f (ex_meta e), e).
Definition askStore {A} (f : tsdb → res A) : ExecM A := λ e, (f (ex_tsdb e), e).

(** [ctx.Results <- r] *)
Definition send (r : Result) : ExecM unit := modify (λ e,
  mkExecutor (ex_meta e) (ex_tsdb e) (ex_points e) (ex_results e ++ [r]) (ex_monitors e)).

(** ** Changes of the metadata *)

Definition executeAlterRetentionPolicyStatement (name database : string)
    (duration replication shardGroupDuration : option Z) (dflt : bool) : ExecM unit :=
  let rpu := mkRPU None duration replication shardGroupDuration in
  _ ← onMetaClient (mc_UpdateRetentionPolicy database name rpu);
  if dflt then onMetaClient (mc_SetDefaultRetentionPolicy database name) else mret tt.

(** [text] is [q.String()]. *)
Definition executeCreateContinuousQueryStatement (name database text : string) : ExecM unit :=
  onMetaClient (mc_CreateContinuousQuery database name text).

(** The policy that the statements build. *)
Definition buildPolicy (name : string) (duration replication shardGroupDuration : Z)
    : RetentionPolicyInfo :=
  let rpi := NewRetentionPolicyInfo name in
  mkRetentionPolicyInfo (rpi_Name rpi) replication duration shardGroupDuration (rpi_ShardGroups rpi).

Definition executeCreateDatabaseStatement (name : string) (policyCreate : bool) (policyName : string)
    (duration replication shardGroupDuration : Z) : ExecM unit :=
  if negb policyCreate then onMetaClient (mc_CreateDatabase name)
  else onMetaClient (mc_CreateDatabaseWithRetentionPolicy name
         (buildPolicy policyName duration replication shardGroupDuration)).

Definition executeCreateRetentionPolicyStatement (name database : string)
    (duration replication shardGroupDuration : Z) (dflt : bool) : ExecM unit :=
  _ ← onMetaClient (mc_CreateRetentionPolicy database
        (buildPolicy name duration replication shardGroupDuration));
  if dflt then onMetaClient (mc_SetDefaultRetentionPolicy database name) else mret tt.

Definition executeCreateSubscriptionStatement (name database policy mode : string)
    (destinations : list string) : ExecM unit :=
  onMetaClient (mc_CreateSubscription database policy name mode destinations).

Definition executeCreateUserStatement (name password : string) (admin : bool) : ExecM unit :=
  onMetaClient (mc_CreateUser name password admin).

Definition executeDropContinuousQueryStatement (name database : string) : ExecM unit :=
  onMetaClient (mc_DropContinuousQuery database name).

Definition executeDropSubscriptionStatement (name database policy : string) : ExecM unit :=
  onMetaClient (mc_DropSubscription database policy name).

Definition executeDropUserStatement (name : string) : ExecM unit := onMetaClient (mc_DropUser name).

Definition executeGrantStatement (privilege : Z) (on user : string) : ExecM unit :=
  onMetaClient (mc_SetPrivilege user on privilege).

Definition executeGrantAdminStatement (user : string) : ExecM unit :=
  onMetaClient (mc_SetAdminPrivilege user true).

(** [*p &^ stmt.Privilege]; a nil [p] panics. *)
Definition executeRevokeStatement (privilege : Z) (on user : string) : ExecM unit :=
  priv ← (if decide (privilege = AllPrivileges) then mret NoPrivileges
          else
            p ← askMeta (mc_UserPrivilege user on);
            match p with None => panic | Some p => mret (Z.ldiff p privilege) end);
  onMetaClient (mc_SetPrivilege user on priv).

Definition executeRevokeAdminStatement (user : string) : ExecM unit :=
  onMetaClient (mc_SetAdminPrivilege user false).

Definition executeSetPasswordUserStatement (name password : string) : ExecM unit :=
  onMetaClient (mc_UpdateUser name password).

(** ** Deleting data *)

(** The guard [MetaClient.Database(database) == nil]. *)
Definition requireDatabase (database : string) : ExecM DatabaseInfo :=
  askMeta (λ m, of_option (ErrDatabaseNotFound database) (mc_Database database m)).

Definition executeDeleteSeriesStatement (now : Z) (sources : Sources) (condition : Expr)
    (database : string) : ExecM unit :=
  _ ← requireDatabase database;
  onStore (ts_DeleteSeries database sources (Reduce condition now)).

Definition executeDropDatabaseStatement (name : string) : ExecM unit :=
  _ ← onMetaClient (mc_DropDatabase name);
  onStore (ts_DeleteDatabase name).

Definition executeDropMeasurementStatement (name database : string) : ExecM unit :=
  _ ← requireDatabase database;
  onStore (ts_DeleteMeasurement database name).

Definition executeDropSeriesStatement (sources : Sources) (condition : Expr) (database : string)
    : ExecM unit :=
  _ ← requireDatabase database;
  if HasTimeExpr condition then throw (errorf "DROP SERIES doesn't support time in WHERE clause")
  else onStore (ts_DeleteSeries database sources condition).

Definition executeDropShardStatement (id : Z) : ExecM unit :=
  _ ← onMetaClient (mc_DropShard id);
  onStore (ts_DeleteShard id).

Definition executeDropRetentionPolicyStatement (name database : string) : ExecM unit :=
  _ ← onMetaClient (mc_DropRetentionPolicy database name);
  onStore (ts_DeleteRetentionPolicy database name).

End executor.
