(* ===== verification/ExecSelect.v ===== *)
(** * SELECT (cluster/statement_executor.go)

    Selecting rows under the configured limits, streaming them to the client or
    writing them back with INTO. *)

From Stdlib Require Import ZArith Lia.
From S2P Require Import Prelude GoLib MetaData StoreFSM Rpc Query StatementExecutor.

Local Open Scope Z_scope.

Section select.
  Context `{QueryLang, !TSDBStore _, !ClusterMeta, !IntoWriter, !Monitoring}.

(** ** Rows back to points *)

(** The first loop of [convertRowToPoints]: the index of the time column and of
    each field; a later column of the same name wins. *)
Fixpoint columnIndexes (columns : list string) (i : nat) (timeIndex : option nat)
    (fieldIndexes : gmap string nat) : option nat * gmap string nat :=
  match columns with
  | [] => (timeIndex, fieldIndexes)
  | c :: columns' =>
      if decide (c = "time"%string) then columnIndexes columns' (S i) (Some i) fieldIndexes
      else columnIndexes columns' (S i) timeIndex (<[c := i]> fieldIndexes)
  end.

(** The values of one line that are not nil; an index out of range panics. *)
Fixpoint rowValues (fields : list (string * nat)) (v : list iface) (vals : gmap string iface)
    : res (gmap string iface) :=
  match fields with
  | [] => Ok vals
  | (fieldName, fieldIndex) :: fields' =>
      match v !! fieldIndex with
      | None => Panics
      | Some INil => rowValues fields' v vals
      | Some val => rowValues fields' v (<[fieldName := val]> vals)
      end
  end.

(** One point; [None] when it cannot be stored and is dropped.  The type assertion
    on the time panics. *)
Definition rowPoint (measurementName : string) (tags : Tags) (timeIndex : nat)
    (fieldIndexes : gmap string nat) (v : list iface) : res (option Point) :=
  vals ← rowValues (map_to_list fieldIndexes) v ∅;
  match v !! timeIndex with
  | Some (ITime t) =>
      match NewPoint measurementName tags vals t with
      | Ok p => Ok (Some p)
      | Err _ => Ok None
      | Panics => Panics
      end
  | _ => Panics
  end.

Fixpoint rowPoints (measurementName : string) (tags : Tags) (timeIndex : nat)
    (fieldIndexes : gmap string nat) (values : list (list iface)) : res (list Point) :=
  match values with
  | [] => Ok []
  | v :: values' =>
      p ← rowPoint measurementName tags timeIndex fieldIndexes v;
      ps ← rowPoints measurementName tags timeIndex fieldIndexes values';
      Ok (match p with Some p => p :: ps | None => ps end)
  end.

(** [convertRowToPoints(measurementName, row)] *)
Definition convertRowToPoints (measurementName : string) (row : Row) : res (list Point) :=
  match columnIndexes (row_Columns row) 0 None ∅ with
  | (None, _) => Err (errorf "error finding time index in result")
  | (Some timeIndex, fieldIndexes) =>
      rowPoints measurementName (row_Tags row) timeIndex fieldIndexes (row_Values row)
  end.

Definition errNoDatabaseInTarget : error := errorf "no database in target".

(** [writeInto(stmt, row)] for the target of the statement. *)
Definition writeInto (target : Measurement) (row : Row) : ExecM unit :=
  if decide (m_Database target = ""%string) then throw errNoDatabaseInTarget
  else
    let name := if decide (m_Name target = ""%string) then row_Name row else m_Name target in
    points ← lift_res (convertRowToPoints name row);
    onWriter (WritePointsInto
      (mkIntoWriteRequest (m_Database target) (m_RetentionPolicy target) points)).

(** ** Emitting rows *)

Definition ErrQueryInterrupted : error := errorf "query interrupted".

(** The loop over the rows of the emitter, from the [n]-th row: the number of
    values written and whether a row was sent. *)
Fixpoint emitRows (ctx : ExecutionContext) (target : option Measurement) (n : nat)
    (rows : list Row) (last : option error) (writeN : Z) (emitted : bool) : ExecM (Z * bool) :=
  match rows with
  | [] =>
      match last with
      | Some err => throw err
      | None => if ctx_Interrupt ctx n then throw ErrQueryInterrupted else mret (writeN, emitted)
      end
  | row :: rows' =>
      match target with
      | Some m =>
          _ ← writeInto m row;
          emitRows ctx target (S n) rows' last (i64 (writeN + len (row_Values row))) emitted
      | None =>
          if ctx_Interrupt ctx n then throw ErrQueryInterrupted
          else
            _ ← send (mkResult (ctx_StatementID ctx) [row] []);
            emitRows ctx target (S n) rows' last writeN true
      end
  end.

(** The result of an INTO statement. *)
Definition writtenRow (writeN : Z) : Row :=
  mkRow "result" nilTags ["time"%string; "written"%string] [[ITime 0; IInt writeN]].

(** ** Limits *)

(** [max.Sub(min)]: a duration saturates. *)
Definition timeSub (a b : Z) : Z := Z.max (- 2 ^ 63) (Z.min (2 ^ 63 - 1) (a - b)).

(** The number of intervals of a grouped selection. *)
Definition bucketCount (minTime maxTime interval : Z) : Z :=
  let min := time.Truncate minTime interval in
  let max := time.Truncate maxTime interval + interval in
  Z.quot (timeSub max min) interval.

Definition checkBuckets (lim : limits) (stmt : SelectStatement) (opt : SelectOptions) : res unit :=
  if (0 <? MaxSelectBucketsN lim) && negb (sel_IsRawQuery stmt) then
    interval ← sel_GroupByInterval stmt;
    if (0 <? interval) && (MaxSelectBucketsN lim <? bucketCount (so_MinTime opt) (so_MaxTime opt) interval)
    then Err (errorf "max select bucket count exceeded")
    else Ok tt
  else Ok tt.

(** ** The statement *)

(** [iteratorCreator(stmt, opt)] *)
Definition iteratorCreator (stmt : SelectStatement) (opt : SelectOptions) : ExecM IteratorCreator :=
  shards ← askMeta (mc_ShardsByTimeRange (sel_Sources stmt) (so_MinTime opt) (so_MaxTime opt));
  askStore (ts_IteratorCreator shards).

(** [LocalTSDBStore.IteratorCreator(shards)]: the embedded store takes the IDs. *)
Definition LocalTSDBStore_IteratorCreator (storeCreator : list Z → res IteratorCreator)
    (shards : list ShardInfo) : res IteratorCreator := storeCreator (si_ID <$> shards).

(** The time range of a condition, with the defaults for open ends. *)
Definition selectOptions (now : Z) (condition : Expr) : res SelectOptions :=
  '(min, max) ← TimeRange condition;
  Ok (mkSelectOptions (if decide (min = zeroTime) then 0 else min)
                      (if decide (max = zeroTime) then now else max)).

(** The part of [executeSelectStatement] up to the iterators: the statement with
    now() replaced, sources expanded and wildcards rewritten. *)
Definition prepareSelect (lim : limits) (now : Z) (stmt : SelectStatement)
    : ExecM (SelectStatement * list Iterator) :=
  let stmt := sel_setCondition (Reduce (sel_Condition stmt) now) stmt in
  let stmt := sel_mapDimensions (λ d, Reduce d now) stmt in
  opt ← lift_res (selectOptions now (sel_Condition stmt));
  let stmt := sel_RewriteTimeFields (sel_RewriteDistinct stmt) in
  ic ← iteratorCreator stmt opt;
  stmt ← (if sources_HasRegex (sel_Sources stmt) then
            sources ← lift_res (ic_ExpandSources ic (sel_Sources stmt));
            mret (sel_setSources sources stmt)
          else mret stmt);
  stmt ← lift_res (sel_RewriteWildcards ic stmt);
  _ ← lift_res (checkBuckets lim stmt opt);
  itrs ← lift_res (Select stmt ic opt);
  mret (stmt, itrs).

(** [executeSelectStatement(stmt, ctx)] *)
Definition executeSelectStatement (lim : limits) (now : Z) (stmt : SelectStatement)
    (ctx : ExecutionContext) : ExecM unit :=
  '(stmt, itrs) ← prepareSelect lim now stmt;
  _ ← (if 0 <? MaxSelectPointN lim
       then modify (λ e, mkExecutor (ex_meta e) (ex_tsdb e) (ex_points e) (ex_results e)
                           (ex_monitors e ++ [(itrs, MaxSelectPointN lim)]))
       else mret tt);
  if (0 <? MaxSelectSeriesN lim) && (MaxSelectSeriesN lim <? itrs_SeriesN itrs)
  then throw (errorf "max select series count exceeded")
  else
    let '(rows, last) := emitted_rows stmt itrs (ctx_ChunkSize ctx) in
    '(writeN, emitted) ← emitRows ctx (sel_Target stmt) 0 rows last 0 false;
    match sel_Target stmt with
    | Some _ =>
        send (mkResult (ctx_StatementID ctx) [writtenRow writeN]
                (if ctx_ReadOnly ctx then [ReadOnlyWarning (sel_String stmt)] else []))
    | None =>
        if emitted : bool then mret tt else send (mkResult (ctx_StatementID ctx) [] [])
    end.

End select.
