(* ===== verification/ExecShow.v ===== *)
(** * SHOW statements (cluster/statement_executor.go)

    The rows that the SHOW statements build from the metadata and the monitor,
    and the string sets and number lists of the same file. *)

From Stdlib Require Import ZArith Lia.
From S2P Require Import Prelude GoLib GoTime MetaData StoreFSM Rpc Query StatementExecutor.

Local Open Scope Z_scope.

(** [joinUint64(a)] *)
Fixpoint joinUint64 (a : list Z) : string :=
  match a with
  | [] => ""
  | [x] => strconv.FormatUint x
  | x :: a' => (strconv.FormatUint x +:+ "," +:+ joinUint64 a')%string
  end.

(** [sort.Strings(a)] *)
Definition sortStrings (a : list string) : list string := merge_sort String.le a.

(** ** stringSet *)
Module stringSet.
Section stringSet.
  Context `{RpcEnv}.

Abbreviation stringSet := (gset string).

Definition newStringSet : stringSet := ∅.
Definition add (ss : list string) (s : stringSet) : stringSet := fold_left (λ s n, {[n]} ∪ s) ss s.
Definition contains (ss : string) (s : stringSet) : bool := bool_decide (ss ∈ s).

(** [list()] *)
Definition elems (s : stringSet) : list string := sortStrings (rangeStrings s).

Definition union (s o : stringSet) : stringSet :=
  let ns := fold_left (λ ns k, {[k]} ∪ ns) (rangeStrings s) newStringSet in
  fold_left (λ ns k, {[k]} ∪ ns) (rangeStrings o) ns.

(** The loop runs over the shorter set. *)
Definition intersect (s o : stringSet) : stringSet :=
  let '(shorter, longer) := if (size o <? size s)%nat then (o, s) else (s, o) in
  fold_left (λ ns k, if bool_decide (k ∈ longer) then {[k]} ∪ ns else ns)
    (rangeStrings shorter) newStringSet.

End stringSet.
End stringSet.

Section show.
  Context `{QueryLang, !TSDBStore _, !ClusterMeta, !IntoWriter, !Monitoring}.

(** ** Metadata *)

Definition continuousQueryRow (di : DatabaseInfo) : Row :=
  mkRow (dbi_Name di) nilTags ["name"; "query"]%string
    ((λ cqi, [IString (cq_Name cqi); IString (cq_Query cqi)]) <$> ContinuousQueries di).

Definition executeShowContinuousQueriesStatement : ExecM (list Row) :=
  gets (λ e, continuousQueryRow <$> mc_Databases (ex_meta e)).

Definition executeShowDatabasesStatement : ExecM (list Row) := gets (λ e,
  [mkRow "databases" nilTags ["name"%string]
     ((λ di, [IString (dbi_Name di)]) <$> mc_Databases (ex_meta e))]).

Definition executeShowGrantsForUserStatement (name : string) : ExecM (list Row) :=
  priv ← askMeta (mc_UserPrivileges name);
  mret [mkRow "" nilTags ["database"; "privilege"]%string
          ((λ '(d, p), [IString d; IString (privilege_String p)]) <$> rangeGrants priv)].

Definition policyValues (di : DatabaseInfo) (rpi : RetentionPolicyInfo) : list iface :=
  [IString (rpi_Name rpi); IString (timefmt.Duration_String (rpi_Duration rpi));
   IString (timefmt.Duration_String (rpi_ShardGroupDuration rpi)); IInt (rpi_ReplicaN rpi);
   IBool (bool_decide (dbi_DefaultRetentionPolicy di = rpi_Name rpi))].

Definition executeShowRetentionPoliciesStatement (database : string) : ExecM (list Row) :=
  di ← requireDatabase database;
  mret [mkRow "" nilTags ["name"; "duration"; "shardGroupDuration"; "replicaN"; "default"]%string
          (policyValues di <$> dbi_RetentionPolicies di)].

(** The groups of a policy that are not deleted. *)
Definition liveGroups (rpi : RetentionPolicyInfo) : list ShardGroupInfo :=
  filter (λ sgi, Deleted sgi = false) (rpi_ShardGroups rpi).

Definition groupTimes (rpi : RetentionPolicyInfo) (sgi : ShardGroupInfo) : list iface :=
  [IString (timefmt.RFC3339 (sgi_StartTime sgi)); IString (timefmt.RFC3339 (sgi_EndTime sgi));
   IString (timefmt.RFC3339 (sgi_EndTime sgi + rpi_Duration rpi))].

Definition shardValues (di : DatabaseInfo) (rpi : RetentionPolicyInfo) (sgi : ShardGroupInfo)
    (si : ShardInfo) : list iface :=
  [IInt (si_ID si); IString (dbi_Name di); IString (rpi_Name rpi); IInt (sgi_ID sgi)] ++
  groupTimes rpi sgi ++ [IString (joinUint64 (NodeID <$> si_Owners si))].

Definition shardLines (di : DatabaseInfo) : list (list iface) :=
  rpi ← dbi_RetentionPolicies di; sgi ← liveGroups rpi; shardValues di rpi sgi <$> sgi_Shards sgi.

Definition executeShowShardsStatement : ExecM (list Row) := gets (λ e,
  (λ di, mkRow (dbi_Name di) nilTags
     ["id"; "database"; "retention_policy"; "shard_group"; "start_time"; "end_time";
      "expiry_time"; "owners"]%string (shardLines di)) <$> mc_Databases (ex_meta e)).

Definition groupValues (di : DatabaseInfo) (rpi : RetentionPolicyInfo) (sgi : ShardGroupInfo)
    : list iface :=
  [IInt (sgi_ID sgi); IString (dbi_Name di); IString (rpi_Name rpi)] ++ groupTimes rpi sgi.

Definition executeShowShardGroupsStatement : ExecM (list Row) := gets (λ e,
  [mkRow "shard groups" nilTags
     ["id"; "database"; "retention_policy"; "start_time"; "end_time"; "expiry_time"]%string
     (di ← mc_Databases (ex_meta e); rpi ← dbi_RetentionPolicies di;
      groupValues di rpi <$> liveGroups rpi)]).

Definition subscriptionLines (di : DatabaseInfo) : list (list iface) :=
  rpi ← dbi_RetentionPolicies di;
  (λ si, [IString (rpi_Name rpi); IString (sub_Name si); IString (sub_Mode si);
          IStrings (sub_Destinations si)]) <$> Subscriptions rpi.

(** Databases without subscriptions have no row. *)
Definition executeShowSubscriptionsStatement : ExecM (list Row) := gets (λ e,
  omap (λ di, match subscriptionLines di with
              | [] => None
              | lines => Some (mkRow (dbi_Name di) nilTags
                                 ["retention_policy"; "name"; "mode"; "destinations"]%string lines)
              end) (mc_Databases (ex_meta e))).

Definition executeShowUsersStatement : ExecM (list Row) := gets (λ e,
  [mkRow "" nilTags ["user"; "admin"]%string
     ((λ ui, [IString (u_Name ui); IBool (u_Admin ui)]) <$> mc_Users (ex_meta e))]).

(** ** The monitor *)

(** [sort.Strings] of the keys of the map, in whatever order they are visited. *)
Definition executeShowDiagnosticsStatement (module : string) : ExecM (list Row) :=
  diags ← lift_res Diagnostics;
  let sortedKeys := sortStrings (map_to_list diags).*1 in
  mret (omap (λ k,
    if decide (module ≠ ""%string ∧ k ≠ module) then None
    else Some (match diags !! k with
               | Some (columns, rows) => mkRow k nilTags columns rows
               | None => mkRow k nilTags [] []
               end)) sortedKeys).

(** A name that is not in the map of values gives nil. *)
Definition executeShowStatsStatement (module : string) : ExecM (list Row) :=
  stats ← lift_res Statistics;
  mret (omap (λ stat,
    if decide (module ≠ ""%string ∧ st_Name stat ≠ module) then None
    else Some (mkRow (st_Name stat) (st_Tags stat) (st_ValueNames stat)
                 [(λ k, default INil (st_Values stat !! k)) <$> st_ValueNames stat])) stats).

End show.
