(* ===== verification/ExecDispatch.v ===== *)
(** * Dispatch of statements (cluster/statement_executor.go)

    [ExecuteStatement] with its warnings and results, and [NormalizeStatement]. *)

From Stdlib Require Import ZArith Lia.
From S2P Require Import Prelude GoLib MetaData StoreFSM Rpc Query StatementExecutor ExecSelect ExecShow.

Local Open Scope Z_scope.

Section dispatch.
  Context `{QueryLang, !StatementLang _, !TSDBStore _, !ClusterMeta, !IntoWriter, !Monitoring}.

Definition ifNotExistsWarning : string :=
  "IF NOT EXISTS is deprecated as of v0.13.0 and will be removed in v1.0".

(** A statement that returns no rows. *)
Definition noRows (m : ExecM unit) : ExecM (list Row) := _ ← m; mret [].

(** The case of the switch: whether a read-only context adds a warning, the
    further messages, and what is executed; [None] is the default case. *)
Definition execution (now : Z) (database : string) (stmt : Statement)
    : option (bool * list string * ExecM (list Row)) :=
  let writes m := Some (true, [], noRows m) in
  let shows m := Some (false, [], m) in
  match stmt with
  | AlterRetentionPolicyStatement name db d r sgd dflt =>
      writes (executeAlterRetentionPolicyStatement name db d r sgd dflt)
  | CreateContinuousQueryStatement name db _ =>
      writes (executeCreateContinuousQueryStatement name db (stmt_String stmt))
  | CreateDatabaseStatement name ifNotExists create rpName d r sgd =>
      Some (true, if ifNotExists : bool then [ifNotExistsWarning] else [],
            noRows (executeCreateDatabaseStatement name create rpName d r sgd))
  | CreateRetentionPolicyStatement name db d r sgd dflt =>
      writes (executeCreateRetentionPolicyStatement name db d r sgd dflt)
  | CreateSubscriptionStatement name db rp mode dests =>
      writes (executeCreateSubscriptionStatement name db rp mode dests)
  | CreateUserStatement name password admin => writes (executeCreateUserStatement name password admin)
  | DeleteSeriesStatement sources condition =>
      Some (false, [], noRows (executeDeleteSeriesStatement now sources condition database))
  | DropContinuousQueryStatement name db => writes (executeDropContinuousQueryStatement name db)
  | DropDatabaseStatement name => writes (executeDropDatabaseStatement name)
  | DropMeasurementStatement name => writes (executeDropMeasurementStatement name database)
  | DropSeriesStatement sources condition => writes (executeDropSeriesStatement sources condition database)
  | DropRetentionPolicyStatement name db => writes (executeDropRetentionPolicyStatement name db)
  | DropShardStatement id => writes (executeDropShardStatement id)
  | DropSubscriptionStatement name db rp => writes (executeDropSubscriptionStatement name db rp)
  | DropUserStatement name => writes (executeDropUserStatement name)
  | GrantStatement p on user => writes (executeGrantStatement p on user)
  | GrantAdminStatement user => writes (executeGrantAdminStatement user)
  | RevokeStatement p on user => writes (executeRevokeStatement p on user)
  | RevokeAdminStatement user => writes (executeRevokeAdminStatement user)
  | ShowContinuousQueriesStatement => shows executeShowContinuousQueriesStatement
  | ShowDatabasesStatement => shows executeShowDatabasesStatement
  | ShowDiagnosticsStatement module => shows (executeShowDiagnosticsStatement module)
  | ShowGrantsForUserStatement name => shows (executeShowGrantsForUserStatement name)
  | ShowRetentionPoliciesStatement db => shows (executeShowRetentionPoliciesStatement db)
  | ShowShardsStatement => shows executeShowShardsStatement
  | ShowShardGroupsStatement => shows executeShowShardGroupsStatement
  | ShowStatsStatement module => shows (executeShowStatsStatement module)
  | ShowSubscriptionsStatement => shows executeShowSubscriptionsStatement
  | ShowUsersStatement => shows executeShowUsersStatement
  | SetPasswordUserStatement name password => writes (executeSetPasswordUserStatement name password)
  | SelectStmt _ | OtherStatement => None
  end.

(** [ExecuteStatement(stmt, ctx)] *)
Definition ExecuteStatement (lim : limits) (now : Z) (stmt : Statement) (ctx : ExecutionContext)
    : ExecM unit :=
  match stmt with
  | SelectStmt s => executeSelectStatement lim now s ctx
  | _ =>
      match execution now (ctx_Database ctx) stmt with
      | None => throw ErrInvalidQuery
      | Some (warns, messages, m) =>
          rows ← m;
          send (mkResult (ctx_StatementID ctx) rows
            ((if warns && ctx_ReadOnly ctx then [ReadOnlyWarning (stmt_String stmt)] else [])
             ++ messages))
      end
  end.

(** ** Normalizing *)

(** [normalizeMeasurement(m, defaultDatabase)]: the measurement is changed in
    place, also when an error follows. *)
Definition normalizeMeasurement (defaultDatabase : string) (s : metaState) : GoM Measurement unit :=
  m ← get_state;
  if negb (m_IsTarget m) && bool_decide (m_Name m = ""%string) && negb (m_Regex m)
  then throw (errorf "invalid measurement")
  else
    _ ← modify (λ m, if decide (m_Database m = ""%string)
          then mkMeasurement defaultDatabase (m_RetentionPolicy m) (m_Name m) (m_Regex m) (m_IsTarget m)
          else m);
    m ← get_state;
    if decide (m_Database m = ""%string) then throw (errorf "database name required")
    else
      di ← lift_res (of_option (ErrDatabaseNotFound (m_Database m)) (mc_Database (m_Database m) s));
      if decide (m_RetentionPolicy m = ""%string) then
        if decide (dbi_DefaultRetentionPolicy di = ""%string)
        then throw (errorf "default retention policy not set for: ")
        else modify (λ m, mkMeasurement (m_Database m) (dbi_DefaultRetentionPolicy di)
                            (m_Name m) (m_Regex m) (m_IsTarget m))
      else mret tt.

(** The walk over the measurements: after an error the others are left alone. *)
Fixpoint normalizeMeasurements (defaultDatabase : string) (s : metaState) (ms : list Measurement)
    : res unit * list Measurement :=
  match ms with
  | [] => (Ok tt, [])
  | m :: ms' =>
      match normalizeMeasurement defaultDatabase s m with
      | (Ok _, m1) =>
          let '(r, ms1) := normalizeMeasurements defaultDatabase s ms' in (r, m1 :: ms1)
      | (Err e, m1) => (Err e, m1 :: ms')
      | (Panics, m1) => (Panics, m1 :: ms')
      end
  end.

(** [NormalizeStatement(stmt, defaultDatabase)]: the result and the statement
    afterwards. *)
Definition NormalizeStatement (s : metaState) (stmt : Statement) (defaultDatabase : string)
    : res unit * Statement :=
  let '(r, ms) := normalizeMeasurements defaultDatabase s (stmt_Measurements stmt) in
  (r, stmt_setMeasurements ms stmt).

End dispatch.
