(* ===== verification/ExecDemo.v ===== *)
(** * Instances to run the executor

    The metadata is a list of databases and the privileges of users on
    databases; the writer keeps the requests it got. *)

From Stdlib Require Import ZArith Lia.
From Stdlib Require Import Strings.Byte.
From S2P Require Import Prelude GoLib MetaData StoreFSM Rpc Query StatementExecutor ExecSelect ExecDispatch.

Local Open Scope Z_scope.

#[local] Existing Instances demo_models demo_influxql demo_lang demo_tsdb.

Record demo_metadata : Type := mkDemoMetadata {
  dm_databases : list DatabaseInfo;
  dm_privileges : gmap (string * string) Z;
}.

Definition demo_find (name : string) (m : demo_metadata) : option DatabaseInfo :=
  snd <$> list_find (λ d, dbi_Name d = name) (dm_databases m).

Definition demo_meta : @ClusterMeta demo_influxql := {|
  metaState := demo_metadata;
  mc_CreateContinuousQuery _ _ _ := mret tt;
  mc_CreateDatabase name := modify (λ m,
    mkDemoMetadata (dm_databases m ++ [mkDatabaseInfo name "" []]) (dm_privileges m));
  mc_CreateDatabaseWithRetentionPolicy name rpi := modify (λ m,
    mkDemoMetadata (dm_databases m ++ [mkDatabaseInfo name (rpi_Name rpi) [rpi]]) (dm_privileges m));
  mc_CreateRetentionPolicy _ _ := mret tt;
  mc_CreateSubscription _ _ _ _ _ := mret tt;
  mc_CreateUser _ _ _ := mret tt;
  mc_Database := demo_find;
  mc_Databases := dm_databases;
  mc_DropContinuousQuery _ _ := mret tt;
  mc_DropDatabase name := modify (λ m,
    mkDemoMetadata (filter (λ d, dbi_Name d ≠ name) (dm_databases m)) (dm_privileges m));
  mc_DropRetentionPolicy _ _ := mret tt;
  mc_DropShard _ := throw ErrShardNotFound;
  mc_DropSubscription _ _ _ := mret tt;
  mc_DropUser _ := mret tt;
  mc_SetAdminPrivilege _ _ := mret tt;
  mc_SetDefaultRetentionPolicy _ _ := mret tt;
  mc_SetPrivilege user db p := modify (λ m,
    mkDemoMetadata (dm_databases m) (<[(user, db) := p]> (dm_privileges m)));
  mc_ShardsByTimeRange _ _ _ m :=
    Ok (d ← dm_databases m; rp ← dbi_RetentionPolicies d; g ← rpi_ShardGroups rp; sgi_Shards g);
  mc_UpdateRetentionPolicy _ _ _ := mret tt;
  mc_UpdateUser _ _ := mret tt;
  mc_UserPrivilege user db m := Ok (dm_privileges m !! (user, db));
  mc_UserPrivileges _ _ := Ok ∅;
  mc_Users _ := [];
  NewRetentionPolicyInfo name := mkRetentionPolicyInfo name 1 0 0 [];
  Deleted g := negb (bool_decide (sgi_DeletedAt g = zeroTime));
  ContinuousQueries _ := [];
  Subscriptions _ := [];
|}.

Definition demo_into : @IntoWriter demo_models := {|
  writerState := list (@IntoWriteRequest demo_models);
  WritePointsInto req := modify (λ l, l ++ [req]);
|}.

Definition demo_monitoring : @Monitoring demo_models := {|
  Diagnostics := Ok ∅;
  Statistics := Ok [];
  NoPrivileges := 0;
  AllPrivileges := 3;
  privilege_String p := strconv.FormatInt p;
  rangeGrants := map_to_list;
  ReadOnlyWarning text := ("deprecated use of " +:+ text)%string;
|}.

Lemma demo_monitoring_laws : @MonitoringLaws demo_models demo_monitoring.
Proof. done. Qed.

(** The only measurement that is walked is the target of a SELECT. *)
Definition demo_statements : @StatementLang demo_models demo_influxql demo_lang :=
  @Build_StatementLang demo_models demo_influxql demo_lang
    (λ stmt, match stmt with SelectStmt _ => "SELECT" | _ => "statement" end)%string
    (λ stmt, match stmt with SelectStmt s => option_list (ds_target s) | _ => [] end)
    (λ ms stmt, match stmt, ms with
                | SelectStmt s, m :: _ =>
                    SelectStmt (mkDemoSelect (ds_condition s) (Some m) (ds_interval s) (ds_rows s))
                | _, _ => stmt
                end).

Lemma demo_statements_laws : @StatementLangLaws demo_models demo_influxql demo_lang demo_statements.
Proof.
  split.
  - intros ms stmt. cbn. destruct stmt as [| | | | | | | | | | | | | | | | | | | | | | | | | | | | | |[c [t|] i r]|];
      cbn; destruct ms as [|m [|]]; done.
  - intros stmt. by destruct stmt as [| | | | | | | | | | | | | | | | | | | | | | | | | | | | | |[c [t|] i r]|].
Qed.

(** A database with one group of two shards, the second group deleted. *)
Definition demo_policy : RetentionPolicyInfo := mkRetentionPolicyInfo "rp0" 1 time.Hour time.Hour
  [mkShardGroupInfo 1 0 time.Hour zeroTime [mkShardInfo 7 [mkShardOwner 4; mkShardOwner 5]];
   mkShardGroupInfo 2 time.Hour (2 * time.Hour) 5 [mkShardInfo 8 [mkShardOwner 4]]].
Definition demo_database : DatabaseInfo := mkDatabaseInfo "db0" "rp0" [demo_policy].

Definition demo_context (interrupt : nat → bool) : ExecutionContext :=
  mkContext 1 "db0" true 10 interrupt.
Definition demo_limits : limits := mkLimits 100 10 10.

#[local] Existing Instances demo_meta demo_into demo_monitoring demo_statements.

Definition demo_metadata0 : metaState :=
  mkDemoMetadata [demo_database] {[("u"%string, "db0"%string) := 3]}.
Definition demo_executor : executor :=
  mkExecutor demo_metadata0 ({[7 := [[x61]]; 8 := []]} : demo_shards) [] [] [].

(** Two rows of one and two lines; the last line has no field and is dropped. *)
Definition demo_rows : list Row :=
  [mkRow "cpu" nilTags ["time"; "value"]%string [[ITime 10; IInt 1]];
   mkRow "mem" nilTags ["time"; "value"]%string [[ITime 20; IInt 2]; [ITime 30; INil]]].

Definition demo_target : Measurement := mkMeasurement "db0" "rp0" "" false true.
Definition demo_query (target : option Measurement) : SelectStatement :=
  mkDemoSelect (0, 300) target 60 demo_rows.
