(* ===== verification/ExecutorTheorems.v ===== *)
(** * Properties of the statement executor

    Results and errors of the dispatch, what a read-only context changes, the
    order of deletions, SELECT with its limits, rows and INTO, normalized
    statements, and the helpers. *)

From Stdlib Require Import ZArith Lia.
From S2P Require Import Prelude GoLib GoTime MetaData StoreFSM Rpc Query StatementExecutor ExecSelect ExecShow ExecDispatch ExecDemo.

Local Open Scope Z_scope.

Create HintDb exec.

Section executor.
  Context `{QueryLang, !StatementLang _, !TSDBStore _, !ClusterMeta, !IntoWriter, !Monitoring}.

(** ** Calls that send nothing *)

Definition keepsResults {A} (m : ExecM A) : Prop := ∀ e, ex_results (m e).2 = ex_results e.

Lemma keeps_ret {A} (a : A) : keepsResults (mret a).
Proof. done. Qed.
Lemma keeps_throw {A} err : keepsResults (throw err : ExecM A).
Proof. done. Qed.
Lemma keeps_panic {A} : keepsResults (panic : ExecM A).
Proof. done. Qed.
Lemma keeps_gets {A} (f : executor → A) : keepsResults (gets f).
Proof. done. Qed.
Lemma keeps_lift {A} (r : res A) : keepsResults (lift_res r).
Proof. done. Qed.
Lemma keeps_askMeta {A} (f : metaState → res A) : keepsResults (askMeta f).
Proof. done. Qed.
Lemma keeps_askStore {A} (f : tsdb → res A) : keepsResults (askStore f).
Proof. done. Qed.
Lemma keeps_meta {A} (m : GoM metaState A) : keepsResults (onMetaClient m).
Proof. intros e. unfold onMetaClient, zoom. by destruct (m (ex_meta e)). Qed.
Lemma keeps_store {A} (m : GoM tsdb A) : keepsResults (onStore m).
Proof. intros e. unfold onStore, zoom. by destruct (m (ex_tsdb e)). Qed.
Lemma keeps_writer {A} (m : GoM writerState A) : keepsResults (onWriter m).
Proof. intros e. unfold onWriter, zoom. by destruct (m (ex_points e)). Qed.
Lemma keeps_bind {A B} (m : ExecM A) (k : A → ExecM B) :
  keepsResults m → (∀ a, keepsResults (k a)) → keepsResults (m ≫= k).
Proof.
  intros Hm Hk e. unfold mbind, gom_bind. specialize (Hm e).
  destruct (m e) as [[a| |] e1]; cbn in *; [|done..]. by rewrite Hk.
Qed.
Lemma keeps_if {A} (b : bool) (m k : ExecM A) :
  keepsResults m → keepsResults k → keepsResults (if b then m else k).
Proof. by destruct b. Qed.
Lemma keeps_decide {A} P `{Decision P} (m k : ExecM A) :
  keepsResults m → keepsResults k → keepsResults (if decide P then m else k).
Proof. by case_decide. Qed.

Hint Resolve keeps_ret keeps_throw keeps_panic keeps_gets keeps_lift keeps_askMeta keeps_askStore
  keeps_meta keeps_store keeps_writer keeps_bind keeps_if keeps_decide : exec.

Hint Unfold noRows requireDatabase executeAlterRetentionPolicyStatement
  executeCreateContinuousQueryStatement executeCreateDatabaseStatement
  executeCreateRetentionPolicyStatement executeCreateSubscriptionStatement executeCreateUserStatement
  executeDeleteSeriesStatement executeDropContinuousQueryStatement executeDropDatabaseStatement
  executeDropMeasurementStatement executeDropSeriesStatement executeDropRetentionPolicyStatement
  executeDropShardStatement executeDropSubscriptionStatement executeDropUserStatement
  executeGrantStatement executeGrantAdminStatement executeRevokeStatement executeRevokeAdminStatement
  executeSetPasswordUserStatement executeShowContinuousQueriesStatement executeShowDatabasesStatement
  executeShowDiagnosticsStatement executeShowGrantsForUserStatement
  executeShowRetentionPoliciesStatement executeShowShardsStatement executeShowShardGroupsStatement
  executeShowStatsStatement executeShowSubscriptionsStatement executeShowUsersStatement : exec.

Lemma execution_keeps now db stmt w ms m : execution now db stmt = Some (w, ms, m) → keepsResults m.
Proof.
  destruct stmt; intros [= <- <- <-]; autounfold with exec; auto 10 with exec.
  (* REVOKE dereferences the privilege *)
  do 2 (apply keeps_bind; [|auto with exec]). apply keeps_decide; [auto with exec|].
  apply keeps_bind; [auto with exec|]. intros []; auto with exec.
Qed.

Lemma ExecuteStatement_case lim now stmt ctx w ms m :
  execution now (ctx_Database ctx) stmt = Some (w, ms, m) →
  ExecuteStatement lim now stmt ctx =
  (rows ← m; send (mkResult (ctx_StatementID ctx) rows
     ((if w && ctx_ReadOnly ctx then [ReadOnlyWarning (stmt_String stmt)] else []) ++ ms))).
Proof. by destruct stmt; intros [= <- <- <-]. Qed.

(** A statement other than SELECT that succeeds sends exactly one result, with
    the ID of the statement; one that fails or panics sends none. *)
Theorem ExecuteStatement_one_result lim now stmt ctx e r e' :
  (∀ s, stmt ≠ SelectStmt s) → ExecuteStatement lim now stmt ctx e = (r, e') →
  match r with
  | Ok _ => ∃ rows ms, ex_results e' = ex_results e ++ [mkResult (ctx_StatementID ctx) rows ms]
  | _ => ex_results e' = ex_results e
  end.
Proof.
  intros Hs. destruct (execution now (ctx_Database ctx) stmt) as [[[w ms] m]|] eqn:Ex.
  - rewrite (ExecuteStatement_case lim _ _ _ _ _ _ Ex). apply execution_keeps in Ex.
    specialize (Ex e). gom_simpl.
    destruct (m e) as [[rows|err|] e1]; cbn in *; intros [= <- <-]; cbn; [|done..].
    rewrite Ex. eauto.
  - assert (ExecuteStatement lim now stmt ctx = throw ErrInvalidQuery) as ->
      by (destruct stmt; try discriminate Ex; [by destruct (Hs _ eq_refl)|done]).
    by intros [= <- <-].
Qed.

(** ** Read-only contexts *)

(** Two outcomes that differ at most in the messages of the results. *)
Definition withoutMessages (r : Result) : Result := mkResult (rs_StatementID r) (rs_Series r) [].

Definition sameUpToMessages {A} (x y : res A * executor) : Prop :=
  x.1 = y.1 ∧ ex_meta x.2 = ex_meta y.2 ∧ ex_tsdb x.2 = ex_tsdb y.2 ∧ ex_points x.2 = ex_points y.2 ∧
  ex_monitors x.2 = ex_monitors y.2 ∧ withoutMessages <$> ex_results x.2 = withoutMessages <$> ex_results y.2.

Lemma same_refl {A} (x : res A * executor) : sameUpToMessages x x.
Proof. done. Qed.

Lemma same_send id rows ms ms' e :
  sameUpToMessages (send (mkResult id rows ms) e) (send (mkResult id rows ms') e).
Proof. repeat split; cbn. by rewrite !fmap_app. Qed.

Lemma same_bind {A B} (m : ExecM A) (k k' : A → ExecM B) e :
  (∀ a e1, sameUpToMessages (k a e1) (k' a e1)) → sameUpToMessages ((m ≫= k) e) ((m ≫= k') e).
Proof. intros Hk. unfold mbind, gom_bind. by destruct (m e) as [[a| |] e1]; [apply Hk|..]. Qed.

Definition readOnly (b : bool) (ctx : ExecutionContext) : ExecutionContext :=
  mkContext (ctx_StatementID ctx) (ctx_Database ctx) b (ctx_ChunkSize ctx) (ctx_Interrupt ctx).

Lemma emitRows_readOnly b ctx t n rows last w em e :
  emitRows (readOnly b ctx) t n rows last w em e = emitRows ctx t n rows last w em e.
Proof.
  revert n w em e. induction rows as [|row rows IH]; intros n w em e; cbn; [done|].
  destruct t as [m|].
  - unfold mbind, gom_bind. destruct (writeInto m row e) as [[?| |] e1]; [apply IH|done..].
  - case_match; [done|]. apply IH.
Qed.

(** C17. A read-only context changes nothing but the warnings: for every statement,
    SELECT included, the outcome, the metadata, the stored data, the points
    written and the series of the results are those of a writable context, so
    that a statement sent to a read-only endpoint is still executed. *)
Theorem ReadOnly_only_warns lim now stmt ctx b e :
  sameUpToMessages (ExecuteStatement lim now stmt (readOnly b ctx) e) (ExecuteStatement lim now stmt ctx e).
Proof.
  destruct stmt.
  31: {
    unfold ExecuteStatement, executeSelectStatement. apply same_bind. intros [stmt itrs] e1.
    apply same_bind. intros _ e2. destruct (_ && _); [done|]. cbn [ctx_ChunkSize readOnly].
    destruct (emitted_rows _ _ _) as [rows last].
    unfold mbind, gom_bind. rewrite emitRows_readOnly. fold (gom_bind (S := executor)). apply same_bind. intros [n em] e3. destruct (sel_Target stmt); [apply same_send|].
    by destruct em. }
  all: cbn [ExecuteStatement execution]; apply same_bind || (by apply same_refl);
    intros; apply same_send.
Qed.

(** ** Deleting data *)

(** A statement that changes the metadata and then the local store. *)
Definition metaThenStore (meta : GoM metaState unit) (store : GoM tsdb unit) : ExecM unit :=
  _ ← onMetaClient meta; onStore store.

Lemma metaThenStore_spec meta store e :
  let '(r, m1) := meta (ex_meta e) in
  let '(r2, t1) := store (ex_tsdb e) in
  metaThenStore meta store e =
  match r with
  | Ok _ => (r2, mkExecutor m1 t1 (ex_points e) (ex_results e) (ex_monitors e))
  | _ => (r, mkExecutor m1 (ex_tsdb e) (ex_points e) (ex_results e) (ex_monitors e))
  end.
Proof.
  unfold metaThenStore, onMetaClient, onStore, zoom. gom_simpl.
  destruct (meta (ex_meta e)) as [[?| |] m1], (store (ex_tsdb e)) as [r2 t1] eqn:E; cbn; [|done..].
  by rewrite E.
Qed.

(** DROP DATABASE, DROP SHARD and DROP RETENTION POLICY first change the
    metadata and then delete locally.  While the metadata refuses the change no
    local data is deleted; a failing local deletion is reported although the
    metadata has already forgotten the data, and the change is not taken back. *)
Theorem drop_statements_meta_first lim now ctx stmt e meta store :
  match stmt with
  | DropDatabaseStatement name => meta = mc_DropDatabase name ∧ store = ts_DeleteDatabase name
  | DropShardStatement id => meta = mc_DropShard id ∧ store = ts_DeleteShard id
  | DropRetentionPolicyStatement name db =>
      meta = mc_DropRetentionPolicy db name ∧ store = ts_DeleteRetentionPolicy db name
  | _ => False
  end →
  let '(r, m1) := meta (ex_meta e) in
  let '(r2, t1) := store (ex_tsdb e) in
  let x := ExecuteStatement lim now stmt ctx e in
  ex_meta x.2 = m1 ∧
  match r with
  | Ok _ => x.1 = r2 ∧ ex_tsdb x.2 = t1
  | _ => x.1 = r ∧ ex_tsdb x.2 = ex_tsdb e
  end.
Proof.
  intros Hstmt. pose proof (metaThenStore_spec meta store e) as Hspec.
  destruct (meta (ex_meta e)) as [r m1], (store (ex_tsdb e)) as [r2 t1].
  assert (execution now (ctx_Database ctx) stmt = Some (true, [], noRows (metaThenStore meta store))) as Ex
    by (by destruct stmt; try done; destruct Hstmt as [-> ->]).
  rewrite (ExecuteStatement_case lim _ _ _ _ _ _ Ex). unfold noRows. gom_simpl. rewrite Hspec.
  by destruct r as [[]| |]; [destruct r2 as [[]| |]|..].
Qed.

(** ** Revoking *)

(** REVOKE takes away exactly the revoked privileges: the privilege that is
    set has the bits of the old one without those of the statement; revoking all
    privileges sets none without looking at the user; when the user cannot be
    read the error is returned and nothing is set. *)
Theorem revoke_clears_bits `{!MonitoringLaws} p on user e :
  if decide (p = AllPrivileges)
  then executeRevokeStatement p on user e = onMetaClient (mc_SetPrivilege user on 0) e
  else match mc_UserPrivilege user on (ex_meta e) with
       | Ok (Some old) => ∃ v,
           executeRevokeStatement p on user e = onMetaClient (mc_SetPrivilege user on v) e ∧
           ∀ i, 0 ≤ i → Z.testbit v i = Z.testbit old i && negb (Z.testbit p i)
       | Ok None | Panics => executeRevokeStatement p on user e = (Panics, e)
       | Err err => executeRevokeStatement p on user e = (Err err, e)
       end.
Proof.
  unfold executeRevokeStatement, askMeta. gom_simpl.
  case_decide; [by rewrite no_privileges|].
  destruct (mc_UserPrivilege user on (ex_meta e)) as [[old|]|err|]; try done.
  exists (Z.ldiff old p). split; [done|]. intros i _. apply Z.ldiff_spec.
Qed.

(** ** SELECT *)

Lemma iteratorCreator_reads stmt opt e : (iteratorCreator stmt opt e).2 = e.
Proof.
  unfold iteratorCreator, askMeta, askStore. gom_simpl.
  by destruct (mc_ShardsByTimeRange _ _ _ _).
Qed.

(** Preparing a selection changes nothing. *)
Lemma prepareSelect_reads lim now stmt e : (prepareSelect lim now stmt e).2 = e.
Proof.
  unfold prepareSelect. gom_simpl. destruct (selectOptions _ _) as [opt| |]; [|done..].
  match goal with |- context [iteratorCreator ?s opt e] =>
    pose proof (iteratorCreator_reads s opt e) as Hi; destruct (iteratorCreator s opt e) as [[ic| |] e1] end;
    cbn in Hi; subst; [|done..].
  destruct (sources_HasRegex _); [destruct (ic_ExpandSources _ _); [|done..]|];
    (destruct (sel_RewriteWildcards _ _); [|done..]; destruct (checkBuckets _ _ _); [|done..];
     by destruct (Select _ _ _)).
Qed.

(** The registration of the point limit. *)
Definition monitored (lim : limits) (itrs : list Iterator) (e : executor) : executor :=
  if 0 <? MaxSelectPointN lim
  then mkExecutor (ex_meta e) (ex_tsdb e) (ex_points e) (ex_results e)
         (ex_monitors e ++ [(itrs, MaxSelectPointN lim)])
  else e.

Definition addResult (r : Result) (e : executor) : executor :=
  mkExecutor (ex_meta e) (ex_tsdb e) (ex_points e) (ex_results e ++ [r]) (ex_monitors e).

(** A selection that is within its limits. *)
Record selects (lim : limits) (now : Z) (stmt : SelectStatement) (ctx : ExecutionContext) (e : executor)
    (stmt' : SelectStatement) (itrs : list Iterator) (rows : list Row) (last : option error) : Prop := {
  selects_prepared : (prepareSelect lim now stmt e).1 = Ok (stmt', itrs);
  selects_series : MaxSelectSeriesN lim ≤ 0 ∨ itrs_SeriesN itrs ≤ MaxSelectSeriesN lim;
  selects_rows : emitted_rows stmt' itrs (ctx_ChunkSize ctx) = (rows, last);
}.

Lemma executeSelectStatement_eq lim now stmt ctx e stmt' itrs rows last :
  selects lim now stmt ctx e stmt' itrs rows last →
  executeSelectStatement lim now stmt ctx e =
  ('(writeN, emitted) ← emitRows ctx (sel_Target stmt') 0 rows last 0 false;
   match sel_Target stmt' with
   | Some _ => send (mkResult (ctx_StatementID ctx) [writtenRow writeN]
                 (if ctx_ReadOnly ctx then [ReadOnlyWarning (sel_String stmt')] else []))
   | None => if emitted : bool then mret tt else send (mkResult (ctx_StatementID ctx) [] [])
   end) (monitored lim itrs e).
Proof.
  intros [Hp Hs Hr]. unfold executeSelectStatement. unfold mbind at 1, gom_bind at 1.
  pose proof (prepareSelect_reads lim now stmt e) as He.
  destruct (prepareSelect lim now stmt e) as [r e1]. cbn in Hp, He. subst r e1.
  rewrite Hr. replace ((0 <? MaxSelectSeriesN lim) && (MaxSelectSeriesN lim <? itrs_SeriesN itrs)) with false.
  2: { symmetry. apply andb_false_iff. rewrite !Z.ltb_ge. lia. }
  unfold monitored. by destruct (0 <? MaxSelectPointN lim).
Qed.

(** What a row is written as. *)
Definition intoName (m : Measurement) (row : Row) : string :=
  if decide (m_Name m = ""%string) then row_Name row else m_Name m.
Definition intoRequest (m : Measurement) (ps : list Point) : IntoWriteRequest :=
  mkIntoWriteRequest (m_Database m) (m_RetentionPolicy m) ps.
Definition setPoints (p : writerState) (e : executor) : executor :=
  mkExecutor (ex_meta e) (ex_tsdb e) p (ex_results e) (ex_monitors e).

(** The number of lines of the rows. *)
Definition lineCount (rows : list Row) : Z :=
  Z.of_nat (sum_list_with (λ row, length (row_Values row)) rows).

(** The same, counted in an int64. *)
Fixpoint countLines (rows : list Row) (w : Z) : Z :=
  match rows with
  | [] => w
  | row :: rows' => countLines rows' (i64 (w + len (row_Values row)))
  end.

Lemma countLines_sum rows w :
  0 ≤ w → w + lineCount rows < 2 ^ 63 →
  countLines rows w = w + lineCount rows.
Proof.
  revert w. induction rows as [|row rows IH]; intros w Hw Hlt; unfold lineCount in *; cbn in *; [lia|].
  unfold len. rewrite i64_small by lia. rewrite IH by lia. lia.
Qed.

(** How the loop over the rows ends. *)
Definition emitEnd (ctx : ExecutionContext) (n : nat) (last : option error) (x : Z * bool) : res (Z * bool) :=
  match last with
  | Some err => Err err
  | None => if ctx_Interrupt ctx n then Err ErrQueryInterrupted else Ok x
  end.

Lemma emitRows_into ctx m rows pss n last w em e :
  m_Database m ≠ ""%string →
  Forall2 (λ row ps, convertRowToPoints (intoName m row) row = Ok ps) rows pss →
  let '(r, p') := for_each (intoRequest m <$> pss) WritePointsInto (ex_points e) in
  emitRows ctx (Some m) n rows last w em e =
  (match r with
   | Ok _ => emitEnd ctx (n + length rows) last (countLines rows w, em)
   | Err err => Err err
   | Panics => Panics
   end, setPoints p' e).
Proof.
  intros Hdb Hps. revert n w e. induction Hps as [|row ps rows pss Hrow _ IH]; intros n w e; cbn.
  - rewrite Nat.add_0_r. unfold setPoints. destruct e, last as [err|]; [done|]. cbn. by case_match.
  - unfold mbind at 2, gom_bind at 2, writeInto. rewrite decide_False by done.
    fold (intoName m row). rewrite Hrow. unfold lift_res, onWriter, zoom. unfold mbind, gom_bind.
    unfold intoRequest at 1.
    destruct (WritePointsInto _ (ex_points e)) as [[[]|err|] p1]; cbn; [|done..].
    set (e1 := mkExecutor _ _ p1 _ _). specialize (IH (S n) (i64 (w + len (row_Values row))) e1).
    cbn [ex_points e1] in IH. change (ex_points e1) with p1 in IH.
    destruct (for_each (intoRequest m <$> pss) WritePointsInto p1) as [r p'].
    rewrite IH. replace (n + S (length rows))%nat with (S n + length rows)%nat by lia. done.
Qed.

Lemma select_into_spec lim now stmt ctx e stmt' itrs rows m pss :
  selects lim now stmt ctx e stmt' itrs rows None → sel_Target stmt' = Some m → m_Database m ≠ ""%string →
  Forall2 (λ row ps, convertRowToPoints (intoName m row) row = Ok ps) rows pss →
  ctx_Interrupt ctx (length rows) = false → lineCount rows < 2 ^ 63 →
  let '(r, p') := for_each (intoRequest m <$> pss) WritePointsInto (ex_points e) in
  executeSelectStatement lim now stmt ctx e =
  let e' := setPoints p' (monitored lim itrs e) in
  match r with
  | Ok _ => (Ok tt, addResult (mkResult (ctx_StatementID ctx)
      [writtenRow (lineCount rows)]
      (if ctx_ReadOnly ctx then [ReadOnlyWarning (sel_String stmt')] else [])) e')
  | Err err => (Err err, e')
  | Panics => (Panics, e')
  end.
Proof.
  intros Hsel Ht Hdb Hps Hint Hsum. rewrite (executeSelectStatement_eq _ _ _ _ _ _ _ _ _ Hsel), Ht.
  pose proof (emitRows_into ctx m rows pss 0 None 0 false (monitored lim itrs e) Hdb Hps) as He.
  replace (ex_points (monitored lim itrs e)) with (ex_points e) in He
    by (unfold monitored; by destruct (0 <? MaxSelectPointN lim)).
  destruct (for_each _ _ _) as [r p']. unfold mbind, gom_bind. rewrite He.
  destruct r as [[]|err|]; [|done..]. cbn [emitEnd Nat.add]. rewrite Hint, countLines_sum by lia. done.
Qed.

(** SELECT ... INTO writes the points of every row, in the order of the rows
    and to the target of the statement.  When all writes succeed and the query
    was not interrupted, one result reports the number of lines of the rows,
    which counts the lines that could not be converted and were dropped too; when
    a write fails its error is returned, the writes before it stay, and no
    result is sent. *)
Theorem select_into_writes_rows lim now stmt ctx e stmt' itrs rows m pss :
  selects lim now stmt ctx e stmt' itrs rows None → sel_Target stmt' = Some m → m_Database m ≠ ""%string →
  Forall2 (λ row ps, convertRowToPoints (intoName m row) row = Ok ps) rows pss →
  ctx_Interrupt ctx (length rows) = false → lineCount rows < 2 ^ 63 →
  let '(r, p') := for_each (intoRequest m <$> pss) WritePointsInto (ex_points e) in
  executeSelectStatement lim now stmt ctx e =
  let e' := setPoints p' (monitored lim itrs e) in
  match r with
  | Ok _ => (Ok tt, addResult (mkResult (ctx_StatementID ctx)
      [writtenRow (lineCount rows)]
      (if ctx_ReadOnly ctx then [ReadOnlyWarning (sel_String stmt')] else [])) e')
  | Err err => (Err err, e')
  | Panics => (Panics, e')
  end.
Proof. apply select_into_spec. Qed.

(** One result per row. *)
Definition addRows (ctx : ExecutionContext) (rows : list Row) (e : executor) : executor :=
  mkExecutor (ex_meta e) (ex_tsdb e) (ex_points e)
    (ex_results e ++ ((λ row, mkResult (ctx_StatementID ctx) [row] []) <$> rows)) (ex_monitors e).

Lemma addRows_nil ctx e : addRows ctx [] e = e.
Proof. unfold addRows. cbn. rewrite app_nil_r. by destruct e. Qed.

Lemma addRows_cons ctx row rows e :
  addRows ctx rows (addResult (mkResult (ctx_StatementID ctx) [row] []) e) = addRows ctx (row :: rows) e.
Proof. unfold addRows, addResult. cbn. by rewrite <- app_assoc. Qed.

(** The rows before the interrupt at position [k], if there is one. *)
Lemma emitRows_stream ctx rows n last w em e k :
  (k ≤ length rows)%nat → (∀ i, (i < k)%nat → ctx_Interrupt ctx (n + i) = false) →
  ((k < length rows)%nat → ctx_Interrupt ctx (n + k) = true) →
  emitRows ctx None n rows last w em e =
  (if decide (k < length rows)%nat then Err ErrQueryInterrupted
   else emitEnd ctx (n + k) last (w, em || bool_decide (0 < length rows)%nat),
   addRows ctx (take k rows) e).
Proof.
  revert n w em e k. induction rows as [|row rows IH]; intros n w em e k Hk Hno Hint; cbn [length] in *.
  - replace k with 0%nat by lia. rewrite decide_False by lia. cbn. rewrite Nat.add_0_r, addRows_nil, orb_false_r.
    destruct last; [done|]. unfold emitEnd. by destruct (ctx_Interrupt ctx n).
  - cbn [emitRows]. destruct k as [|k].
    + rewrite Nat.add_0_r in Hint. rewrite Hint, decide_True by lia. cbn. by rewrite addRows_nil.
    + pose proof (Hno 0%nat ltac:(lia)) as Hn. rewrite Nat.add_0_r in Hn. rewrite Hn.
      change (emitRows ctx None (S n) rows last w true
        (addResult (mkResult (ctx_StatementID ctx) [row] []) e) =
        (if decide (S k < S (length rows))%nat then Err ErrQueryInterrupted
         else emitEnd ctx (n + S k) last (w, em || bool_decide (0 < S (length rows))%nat),
         addRows ctx (row :: take k rows) e)).
      rewrite (IH (S n) w true _ k), addRows_cons; [| lia | |].
      * rewrite <- Nat.add_succ_comm. destruct (decide (k < length rows)%nat).
        { by rewrite decide_True by lia. }
        rewrite decide_False by lia. rewrite (bool_decide_eq_true_2 (0 < S _)%nat) by lia.
        by rewrite orb_true_r.
      * intros i Hi. rewrite <- (Hno (S i)) by lia. f_equal. lia.
      * intros Hlt. rewrite <- Hint by lia. f_equal. lia.
Qed.

(** C18. A SELECT without INTO streams its rows: each row is sent as a result of its
    own, in order.  If the query is never interrupted and the rows end without
    an error the statement succeeds and at least one result is sent, an empty
    one when there are no rows.  If the interrupt is taken at some row, exactly
    the rows before it have been sent and the statement fails. *)
Theorem select_streams_rows lim now stmt ctx e stmt' itrs rows k :
  selects lim now stmt ctx e stmt' itrs rows None → sel_Target stmt' = None →
  (k ≤ length rows)%nat → (∀ i, (i < k)%nat → ctx_Interrupt ctx i = false) →
  ((k < length rows)%nat → ctx_Interrupt ctx k = true) →
  executeSelectStatement lim now stmt ctx e =
  let e' := monitored lim itrs e in
  if ctx_Interrupt ctx k then (Err ErrQueryInterrupted, addRows ctx (take k rows) e')
  else (Ok tt, if decide (rows = []) then addResult (mkResult (ctx_StatementID ctx) [] []) e'
               else addRows ctx rows e').
Proof.
  intros Hsel Ht Hk Hno Hint. rewrite (executeSelectStatement_eq _ _ _ _ _ _ _ _ _ Hsel), Ht.
  unfold mbind, gom_bind. rewrite (emitRows_stream ctx rows 0 None 0 false _ k Hk Hno Hint). cbn [Nat.add].
  destruct (decide (k < length rows)%nat) as [Hlt|Hge]; [by rewrite Hint|].
  unfold emitEnd. destruct (ctx_Interrupt ctx k); [done|]. rewrite take_ge by lia.
  destruct rows as [|row rows]; cbn; [|done]. by rewrite addRows_nil.
Qed.

(** ** The bucket limit *)

(** The starts of the intervals that a grouped selection covers. *)
Definition bucketStarts (minTime maxTime interval : Z) : list Z :=
  (λ i, time.Truncate minTime interval + Z.of_nat i * interval) <$>
  seq 0 (Z.to_nat ((time.Truncate maxTime interval - time.Truncate minTime interval) / interval + 1)).

Lemma Truncate_diff_multiple a b d :
  0 < d → ∃ k, time.Truncate a d - time.Truncate b d = k * d.
Proof.
  intros Hd. unfold time.Truncate. zbool.
  exists ((a + time.zero_to_epoch) / d - (b + time.zero_to_epoch) / d).
  pose proof (Z.div_mod (a + time.zero_to_epoch) d). pose proof (Z.div_mod (b + time.zero_to_epoch) d). lia.
Qed.

Lemma Truncate_mono a b d : 0 < d → a ≤ b → time.Truncate a d ≤ time.Truncate b d.
Proof.
  intros Hd Hab. unfold time.Truncate. zbool.
  pose proof (Z.div_mod (a + time.zero_to_epoch) d). pose proof (Z.div_mod (b + time.zero_to_epoch) d).
  pose proof (Z.div_le_mono (a + time.zero_to_epoch) (b + time.zero_to_epoch) d). nia.
Qed.

(** C36. The bucket count of the limit is right for ranges below 292 years: it is
    the number of aligned intervals that contain an instant of the range, every
    instant lies in one of them and each of them meets the range.  For a longer
    range the subtraction of the times saturates and the count is the constant
    [(2^63 - 1) / interval], however many intervals there are. *)
Theorem bucketCount_spec minTime maxTime interval :
  0 < interval → minTime ≤ maxTime →
  let span := time.Truncate maxTime interval + interval - time.Truncate minTime interval in
  if decide (span < 2 ^ 63) then
    bucketCount minTime maxTime interval = len (bucketStarts minTime maxTime interval) ∧
    (∀ t, minTime ≤ t ≤ maxTime → ∃ b, b ∈ bucketStarts minTime maxTime interval ∧ b ≤ t < b + interval) ∧
    (∀ b, b ∈ bucketStarts minTime maxTime interval → b ≤ maxTime ∧ minTime < b + interval)
  else bucketCount minTime maxTime interval = (2 ^ 63 - 1) / interval.
Proof.
  intros Hi Hle span. destruct (Truncate_diff_multiple maxTime minTime interval Hi) as [k Hk].
  pose proof (Truncate_mono minTime maxTime interval Hi Hle) as Hm.
  assert (0 ≤ k) by nia. assert (span = (k + 1) * interval) as Hspan by (unfold span; lia).
  unfold bucketCount, timeSub. fold span. unfold bucketStarts. rewrite Hk, Z.div_mul by lia.
  case_decide as Hs.
  - rewrite Z.max_r, Z.min_r by lia. split_and!.
    + rewrite Hspan, Z.quot_mul by lia. unfold len. rewrite length_fmap, length_seq. lia.
    + intros t Ht. destruct (Truncate_diff_multiple t minTime interval Hi) as [j Hj].
      pose proof (time.Truncate_bounds t interval Hi). pose proof (Truncate_mono _ _ _ Hi (proj1 Ht)).
      pose proof (Truncate_mono _ _ _ Hi (proj2 Ht)). exists (time.Truncate t interval). split; [|done].
      apply list_elem_of_fmap. exists (Z.to_nat j). rewrite elem_of_seq.
      assert (0 ≤ j) by nia. assert (j ≤ k) by nia. split; [rewrite Z2Nat.id by lia; lia|lia].
    + intros b (i & -> & Hseq)%list_elem_of_fmap. apply elem_of_seq in Hseq.
      pose proof (time.Truncate_bounds minTime interval Hi). pose proof (time.Truncate_bounds maxTime interval Hi). nia.
  - rewrite Z.max_r, Z.min_l by lia. apply Z.quot_div_nonneg; lia.
Qed.

(** ** Normalized statements *)

(** A measurement that needs nothing from its context. *)
Definition normalized (s : metaState) (m : Measurement) : Prop :=
  (m_IsTarget m = true ∨ m_Name m ≠ ""%string ∨ m_Regex m = true) ∧
  m_Database m ≠ ""%string ∧ m_RetentionPolicy m ≠ ""%string ∧ is_Some (mc_Database (m_Database m) s).

(** [m'] is [m] with the missing parts filled in. *)
Definition completes (db : string) (s : metaState) (m m' : Measurement) : Prop :=
  m_Database m' = (if decide (m_Database m = ""%string) then db else m_Database m) ∧
  (m_RetentionPolicy m ≠ ""%string → m_RetentionPolicy m' = m_RetentionPolicy m) ∧
  (m_RetentionPolicy m = ""%string →
     dbi_DefaultRetentionPolicy <$> mc_Database (m_Database m') s = Some (m_RetentionPolicy m')) ∧
  m_Name m' = m_Name m ∧ m_Regex m' = m_Regex m ∧ m_IsTarget m' = m_IsTarget m.

Lemma unnamed_false (t r : bool) (n : string) :
  negb t && bool_decide (n = ""%string) && negb r = false ↔ t = true ∨ n ≠ ""%string ∨ r = true.
Proof. destruct t, r; case_bool_decide; cbn; naive_solver. Qed.

Lemma normalizeMeasurement_ok db s m m' :
  normalizeMeasurement db s m = (Ok tt, m') → normalized s m' ∧ completes db s m m'.
Proof.
  destruct m as [mdb rp name regex target]. unfold normalizeMeasurement. gom_simpl. cbn.
  destruct (_ && _ && _) eqn:Hn; [done|]. apply unnamed_false in Hn.
  unfold normalized, completes. cbn.
  destruct (decide (mdb = ""%string)) as [->|]; cbn; (case_decide; [done|]);
    (destruct (mc_Database _ s) as [di|] eqn:Hdi; cbn; [|done]);
    (case_decide; [case_decide; [done|]|]); intros [= <-]; cbn; rewrite ?Hdi; naive_solver.
Qed.

Lemma normalizeMeasurement_fixed db s m : normalized s m → normalizeMeasurement db s m = (Ok tt, m).
Proof.
  destruct m as [mdb rp name regex target]. intros (Hn & Hdb & Hrp & [di Hdi]). cbn in *.
  apply unnamed_false in Hn. unfold normalizeMeasurement. gom_simpl. cbn. rewrite Hn. cbn.
  rewrite !(decide_False (P := mdb = _)) by done. cbn. rewrite Hdi. cbn.
  by rewrite decide_False by done.
Qed.

Lemma normalizeMeasurements_ok db s ms ms' :
  normalizeMeasurements db s ms = (Ok tt, ms') →
  Forall (normalized s) ms' ∧ Forall2 (completes db s) ms ms'.
Proof.
  revert ms'. induction ms as [|m ms IH]; intros ms'; cbn; [by intros [= <-]|].
  destruct (normalizeMeasurement db s m) as [[[]| |] m1] eqn:E; [|done..].
  destruct (normalizeMeasurements db s ms) as [r ms1]. intros [= -> <-].
  apply normalizeMeasurement_ok in E as [? ?]. destruct (IH ms1 eq_refl). auto.
Qed.

Lemma normalizeMeasurements_fixed db s ms :
  Forall (normalized s) ms → normalizeMeasurements db s ms = (Ok tt, ms).
Proof.
  induction 1 as [|m ms Hm _ IH]; cbn; [done|]. by rewrite normalizeMeasurement_fixed, IH.
Qed.

(** C16. A statement that [NormalizeStatement] accepts names everything it reads and
    writes: every measurement of it has a database that exists and a policy; the
    parts that were given are kept and the others are the default database and
    the default policy of the database; and normalizing once more, with whatever
    default database, changes nothing. *)
Theorem NormalizeStatement_complete `{!StatementLangLaws _} s stmt db stmt' :
  NormalizeStatement s stmt db = (Ok tt, stmt') →
  Forall (normalized s) (stmt_Measurements stmt') ∧
  Forall2 (completes db s) (stmt_Measurements stmt) (stmt_Measurements stmt') ∧
  ∀ db', NormalizeStatement s stmt' db' = (Ok tt, stmt').
Proof.
  unfold NormalizeStatement at 1.
  destruct (normalizeMeasurements db s (stmt_Measurements stmt)) as [r ms] eqn:E. intros [= -> <-].
  apply normalizeMeasurements_ok in E as [Hn Hc].
  rewrite measurements_set by (symmetry; by eapply Forall2_length). split_and!; [done..|].
  intros db'. unfold NormalizeStatement. rewrite measurements_set by (symmetry; by eapply Forall2_length).
  rewrite normalizeMeasurements_fixed by done. f_equal.
  rewrite <- (measurements_set ms stmt) at 1 by (symmetry; by eapply Forall2_length).
  apply set_measurements_same.
Qed.

End executor.

(** ** Runs *)

#[local] Existing Instances demo_models demo_influxql demo_lang demo_tsdb demo_env.
#[local] Existing Instances demo_meta demo_into demo_monitoring demo_statements.
#[local] Existing Instances demo_monitoring_laws demo_statements_laws.

Definition demo_calm : ExecutionContext := demo_context (λ _, false).

Lemma ExecuteStatement_one_result_witness :
  ∃ rows ms, ex_results (ExecuteStatement demo_limits 0 ShowShardsStatement demo_calm demo_executor).2 =
    [] ++ [mkResult 1 rows ms].
Proof.
  apply (ExecuteStatement_one_result demo_limits 0 ShowShardsStatement demo_calm demo_executor (Ok tt)).
  - intros s. discriminate.
  - reflexivity.
Defined.

(** The metadata refuses to drop the shard. *)
Lemma drop_statements_meta_first_witness :
  let x := ExecuteStatement demo_limits 0 (DropShardStatement 7) demo_calm demo_executor in
  ex_meta x.2 = ex_meta demo_executor ∧ x.1 = Err ErrShardNotFound ∧ ex_tsdb x.2 = ex_tsdb demo_executor.
Proof.
  exact (drop_statements_meta_first demo_limits 0 demo_calm (DropShardStatement 7) demo_executor
    (mc_DropShard 7) (ts_DeleteShard 7) (conj eq_refl eq_refl)).
Defined.

Lemma revoke_clears_bits_witness :
  ∃ v, executeRevokeStatement 1 "db0" "u" demo_executor =
    onMetaClient (mc_SetPrivilege "u" "db0" v) demo_executor ∧
    ∀ i, 0 ≤ i → Z.testbit v i = Z.testbit 3 i && negb (Z.testbit 1 i).
Proof. exact (revoke_clears_bits 1 "db0" "u" demo_executor). Defined.

Definition demo_points0 : list (list (@Point demo_models)) := [[[]]; [[]]].

Definition demo_select_into : SelectStatement := demo_query (Some demo_target).

Lemma demo_selects target interrupt :
  selects demo_limits 5 (demo_query target) (demo_context interrupt) demo_executor
    (demo_query target) [[7; 8]] demo_rows None.
Proof. split; [reflexivity|right; vm_compute; congruence|reflexivity]. Qed.

(** Three lines are counted, two points are written. *)
Lemma select_into_writes_rows_witness :
  executeSelectStatement demo_limits 5 demo_select_into demo_calm demo_executor =
  (Ok tt, addResult (mkResult 1 [writtenRow 3] ["deprecated use of SELECT"%string])
     (setPoints (intoRequest demo_target <$> demo_points0) (monitored demo_limits [[7; 8]] demo_executor))).
Proof.
  exact (select_into_writes_rows demo_limits 5 demo_select_into demo_calm demo_executor
    demo_select_into [[7; 8]] demo_rows demo_target demo_points0 (demo_selects _ _) eq_refl
    ltac:(discriminate) ltac:(repeat constructor) eq_refl ltac:(reflexivity)).
Defined.

(** The interrupt is taken at the second row. *)
Definition demo_interrupted : ExecutionContext := demo_context (λ n, bool_decide (n = 1%nat)).

Lemma select_streams_rows_witness :
  executeSelectStatement demo_limits 5 (demo_query None) demo_interrupted demo_executor =
  (Err ErrQueryInterrupted,
   addRows demo_interrupted (take 1 demo_rows) (monitored demo_limits [[7; 8]] demo_executor)).
Proof.
  refine (eq_trans (select_streams_rows demo_limits 5 (demo_query None) demo_interrupted
    demo_executor (demo_query None) [[7; 8]] demo_rows 1 (demo_selects _ _) eq_refl _ _ _) eq_refl).
  - cbn. lia.
  - intros i Hi. cbn. rewrite bool_decide_eq_false_2; [done|lia].
  - done.
Defined.

Lemma bucketCount_spec_witness :
  bucketCount 30 200 60 = 4 ∧ bucketCount 0 (2 ^ 63) 10 = (2 ^ 63 - 1) / 10.
Proof.
  split.
  - exact (proj1 (bucketCount_spec 30 200 60 ltac:(lia) ltac:(lia))).
  - exact (bucketCount_spec 0 (2 ^ 63) 10 ltac:(lia) ltac:(lia)).
Defined.

Lemma NormalizeStatement_complete_witness :
  Forall (normalized demo_metadata0) (stmt_Measurements (SelectStmt demo_select_into)).
Proof.
  apply (NormalizeStatement_complete demo_metadata0
    (SelectStmt (demo_query (Some (mkMeasurement "" "" "" false true)))) "db0").
  reflexivity.
Defined.
