(* ===== verification/ExecRows.v ===== *)
(** * Properties of rows, sets and lists of the executor

    Converting rows back to points, what SHOW SHARDS lists, and the helpers
    against their reference definitions. *)

From Stdlib Require Import ZArith Lia.
From Stdlib Require Import Strings.Ascii DecimalString.
From S2P Require Import Prelude GoLib GoTime MetaData StoreFSM Rpc Query StatementExecutor ExecSelect ExecShow ExecDemo.

Local Open Scope Z_scope.

Section rows.
  Context `{QueryLang, !TSDBStore _, !ClusterMeta, !IntoWriter, !Monitoring}.

(** ** Rows to points *)

(** The cells of a line by column; of two columns with the same name the later
    one counts. *)
Definition lineCells (columns : list string) (v : list iface) : gmap string iface :=
  list_to_map (reverse (zip columns v)).

Definition lineFields (columns : list string) (v : list iface) : gmap string iface :=
  filter (λ x, x.2 ≠ INil) (delete "time"%string (lineCells columns v)).

Lemma lineCells_snoc columns c v x :
  length columns = length v → lineCells (columns ++ [c]) (v ++ [x]) = <[c := x]> (lineCells columns v).
Proof. intros Hl. unfold lineCells. by rewrite zip_with_app, reverse_app by done. Qed.

Lemma columnIndexes_snoc columns c i ti fi :
  columnIndexes (columns ++ [c]) i ti fi =
  let '(ti', fi') := columnIndexes columns i ti fi in
  if decide (c = "time"%string) then (Some (i + length columns)%nat, fi')
  else (ti', <[c := (i + length columns)%nat]> fi').
Proof.
  revert i ti fi. induction columns as [|d columns IH]; intros i ti fi; cbn.
  - rewrite Nat.add_0_r. by case_decide.
  - rewrite Nat.add_succ_r. destruct (decide (d = "time"%string)); by rewrite IH.
Qed.

(** The indexes point at the cells. *)
Lemma columnIndexes_cells columns v :
  length columns = length v →
  let '(ti, fi) := columnIndexes columns 0 None ∅ in
  (∀ j, ti = Some j → j < length v)%nat ∧ (∀ c j, fi !! c = Some j → j < length v)%nat ∧
  (ti ≫= λ j, v !! j) = lineCells columns v !! "time"%string ∧
  (∀ c, (fi !! c ≫= λ j, v !! j) = delete "time"%string (lineCells columns v) !! c).
Proof.
  revert v. induction columns as [|c columns IH] using rev_ind; intros v Hl.
  { destruct v; [|done]. by cbn. }
  rewrite length_app in Hl. cbn in Hl.
  destruct v as [|x v _] using rev_ind; [cbn in Hl; lia|].
  rewrite length_app in Hl. cbn in Hl. assert (length columns = length v) as Hlen by lia.
  rewrite columnIndexes_snoc, lineCells_snoc, length_app by done. cbn [length Nat.add].
  specialize (IH v Hlen). destruct (columnIndexes columns 0 None ∅) as [ti fi].
  destruct IH as (Hti & Hfi & Ht & Hf).
  assert (∀ j, (j < length v)%nat → (v ++ [x]) !! j = v !! j) as Hold
    by (intros; by rewrite lookup_app_l).
  assert ((v ++ [x]) !! length columns = Some x) as Hnew
    by (rewrite Hlen; by rewrite lookup_app_r, Nat.sub_diag by lia).
  assert (∀ o : option nat, (∀ j, o = Some j → j < length v)%nat →
    (o ≫= λ j, (v ++ [x]) !! j) = (o ≫= λ j, v !! j)) as Hsame.
  { intros [j|] Hj; cbn; [|done]. apply Hold. by apply Hj. }
  case_decide as Hc.
  - subst c. split_and!.
    + intros j [= <-]. lia.
    + intros c j Hj. apply Hfi in Hj. lia.
    + cbn. by rewrite Hnew, lookup_insert_eq.
    + intros c. rewrite Hsame by (intros; by eapply Hfi). by rewrite Hf, delete_insert_eq.
  - split_and!.
    + intros j Hj. apply Hti in Hj. lia.
    + intros d j. destruct (decide (d = c)) as [->|].
      * rewrite lookup_insert_eq. intros [= <-]. lia.
      * rewrite lookup_insert_ne by done. intros Hj. apply Hfi in Hj. lia.
    + rewrite Hsame by done. by rewrite lookup_insert_ne.
    + intros d. rewrite delete_insert_ne by done. destruct (decide (d = c)) as [->|].
      * rewrite !lookup_insert_eq. cbn. done.
      * rewrite !lookup_insert_ne by done. rewrite Hsame by (intros; by eapply Hfi). apply Hf.
Qed.

Lemma columnIndexes_time columns :
  is_Some (columnIndexes columns 0 None ∅).1 ↔ "time"%string ∈ columns.
Proof.
  induction columns as [|c columns IH] using rev_ind.
  { cbn. split; [by intros []|by intros ?%not_elem_of_nil]. }
  rewrite columnIndexes_snoc, elem_of_app, list_elem_of_singleton.
  destruct (columnIndexes columns 0 None ∅) as [ti fi]. cbn in IH.
  case_decide; cbn; naive_solver.
Qed.

(** The loop over the fields, in any order. *)
Lemma rowValues_lookup (fields : list (string * nat)) v acc :
  NoDup fields.*1 → (∀ c j, (c, j) ∈ fields → j < length v)%nat →
  ∃ vals, rowValues fields v acc = Ok vals ∧
    ∀ c, vals !! c = match (list_to_map fields : gmap string nat) !! c ≫= λ j, v !! j with
                     | None | Some INil => acc !! c
                     | Some x => Some x
                     end.
Proof.
  revert acc. induction fields as [|[c j] fields IH]; intros acc Hnd Hj; cbn; [by exists acc|].
  apply NoDup_cons in Hnd as [Hc Hnd].
  assert ((list_to_map fields : gmap string nat) !! c = None) as Hnone
    by (by apply not_elem_of_list_to_map_1).
  destruct (lookup_lt_is_Some_2 v j) as [x Hx]; [apply (Hj c); by left|]. rewrite Hx.
  assert (∀ acc', (x = INil → acc' = acc) → (x ≠ INil → acc' = <[c := x]> acc) →
    ∃ vals, rowValues fields v acc' = Ok vals ∧
    ∀ d, vals !! d = match <[c := j]> (list_to_map fields : gmap string nat) !! d ≫= λ j, v !! j with
                     | None | Some INil => acc !! d
                     | Some x => Some x
                     end) as Hgo.
  { intros acc' H0' H1'. destruct (IH acc' Hnd) as (vals & Hv & Hl).
    { intros d k Hd. apply (Hj d). by right. }
    exists vals. split; [done|]. intros d. rewrite Hl. destruct (decide (d = c)) as [->|Hd].
    - rewrite Hnone, lookup_insert_eq. cbn. rewrite Hx.
      destruct x; (rewrite H1' by done; by rewrite lookup_insert_eq) || by rewrite H0'.
    - rewrite lookup_insert_ne by done.
      assert (acc' !! d = acc !! d) as Hacc.
      { destruct (decide (x = INil)); [by rewrite H0'|]. rewrite H1' by done. by rewrite lookup_insert_ne. }
      by rewrite Hacc. }
  destruct x; by apply Hgo.
Qed.

Lemma rowValues_fields columns v :
  length columns = length v →
  rowValues (map_to_list (columnIndexes columns 0 None ∅).2) v ∅ = Ok (lineFields columns v).
Proof.
  intros Hl. pose proof (columnIndexes_cells columns v Hl) as Hc.
  destruct (columnIndexes columns 0 None ∅) as [ti fi]. destruct Hc as (_ & Hfi & _ & Hf). cbn [snd].
  destruct (rowValues_lookup (map_to_list fi) v ∅) as (vals & -> & Hvals).
  { apply NoDup_fst_map_to_list. }
  { intros c j Hj%elem_of_map_to_list. by eapply Hfi. }
  f_equal. apply map_eq. intros c. rewrite Hvals, list_to_map_to_list, Hf, lookup_empty.
  unfold lineFields. rewrite map_lookup_filter.
  destruct (delete _ _ !! c) as [x|]; cbn; [|done].
  destruct (decide (x = INil)) as [->|Hx]; [done|].
  rewrite option_guard_True by done. by destruct x.
Qed.

(** The point of a line, unless it cannot be stored. *)
Definition linePoint (name : string) (row : Row) (v : list iface) : option Point :=
  match lineCells (row_Columns row) v !! "time"%string with
  | Some (ITime t) =>
      match NewPoint name (row_Tags row) (lineFields (row_Columns row) v) t with
      | Ok p => Some p
      | _ => None
      end
  | _ => None
  end.

(** C37. Converting a row back to points is the same as reading each line by its
    column names: a line gives the point with the non-nil cells of its columns
    other than time as fields (the later of two equal columns), at the instant
    of its time column; lines whose point cannot be built are left out and the
    others keep their order.  A row without a time column is an error. *)
Theorem convertRowToPoints_by_columns name row :
  (∀ n t f z, NewPoint n t f z ≠ Panics) →
  Forall (λ v, length v = length (row_Columns row) ∧
               ∃ t, lineCells (row_Columns row) v !! "time"%string = Some (ITime t)) (row_Values row) →
  convertRowToPoints name row =
  if decide ("time"%string ∈ row_Columns row) then Ok (omap (linePoint name row) (row_Values row))
  else Err (errorf "error finding time index in result").
Proof.
  intros Hnp Hlines. unfold convertRowToPoints. pose proof (columnIndexes_time (row_Columns row)) as Ht.
  destruct (columnIndexes (row_Columns row) 0 None ∅) as [[ti|] fi] eqn:E; cbn in Ht.
  2: { rewrite decide_False; [done|]. intros []%Ht. done. }
  rewrite decide_True by (apply Ht; eauto). clear Ht.
  induction Hlines as [|v values [Hv [t Hcell]] _ IH]; cbn; [done|].
  pose proof (columnIndexes_cells (row_Columns row) v ltac:(done)) as Hc.
  pose proof (rowValues_fields (row_Columns row) v ltac:(done)) as Hf. rewrite E in Hc, Hf.
  destruct Hc as (_ & _ & Htime & _). cbn in Htime, Hf.
  unfold rowPoint, linePoint. rewrite Hf. cbn. rewrite Htime, Hcell.
  specialize (Hnp name (row_Tags row) (lineFields (row_Columns row) v) t).
  destruct (NewPoint _ _ _ t) as [p| |]; [..|done]; cbn; by rewrite IH.
Qed.

(** ** SHOW SHARDS *)

(** SHOW SHARDS has one row per database, and lists in it exactly the shards of
    the groups that are not deleted, each with its group, the range of the group
    and its expiry, and its owners. *)
Theorem show_shards_lists_live_shards e :
  ∃ rows, executeShowShardsStatement e = (Ok rows, e) ∧
    Forall2 (λ di row, row_Name row = dbi_Name di ∧
      ∀ line, line ∈ row_Values row ↔ ∃ rpi sgi si,
        rpi ∈ dbi_RetentionPolicies di ∧ sgi ∈ rpi_ShardGroups rpi ∧ Deleted sgi = false ∧
        si ∈ sgi_Shards sgi ∧ line = shardValues di rpi sgi si)
      (mc_Databases (ex_meta e)) rows.
Proof.
  eexists. split; [reflexivity|].
  induction (mc_Databases (ex_meta e)) as [|di dis IH]; constructor; [|done].
  cbn. split; [done|]. intros line. unfold shardLines. rewrite list_elem_of_bind.
  setoid_rewrite list_elem_of_bind. setoid_rewrite list_elem_of_fmap.
  unfold liveGroups. setoid_rewrite list_elem_of_filter. naive_solver.
Qed.

End rows.

(** ** String sets *)
Section sets.
  Context `{RpcEnv, !RpcEnvLaws}.

Lemma range_elem k (s : gset string) : k ∈ rangeStrings s ↔ k ∈ s.
Proof. by rewrite range_strings_all, elem_of_elements. Qed.

Lemma fold_insert_union (l : list string) (s : gset string) :
  fold_left (λ ns k, {[k]} ∪ ns) l s = list_to_set l ∪ s.
Proof. revert s. induction l as [|k l IH]; intros s; cbn; [set_solver|]. rewrite IH. set_solver. Qed.

Lemma fold_filter_union (P : string → bool) (l : list string) (s : gset string) k :
  k ∈ fold_left (λ ns k, if P k then {[k]} ∪ ns else ns) l s ↔ (k ∈ l ∧ P k = true) ∨ k ∈ s.
Proof.
  revert s. induction l as [|x l IH]; intros s; cbn; [set_solver|]. rewrite IH.
  destruct (P x) eqn:E; rewrite ?elem_of_union, ?elem_of_singleton, elem_of_cons; naive_solver congruence.
Qed.

(** The string sets are sets, whatever order the map iterations take: union and
    intersection are those of sets, although the intersection visits only the
    shorter operand, and [list] is the same sorted list of the elements for
    every order of the iteration. *)
Theorem stringSet_operations (s o : gset string) ss k :
  stringSet.union s o = s ∪ o ∧ stringSet.intersect s o = s ∩ o ∧ stringSet.add ss s = list_to_set ss ∪ s ∧
  (stringSet.contains k s = true ↔ k ∈ s) ∧
  stringSet.elems s = merge_sort String.le (elements s) ∧ Sorted String.le (stringSet.elems s).
Proof.
  split_and!.
  - unfold stringSet.union, stringSet.newStringSet. rewrite !fold_insert_union. apply leibniz_equiv. intros x.
    rewrite !elem_of_union, !elem_of_list_to_set, !range_elem. set_solver.
  - unfold stringSet.intersect, stringSet.newStringSet. apply leibniz_equiv. intros x. destruct (_ <? _)%nat.
    all: rewrite (fold_filter_union (λ k, bool_decide (k ∈ _))), range_elem, bool_decide_eq_true,
      elem_of_intersection, elem_of_empty; naive_solver.
  - apply fold_insert_union.
  - apply bool_decide_eq_true.
  - unfold stringSet.elems, sortStrings. apply (Sorted_unique String.le); [apply Sorted_merge_sort, _..|].
    by rewrite !merge_sort_Permutation, range_strings_all.
  - apply Sorted_merge_sort, _.
Qed.

End sets.

(** ** Lists of numbers *)

(** Splitting at the commas. *)
Fixpoint splitCommas (s : string) : list string :=
  match s with
  | EmptyString => [""%string]
  | String c s' =>
      if decide (c = ","%char) then ""%string :: splitCommas s'
      else match splitCommas s' with
           | [] => [String c ""]
           | x :: xs => String c x :: xs
           end
  end.

Fixpoint noComma (s : string) : Prop :=
  match s with
  | EmptyString => True
  | String c s' => c ≠ ","%char ∧ noComma s'
  end.

Lemma splitCommas_last s : noComma s → splitCommas s = [s].
Proof. induction s as [|c s IH]; cbn; [done|]. intros [Hc Hs]. by rewrite decide_False, IH. Qed.

Lemma splitCommas_app s t : noComma s → splitCommas (s +:+ "," +:+ t)%string = s :: splitCommas t.
Proof.
  induction s as [|c s IH]; [done|]. intros [Hc Hs]. specialize (IH Hs).
  change (String c s +:+ "," +:+ t)%string with (String c (s +:+ "," +:+ t)).
  cbn [splitCommas]. by rewrite decide_False, IH by done.
Qed.

Lemma uint_noComma d : noComma (NilEmpty.string_of_uint d).
Proof. induction d; cbn; done. Qed.

Lemma FormatUint_noComma z : noComma (strconv.FormatUint z).
Proof.
  unfold strconv.FormatUint, NilZero.string_of_uint. case_match; (done || apply uint_noComma).
Qed.

(** The owners that SHOW SHARDS prints can be read back: splitting the text of a
    list of node IDs at the commas and parsing the parts gives the list. *)
Theorem joinUint64_roundtrip a :
  a ≠ [] → Forall (λ x, 0 ≤ x < 2 ^ 64) a →
  mapM strconv.ParseUint (splitCommas (joinUint64 a)) = Some a.
Proof.
  intros Hne Ha. induction Ha as [|x a Hx Ha IH]; [done|]. destruct a as [|y a].
  - cbn. rewrite splitCommas_last by apply FormatUint_noComma. cbn.
    by rewrite strconv.ParseUint_FormatUint.
  - change (joinUint64 (x :: y :: a)) with (strconv.FormatUint x +:+ "," +:+ joinUint64 (y :: a))%string.
    specialize (IH ltac:(done)). revert IH. generalize (joinUint64 (y :: a)). intros js IH.
    rewrite splitCommas_app by apply FormatUint_noComma. cbn.
    rewrite strconv.ParseUint_FormatUint by done. cbn. by rewrite IH.
Qed.

(** ** Runs *)

#[local] Existing Instances demo_models demo_influxql demo_lang demo_tsdb demo_env demo_env_laws.
#[local] Existing Instances demo_meta demo_into demo_monitoring.

(** Two columns of the same name and a line without fields. *)
Definition demo_row : Row :=
  mkRow "cpu" nilTags ["v"; "time"; "v"]%string
    [[IInt 1; ITime 10; IInt 2]; [IInt 1; ITime 20; INil]].

Lemma convertRowToPoints_by_columns_witness :
  convertRowToPoints "cpu" demo_row = Ok (omap (linePoint "cpu" demo_row) (row_Values demo_row)).
Proof.
  refine (eq_trans (convertRowToPoints_by_columns "cpu" demo_row _ _) eq_refl).
  - intros n t f z. cbn. case_decide; discriminate.
  - repeat constructor; eexists; reflexivity.
Defined.

Lemma stringSet_operations_witness :
  stringSet.intersect {["a"; "b"]} {["b"; "c"]} = ({["a"; "b"]} ∩ {["b"; "c"]} : gset string).
Proof. apply (stringSet_operations {["a"; "b"]} {["b"; "c"]} [] "a"). Defined.

Lemma joinUint64_roundtrip_witness :
  mapM strconv.ParseUint (splitCommas (joinUint64 [4; 5])) = Some [4; 5].
Proof. apply joinUint64_roundtrip; [discriminate|repeat constructor; lia]. Defined.
