(* ===== verification/Integration.v ===== *)
(** * The executor on the components of this repository

    [client_meta] implements the interface that the executor expects of the
    metadata with the client of meta/client.go, [into_writer] the one for INTO
    with the points writer of cluster/points_writer.go. *)

From Stdlib Require Import ZArith Lia.
From Stdlib Require Import Strings.Byte.
From S2P Require Import Prelude GoLib MetaData StoreFSM PointsWriter MetaClient Rpc Query StatementExecutor ExecSelect ExecDemo ExecutorTheorems.

Local Open Scope Z_scope.

(** ** The metadata client *)
Section client.
  Context `{OssMeta, OssCommands, Transport, OssClient, Influxql}.
  (** The measurements among the sources; what the OSS package offers; and the
      method DropShard, which the executor calls and the client does not have. *)
  Context (sourcePairs : Sources → list (option (string * string))).
  Context (dropShard : Z → GoM Client unit).
  Context (newPolicy : string → RetentionPolicyInfo).
  Context (queries : DatabaseInfo → list ContinuousQueryInfo).
  Context (subscriptions : RetentionPolicyInfo → list SubscriptionInfo).

Definition ignore {A} (m : GoM Client A) : GoM Client unit := _ ← m; mret tt.

Definition client_meta : ClusterMeta := {|
  metaState := Client;
  mc_CreateContinuousQuery := MetaClient.CreateContinuousQuery;
  mc_CreateDatabase name := ignore (MetaClient.CreateDatabase name);
  mc_CreateDatabaseWithRetentionPolicy name rpi :=
    ignore (MetaClient.CreateDatabaseWithRetentionPolicy name rpi);
  mc_CreateRetentionPolicy db rpi := ignore (MetaClient.CreateRetentionPolicy db rpi);
  mc_CreateSubscription := MetaClient.CreateSubscription;
  mc_CreateUser name password admin := ignore (ClientCreateUser name password admin);
  mc_Database := MetaClient.Database;
  mc_Databases := Databases;
  mc_DropContinuousQuery := MetaClient.DropContinuousQuery;
  mc_DropDatabase := MetaClient.DropDatabase;
  mc_DropRetentionPolicy := MetaClient.DropRetentionPolicy;
  mc_DropShard := dropShard;
  mc_DropSubscription := MetaClient.DropSubscription;
  mc_DropUser := ClientDropUser;
  mc_SetAdminPrivilege := MetaClient.SetAdminPrivilege;
  mc_SetDefaultRetentionPolicy := MetaClient.SetDefaultRetentionPolicy;
  mc_SetPrivilege := MetaClient.SetPrivilege;
  mc_ShardsByTimeRange sources tmin tmax := ShardsByTimeRange (sourcePairs sources) tmin tmax;
  mc_UpdateRetentionPolicy := MetaClient.UpdateRetentionPolicy;
  mc_UpdateUser := MetaClient.UpdateUser;
  mc_UserPrivilege user db c := p ← MetaClient.UserPrivilege user db c; Ok (Some p);
  mc_UserPrivileges := MetaClient.UserPrivileges;
  mc_Users := Users;
  NewRetentionPolicyInfo := newPolicy;
  Deleted := sgi_Deleted;
  ContinuousQueries := queries;
  Subscriptions := subscriptions;
|}.


#[local] Existing Instance client_meta.

Section statements.
  Context `{Raft, Models, !QueryLang, !TSDBStore _, !IntoWriter, !Monitoring}.

(** ALTER RETENTION POLICY from the statement to the replicated command: the shard
    group duration of the statement is lost on the way, and DEFAULT is sent as a
    command that the state machine applies without effect. *)
Lemma alter_policy_end_to_end name db d r sgd dflt e :
  let update := mkCommand UpdateRetentionPolicyCommand
        (Some (ExtUpdateRetentionPolicy db name None d (u32 <$> r))) in
  let setDefault := mkCommand SetDefaultRetentionPolicyCommand
        (Some (ExtSetDefaultRetentionPolicy db name)) in
  executeAlterRetentionPolicyStatement name db d r sgd dflt e =
    (_ ← onMetaClient (retryUntilExec update);
     if dflt then onMetaClient (retryUntilExec setDefault) else mret tt) e ∧
  (∀ st, applyUpdateRetentionPolicyCommand update st =
     withClone (onOss (oss_UpdateRetentionPolicy db name (mkRPU None d (u32 <$> r) None) false)) st) ∧
  (∀ st, applySetDefaultRetentionPolicyCommand setDefault st = withClone (mret tt) st).
Proof. done. Qed.

End statements.

End client.

(** ** The points writer *)
Section into.
  Context `{QueryLang, !TSDBStore _, !ClusterMeta, !Monitoring, Writing}.
  (** A point as the points writer sees it. *)
  Context (asPoint : Point → wPoint).

Definition into_writer : IntoWriter := {|
  writerState := PointsWriter;
  StatementExecutor.WritePointsInto req :=
    PointsWriter.WritePointsInto (iw_Database req) (iw_RetentionPolicy req) (asPoint <$> iw_Points req);
|}.

#[local] Existing Instance into_writer.

(** A statement that succeeds has converted all its rows and written their points. *)
Lemma emitRows_into_inv ctx m rows last n w em e x e' :
  emitRows ctx (Some m) n rows last w em e = (Ok x, e') →
  ∃ pss, Forall2 (λ row ps, convertRowToPoints (intoName m row) row = Ok ps) rows pss ∧
    for_each (intoRequest m <$> pss) StatementExecutor.WritePointsInto (ex_points e) = (Ok tt, ex_points e').
Proof.
  revert n w e. induction rows as [|row rows IH]; intros n w e; cbn.
  - intros E. exists []. split; [done|]. destruct last; [done|]. destruct (ctx_Interrupt ctx n); [done|].
    by injection E as _ <-.
  - unfold mbind at 1, gom_bind at 1, writeInto. case_decide; [done|]. fold (intoName m row).
    unfold lift_res, onWriter, zoom, mbind, gom_bind.
    destruct (convertRowToPoints (intoName m row) row) as [ps| |] eqn:Ec; [|done..].
    match goal with |- context [StatementExecutor.WritePointsInto ?r ?p] =>
      destruct (StatementExecutor.WritePointsInto r p) as [[[]|err|] p1] eqn:Ew end; cbn; [|done..].
    intros (pss & Hps & Hf)%IH. exists (ps :: pss). split; [by constructor|]. cbn.
    cbn in Ew. unfold mbind, gom_bind. by rewrite Ew.
Qed.

Lemma select_into_inv lim now stmt ctx e e' stmt' itrs rows last m :
  selects lim now stmt ctx e stmt' itrs rows last → sel_Target stmt' = Some m →
  executeSelectStatement lim now stmt ctx e = (Ok tt, e') →
  ∃ pss, Forall2 (λ row ps, convertRowToPoints (intoName m row) row = Ok ps) rows pss ∧
    for_each (intoRequest m <$> pss) StatementExecutor.WritePointsInto (ex_points e) = (Ok tt, ex_points e').
Proof.
  intros Hsel Ht. rewrite (executeSelectStatement_eq _ _ _ _ _ _ _ _ _ Hsel), Ht.
  replace (ex_points e) with (ex_points (monitored lim itrs e))
    by (unfold monitored; by destruct (0 <? MaxSelectPointN lim)).
  unfold mbind, gom_bind. destruct (emitRows _ _ _ _ _ _ _ _) as [[[n em]| |] e1] eqn:Ee; [|done..].
  intros [= <-]. exact (emitRows_into_inv _ _ _ _ _ _ _ _ _ _ Ee).
Qed.

Section stored.
  Context {K V : Type} `{EqDecision K} (fieldsOf : wPoint → list (K * V)).
  Context (holds : tsdbS → Z → K → option V).
  Context (write_ok : ∀ id points t t' k,
    tsdbWriteToShard id points t = (Ok tt, t') →
    holds t' id k = match written fieldsOf k points with Some v => Some v | None => holds t id k end).
  Context (write_other : ∀ id points t id' k,
    id' ≠ id ∨ written fieldsOf k points = None → holds (tsdbWriteToShard id points t).2 id' k = holds t id' k).
  Context (create_keeps : ∀ db rp id t id' k,
    holds (tsdbCreateShard db rp id t).2 id' k = holds t id' k).
  Context (keys_placed : ∀ p q k, k ∈ (fieldsOf p).*1 → k ∈ (fieldsOf q).*1 →
    pTime p = pTime q ∧ pHashID p = pHashID q).

Lemma for_each_stores `{!WritingLaws} m pss w w' :
  for_each (intoRequest m <$> pss) StatementExecutor.WritePointsInto w = (Ok tt, w') →
  ∀ k, match written fieldsOf k (asPoint <$> mjoin pss) with
       | Some v => ∃ id, holds (pw_tsdb w') id k = Some v
       | None => ∀ id, holds (pw_tsdb w') id k = holds (pw_tsdb w) id k
       end.
Proof using write_ok write_other create_keeps keys_placed.
  revert w. induction pss as [|ps pss IH]; intros w E k; [by injection E as <-|].
  cbn in E. unfold mbind, gom_bind, PointsWriter.WritePointsInto in E.
  destruct (WritePoints (m_Database m) (m_RetentionPolicy m) (asPoint <$> ps) w) as [[[]| |] w1] eqn:Ew; [|done..].
  specialize (IH w1 E k). cbn. rewrite fmap_app, written_app.
  destruct (written fieldsOf k (asPoint <$> mjoin pss)) as [v|]; [done|].
  destruct (written fieldsOf k (asPoint <$> ps)) as [v|] eqn:Ek.
  - destruct (written_inv fieldsOf k v _ Ek) as (p & Hp & Hv).
    destruct (WritePoints_stores fieldsOf holds write_ok write_other create_keeps keys_placed _ _ _ _ _ Ew)
      as (policy & rp & groups & w2 & _ & _ & _ & Hst).
    destruct (Hst p Hp) as (sg & sh & _ & _ & Hs). destruct (Hs k v Hv) as (v' & Hv' & Hh).
    exists (si_ID sh). rewrite IH. congruence.
  - intros id. rewrite IH.
    pose proof (WritePoints_frame fieldsOf holds write_other create_keeps (m_Database m) (m_RetentionPolicy m)
      (asPoint <$> ps) w id k Ek) as Hf. by rewrite Ew in Hf.
Qed.

(** C7. What SELECT ... INTO reports as written is in the store: if the statement
    succeeds, all its rows were converted to points, and for every series, time
    and field that these points have, some shard holds the value of the last of
    them in the order of the rows; what the store held for everything else is
    unchanged. *)
Theorem select_into_stores_points `{!WritingLaws} lim now stmt ctx e e' stmt' itrs rows last m :
  selects lim now stmt ctx e stmt' itrs rows last → sel_Target stmt' = Some m →
  executeSelectStatement lim now stmt ctx e = (Ok tt, e') →
  ∃ pss, Forall2 (λ row ps, convertRowToPoints (intoName m row) row = Ok ps) rows pss ∧
    (∀ ps p k v, ps ∈ pss → p ∈ ps → (k, v) ∈ fieldsOf (asPoint p) →
       ∃ v' id, written fieldsOf k (asPoint <$> mjoin pss) = Some v' ∧
         holds (pw_tsdb (ex_points e')) id k = Some v') ∧
    ∀ id k, written fieldsOf k (asPoint <$> mjoin pss) = None →
      holds (pw_tsdb (ex_points e')) id k = holds (pw_tsdb (ex_points e)) id k.
Proof using write_ok write_other create_keeps keys_placed.
  intros Hsel Ht Hex. destruct (select_into_inv _ _ _ _ _ _ _ _ _ _ _ Hsel Ht Hex) as (pss & Hps & Hf).
  pose proof (for_each_stores m pss (ex_points e) (ex_points e') Hf) as Hall. exists pss. split_and!; [done|..].
  - intros ps p k v Hin Hp Hk. specialize (Hall k).
    destruct (written_elem fieldsOf k v (asPoint p) (asPoint <$> mjoin pss)) as [v' Hv']; [|done|].
    { apply list_elem_of_fmap_2. apply list_elem_of_join. eauto. }
    rewrite Hv' in Hall. destruct Hall as [id Hid]. eauto.
  - intros id k Hk. specialize (Hall k). by rewrite Hk in Hall.
Qed.

End stored.
End into.

(** ** A run

    The points of the rows are kept by their encodings; every point goes to the
    only shard of its group, and all of them are of one series and time. *)
#[local] Existing Instances demo_models demo_influxql demo_lang demo_tsdb demo_meta demo_monitoring.

Definition demo_bytes_writing : Writing := {|
  wPoint := list byte;
  pTime _ := 0;
  pHashID _ := 0;
  metaS := unit;
  mDatabase _ _ := None;
  mRetentionPolicy _ _ _ := Ok (Some (mkRetentionPolicyInfo "rp0" 1 0 time.Hour []));
  mCreateShardGroup _ _ t := mret (Some (mkShardGroupInfo 1 t (t + time.Hour) zeroTime [mkShardInfo 7 []]));
  sgShardFor g _ := of_option EOF (sgi_Shards g !! 0%nat);
  tsdbS := list (Z * list (list byte));
  tsdbCreateShard _ _ _ := mret tt;
  tsdbWriteToShard id pts := modify (λ t, t ++ [(id, pts)]);
  rangeOrder l := l;
  selectClosing _ := true;
|}.

#[local] Existing Instance demo_bytes_writing.

#[local] Instance demo_bytes_laws : WritingLaws (H := demo_bytes_writing).
Proof. by intros l. Qed.

Definition demo_bytes_fields (p : list byte) : list (unit * list byte) := [(tt, p)].

Definition demo_bytes_holds (t : tsdbS) (id : Z) (k : unit) : option (list byte) :=
  written (H := demo_bytes_writing) demo_bytes_fields k
    (filter (λ x, x.1 = id) (t : list (Z * list (list byte))) ≫= snd).

Lemma demo_bytes_write id points (t : tsdbS) id' k :
  demo_bytes_holds (tsdbWriteToShard id points t).2 id' k =
  if decide (id' = id)
  then match written (H := demo_bytes_writing) demo_bytes_fields k points with
       | Some v => Some v
       | None => demo_bytes_holds t id' k
       end
  else demo_bytes_holds t id' k.
Proof.
  cbn. unfold demo_bytes_holds. rewrite filter_app, bind_app, filter_cons, filter_nil. cbn [fst].
  destruct (decide (id = id')) as [<-|Hne].
  - rewrite decide_True by done. cbn. rewrite app_nil_r. apply (written_app (H := demo_bytes_writing)).
  - rewrite decide_False by done. cbn. by rewrite app_nil_r.
Qed.

Definition demo_asPoint (p : @Point demo_models) : @wPoint demo_bytes_writing := p.
#[local] Instance demo_into_writer : IntoWriter := into_writer demo_asPoint.

Definition demo_into_executor : executor :=
  mkExecutor demo_metadata0 ({[7 := [[x61]]; 8 := []]} : demo_shards)
    (mkPointsWriter (H := demo_bytes_writing) tt [] false None) [] [].

Lemma select_into_stores_points_witness :
  let e' := (executeSelectStatement demo_limits 5 demo_select_into demo_calm demo_into_executor).2 in
  ∃ pss, Forall2 (λ row ps, convertRowToPoints (intoName demo_target row) row = Ok ps) demo_rows pss ∧
    ∀ ps p, ps ∈ pss → p ∈ ps → ∃ v id, demo_bytes_holds (pw_tsdb (ex_points e')) id tt = Some v.
Proof.
  intros e'.
  destruct (select_into_stores_points demo_asPoint demo_bytes_fields demo_bytes_holds) with (lim := demo_limits)
    (now := 5) (stmt := demo_select_into) (ctx := demo_calm) (e := demo_into_executor) (e' := e')
    (stmt' := demo_select_into) (itrs := [[7; 8]]) (rows := demo_rows) (last := @None error) (m := demo_target)
    as (pss & Hps & Hst & _).
  - intros id points t t' k [= <-]. pose proof (demo_bytes_write id points t id k) as Hw.
    by rewrite decide_True in Hw.
  - intros id points t id' k Hk. rewrite demo_bytes_write. case_decide; [|done]. by destruct Hk as [?| ->].
  - done.
  - done.
  - exact demo_bytes_laws.
  - split; [reflexivity|right; vm_compute; congruence|reflexivity].
  - reflexivity.
  - reflexivity.
  - exists pss. split; [exact Hps|]. intros ps p Hin Hp.
    destruct (Hst ps p tt (demo_asPoint p) Hin Hp) as (v & id & _ & Hh); [left|eauto].
Defined.
