(* ===== verification/GoText.v ===== *)
(** * Text in Go's standard library

    [net.SplitHostPort] and [net.JoinHostPort], and what reading a configuration
    from the environment uses of [strings] and [strconv]. *)

From Stdlib Require Import ZArith Lia.
From Stdlib Require Import Strings.Ascii Strings.String.
From S2P Require Import Prelude GoLib.

Local Open Scope Z_scope.

Abbreviation chars := list_ascii_of_string.
Abbreviation text := string_of_list_ascii.

(** ** Searching *)

(** The parts before and after the first [c]. *)
Fixpoint splitFirst (c : ascii) (l : list ascii) : option (list ascii * list ascii) :=
  match l with
  | [] => None
  | x :: l' =>
      if decide (x = c) then Some ([], l')
      else '(pre, post) ← splitFirst c l'; Some (x :: pre, post)
  end.

(** The parts before and after the last [c]. *)
Fixpoint splitLast (c : ascii) (l : list ascii) : option (list ascii * list ascii) :=
  match l with
  | [] => None
  | x :: l' =>
      match splitLast c l' with
      | Some (pre, post) => Some (x :: pre, post)
      | None => if decide (x = c) then Some ([], l') else None
      end
  end.

Lemma splitFirst_spec c pre post : c ∉ pre → splitFirst c (pre ++ c :: post) = Some (pre, post).
Proof.
  induction pre as [|x pre IH]; intros Hc; cbn; [by rewrite decide_True|].
  apply not_elem_of_cons in Hc as [Hx Hc]. rewrite decide_False by done. by rewrite IH.
Qed.

Lemma splitFirst_inv c l pre post :
  splitFirst c l = Some (pre, post) → l = pre ++ c :: post ∧ (c ∉ pre).
Proof.
  revert pre. induction l as [|x l IH]; intros pre; cbn; [done|]. case_decide as Hx.
  - intros [= <- <-]. subst x. split; [done|by intros ?%elem_of_nil].
  - destruct (splitFirst c l) as [[pre' post']|]; cbn; [|done]. intros [= <- <-].
    destruct (IH pre' eq_refl) as [-> Hc]. split; [done|]. by apply not_elem_of_cons.
Qed.

Lemma splitLast_None c l : c ∉ l → splitLast c l = None.
Proof.
  induction l as [|x l IH]; intros Hc; cbn; [done|]. apply not_elem_of_cons in Hc as [Hx Hc].
  by rewrite IH, decide_False.
Qed.

Lemma splitLast_spec c pre post : c ∉ post → splitLast c (pre ++ c :: post) = Some (pre, post).
Proof.
  intros Hc. induction pre as [|x pre IH]; cbn; [by rewrite splitLast_None, decide_True|by rewrite IH].
Qed.

Lemma splitLast_inv c l pre post : splitLast c l = Some (pre, post) → l = pre ++ c :: post ∧ c ∉ post.
Proof.
  revert pre. induction l as [|x l IH]; intros pre; cbn; [done|].
  destruct (splitLast c l) as [[pre' post']|] eqn:E.
  - intros [= <- <-]. by destruct (IH pre' eq_refl) as [-> ?].
  - case_decide as Hx; [|done]. intros [= <- <-]. subst x. split; [done|].
    intros Hin. clear IH. induction l as [|y l IHl]; [by apply elem_of_nil in Hin|]. cbn in E.
    destruct (splitLast c l) as [[]|] eqn:E'; [done|]. case_decide as Hy; [done|].
    apply elem_of_cons in Hin as [->|Hin]; [done|]. by apply IHl.
Qed.

(** ** net *)
Module net.

Definition colon : ascii := ":".
Definition open_bracket : ascii := "[".
Definition close_bracket : ascii := "]".

Definition has (c : ascii) (l : list ascii) : bool := bool_decide (c ∈ l).

Definition missingPort : error := errorf "missing port in address".
Definition tooManyColons : error := errorf "too many colons in address".

(** The checks for brackets at other places. *)
Definition checkBrackets (fromJ fromK : list ascii) (r : string * string) : res (string * string) :=
  if has open_bracket fromJ then Err (errorf "unexpected '[' in address")
  else if has close_bracket fromK then Err (errorf "unexpected ']' in address")
  else Ok r.

(** [net.SplitHostPort(hostport)] *)
Definition SplitHostPort (hostport : string) : res (string * string) :=
  let l := chars hostport in
  match splitLast colon l with
  | None => Err missingPort
  | Some (before, port) =>
      if decide (head l = Some open_bracket) then
        match splitFirst close_bracket l with
        | None => Err (errorf "missing ']' in address")
        | Some (pre, []) => Err missingPort
        | Some (pre, c :: post) =>
            if decide (S (length pre) = length before)
            then checkBrackets (tail l) (c :: post) (text (tail pre), text port)
            else if decide (c = colon) then Err tooManyColons else Err missingPort
        end
      else if has colon before then Err tooManyColons
      else checkBrackets l l (text before, text port)
  end.

(** [net.JoinHostPort(host, port)] *)
Definition JoinHostPort (host port : string) : string :=
  if has colon (chars host) then ("[" +:+ host +:+ "]:" +:+ port)%string
  else (host +:+ ":" +:+ port)%string.

(** A part of an address without colons and brackets in the wrong place. *)
Definition plain (s : string) : Prop := (open_bracket ∉ chars s) ∧ (close_bracket ∉ chars s).

Lemma chars_app s t : chars (s +:+ t)%string = chars s ++ chars t.
Proof. induction s as [|c s IH]; [done|]. change (String c s +:+ t)%string with (String c (s +:+ t)%string). cbn. by rewrite IH. Qed.

Lemma text_chars s : text (chars s) = s.
Proof. apply string_of_list_ascii_of_string. Qed.

Lemma has_false c l : c ∉ l → has c l = false.
Proof. apply bool_decide_eq_false_2. Qed.

(** Splitting what was joined gives the parts back. *)
Lemma SplitHostPort_JoinHostPort host port :
  plain host → plain port → colon ∉ chars port → SplitHostPort (JoinHostPort host port) = Ok (host, port).
Proof.
  intros [Ho Hc] [Po Pc] Hp. unfold JoinHostPort, SplitHostPort. destruct (has colon (chars host)) eqn:Eh.
  - replace (chars ("[" +:+ host +:+ "]:" +:+ port)%string)
      with ((open_bracket :: chars host ++ [close_bracket]) ++ colon :: chars port)
      by (rewrite !chars_app; cbn; by rewrite <- app_assoc).
    rewrite splitLast_spec by done. cbn [app head]. rewrite decide_True by done.
    rewrite <- app_assoc. cbn [app].
    change (open_bracket :: chars host ++ close_bracket :: colon :: chars port)
      with ((open_bracket :: chars host) ++ close_bracket :: colon :: chars port).
    rewrite splitFirst_spec by (by apply not_elem_of_cons).
    rewrite decide_True by (cbn; rewrite length_app; cbn; lia).
    unfold checkBrackets. cbn [tail app].
    rewrite (has_false open_bracket), (has_false close_bracket), !text_chars; [done| |].
    + by apply not_elem_of_cons.
    + rewrite not_elem_of_app, !not_elem_of_cons. done.
  - apply bool_decide_eq_false in Eh.
    replace (chars (host +:+ ":" +:+ port)%string) with (chars host ++ colon :: chars port)
      by (by rewrite !chars_app).
    rewrite splitLast_spec by done. rewrite decide_False.
    + rewrite (has_false colon) by done. unfold checkBrackets.
      rewrite (has_false open_bracket), (has_false close_bracket), !text_chars; [done|..];
        rewrite not_elem_of_app, not_elem_of_cons; done.
    + destruct (chars host) as [|x l]; [done|]. cbn. intros [= ->]. set_solver.
Qed.

End net.

(** ** strings and strconv *)
Module parse.

(** [strings.ToUpper] on ASCII text. *)
Definition upper (c : ascii) : ascii :=
  let n := N_of_ascii c in
  if ((97 <=? n) && (n <=? 122))%N then ascii_of_N (n - 32) else c.
Definition ToUpper (s : string) : string := text (upper <$> chars s).

(** [strings.Replace(s, "-", "_", -1)] *)
Definition hyphens (s : string) : string :=
  text ((λ c, if decide (c = "-"%char) then "_"%char else c) <$> chars s).

(** [strconv.ParseBool] *)
Definition ParseBool (s : string) : option bool :=
  if decide (s ∈ ["1"; "t"; "T"; "TRUE"; "true"; "True"]%string) then Some true
  else if decide (s ∈ ["0"; "f"; "F"; "FALSE"; "false"; "False"]%string) then Some false
  else None.

Definition digit (c : ascii) : option Z :=
  let n := Z.of_N (N_of_ascii c) in
  if (48 <=? n) && (n <=? 57) then Some (n - 48)
  else if (97 <=? n) && (n <=? 122) then Some (n - 87)
  else if (65 <=? n) && (n <=? 90) then Some (n - 55)
  else None.

Fixpoint digits (base acc : Z) (l : list ascii) : option Z :=
  match l with
  | [] => Some acc
  | c :: l' =>
      d ← digit c;
      if d <? base then digits base (acc * base + d) l' else None
  end.

Definition number (base : Z) (l : list ascii) : option Z :=
  match l with [] => None | _ => digits base 0 l end.

(** Decimal, octal after 0, or hexadecimal after 0x. *)
Definition number0 (l : list ascii) : option Z :=
  match l with
  | "0"%char :: "x"%char :: l' | "0"%char :: "X"%char :: l' => number 16 l'
  | "0"%char :: (_ :: _) as l' => number 8 l'
  | _ => number 10 l
  end.

(** [strconv.ParseUint(s, 0, bits)]; the value must fit. *)
Definition ParseUint0 (s : string) (bits : Z) : option Z :=
  u ← number0 (chars s);
  if u <? 2 ^ bits then Some u else None.

(** [strconv.ParseInt(s, 0, bits)]: an optional sign first. *)
Definition ParseInt0 (s : string) (bits : Z) : option Z :=
  let '(neg, l) := match chars s with
                   | "-"%char :: l => (true, l)
                   | "+"%char :: l => (false, l)
                   | l => (false, l)
                   end in
  u ← number0 l;
  let z := if neg : bool then - u else u in
  if (- 2 ^ (bits - 1) <=? z) && (z <? 2 ^ (bits - 1)) then Some z else None.

End parse.
