(* ===== verification/GoUrl.v ===== *)
(** * Urls, headers and base64 in Go's standard library

    What meta/response_logger.go and meta/handler.go use of [net/url],
    [net/http] headers and [encoding/base64]: query strings with their escapes,
    the request URI, and the user name of an authorization header. *)

From Stdlib Require Import ZArith NArith Lia.
From Stdlib Require Import Strings.Ascii Strings.String.
From S2P Require Import Prelude GoLib GoText.

Lemma append_empty_r (s : string) : (s +:+ "")%string = s.
Proof. induction s as [|c s IH]; [done|]. change (String c s +:+ "")%string with (String c (s +:+ "")%string). by rewrite IH. Qed.

(** ** Escapes of a query component *)
Module url.

Local Open Scope N_scope.

Definition hexDigit (n : N) : ascii := ascii_of_N (if n <? 10 then 48 + n else 55 + n).

Definition unhex (c : ascii) : option N :=
  let n := N_of_ascii c in
  if (48 <=? n) && (n <=? 57) then Some (n - 48)
  else if (97 <=? n) && (n <=? 102) then Some (n - 87)
  else if (65 <=? n) && (n <=? 70) then Some (n - 55)
  else None.

(** Letters, digits and the marks that are never escaped. *)
Definition unreserved (c : ascii) : bool :=
  let n := N_of_ascii c in
  ((97 <=? n) && (n <=? 122)) || ((65 <=? n) && (n <=? 90)) || ((48 <=? n) && (n <=? 57))
  || bool_decide (c ∈ ["-"; "_"; "."; "~"]%char).

Definition escapeChar (c : ascii) : list ascii :=
  if decide (c = " "%char) then ["+"%char]
  else if unreserved c then [c]
  else ["%"%char; hexDigit (N_of_ascii c / 16); hexDigit (N_of_ascii c mod 16)].

Definition escape (l : list ascii) : list ascii := l ≫= escapeChar.

Fixpoint unescape (l : list ascii) : option (list ascii) :=
  match l with
  | [] => Some []
  | c :: l' =>
      if decide (c = "%"%char) then
        match l' with
        | a :: b :: l'' =>
            h ← unhex a; k ← unhex b; r ← unescape l'';
            Some (ascii_of_N (16 * h + k) :: r)
        | _ => None
        end
      else r ← unescape l'; Some ((if decide (c = "+"%char) then " "%char else c) :: r)
  end.

(** [url.QueryEscape(s)] and [url.QueryUnescape(s)] *)
Definition QueryEscape (s : string) : string := text (escape (chars s)).
Definition QueryUnescape (s : string) : option string := text <$> unescape (chars s).

(** ** Query strings *)

Abbreviation Values := (gmap string (list string)).

(** [v.Get(key)], [v.Set(key, value)] and [v.Add(key, value)] *)
Definition Get (key : string) (m : Values) : string := default ""%string (m !! key ≫= head).
Definition Set_ (key val : string) (m : Values) : Values := <[key := [val]]> m.
Definition Add (m : Values) (kv : string * string) : Values :=
  <[kv.1 := default [] (m !! kv.1) ++ [kv.2]]> m.

Definition separator (c : ascii) : bool := bool_decide (c = "&"%char ∨ c = ";"%char).

(** The parts between separators. *)
Fixpoint fields (l : list ascii) : list (list ascii) :=
  match l with
  | [] => [[]]
  | c :: l' =>
      if separator c then [] :: fields l'
      else match fields l' with
           | [] => [[c]]
           | f :: fs => (c :: f) :: fs
           end
  end.

(** The key and value of a part; nothing when it is empty or badly escaped. *)
Definition parseField (f : list ascii) : option (string * string) :=
  let '(k, v) := default (f, []) (splitFirst "="%char f) in
  match f with
  | [] => None
  | _ => k ← unescape k; v ← unescape v; Some (text k, text v)
  end.

(** [url.ParseQuery(query)], whose error [URL.Query] drops. *)
Definition ParseQuery (query : string) : Values :=
  foldl Add ∅ (omap parseField (fields (chars query))).

Definition key_le (x y : string * list string) : Prop := String.le x.1 y.1.
#[export] Instance key_le_dec : RelDecision key_le.
Proof. intros x y. apply String.le_dec. Defined.

(** Keys in order, the values of a key in theirs. *)
Definition pairs (m : list (string * list string)) : list (string * string) :=
  m ≫= λ kvs, pair kvs.1 <$> kvs.2.

Definition printField (kv : string * string) : list ascii :=
  escape (chars kv.1) ++ "="%char :: escape (chars kv.2).

Fixpoint join (sep : ascii) (l : list (list ascii)) : list ascii :=
  match l with
  | [] => []
  | [f] => f
  | f :: l' => f ++ sep :: join sep l'
  end.

(** [v.Encode()] *)
Definition Encode (m : Values) : string :=
  text (join "&"%char (printField <$> pairs (merge_sort key_le (map_to_list m)))).

(** ** What is escaped is read back *)

Lemma all_ascii (P : ascii → Prop) `{!∀ c, Decision (P c)} :
  forallb (λ n, bool_decide (P (ascii_of_nat n))) (seq 0 256) = true → ∀ c, P c.
Proof.
  intros Hall c. rewrite <- (ascii_nat_embedding c). rewrite forallb_forall in Hall.
  eapply bool_decide_eq_true, Hall. apply in_seq. pose proof (nat_ascii_bounded c). lia.
Qed.

(** Both hexadecimal digits of a character are read back. *)
Lemma unhex_hexDigit c :
  unhex (hexDigit (N_of_ascii c / 16)) = Some (N_of_ascii c / 16)
  ∧ unhex (hexDigit (N_of_ascii c mod 16)) = Some (N_of_ascii c mod 16).
Proof. revert c. apply (all_ascii _). vm_compute. reflexivity. Qed.

(** One character, with anything after it. *)
Lemma unescape_escapeChar c l : unescape (escapeChar c ++ l) = (c ::.) <$> unescape l.
Proof.
  unfold escapeChar. destruct (decide (c = " "%char)) as [->|Hs].
  { cbn. by destruct (unescape l). }
  destruct (unreserved c) eqn:Hu.
  - assert (c ≠ "%"%char ∧ c ≠ "+"%char) as [H1 H2] by (split; intros ->; by vm_compute in Hu).
    cbn. rewrite !decide_False by done. by destruct (unescape l).
  - cbn. destruct (unhex_hexDigit c) as [-> ->].
    cbn. rewrite <- N.div_mod, ascii_N_embedding by done. by destruct (unescape l).
Qed.

Lemma unescape_escape l : unescape (escape l) = Some l.
Proof. induction l as [|c l IH]; [done|]. unfold escape in *. cbn. by rewrite unescape_escapeChar, IH. Qed.

Lemma QueryUnescape_QueryEscape s : QueryUnescape (QueryEscape s) = Some s.
Proof.
  unfold QueryUnescape, QueryEscape. rewrite list_ascii_of_string_of_list_ascii, unescape_escape.
  cbn. by rewrite string_of_list_ascii_of_string.
Qed.

(** An escaped text has none of the characters that structure a query. *)
Lemma escapeChar_plain c :
  ("&"%char ∉ escapeChar c) ∧ (";"%char ∉ escapeChar c) ∧ ("="%char ∉ escapeChar c).
Proof. revert c. apply (all_ascii _). vm_compute. reflexivity. Qed.

Lemma escape_plain c l :
  c = "&"%char ∨ c = ";"%char ∨ c = "="%char → c ∉ escape l.
Proof.
  intros Hc (x & Hx & _)%list_elem_of_bind. pose proof (escapeChar_plain x). naive_solver.
Qed.

Lemma printField_no_separator kv c : c ∈ printField kv → separator c = false.
Proof.
  intros Hin. apply bool_decide_eq_false_2. unfold printField in Hin.
  apply elem_of_app in Hin as [Hin|[->|Hin]%elem_of_cons]; [| |].
  - intros [->| ->]; eapply escape_plain; [|exact Hin| |exact Hin]; tauto.
  - intros [|]; discriminate.
  - intros [->| ->]; eapply escape_plain; [|exact Hin| |exact Hin]; tauto.
Qed.

Lemma parseField_printField kv : parseField (printField kv) = Some kv.
Proof.
  unfold parseField, printField. rewrite splitFirst_spec by (apply escape_plain; tauto). cbn.
  destruct (escape (chars kv.1) ++ _) eqn:E; [by apply app_nil in E as [_ ?]|].
  rewrite !unescape_escape. cbn. rewrite !string_of_list_ascii_of_string. by destruct kv.
Qed.

(** Splitting at the separators what was joined with one. *)
Lemma fields_plain f : (∀ c, c ∈ f → separator c = false) → fields f = [f].
Proof.
  induction f as [|c f IH]; intros Hf; [done|]. cbn. rewrite Hf by (by left).
  rewrite IH; [done|]. intros. apply Hf. by right.
Qed.

Lemma fields_cons f l : (∀ c, c ∈ f → separator c = false) → fields (f ++ "&"%char :: l) = f :: fields l.
Proof.
  induction f as [|c f IH]; intros Hf; [done|]. cbn. rewrite Hf by (by left).
  rewrite IH; [done|]. intros. apply Hf. by right.
Qed.

Lemma fields_join fs :
  fs ≠ [] → (∀ f c, f ∈ fs → c ∈ f → separator c = false) → fields (join "&"%char fs) = fs.
Proof.
  induction fs as [|f fs IH]; intros Hn Hf; [done|]. destruct fs as [|g fs].
  - apply fields_plain. intros. by eapply Hf; [left|].
  - change (join "&"%char (f :: g :: fs)) with (f ++ "&"%char :: join "&"%char (g :: fs)).
    rewrite fields_cons by (intros; by eapply Hf; [left|]). rewrite IH; [done..|].
    intros. eapply Hf; [by right|done].
Qed.

Lemma omap_parseField_print (l : list (string * string)) : omap parseField (printField <$> l) = l.
Proof. induction l as [|kv l IH]; [done|]. cbn. by rewrite parseField_printField, IH. Qed.

Lemma ParseQuery_print (l : list (string * string)) :
  ParseQuery (text (join "&"%char (printField <$> l))) = foldl Add ∅ l.
Proof.
  unfold ParseQuery. rewrite list_ascii_of_string_of_list_ascii. destruct l as [|kv l]; [done|].
  rewrite fields_join, omap_parseField_print; [done..|].
  intros f c (kv' & -> & _)%list_elem_of_fmap. apply printField_no_separator.
Qed.

(** The values of one key, one after the other. *)
Lemma foldl_Add_key k vs : ∀ m, foldl Add m (pair k <$> vs) =
  match vs with [] => m | _ => <[k := default [] (m !! k) ++ vs]> m end.
Proof.
  induction vs as [|v vs IH]; intros m; [done|]. cbn. rewrite IH. unfold Add. cbn.
  destruct vs as [|w vs]; [done|]. rewrite lookup_insert_eq, insert_insert_eq. cbn.
  by rewrite <- app_assoc.
Qed.

(** The keys that have a value. *)
Definition present (m : Values) : Values := filter (λ kv, kv.2 ≠ []) m.

Lemma foldl_Add_pairs l : NoDup l.*1 → ∀ m, (∀ k, k ∈ l.*1 → m !! k = None) →
  foldl Add m (pairs l) = filter (λ kv, kv.2 ≠ []) (list_to_map l : Values) ∪ m.
Proof.
  induction l as [|[k vs] l IH]; intros Hnd m Hm.
  { cbn. by rewrite map_filter_empty, (left_id_L ∅ (∪)). }
  apply NoDup_cons in Hnd as [Hk Hnd]. unfold pairs. cbn. rewrite foldl_app, foldl_Add_key.
  assert (Hl : (list_to_map l : Values) !! k = None) by (by apply not_elem_of_list_to_map_1).
  fold (pairs l). rewrite (Hm k) by (by left). cbn. destruct vs as [|v vs].
  - rewrite map_filter_insert_False, delete_id by naive_solver. apply IH; [done|].
    intros. apply Hm. by right.
  - rewrite map_filter_insert_True by done. rewrite IH; [|done|].
    + rewrite <- insert_union_l, insert_union_r; [done|].
      apply map_lookup_filter_None_2. by left.
    + intros k' Hk'. rewrite lookup_insert_ne by (intros ->; done). apply Hm. by right.
Qed.

(** Parsing an encoded query gives the values back. *)
Lemma ParseQuery_Encode m : ParseQuery (Encode m) = present m.
Proof.
  unfold Encode. rewrite ParseQuery_print.
  assert (Hp : merge_sort key_le (map_to_list m) ≡ₚ map_to_list m) by apply merge_sort_Permutation.
  assert (Hnd : NoDup (merge_sort key_le (map_to_list m)).*1) by (rewrite Hp; apply NoDup_fst_map_to_list).
  rewrite foldl_Add_pairs; [|done|by intros; apply lookup_empty].
  rewrite (right_id_L ∅ (∪)). unfold present. f_equal.
  erewrite list_to_map_proper; [apply list_to_map_to_list|done|done].
Qed.

(** ** Request URI *)

(** A parsed url; [u_path] is the escaped path. *)
Record URL : Type := mkURL {
  u_scheme : string;
  u_opaque : string;
  u_user : option string;   (* the user name of the user information *)
  u_path : string;
  u_forceQuery : bool;
  u_rawQuery : string;
}.

(** [u.RequestURI()] *)
Definition RequestURI (u : URL) : string :=
  let result :=
    if decide (u_opaque u = ""%string) then (if decide (u_path u = ""%string) then "/"%string else u_path u)
    else if String.prefix "//" (u_opaque u) then (u_scheme u +:+ ":" +:+ u_opaque u)%string
    else u_opaque u in
  if u_forceQuery u || negb (bool_decide (u_rawQuery u = ""%string))
  then (result +:+ "?" +:+ u_rawQuery u)%string else result.

Definition set_rawQuery (q : string) (u : URL) : URL :=
  mkURL (u_scheme u) (u_opaque u) (u_user u) (u_path u) (u_forceQuery u) q.

End url.

(** ** encoding/base64, StdEncoding *)
Module base64.

Local Open Scope N_scope.

Definition value (c : ascii) : option N :=
  let n := N_of_ascii c in
  if (65 <=? n) && (n <=? 90) then Some (n - 65)
  else if (97 <=? n) && (n <=? 122) then Some (n - 71)
  else if (48 <=? n) && (n <=? 57) then Some (n + 4)
  else if decide (c = "+"%char) then Some 62
  else if decide (c = "/"%char) then Some 63
  else None.

Definition byteAt (shift n : N) : ascii := ascii_of_N (N.shiftr n shift mod 256).

(** Groups of four characters; the last one may be padded. *)
Fixpoint quads (l : list ascii) : option (list ascii) :=
  match l with
  | [] => Some []
  | [a; b; "="; "="]%char =>
      x ← value a; y ← value b;
      Some [byteAt 16 (x * 2 ^ 18 + y * 2 ^ 12)]
  | [a; b; c; "="]%char =>
      x ← value a; y ← value b; z ← value c;
      let n := x * 2 ^ 18 + y * 2 ^ 12 + z * 2 ^ 6 in
      Some [byteAt 16 n; byteAt 8 n]
  | a :: b :: c :: d :: l' =>
      x ← value a; y ← value b; z ← value c; w ← value d;
      let n := x * 2 ^ 18 + y * 2 ^ 12 + z * 2 ^ 6 + w in
      r ← quads l';
      Some (byteAt 16 n :: byteAt 8 n :: byteAt 0 n :: r)
  | _ => None
  end.

(** [base64.StdEncoding.DecodeString(s)]: line ends are skipped. *)
Definition DecodeString (s : string) : option (list ascii) :=
  quads (filter (λ c, c ≠ "010"%char ∧ c ≠ "013"%char) (chars s)).

Example DecodeString_user : text <$> DecodeString "dXNlcjpwYXNz" = Some "user:pass"%string.
Proof. vm_compute. reflexivity. Qed.
Example DecodeString_padded : text <$> DecodeString "YTpi" = Some "a:b"%string
  ∧ text <$> DecodeString "YTo=" = Some "a:"%string ∧ text <$> DecodeString "Og==" = Some ":"%string
  ∧ DecodeString "YTo" = None ∧ DecodeString "Y=o=" = None.
Proof. vm_compute. done. Qed.

End base64.

(** ** Headers *)
Module header.

(** A header by canonical names; [Get], [Set] and [Add] of [http.Header] are those
    of the query values. *)
Abbreviation Header := url.Values.

End header.
