(* ===== verification/ResponseLogger.v ===== *)
(** * Access logs and middleware of a meta server

    meta/response_logger.go: the writer that records status and size, the log
    line, and the redaction of passwords; and from meta/handler.go the wrappers
    that [WrapHandler] puts around a handler: compression, version and request
    headers, logging and recovery. *)

From Stdlib Require Import ZArith Lia.
From Stdlib Require Import Strings.Byte Strings.Ascii Strings.String.
From S2P Require Import Prelude GoLib GoText GoTime GoUrl.

Local Open Scope Z_scope.

(** ** net/http *)

Definition statusOK : Z := 200.

(** [http.ResponseWriter].  The header is a map that is changed in place; a write
    gives a count and an error; [hw_Flush] is [None] for a writer that is no
    [http.Flusher]. *)
Class HttpWriter (W : Type) : Type := {
  hw_Header : W → url.Values;
  hw_setHeader : url.Values → W → W;
  hw_WriteHeader : Z → W → W;
  hw_Write : list byte → W → Z * option error * W;
  hw_Flush : W → option W;
}.

(** The writer that the server passes to a handler: the header lines are fixed
    when the status line is sent, and only the first status counts. *)
Record response : Type := mkResponse {
  rs_header : url.Values;
  rs_sent : option (Z * url.Values);
  rs_body : list byte;
}.

Definition newResponse : response := mkResponse ∅ None [].

Definition sendHeader (s : Z) (r : response) : response :=
  mkResponse (rs_header r) (Some (default (s, rs_header r) (rs_sent r))) (rs_body r).

#[export] Instance response_writer : HttpWriter response := {
  hw_Header := rs_header;
  hw_setHeader h r := mkResponse h (rs_sent r) (rs_body r);
  hw_WriteHeader := sendHeader;
  hw_Write b r :=
    (len b, None, let r := sendHeader statusOK r in mkResponse (rs_header r) (rs_sent r) (rs_body r ++ b));
  hw_Flush r := Some (sendHeader statusOK r);
}.

(** The fields of [http.Request] that are read here. *)
Record HttpRequest : Type := mkHttpRequest {
  hr_Method : string;
  hr_URL : url.URL;
  hr_Proto : string;
  hr_RemoteAddr : string;
  hr_Header : url.Values;
}.

Definition set_URL (u : url.URL) (r : HttpRequest) : HttpRequest :=
  mkHttpRequest (hr_Method r) u (hr_Proto r) (hr_RemoteAddr r) (hr_Header r).
Definition set_ReqHeader (h : url.Values) (r : HttpRequest) : HttpRequest :=
  mkHttpRequest (hr_Method r) (hr_URL r) (hr_Proto r) (hr_RemoteAddr r) h.

(** [r.BasicAuth()] *)
Definition BasicAuth (r : HttpRequest) : option (string * string) :=
  let auth := url.Get "Authorization" (hr_Header r) in
  if String.prefix "Basic " auth then
    cs ← base64.DecodeString (text (drop 6 (chars auth)));
    '(user, pass) ← splitFirst ":"%char cs;
    Some (text user, text pass)
  else None.

(** ** response_logger.go *)

(** [responseLogger] around a writer *)
Record responseLogger (W : Type) : Type := mkLogger {
  l_w : W;
  l_status : Z;
  l_size : Z;
}.
Arguments mkLogger {_} _ _ _.
Arguments l_w {_} _.
Arguments l_status {_} _.
Arguments l_size {_} _.

Definition newLogger {W} (w : W) : responseLogger W := mkLogger w 0 0.

Section logger.
  Context `{HttpWriter W}.

(** [Write(b)] *)
Definition logger_Write (b : list byte) (l : responseLogger W) : Z * option error * responseLogger W :=
  let status := if l_status l =? 0 then statusOK else l_status l in
  let '(size, err, w) := hw_Write b (l_w l) in
  (size, err, mkLogger w status (i64 (l_size l + size))).

(** [WriteHeader(s)] *)
Definition logger_WriteHeader (s : Z) (l : responseLogger W) : responseLogger W :=
  mkLogger (hw_WriteHeader s (l_w l)) s (l_size l).

(** [Status()], which also records the default, and [Size()] *)
Definition logger_Status (l : responseLogger W) : Z * responseLogger W :=
  let status := if l_status l =? 0 then statusOK else l_status l in
  (status, mkLogger (l_w l) status (l_size l)).
Definition logger_Size (l : responseLogger W) : Z := l_size l.

(** [Header()] and [Flush()] pass to the writer. *)
#[export] Instance logger_writer : HttpWriter (responseLogger W) := {
  hw_Header l := hw_Header (l_w l);
  hw_setHeader h l := mkLogger (hw_setHeader h (l_w l)) (l_status l) (l_size l);
  hw_WriteHeader := logger_WriteHeader;
  hw_Write := logger_Write;
  hw_Flush l := (λ w, mkLogger w (l_status l) (l_size l)) <$> hw_Flush (l_w l);
}.

End logger.

Definition redacted : string := "[REDACTED]".

(** [redactPassword(r)] *)
Definition redactQuery (raw : string) : string :=
  let q := url.ParseQuery raw in
  if decide (url.Get "p" q = ""%string) then raw
  else url.Encode (url.Set_ "p" redacted q).

Definition redactPassword (r : HttpRequest) : HttpRequest :=
  set_URL (url.set_rawQuery (redactQuery (url.u_rawQuery (hr_URL r))) (hr_URL r)) r.

(** [detect(values...)] *)
Definition detect (vs : list string) : string :=
  default ""%string (snd <$> list_find (λ v, v ≠ ""%string) vs).

(** [parseUsername(r)] *)
Definition parseUsername (r : HttpRequest) : string :=
  let username := default ""%string (url.u_user (hr_URL r)) in
  let u := url.Get "u" (url.ParseQuery (url.u_rawQuery (hr_URL r))) in
  let username := if decide (u = ""%string) then username else u in
  if decide (username = ""%string) then
    match BasicAuth r with Some (u, _) => u | None => username end
  else username.

(** [strings.Join(fields, " ")] *)
Fixpoint joinSpace (l : list string) : string :=
  match l with
  | [] => ""
  | [s] => s
  | s :: l' => s +:+ " " +:+ joinSpace l'
  end%string.

Definition monthName (m : Z) : string :=
  default ""%string (["Jan"; "Feb"; "Mar"; "Apr"; "May"; "Jun"; "Jul"; "Aug"; "Sep"; "Oct"; "Nov"; "Dec"]%string
    !! Z.to_nat (m - 1)).

(** [start.Format("02/Jan/2006:15:04:05 -0700")] in a zone [offset] seconds east of
    Greenwich *)
Definition logTime (offset t : Z) : string :=
  let sec := t / time.Second + offset in
  let '(y, m, d) := timefmt.civil (sec / 86400) in
  let s := sec mod 86400 in
  let zone := Z.abs offset / 60 in
  let sign := if offset <? 0 then "-"%string else "+"%string in
  let clock := (timefmt.pad 2 (s / 3600), timefmt.pad 2 (s / 60 mod 60), timefmt.pad 2 (s mod 60)) in
  (timefmt.pad 2 d +:+ "/" +:+ monthName m +:+ "/" +:+ timefmt.pad 4 y +:+ ":" +:+
   clock.1.1 +:+ ":" +:+ clock.1.2 +:+ ":" +:+ clock.2 +:+
   " " +:+ sign +:+ timefmt.pad 2 (zone / 60) +:+ timefmt.pad 2 (zone mod 60))%string.

(** When a request began, how long ago that was, and the local zone. *)
Record clock : Type := mkClock { ck_start : Z; ck_since : Z; ck_zone : Z }.

(** [buildLogLine(l, r, start)] for the status and size of the logger: the line,
    and the request, whose password is redacted on the way. *)
Definition buildLogLine (status size : Z) (ck : clock) (r : HttpRequest) : string * HttpRequest :=
  let r := redactPassword r in
  let username := parseUsername r in
  let host := match net.SplitHostPort (hr_RemoteAddr r) with Ok (host, _) => host | _ => hr_RemoteAddr r end in
  (joinSpace
     [host; "-"; detect [username; "-"]; ("[" +:+ logTime (ck_zone ck) (ck_start ck) +:+ "]"); hr_Method r;
      url.RequestURI (hr_URL r); hr_Proto r; detect [strconv.FormatInt status; "-"]; strconv.FormatInt size;
      detect [url.Get "Referer" (hr_Header r); "-"]; detect [url.Get "User-Agent" (hr_Header r); "-"];
      url.Get "Request-Id" (hr_Header r); timefmt.Duration_String (ck_since ck)]%string, r).

(** [strings.Replace(s, old, new, -1)] for an [old] that is not empty: occurrences
    from the left, not overlapping; [skip] characters belong to the one before. *)
Fixpoint replaceAll (old new : list ascii) (skip : nat) (l : list ascii) : list ascii :=
  match l with
  | [] => []
  | c :: l' =>
      match skip with
      | S skip' => replaceAll old new skip' l'
      | O => if decide (take (length old) l = old) then new ++ replaceAll old new (length old - 1) l'
             else c :: replaceAll old new 0 l'
      end
  end.

(** [sanitize(r, s)]; replacing the empty text puts the mark around every
    character. *)
Definition sanitizeQuery (s raw : string) : string :=
  match chars s with
  | [] => text (chars redacted ++ (chars raw ≫= λ c, c :: chars redacted))
  | old => text (replaceAll old (chars redacted) 0 (chars raw))
  end.
Definition sanitize (r : HttpRequest) (s : string) : HttpRequest :=
  set_URL (url.set_rawQuery (sanitizeQuery s (url.u_rawQuery (hr_URL r))) (hr_URL r)) r.

(** ** Middleware of handler.go *)

(** [compress/gzip]: what a write, a flush and the end of a stream send to the
    writer below. *)
Class Gzip : Type := {
  gz_t : Type;
  gz_new : gz_t;
  gz_Write : list byte → gz_t → list byte * gz_t;
  gz_Flush : gz_t → list byte * gz_t;
  gz_Close : gz_t → list byte;
}.

(** Writing what the compressor sends, when it sends something. *)
Definition passOn `{HttpWriter W} (out : list byte) (w : W) : option error * W :=
  match out with
  | [] => (None, w)
  | _ => let '(_, err, w) := hw_Write out w in (err, w)
  end.

(** [gzipResponseWriter]: headers go to the writer, the body to the compressor. *)
Record gzipResponseWriter `{Gzip} (W : Type) : Type := mkGzipWriter {
  gzw_Writer : gz_t;
  gzw_ResponseWriter : W;
}.
Arguments mkGzipWriter {_ _} _ _.
Arguments gzw_Writer {_ _} _.
Arguments gzw_ResponseWriter {_ _} _.

#[export] Instance gzip_writer `{Gzip, HttpWriter W} : HttpWriter (gzipResponseWriter W) := {
  hw_Header g := hw_Header (gzw_ResponseWriter g);
  hw_setHeader h g := mkGzipWriter (gzw_Writer g) (hw_setHeader h (gzw_ResponseWriter g));
  hw_WriteHeader s g := mkGzipWriter (gzw_Writer g) (hw_WriteHeader s (gzw_ResponseWriter g));
  hw_Write b g :=
    let '(out, gz) := gz_Write b (gzw_Writer g) in
    let '(err, w) := passOn out (gzw_ResponseWriter g) in
    (match err with None => len b | Some _ => 0 end, err, mkGzipWriter gz w);
  hw_Flush g :=
    let '(out, gz) := gz_Flush (gzw_Writer g) in
    Some (mkGzipWriter gz (passOn out (gzw_ResponseWriter g)).2);
}.

Section middleware.
  Context `{Gzip} {S : Type}.

(** What a handler sees besides its writer: the request, the access log and the
    state of the server. *)
Record conn : Type := mkConn { cn_req : HttpRequest; cn_log : list string; cn_state : S }.

Definition set_req (r : HttpRequest) (c : conn) : conn := mkConn r (cn_log c) (cn_state c).
Definition Println (line : string) (c : conn) : conn := mkConn (cn_req c) (cn_log c ++ [line]) (cn_state c).

(** An [http.Handler] runs with any writer; [None] is the nil interface. *)
Definition HandlerFunc : Type := ∀ W, HttpWriter W → GoM (W * conn) unit.
Definition Handler : Type := option HandlerFunc.

Definition ServeHTTP (h : Handler) {W} {HW : HttpWriter W} : GoM (W * conn) unit :=
  match h with Some f => f W HW | None => panic end.

Definition AcceptEncoding (c : conn) : string := url.Get "Accept-Encoding" (hr_Header (cn_req c)).

(** [strings.Contains(s, sub)] *)
Definition Contains (s sub : string) : bool := if String.index 0 sub s is Some _ then true else false.

(** [gzipFilter(inner)]: the compressor is closed also after a panic. *)
Definition gzipFilter (inner : Handler) : Handler := Some (λ W _ '(w, c),
  if negb (Contains (AcceptEncoding c) "gzip") then ServeHTTP inner (w, c)
  else
    let w := hw_setHeader (url.Set_ "Content-Encoding" "gzip" (hw_Header w)) w in
    let '(r, (g, c)) := ServeHTTP inner (mkGzipWriter gz_new w, c) in
    (r, ((passOn (gz_Close (gzw_Writer g)) (gzw_ResponseWriter g)).2, c))).

(** [versionHeader(inner, h)] *)
Definition versionHeader (version : string) (inner : Handler) : Handler := Some (λ W _ '(w, c),
  ServeHTTP inner (hw_setHeader (url.Add (hw_Header w) ("X-InfluxDB-Version", version)%string) w, c)).

(** [requestID(inner)], given the identifier *)
Definition requestID (uid : string) (inner : Handler) : Handler := Some (λ W _ '(w, c),
  let c := set_req (set_ReqHeader (url.Set_ "Request-Id" uid (hr_Header (cn_req c))) (cn_req c)) c in
  ServeHTTP inner
    (hw_setHeader (url.Set_ "Request-Id" (url.Get "Request-Id" (hr_Header (cn_req c))) (hw_Header w)) w, c)).

(** The line of a logger for the request, which redacts it. *)
Definition logLine {W} (l : responseLogger W) (ck : clock) (suffix : string) (c : conn) : conn :=
  let '(line, r) := buildLogLine (logger_Status l).1 (logger_Size l) ck (cn_req c) in
  Println (line +:+ suffix)%string (set_req r c).

(** [logging(inner, name, weblog)]: no line after a panic. *)
Definition logging (ck : clock) (inner : Handler) : Handler := Some (λ W _ '(w, c),
  match ServeHTTP inner (newLogger w, c) with
  | (Ok _, (l, c)) => (Ok tt, (l_w l, logLine l ck "" c))
  | (r, (l, c)) => (r, (l_w l, c))
  end).

(** [recovery(inner, name, weblog)]; [panicText] is the text of the panic and of the
    stack. *)
Definition recovery (ck : clock) (panicText : string) (inner : Handler) : Handler := Some (λ W _ '(w, c),
  match ServeHTTP inner (newLogger w, c) with
  | (Panics, (l, c)) => (Ok tt, (l_w l, logLine l ck panicText c))
  | (r, (l, c)) => (r, (l_w l, c))
  end).

(** The chain of [WrapHandler(name, hf)] around an inner handler. *)
Definition wrapChain (loggingEnabled : bool) (version uid panicText : string) (ck : clock)
    (handler : Handler) : Handler :=
  let handler := gzipFilter handler in
  let handler := versionHeader version handler in
  let handler := requestID uid handler in
  let handler := if loggingEnabled then logging ck handler else handler in
  recovery ck panicText handler.

End middleware.
