(* ===== verification/LoggerTheorems.v ===== *)
(** * What the middleware and the access log guarantee

    A handler is exercised through the calls it makes on its writer ([wop]); the
    chain of [WrapHandler] then sends what the handler sent, compressed if the
    client asked for it, and logs one line with its status and size.  The log line
    does not depend on the password of the query. *)

From Stdlib Require Import ZArith Lia.
From Stdlib Require Import Strings.Byte Strings.Ascii Strings.String.
From S2P Require Import Prelude GoLib GoText GoTime GoUrl ResponseLogger.

Local Open Scope Z_scope.

(** ** Calls on a writer *)

Inductive wop : Type :=
  | OpHeader (k v : string)
  | OpWriteHeader (s : Z)
  | OpWrite (b : list byte)
  | OpFlush.

Definition runOp `{HttpWriter W} (o : wop) : GoM W unit := λ w,
  match o with
  | OpHeader k v => (Ok tt, hw_setHeader (url.Set_ k v (hw_Header w)) w)
  | OpWriteHeader s => (Ok tt, hw_WriteHeader s w)
  | OpWrite b => (Ok tt, (hw_Write b w).2)
  | OpFlush => match hw_Flush w with Some w' => (Ok tt, w') | None => (Panics, w) end
  end.

Definition runOps `{HttpWriter W} (ops : list wop) : GoM W unit := for_each ops runOp.

(** The handler that makes these calls. *)
Definition opsHandler {S} (ops : list wop) : @HandlerFunc S := λ W _ '(w, c),
  let '(r, w') := runOps ops w in (r, (w', c)).

(** What the calls amount to: the bytes, and the status that is sent. *)
Definition bodyOf (ops : list wop) : list byte :=
  ops ≫= λ o, match o with OpWrite b => b | _ => [] end.

Arguments bodyOf : simpl never.

Fixpoint statusOf (ops : list wop) : Z :=
  match ops with
  | [] => statusOK
  | OpHeader _ _ :: ops' => statusOf ops'
  | OpWriteHeader s :: _ => s
  | _ :: _ => statusOK
  end.

(** The status that was set last. *)
Fixpoint lastStatus (d : Z) (ops : list wop) : Z :=
  match ops with
  | [] => d
  | OpWriteHeader s :: ops' => lastStatus s ops'
  | _ :: ops' => lastStatus d ops'
  end.

(** The header when the response starts. *)
Fixpoint headersOf (h : url.Values) (ops : list wop) : url.Values :=
  match ops with
  | OpHeader k v :: ops' => headersOf (url.Set_ k v h) ops'
  | _ => h
  end.

(** The headers of the middleware are left alone, and a status is a positive number. *)
Definition reserved : list string := ["Content-Encoding"; "X-InfluxDB-Version"; "Request-Id"]%string.

Definition allowed (o : wop) : Prop :=
  match o with OpHeader k _ => k ∉ reserved | OpWriteHeader s => 0 < s | _ => True end.

Definition quiet (o : wop) : Prop :=
  match o with OpHeader _ _ | OpWriteHeader _ => False | _ => True end.

(** A handler that starts its response by writing sets neither a status nor a header
    after that.  One that starts with a status may do anything. *)
Fixpoint announced (ops : list wop) : Prop :=
  match ops with
  | [] | OpWriteHeader _ :: _ => True
  | OpHeader _ _ :: ops' => announced ops'
  | _ :: ops' => Forall quiet ops'
  end.

Section runs.
  Context `{HttpWriter W}.

Lemma runOps_nil w : runOps [] w = (Ok tt, w).
Proof. done. Qed.

Lemma runOps_cons o ops w :
  runOps (o :: ops) w = match runOp o w with (Ok _, w') => runOps ops w' | x => x end.
Proof. unfold runOps. cbn. gom_simpl. by destruct (runOp o w) as [[]]. Qed.

Lemma runOps_app ops1 ops2 w :
  runOps (ops1 ++ ops2) w = match runOps ops1 w with (Ok _, w') => runOps ops2 w' | x => x end.
Proof.
  revert w. induction ops1 as [|o ops1 IH]; intros w; [done|]. cbn [app]. rewrite !runOps_cons.
  destruct (runOp o w) as [[]]; auto.
Qed.

End runs.

(** ** The logger is transparent *)

Lemma runOps_logger `{HttpWriter W} ops : ∀ l : responseLogger W,
  runOps ops (l_w l) = ((runOps ops l).1, l_w (runOps ops l).2).
Proof.
  induction ops as [|o ops IH]; intros l; [done|]. rewrite !runOps_cons.
  destruct o as [k v|s|b|]; cbn.
  - apply (IH (mkLogger _ _ _)).
  - apply (IH (mkLogger _ _ _)).
  - unfold logger_Write. destruct (hw_Write b (l_w l)) as [[n e] w]. apply (IH (mkLogger _ _ _)).
  - destruct (hw_Flush (l_w l)) as [w|]; cbn; [|done]. apply (IH (mkLogger _ _ _)).
Qed.

(** Writers that take everything and can be flushed. *)
Class FullWriter W `{HttpWriter W} : Prop := {
  write_full b w : (hw_Write b w).1 = (len b, None);
  flush_full w : is_Some (hw_Flush w);
}.

#[export] Instance response_full : FullWriter response.
Proof. split; [done|]. intros. by eexists. Qed.

#[export] Instance logger_full `{FullWriter W} : FullWriter (responseLogger W).
Proof.
  split.
  - intros b l. cbn. unfold logger_Write. pose proof (write_full b (l_w l)) as E.
    destruct (hw_Write b (l_w l)) as [[n e] w]. cbn in E |- *. by injection E as -> ->.
  - intros l. cbn. destruct (flush_full (l_w l)) as [w ->]. by eexists.
Qed.

Lemma i64_add_l a b : i64 (i64 a + b) = i64 (a + b).
Proof.
  unfold i64. f_equal. replace ((a + 2 ^ 63) mod 2 ^ 64 - 2 ^ 63 + b + 2 ^ 63)
    with ((a + 2 ^ 63) mod 2 ^ 64 + b) by lia.
  rewrite Zplus_mod_idemp_l. f_equal. lia.
Qed.

Lemma i64_idemp a : i64 (i64 a) = i64 a.
Proof. pose proof (i64_add_l a 0) as E. by rewrite !Z.add_0_r in E. Qed.

(** The status field after the calls. *)
Fixpoint statusField (st : Z) (ops : list wop) : Z :=
  match ops with
  | [] => st
  | OpWriteHeader s :: ops' => statusField s ops'
  | OpWrite _ :: ops' => statusField (if st =? 0 then statusOK else st) ops'
  | _ :: ops' => statusField st ops'
  end.

Section full.
  Context `{FullWriter W}.

Lemma runOps_full ops w : (runOps ops w).1 = Ok tt.
Proof.
  revert w. induction ops as [|o ops IH]; intros w; [done|]. rewrite runOps_cons.
  destruct o; cbn; auto. destruct (flush_full w) as [w' ->]. auto.
Qed.

(** What the logger records. *)
Lemma logger_records ops : ∀ l : responseLogger W, l_size l = i64 (l_size l) →
  let l' := (runOps ops l).2 in
  l_status l' = statusField (l_status l) ops ∧ l_size l' = i64 (l_size l + len (bodyOf ops)).
Proof.
  induction ops as [|o ops IH]; intros l Hl; cbv zeta.
  { cbn. by rewrite Z.add_0_r. }
  rewrite runOps_cons. destruct o as [k v|s|b|]; cbn [runOp hw_setHeader hw_WriteHeader hw_Write hw_Flush logger_writer].
  - by apply (IH (mkLogger _ _ _)).
  - by apply (IH (mkLogger _ _ _)).
  - unfold logger_Write. pose proof (write_full b (l_w l)) as E.
    destruct (hw_Write b (l_w l)) as [[n e] w]. cbn in E. injection E as -> ->. cbn [fst snd].
    destruct (IH (mkLogger w (if l_status l =? 0 then statusOK else l_status l) (i64 (l_size l + len b)))) as [-> ->].
    + cbn. by rewrite i64_idemp.
    + split; [done|]. cbn. rewrite i64_add_l. unfold bodyOf. cbn. rewrite len_app. f_equal. lia.
  - destruct (flush_full (l_w l)) as [w ->]. by apply (IH (mkLogger w _ _)).
Qed.

End full.

(** The status that is logged is the last one. *)
Lemma statusField_last ops : ∀ st, Forall allowed ops → 0 ≤ st →
  (if statusField st ops =? 0 then statusOK else statusField st ops) =
  lastStatus (if st =? 0 then statusOK else st) ops.
Proof.
  induction ops as [|[k v|s|b|] ops IH]; intros st Ho Hst; cbn in *; [done|..];
    apply Forall_cons in Ho as [Ha Ho]; cbn in Ha.
  - auto.
  - rewrite IH by (done || lia). by destruct (Z.eqb_spec s 0); [lia|].
  - rewrite IH by (done || by destruct (Z.eqb_spec st 0)). f_equal. by destruct (Z.eqb_spec st 0) as [|Hn]; [|apply Z.eqb_neq in Hn as ->].
  - auto.
Qed.

(** ** The response *)

Definition sentStatus (r : response) : Z := default statusOK (fst <$> rs_sent r).
Definition sentHeader (r : response) : url.Values := default (rs_header r) (snd <$> rs_sent r).

Lemma response_after ops : ∀ r : response,
  let r' := (runOps ops r).2 in
  rs_body r' = rs_body r ++ bodyOf ops ∧
  sentStatus r' = match rs_sent r with Some (s, _) => s | None => statusOf ops end.
Proof.
  induction ops as [|o ops IH]; intros r; cbv zeta.
  { cbn. rewrite app_nil_r. unfold sentStatus. by destruct (rs_sent r) as [[]|]. }
  rewrite runOps_cons. destruct r as [h [[s0 h0]|] b0]; destruct o as [k v|s|b|]; cbn -[runOps];
    match goal with |- context [runOps ops ?r] => destruct (IH r) as [-> ->] end; cbn; unfold bodyOf; cbn; rewrite ?app_assoc; done.
Qed.

Lemma Get_Set_ne k k' v h : k ≠ k' → url.Get k (url.Set_ k' v h) = url.Get k h.
Proof. intros. unfold url.Get, url.Set_. by rewrite lookup_insert_ne. Qed.

Lemma Get_Set k v h : url.Get k (url.Set_ k v h) = v.
Proof. unfold url.Get, url.Set_. by rewrite lookup_insert_eq. Qed.

Lemma sent_stays ops : ∀ (r : response) x, rs_sent r = Some x → rs_sent (runOps ops r).2 = Some x.
Proof.
  induction ops as [|o ops IH]; intros r x Hr; [done|]. rewrite runOps_cons.
  destruct r as [h sd b0]. cbn in Hr. subst sd. destruct o; cbn -[runOps]; by apply IH.
Qed.

Lemma header_after ops : ∀ r : response, rs_sent r = None →
  sentHeader (runOps ops r).2 = headersOf (rs_header r) ops.
Proof.
  induction ops as [|o ops IH]; intros [h sd b0] Hr; cbn in Hr; subst sd; [done|].
  rewrite runOps_cons. destruct o as [k v|s|b|]; cbn -[runOps]; [by rewrite IH|..];
    unfold sentHeader; by match goal with |- context [runOps ops ?r] => rewrite (sent_stays ops r _ eq_refl) end.
Qed.

Lemma headersOf_lookup ops k : ∀ h h' : url.Values, h !! k = h' !! k → headersOf h ops !! k = headersOf h' ops !! k.
Proof.
  induction ops as [|[k' v|s|b|] ops IH]; intros h h' Hk; cbn; try done. apply IH. unfold url.Set_.
  destruct (decide (k' = k)) as [->|]; [by rewrite !lookup_insert_eq|by rewrite !lookup_insert_ne].
Qed.

Lemma headersOf_reserved ops k : ∀ h : url.Values, k ∈ reserved → Forall allowed ops → headersOf h ops !! k = h !! k.
Proof.
  induction ops as [|[k' v|s|b|] ops IH]; intros h Hk Ho; cbn; try done.
  apply Forall_cons in Ho as [Ha Ho]. rewrite IH by done. apply lookup_insert_ne. by intros ->.
Qed.

(** ** Compression *)

(** The calls that reach the writer under the compressor. *)
Definition send (out : list byte) : list wop := match out with [] => [] | _ => [OpWrite out] end.

Fixpoint gzOps `{Gzip} (gz : gz_t) (ops : list wop) : list wop * gz_t :=
  match ops with
  | [] => ([], gz)
  | OpWrite b :: ops' =>
      let '(out, gz) := gz_Write b gz in
      let '(os, gz') := gzOps gz ops' in (send out ++ os, gz')
  | OpFlush :: ops' =>
      let '(out, gz) := gz_Flush gz in
      let '(os, gz') := gzOps gz ops' in (send out ++ os, gz')
  | o :: ops' => let '(os, gz') := gzOps gz ops' in (o :: os, gz')
  end.

Lemma passOn_send `{HttpWriter W} out (w : W) : runOps (send out) w = (Ok tt, (passOn out w).2).
Proof.
  destruct out; [done|]. unfold passOn, send. rewrite runOps_cons. cbn [runOp].
  by destruct (hw_Write _ w) as [[]].
Qed.

Lemma runOps_gzip `{Gzip, HttpWriter W} ops : ∀ gz (w : W),
  runOps ops (mkGzipWriter gz w) =
  (Ok tt, mkGzipWriter (gzOps gz ops).2 (runOps (gzOps gz ops).1 w).2) ∧
  (runOps (gzOps gz ops).1 w).1 = Ok tt.
Proof.
  induction ops as [|o ops IH]; intros gz w; [done|]. rewrite runOps_cons.
  destruct o as [k v|s|b|]; cbn -[runOps].
  - destruct (IH gz (hw_setHeader (url.Set_ k v (hw_Header w)) w)) as [-> Hr].
    destruct (gzOps gz ops) as [os gz']. cbn [fst snd] in *. by rewrite runOps_cons.
  - destruct (IH gz (hw_WriteHeader s w)) as [-> Hr].
    destruct (gzOps gz ops) as [os gz']. cbn [fst snd] in *. by rewrite runOps_cons.
  - destruct (gz_Write b gz) as [out gz1]. pose proof (passOn_send out w) as Hp.
    destruct (passOn out w) as [e w1]. cbn [fst snd] in *. destruct (IH gz1 w1) as [-> Hr].
    destruct (gzOps gz1 ops) as [os gz']. cbn [fst snd] in *. by rewrite runOps_app, Hp.
  - destruct (gz_Flush gz) as [out gz1]. pose proof (passOn_send out w) as Hp.
    destruct (passOn out w) as [e w1]. cbn [fst snd] in *. destruct (IH gz1 w1) as [-> Hr].
    destruct (gzOps gz1 ops) as [os gz']. cbn [fst snd] in *. by rewrite runOps_app, Hp.
Qed.

Lemma quiet_send out : Forall quiet (send out).
Proof. destruct out; by repeat constructor. Qed.

Lemma quiet_allowed ops : Forall quiet ops → Forall allowed ops.
Proof. intros Hq. eapply Forall_impl; [exact Hq|]. by intros []. Qed.

Lemma quiet_status ops : Forall quiet ops → statusOf ops = statusOK.
Proof. by destruct 1 as [|[] ops]. Qed.

Lemma quiet_headers ops h : Forall quiet ops → headersOf h ops = h.
Proof. by destruct 1 as [|[] ops]. Qed.

Lemma lastStatus_send d out ops : lastStatus d (send out ++ ops) = lastStatus d ops.
Proof. by destruct out. Qed.

(** What the compressor keeps of the calls. *)
Lemma gzOps_quiet `{Gzip} ops : ∀ gz, Forall quiet ops → Forall quiet (gzOps gz ops).1.
Proof.
  induction ops as [|[k v|s|b|] ops IH]; intros gz Ho; [done|..]; apply Forall_cons in Ho as [Hq Ho]; try done; cbn.
  - destruct (gz_Write b gz) as [out gz1]. specialize (IH gz1 Ho). destruct (gzOps gz1 ops).
    apply Forall_app. split; [apply quiet_send|done].
  - destruct (gz_Flush gz) as [out gz1]. specialize (IH gz1 Ho). destruct (gzOps gz1 ops).
    apply Forall_app. split; [apply quiet_send|done].
Qed.

Lemma gzOps_allowed `{Gzip} ops : ∀ gz, Forall allowed ops → Forall allowed (gzOps gz ops).1.
Proof.
  induction ops as [|[k v|s|b|] ops IH]; intros gz Ho; [done|..]; apply Forall_cons in Ho as [Hq Ho]; cbn.
  - specialize (IH gz Ho). destruct (gzOps gz ops). by constructor.
  - specialize (IH gz Ho). destruct (gzOps gz ops). by constructor.
  - destruct (gz_Write b gz) as [out gz1]. specialize (IH gz1 Ho). destruct (gzOps gz1 ops).
    apply Forall_app. split; [apply quiet_allowed, quiet_send|done].
  - destruct (gz_Flush gz) as [out gz1]. specialize (IH gz1 Ho). destruct (gzOps gz1 ops).
    apply Forall_app. split; [apply quiet_allowed, quiet_send|done].
Qed.

Lemma gzOps_last `{Gzip} ops : ∀ d gz out, lastStatus d ((gzOps gz ops).1 ++ send out) = lastStatus d ops.
Proof.
  induction ops as [|[k v|s|b|] ops IH]; intros d gz out; [by destruct out|..]; cbn.
  - specialize (IH d gz out). by destruct (gzOps gz ops).
  - specialize (IH s gz out). by destruct (gzOps gz ops).
  - destruct (gz_Write b gz) as [o gz1]. specialize (IH d gz1 out). destruct (gzOps gz1 ops). cbn [fst] in *.
    by rewrite <- app_assoc, lastStatus_send.
  - destruct (gz_Flush gz) as [o gz1]. specialize (IH d gz1 out). destruct (gzOps gz1 ops). cbn [fst] in *.
    by rewrite <- app_assoc, lastStatus_send.
Qed.

(** The response starts in the same way. *)
Lemma gzOps_start `{Gzip} ops : ∀ gz out h, announced ops →
  statusOf ((gzOps gz ops).1 ++ send out) = statusOf ops ∧
  headersOf h ((gzOps gz ops).1 ++ send out) = headersOf h ops.
Proof.
  assert (Hq : ∀ o os out h, Forall quiet os →
    statusOf ((send o ++ os) ++ send out) = statusOK ∧ headersOf h ((send o ++ os) ++ send out) = h).
  { intros o os out h Hos. assert (Forall quiet ((send o ++ os) ++ send out)) as Hall.
    { rewrite !Forall_app. split_and!; [apply quiet_send|done|apply quiet_send]. }
    split; [by apply quiet_status|by apply quiet_headers]. }
  induction ops as [|[k v|s|b|] ops IH]; intros gz out h Ho; [by destruct out|..]; cbn in *.
  - specialize (IH gz out (url.Set_ k v h) Ho). by destruct (gzOps gz ops).
  - by destruct (gzOps gz ops).
  - destruct (gz_Write b gz) as [o gz1]. pose proof (gzOps_quiet ops gz1 Ho). destruct (gzOps gz1 ops). by apply Hq.
  - destruct (gz_Flush gz) as [o gz1]. pose proof (gzOps_quiet ops gz1 Ho). destruct (gzOps gz1 ops). by apply Hq.
Qed.

(** A stream of writes ([Some]) and flushes, to its end. *)
Fixpoint gz_stream `{Gzip} (evs : list (option (list byte))) (gz : gz_t) : list byte :=
  match evs with
  | [] => gz_Close gz
  | Some b :: evs' => let '(out, gz) := gz_Write b gz in out ++ gz_stream evs' gz
  | None :: evs' => let '(out, gz) := gz_Flush gz in out ++ gz_stream evs' gz
  end.

(** Reading a stream gives the written bytes back. *)
Class GzipLaws `{Gzip} : Type := {
  gunzip : list byte → option (list byte);
  gunzip_stream evs : gunzip (gz_stream evs gz_new) = Some (mjoin (default [] <$> evs));
}.

Definition events (ops : list wop) : list (option (list byte)) :=
  omap (λ o, match o with OpWrite b => Some (Some b) | OpFlush => Some None | _ => None end) ops.

Lemma bodyOf_app ops1 ops2 : bodyOf (ops1 ++ ops2) = bodyOf ops1 ++ bodyOf ops2.
Proof. apply bind_app. Qed.

Lemma bodyOf_send out : bodyOf (send out) = out.
Proof. destruct out; [done|]. unfold bodyOf. cbn. by rewrite app_nil_r. Qed.

Lemma events_body ops : mjoin (default [] <$> events ops) = bodyOf ops.
Proof. induction ops as [|[] ops IH]; [done|..]; unfold bodyOf in *; cbn; by rewrite <- IH. Qed.

Lemma gzOps_stream `{Gzip} ops : ∀ gz,
  bodyOf (gzOps gz ops).1 ++ gz_Close (gzOps gz ops).2 = gz_stream (events ops) gz.
Proof.
  induction ops as [|o ops IH]; intros gz; [done|]. destruct o as [k v|s|b|]; cbn.
  - specialize (IH gz). by destruct (gzOps gz ops).
  - specialize (IH gz). by destruct (gzOps gz ops).
  - destruct (gz_Write b gz) as [out gz1]. specialize (IH gz1). destruct (gzOps gz1 ops). cbn in *.
    by rewrite bodyOf_app, bodyOf_send, <- app_assoc, IH.
  - destruct (gz_Flush gz) as [out gz1]. specialize (IH gz1). destruct (gzOps gz1 ops). cbn in *.
    by rewrite bodyOf_app, bodyOf_send, <- app_assoc, IH.
Qed.

(** ** The chain around a handler *)

(** The calls that reach the writer under the compressor, if there is one. *)
Definition encoded `{Gzip} (gzip : bool) (ops : list wop) : list wop :=
  if gzip then (gzOps gz_new ops).1 ++ send (gz_Close (gzOps gz_new ops).2) else ops.

Definition acceptsGzip (r : HttpRequest) : bool := Contains (url.Get "Accept-Encoding" (hr_Header r)) "gzip".

Definition encodingHeader `{HttpWriter W} (gzip : bool) (w : W) : W :=
  if gzip then hw_setHeader (url.Set_ "Content-Encoding" "gzip" (hw_Header w)) w else w.

Section chain.
  Context `{Gzip} {S : Type}.

Lemma gzipFilter_ops `{HttpWriter W} ops (w : W) (c : @conn S) : FullWriter W →
  let gzip := acceptsGzip (cn_req c) in
  ServeHTTP (gzipFilter (Some (opsHandler ops))) (w, c) =
  (Ok tt, ((runOps (encoded gzip ops) (encodingHeader gzip w)).2, c)).
Proof.
  intros HF. unfold gzipFilter, acceptsGzip, AcceptEncoding. cbn [ServeHTTP].
  destruct (Contains _ _); cbn [negb encoded encodingHeader].
  - unfold opsHandler. cbn [ServeHTTP].
    edestruct runOps_gzip as [E Hr]. rewrite E. cbn [gzw_Writer gzw_ResponseWriter].
    rewrite runOps_app. destruct (runOps (gzOps gz_new ops).1 _) as [r w'] eqn:E'. cbn [fst snd] in *.
    subst r. by rewrite passOn_send.
  - cbn. pose proof (runOps_full ops w). by destruct (runOps ops w); cbn in *; subst.
Qed.

Lemma encoded_allowed gzip ops : Forall allowed ops → Forall allowed (encoded gzip ops).
Proof.
  intros Ho. destruct gzip; cbn; [|done].
  apply Forall_app. split; [by apply gzOps_allowed|apply quiet_allowed, quiet_send].
Qed.

Lemma encoded_last gzip d ops : lastStatus d (encoded gzip ops) = lastStatus d ops.
Proof. destruct gzip; [apply gzOps_last|done]. Qed.

Lemma encoded_start gzip ops h : announced ops →
  statusOf (encoded gzip ops) = statusOf ops ∧ headersOf h (encoded gzip ops) = headersOf h ops.
Proof. intros Ho. destruct gzip; [by apply gzOps_start|done]. Qed.

Lemma encoded_body `{!GzipLaws} (gzip : bool) ops :
  (if gzip then gunzip (bodyOf (encoded gzip ops)) else Some (bodyOf (encoded gzip ops))) = Some (bodyOf ops).
Proof.
  destruct gzip; [|done]. cbn [encoded].
  by rewrite bodyOf_app, bodyOf_send, gzOps_stream, gunzip_stream, events_body.
Qed.

(** The request as the access log sees it. *)
Definition withID (uid : string) (r : HttpRequest) : HttpRequest :=
  set_ReqHeader (url.Set_ "Request-Id" uid (hr_Header r)) r.

Lemma acceptsGzip_withID uid r : acceptsGzip (withID uid r) = acceptsGzip r.
Proof. unfold acceptsGzip. cbn. by rewrite Get_Set_ne. Qed.

(** The loggers of [recovery] and [logging] over a response. *)
Definition stacked (r : response) : responseLogger (responseLogger response) := newLogger (newLogger r).

(** The response before the handler runs. *)
Definition prepared (gzip : bool) (version uid : string) : response :=
  encodingHeader gzip
    (mkResponse (url.Add (url.Set_ "Request-Id" uid ∅) ("X-InfluxDB-Version", version)%string) None []).

Lemma wrapChain_ops version uid panicText ck ops (req : HttpRequest) (st : S) :
  let gzip := acceptsGzip req in
  let l := (runOps (encoded gzip ops) (stacked (prepared gzip version uid))).2 in
  ServeHTTP (wrapChain true version uid panicText ck (Some (opsHandler ops))) (newResponse, mkConn req [] st) =
  (Ok tt, (l_w (l_w l), logLine l ck "" (mkConn (withID uid req) [] st))).
Proof.
  cbv zeta. unfold wrapChain, recovery, logging, requestID, versionHeader. cbn [ServeHTTP].
  rewrite (gzipFilter_ops ops _ _ _). cbv zeta. cbn [cn_req set_req hr_Header set_ReqHeader].
  rewrite (acceptsGzip_withID uid req : acceptsGzip (set_ReqHeader _ req) = _).
  unfold prepared. destruct (acceptsGzip req); cbn [encodingHeader]; cbn -[runOps encoded];
    rewrite Get_Set; done.
Qed.

(** The reserved headers of the response before the handler runs. *)
Lemma prepared_header gzip version uid :
  let h := rs_header (prepared gzip version uid) in
  h !! "Request-Id"%string = Some [uid] ∧ h !! "X-InfluxDB-Version"%string = Some [version] ∧
  h !! "Content-Encoding"%string = (if gzip then Some ["gzip"%string] else None) ∧
  ∀ k, k ∉ reserved → h !! k = None.
Proof.
  unfold prepared, url.Add, url.Set_. destruct gzip; cbn -[reserved]; (split_and!; [done..|]);
    intros k Hk; unfold reserved in Hk; rewrite !not_elem_of_cons in Hk; destruct Hk as (H1 & H2 & H3 & _);
    by rewrite ?lookup_insert_ne by congruence.
Qed.

(** Through both loggers the calls reach the response, and the inner logger has
    recorded them. *)
Lemma stacked_after ops r : Forall allowed ops → rs_body r = [] → rs_sent r = None →
  let l := (runOps ops (stacked r)).2 in
  l_w (l_w l) = (runOps ops r).2 ∧ (logger_Status l).1 = lastStatus statusOK ops ∧
  logger_Size l = i64 (len (rs_body (l_w (l_w l)))).
Proof.
  intros Ho Hb Hs l. destruct (logger_records ops (stacked r) eq_refl) as [Hst Hsz].
  pose proof (runOps_logger ops (stacked r)) as T2. pose proof (runOps_logger ops (l_w (stacked r))) as T1.
  rewrite T2 in T1. cbn [fst snd] in T1. change (l_w (l_w (stacked r))) with r in T1.
  assert (Hr : l_w (l_w l) = (runOps ops r).2) by (rewrite T1; done).
  split_and!; [done| |].
  - unfold logger_Status. cbn [fst]. unfold l. rewrite Hst. by apply statusField_last.
  - unfold logger_Size, l. rewrite Hsz. fold l. rewrite Hr. destruct (response_after ops r) as [-> _].
    by rewrite Hb.
Qed.

(** C28. Around a handler that leaves the headers of the middleware alone, and that
    either sets a status before it writes or sets neither status nor headers after
    its first write, the whole chain of [WrapHandler] sends the first status and the
    bytes of the handler, compressed when the client accepts gzip, with the header
    lines that the handler had set when its response started, to which only the
    version, the request id and the encoding are added; it logs exactly one line,
    with the last status that was set and with the number of bytes sent. *)
Theorem middleware_serves `{!GzipLaws} version uid panicText ck ops req (st : S) :
  Forall allowed ops → announced ops →
  let gzip := acceptsGzip req in
  ∃ resp req', ServeHTTP (wrapChain true version uid panicText ck (Some (opsHandler ops)))
      (newResponse, mkConn req [] st) =
    (Ok tt, (resp, mkConn req'
       [(buildLogLine (lastStatus 200 ops) (i64 (len (rs_body resp))) ck (withID uid req)).1] st))
  ∧ sentStatus resp = statusOf ops
  ∧ (if gzip then gunzip (rs_body resp) else Some (rs_body resp)) = Some (bodyOf ops)
  ∧ sentHeader resp !! "Request-Id"%string = Some [uid]
  ∧ sentHeader resp !! "X-InfluxDB-Version"%string = Some [version]
  ∧ sentHeader resp !! "Content-Encoding"%string = (if gzip then Some ["gzip"%string] else None)
  ∧ ∀ k, k ∉ reserved → sentHeader resp !! k = headersOf ∅ ops !! k.
Proof.
  intros Ha Ho gzip. rewrite wrapChain_ops. fold gzip.
  set (E := encoded gzip ops). set (r0 := prepared gzip version uid).
  assert (HE : Forall allowed E) by by apply encoded_allowed.
  assert (rs_body r0 = [] ∧ rs_sent r0 = None) as [Hb0 Hs0] by (unfold r0, prepared; by destruct gzip).
  destruct (stacked_after E r0 HE Hb0 Hs0) as (Hr & Hst & Hsz).
  set (l := (runOps E (stacked r0)).2) in *. destruct (response_after E r0) as [Hb Hs].
  rewrite <- Hr in Hb, Hs. rewrite Hb0 in Hb. rewrite Hs0 in Hs.
  destruct (encoded_start gzip ops (rs_header r0) Ho) as [Hes Heh].
  assert (Hh : sentHeader (l_w (l_w l)) = headersOf (rs_header r0) ops).
  { rewrite Hr, header_after by done. exact Heh. }
  destruct (prepared_header gzip version uid) as (Hid & Hv & Hc & Hn).
  unfold logLine. rewrite Hst, Hsz. eexists (l_w (l_w l)), _. rewrite Hh. split_and!.
  - unfold E. rewrite encoded_last. cbn. by rewrite append_empty_r.
  - by rewrite Hs.
  - rewrite Hb. apply (encoded_body gzip ops).
  - rewrite headersOf_reserved by (done || set_solver). exact Hid.
  - rewrite headersOf_reserved by (done || set_solver). exact Hv.
  - rewrite headersOf_reserved by (done || set_solver). exact Hc.
  - intros k Hk. apply headersOf_lookup. by rewrite lookup_empty, Hn.
Qed.

End chain.

(** ** The nil handler *)

Section nil.
  Context `{Gzip} {S : Type}.

(** What is sent although the handler panicked. *)
Definition trailer (gzip : bool) : list wop := if gzip then send (gz_Close gz_new) else [].

Lemma trailer_quiet gzip : Forall quiet (trailer gzip).
Proof. destruct gzip; [apply quiet_send|by constructor]. Qed.

Lemma quiet_last d ops : Forall quiet ops → lastStatus d ops = d.
Proof. induction 1 as [|[] ops Hq _ IH]; done. Qed.

Lemma gzipFilter_nil `{HttpWriter W} (w : W) (c : @conn S) :
  let gzip := acceptsGzip (cn_req c) in
  ServeHTTP (gzipFilter None) (w, c) = (Panics, ((runOps (trailer gzip) (encodingHeader gzip w)).2, c)).
Proof.
  unfold gzipFilter, acceptsGzip, AcceptEncoding. cbn [ServeHTTP].
  destruct (Contains _ _); cbn [negb trailer encodingHeader]; [|done]. by rewrite passOn_send.
Qed.

(** The logger of [recovery] when the panic arrives, with or without [logging]. *)
Lemma wrapChain_nil_ops loggingEnabled version uid panicText ck req (st : S) :
  let gzip := acceptsGzip req in
  let l := (runOps (trailer gzip) (newLogger (prepared gzip version uid))).2 in
  ServeHTTP (wrapChain loggingEnabled version uid panicText ck None) (newResponse, mkConn req [] st) =
  (Ok tt, (l_w l, logLine l ck panicText (mkConn (withID uid req) [] st))).
Proof.
  cbv zeta. unfold wrapChain, recovery, requestID, versionHeader. destruct loggingEnabled; unfold logging; cbn [ServeHTTP].
  - rewrite gzipFilter_nil. cbv zeta. cbn [cn_req set_req hr_Header set_ReqHeader].
    rewrite (acceptsGzip_withID uid req : acceptsGzip (set_ReqHeader _ req) = _).
    pose proof (runOps_logger (trailer (acceptsGzip req)) (stacked (prepared (acceptsGzip req) version uid))) as T.
    cbn [stacked newLogger l_w] in T. rewrite T. unfold prepared, newLogger.
    destruct (acceptsGzip req); cbn [encodingHeader hw_setHeader hw_Header logger_writer response_writer l_w];
      rewrite Get_Set; done.
  - rewrite gzipFilter_nil. cbv zeta. cbn [cn_req set_req hr_Header set_ReqHeader].
    rewrite (acceptsGzip_withID uid req : acceptsGzip (set_ReqHeader _ req) = _).
    unfold newLogger, prepared.
    destruct (acceptsGzip req); cbn [encodingHeader hw_setHeader hw_Header logger_writer response_writer l_w];
      rewrite Get_Set; done.
Qed.

Lemma trailer_header gzip r : rs_sent r = None → sentHeader (runOps (trailer gzip) r).2 = sentHeader r.
Proof.
  intros Hr. unfold trailer, send. destruct gzip; [|done]. destruct (gz_Close gz_new); [done|].
  destruct r as [hd sd bd]. cbn in Hr. by subst.
Qed.

(** The nil handler that [WrapHandler] wraps in the source: the panic is logged in
    one line with status 200, and the client receives status 200 with nothing but
    the end of a compressed stream when it accepts one. *)
Theorem wrapChain_nil loggingEnabled version uid panicText ck req (st : S) :
  ∃ resp req', ServeHTTP (wrapChain loggingEnabled version uid panicText ck None) (newResponse, mkConn req [] st) =
    (Ok tt, (resp, mkConn req'
       [((buildLogLine statusOK (i64 (len (rs_body resp))) ck (withID uid req)).1 +:+ panicText)%string] st))
  ∧ sentStatus resp = statusOK
  ∧ rs_body resp = (if acceptsGzip req then gz_Close gz_new else [])
  ∧ sentHeader resp = sentHeader (prepared (acceptsGzip req) version uid).
Proof.
  rewrite wrapChain_nil_ops. set (gzip := acceptsGzip req). set (r0 := prepared gzip version uid).
  assert (rs_body r0 = [] ∧ rs_sent r0 = None) as [Hb0 Hs0] by (unfold r0, prepared; by destruct gzip).
  destruct (logger_records (trailer gzip) (newLogger r0) eq_refl) as [Hst Hsz].
  pose proof (runOps_logger (trailer gzip) (newLogger r0)) as T. cbn [newLogger l_w] in T.
  destruct (response_after (trailer gzip) r0) as [Hb Hs]. pose proof (trailer_header gzip r0 Hs0) as Hh.
  rewrite T in Hb, Hs, Hh. cbn [snd] in Hb, Hs, Hh.
  assert (statusOf (trailer gzip) = statusOK ∧ bodyOf (trailer gzip) = if gzip then gz_Close gz_new else [])
    as [Ht Htb] by (destruct gzip; cbn; [rewrite bodyOf_send; by destruct (gz_Close gz_new)|done]).
  rewrite Hb0, Htb in Hb. rewrite Hs0, Ht in Hs. unfold logLine, logger_Status, logger_Size. rewrite Hst, Hsz.
  cbn [fst]. change (l_status (newLogger r0)) with 0. change (l_size (newLogger r0)) with 0.
  rewrite statusField_last by (done || apply quiet_allowed, trailer_quiet).
  rewrite (quiet_last _ _ (trailer_quiet gzip)), Htb.
  eexists _, _. split_and!; [|done|exact Hb|exact Hh]. rewrite Hb. cbn. done.
Qed.

End nil.

(** ** Passwords *)

Lemma ParseQuery_present q : url.present (url.ParseQuery q) = url.ParseQuery q.
Proof.
  unfold url.ParseQuery. generalize (omap url.parseField (url.fields (chars q))). intros l.
  enough (∀ m, url.present m = m → url.present (foldl url.Add m l) = foldl url.Add m l) as Hl
    by (apply Hl; apply map_filter_empty).
  induction l as [|kv l IH]; intros m Hm; [done|]. cbn. apply IH. unfold url.Add, url.present in *.
  rewrite map_filter_insert_True; [by rewrite Hm|]. cbn. by destruct (default [] _).
Qed.

(** The redacted query has the same parameters, with one mark as password. *)
Lemma ParseQuery_redactQuery raw : url.Get "p" (url.ParseQuery raw) ≠ ""%string →
  url.ParseQuery (redactQuery raw) = <["p" := [redacted]]> (url.ParseQuery raw).
Proof.
  intros Hp. unfold redactQuery. rewrite decide_False by done. rewrite url.ParseQuery_Encode.
  unfold url.Set_, url.present. rewrite map_filter_insert_True by done. f_equal. apply ParseQuery_present.
Qed.

Lemma redactQuery_agree raw1 raw2 :
  url.Get "p" (url.ParseQuery raw1) ≠ ""%string → url.Get "p" (url.ParseQuery raw2) ≠ ""%string →
  delete "p" (url.ParseQuery raw1) = delete "p" (url.ParseQuery raw2) →
  redactQuery raw1 = redactQuery raw2.
Proof.
  intros H1 H2 E. unfold redactQuery. rewrite !decide_False by done. unfold url.Set_.
  by rewrite <- (insert_delete_eq (url.ParseQuery raw1)), E, insert_delete_eq.
Qed.

(** C31. The access log does not depend on the password: two requests that differ
    only in the values of the query parameter p, the first of which is not empty,
    have the same log line, and are left as the same request, whose parameters
    are those of the original with one mark as password. *)
Theorem log_line_hides_password status size ck r1 r2 :
  let query r := url.ParseQuery (url.u_rawQuery (hr_URL r)) in
  let withoutQuery r := set_URL (url.set_rawQuery "" (hr_URL r)) r in
  withoutQuery r1 = withoutQuery r2 →
  url.Get "p" (query r1) ≠ ""%string → url.Get "p" (query r2) ≠ ""%string →
  delete "p" (query r1) = delete "p" (query r2) →
  buildLogLine status size ck r1 = buildLogLine status size ck r2 ∧
  query (buildLogLine status size ck r1).2 = <["p" := [redacted]]> (query r1).
Proof.
  cbv zeta. intros Hr H1 H2 Hd.
  assert (E : redactPassword r1 = redactPassword r2).
  { unfold redactPassword. rewrite (redactQuery_agree _ _ H1 H2 Hd).
    destruct r1 as [m1 [] p1 a1 h1], r2 as [m2 [] p2 a2 h2]. cbn in *. unfold url.set_rawQuery, set_URL in *.
    cbn in *. congruence. }
  split; [unfold buildLogLine; by rewrite E|]. by apply ParseQuery_redactQuery.
Qed.

Definition demo_request (query : string) : HttpRequest :=
  mkHttpRequest "POST" (url.mkURL "" "" None "/execute" false query) "HTTP/1.1" "10.0.0.7:4711" ∅.

Lemma log_line_hides_password_witness :
  buildLogLine 200 17 (mkClock 0 1500000 3600) (demo_request "u=admin&p=secret") =
  buildLogLine 200 17 (mkClock 0 1500000 3600) (demo_request "p=other%20one&u=admin") ∧
  (buildLogLine 200 17 (mkClock 0 1500000 3600) (demo_request "u=admin&p=secret")).1 =
    "10.0.0.7 - admin [01/Jan/1970:01:00:00 +0100] POST /execute?p=%5BREDACTED%5D&u=admin HTTP/1.1 200 17 - -  1.5ms"%string.
Proof.
  split; [|vm_compute; reflexivity].
  destruct (log_line_hides_password 200 17 (mkClock 0 1500000 3600) (demo_request "u=admin&p=secret")
    (demo_request "p=other%20one&u=admin")) as [E _];
    [reflexivity|vm_compute; discriminate|vm_compute; discriminate|vm_compute; reflexivity|exact E].
Defined.

(** Passwords that reach the log: a second value after an empty first one, and a
    value that is not escaped properly. *)
Theorem redaction_gaps :
  url.RequestURI (hr_URL (redactPassword (demo_request "p=&p=secret"))) = "/execute?p=&p=secret"%string ∧
  url.RequestURI (hr_URL (redactPassword (demo_request "u=admin&p=100%25%&q=x"))) = "/execute?u=admin&p=100%25%&q=x"%string.
Proof. vm_compute. done. Qed.

(** ** An instance to run *)

(** A compressor that stores its input. *)
Definition demo_gzip : Gzip := {|
  gz_t := unit;
  gz_new := tt;
  gz_Write b gz := (b, gz);
  gz_Flush gz := ([], gz);
  gz_Close _ := [];
|}.

Lemma demo_stream evs : @gz_stream demo_gzip evs tt = mjoin (default [] <$> evs).
Proof. induction evs as [|[b|] evs IH]; cbn in *; [done|by rewrite IH..]. Qed.

Definition demo_gzip_laws : @GzipLaws demo_gzip :=
  {| gunzip := Some; gunzip_stream evs := f_equal Some (demo_stream evs) |}.

(** A handler that answers 400 and then 500, as [serveSnapshot] does for an index that
    it cannot parse on a server that closes: the first is sent, the second logged. *)
Definition demo_ops : list wop :=
  [OpHeader "Content-Type" "text/plain"; OpWriteHeader 400; OpWrite [x41; x42]; OpWriteHeader 500; OpWrite [x43]].

Lemma middleware_serves_witness :
  Forall allowed demo_ops ∧ announced demo_ops ∧
  ∃ resp req', @ServeHTTP nat (@wrapChain demo_gzip nat true "1.1" "id" "" (mkClock 0 1500000 3600)
      (Some (opsHandler demo_ops))) response _
      (newResponse, mkConn (demo_request "") [] 0%nat) =
    (Ok tt, (resp, mkConn req' ["10.0.0.7 - - [01/Jan/1970:01:00:00 +0100] POST /execute HTTP/1.1 500 3 - - id 1.5ms"%string] 0%nat))
  ∧ sentStatus resp = 400 ∧ rs_body resp = [x41; x42; x43]
  ∧ sentHeader resp !! "Content-Type"%string = Some ["text/plain"%string].
Proof.
  assert (Ha : Forall allowed demo_ops) by (unfold demo_ops; repeat constructor; set_solver).
  split_and!; [exact Ha|exact I|].
  destruct (@middleware_serves demo_gzip nat demo_gzip_laws "1.1" "id" "" (mkClock 0 1500000 3600)
    demo_ops (demo_request "") 0%nat Ha I) as (resp & req' & E & Hs & Hb & _ & _ & _ & Hh).
  exists resp, req'. change (Some (rs_body resp) = Some [x41; x42; x43]) in Hb. injection Hb as Hb.
  split_and!; [|exact Hs|exact Hb|rewrite Hh; [reflexivity|set_solver]].
  rewrite E, Hb. reflexivity.
Defined.
