(* ===== verification/Routing.v ===== *)
(** * Clients and servers as they are routed

    The meta server as its routes are written: [ServeHTTP] of meta/handler.go over
    the middleware of [ResponseLogger], with the HTTP client of Go in front, which
    accepts compressed answers and decompresses them.  Under the clients of
    [MetaClient], no request reaches a handler of [Handler]: the server never
    changes, no command succeeds and no client comes to be open. *)

From Stdlib Require Import ZArith Lia.
From Stdlib Require Import Strings.Byte Strings.String.
From S2P Require Import Prelude GoLib MetaData MetaTheorems StoreFSM Store StoreTheorems MetaClient ClientTheorems Handler.
From S2P Require Import GoUrl ResponseLogger LoggerTheorems.

Local Open Scope Z_scope.

(** ** Programs that preserve a relation *)

Section preserves.
  Context {S : Type} (R : relation S) `{!PreOrder R}.

Definition preserves {A} (m : GoM S A) : Prop := ∀ s, R s (m s).2.

Lemma preserves_pure {A} (m : GoM S A) : (∀ s, (m s).2 = s) → preserves m.
Proof. intros Hm s. by rewrite Hm. Qed.

Lemma preserves_bind {A B} (m : GoM S A) (k : A → GoM S B) :
  preserves m → (∀ a, preserves (k a)) → preserves (m ≫= k).
Proof.
  intros Hm Hk s. unfold mbind, gom_bind. specialize (Hm s). destruct (m s) as [[a|e|] s1]; cbn in *; [|done..].
  etrans; [exact Hm|apply Hk].
Qed.

Lemma preserves_attempt {A} (m : GoM S A) : preserves m → preserves (attempt m).
Proof. intros Hm s. specialize (Hm s). unfold attempt. by destruct (m s) as [[a|e|] s1]. Qed.

Lemma preserves_for_each {A} (l : list A) f : (∀ a, preserves (f a)) → preserves (for_each l f).
Proof.
  intros Hf. induction l as [|a l IH]; [by apply preserves_pure|]. cbn. by apply preserves_bind.
Qed.

End preserves.

Create HintDb routing.
#[export] Hint Extern 1 (preserves _ _) => apply preserves_pure; done : routing.

(** ** The server behind its routes *)

Section routed.
  Context `{OssMeta, OssCommands, Raft, Serving, OssClient, Gzip, GL : !GzipLaws}.
  Context (base : Transport).
  (** [url.Parse], and what the middleware adds to a request and to the log. *)
  Context (parseURL : string → url.URL) (version uid panicText : string) (ck : clock) (loggingEnabled : bool).
  (** What the other goroutines of a client do while a call of it sleeps. *)
  Context (others : list clientEvent).

Definition routedNet : Type := handler * list string.

(** A request of Go's HTTP client, which accepts gzip by itself. *)
Definition clientRequest (method u : string) : HttpRequest :=
  mkHttpRequest method (parseURL u) "HTTP/1.1" "127.0.0.1:1024" {["Accept-Encoding"%string := ["gzip"%string]]}.

(** [http.Error(w, "", http.StatusBadRequest)] *)
Definition badRequest : response :=
  (hw_Write [x0a] (hw_WriteHeader StatusBadRequest newResponse)).2.

(** [ServeHTTP(w, r)]: whatever the path, [WrapHandler] wraps the nil handler. *)
Definition routedServe (req : HttpRequest) (h : handler) : res unit * (response * conn) :=
  let c := mkConn req [] h in
  if decide (hr_Method req = "GET"%string ∨ hr_Method req = "POST"%string)
  then ResponseLogger.ServeHTTP (wrapChain loggingEnabled version uid panicText ck None) (newResponse, c)
  else (Ok tt, (badRequest, c)).

(** What the HTTP client returns: the body is decompressed. *)
Definition received (resp : response) : HttpResponse :=
  MetaClient.mkResponse (sentStatus resp) (url.Get "Location" (sentHeader resp))
    (if decide (url.Get "Content-Encoding" (sentHeader resp) = "gzip"%string)
     then of_option (errorf "gzip: invalid header") (gunzip (rs_body resp)) else Ok (rs_body resp)).

Definition roundTrip (method u : string) : GoM routedNet HttpResponse := λ '(h, log),
  match routedServe (clientRequest method u) h with
  | (Ok _, (resp, c)) => (Ok (received resp), (cn_state c, log ++ cn_log c))
  | (Err e, (_, c)) => (Err e, (cn_state c, log ++ cn_log c))
  | (Panics, (_, c)) => (Panics, (cn_state c, log ++ cn_log c))
  end.

(** The network of clients of this server; the polling goroutine gets empty bodies. *)
Definition routedTransport : Transport := {|
  net := routedNet;
  httpPost u _ := roundTrip "POST" u;
  httpGet u := roundTrip "GET" u;
  response_Unmarshal := @response_Unmarshal base;
  lease_Unmarshal := @lease_Unmarshal base;
  strings_Unmarshal := @strings_Unmarshal base;
  node_MarshalJSON := @node_MarshalJSON base;
  node_UnmarshalJSON := @node_UnmarshalJSON base;
  schedule := gets (λ _, (λ e, if e is EvPoll _ then EvPoll [] else e) <$> others);
  bcryptCompare := @bcryptCompare base;
  bcryptGenerate := @bcryptGenerate base;
  sha256 := @sha256 base;
  randomSalt := gets (λ _, []);
|}.

Lemma prepared_location : url.Get "Location" (sentHeader (prepared true version uid)) = ""%string.
Proof. vm_compute. done. Qed.

Lemma prepared_encoding : url.Get "Content-Encoding" (sentHeader (prepared true version uid)) = "gzip"%string.
Proof. vm_compute. done. Qed.

(** A request changes nothing but the log, and is answered with an empty body. *)
Lemma roundTrip_empty method u h log :
  method = "GET"%string ∨ method = "POST"%string →
  ∃ line, roundTrip method u (h, log) = (Ok (MetaClient.mkResponse StatusOK "" (Ok [])), (h, log ++ [line])).
Proof.
  intros Hm. unfold roundTrip, routedServe. rewrite decide_True by done.
  destruct (wrapChain_nil loggingEnabled version uid panicText ck (clientRequest method u) h)
    as (resp & req' & -> & Hs & Hb & Hh). eexists. unfold received. rewrite Hs, Hh, Hb.
  assert (acceptsGzip (clientRequest method u) = true) as -> by (vm_compute; reflexivity).
  rewrite prepared_encoding, prepared_location, decide_True by done.
  change (gz_Close gz_new) with (gz_stream [] gz_new). by rewrite (gunzip_stream []).
Qed.

#[local] Existing Instance routedTransport.

(** ** What a client can do *)

(** The server under the client is the same. *)
Definition sameServer : relation Client := λ c c', (c_net c').1 = (c_net c).1.

#[local] Instance sameServer_preorder : PreOrder sameServer.
Proof. split; [done|]. intros c1 c2 c3 H1' H2'. unfold sameServer in *. congruence. Qed.

Lemma same_roundTrip method u n :
  method = "GET"%string ∨ method = "POST"%string → (roundTrip method u n).2.1 = n.1.
Proof. intros Hm. destruct n as [h log]. by destruct (roundTrip_empty method u h log Hm) as [line ->]. Qed.

Lemma same_onNet {A} (m : GoM net A) : (∀ n, (m n).2.1 = n.1) → preserves sameServer (onNet m).
Proof. intros Hm c. rewrite onNet_eq. apply Hm. Qed.

Lemma same_post u b : preserves sameServer (onNet (httpPost u b)).
Proof. apply same_onNet. intros n. apply same_roundTrip. by right. Qed.
Lemma same_get u : preserves sameServer (onNet (httpGet u)).
Proof. apply same_onNet. intros n. apply same_roundTrip. by left. Qed.
Lemma same_schedule : preserves sameServer (onNet schedule).
Proof. by apply same_onNet. Qed.
Lemma same_salt : preserves sameServer (onNet randomSalt).
Proof. by apply same_onNet. Qed.

#[local] Hint Resolve same_post same_get same_schedule same_salt : routing.

Ltac same :=
  repeat first
    [ done
    | apply _
    | progress (eauto with routing; try done)
    | apply preserves_bind; [apply _|..]; intros
    | apply preserves_for_each; [apply _|]; intros
    | apply preserves_attempt
    | case_match ].

Lemma same_other e : preserves sameServer (otherStep e).
Proof. intros c. unfold sameServer. by destruct (otherStep_frame e c) as [-> _]. Qed.
#[local] Hint Resolve same_other : routing.

Lemma same_exec u cmd : preserves sameServer (exec u cmd).
Proof. unfold exec. same. Qed.
#[local] Hint Resolve same_exec : routing.

Lemma same_waitStep idx w : preserves sameServer (waitStep idx w).
Proof. intros c. by rewrite waitStep_state. Qed.
#[local] Hint Resolve same_waitStep : routing.

Lemma same_waitLoop idx events w : preserves sameServer (waitLoop idx events w).
Proof. revert w. induction events; intros; cbn [waitLoop]; same. Qed.
#[local] Hint Resolve same_waitLoop : routing.

Lemma same_waitForIndex idx : preserves sameServer (waitForIndex idx).
Proof. unfold waitForIndex. same. Qed.

Lemma same_interleave : preserves sameServer interleave.
Proof. unfold interleave. same. Qed.
#[local] Hint Resolve same_waitForIndex same_interleave : routing.

Lemma same_retryExec fuel cmd tries cur redirect : preserves sameServer (retryExec fuel cmd tries cur redirect).
Proof. revert tries cur redirect. induction fuel; intros; cbn [retryExec]; same. Qed.

Lemma same_getSnapshot server idx : preserves sameServer (getSnapshot server idx).
Proof. unfold getSnapshot. same. Qed.
#[local] Hint Resolve same_retryExec same_getSnapshot : routing.

Lemma same_retryUntilSnapshot fuel cur idx : preserves sameServer (retryUntilSnapshot fuel cur idx).
Proof. revert cur. induction fuel; intros; cbn [retryUntilSnapshot]; same. Qed.

Lemma same_tryLease servers name : preserves sameServer (tryLease servers name).
Proof. induction servers; cbn [tryLease]; same. Qed.
#[local] Hint Resolve same_retryUntilSnapshot same_tryLease : routing.

Lemma same_leaseAttempts n name : preserves sameServer (leaseAttempts n name).
Proof. induction n; cbn [leaseAttempts]; unfold acquireLease; same. Qed.
#[local] Hint Resolve same_leaseAttempts : routing.

Lemma same_Open fuel : preserves sameServer (ClientOpen fuel).
Proof. unfold ClientOpen. same. Qed.

Lemma same_retryUntilExec cmd : preserves sameServer (retryUntilExec cmd).
Proof. unfold retryUntilExec. same. Qed.

Lemma same_Authenticate name pw : preserves sameServer (Authenticate name pw).
Proof. unfold Authenticate, saltedHash. same. Qed.

Lemma same_run_op o c : sameServer c (run_op o c).
Proof.
  destruct o; cbn [run_op];
    [done|done|unfold ClientClose; by destruct (c_closingCh c) as [[]|]|apply same_Open|apply (same_other (EvPoll body))
    |apply same_retryUntilExec|apply same_Authenticate|apply same_leaseAttempts].
Qed.

(** Neither a response nor a snapshot is empty: both have required fields. *)
Definition rejectsEmpty : Prop :=
  (∃ e, @response_Unmarshal base [] = Err e) ∧ (∃ e, decodeSnapshot [] = Err e).

Lemma exec_fails u cmd c i : rejectsEmpty → (exec u cmd c).1 ≠ Ok i.
Proof.
  intros [[e He] _]. unfold exec. gom_simpl. destruct (cmd_Marshal cmd) as [b|e'|]; [|done..].
  rewrite onNet_eq. destruct (c_net c) as [h log] eqn:En.
  destruct (roundTrip_empty "POST" u h log (or_intror eq_refl)) as [line Hrt]. cbn [httpPost routedTransport].
  rewrite Hrt. cbn. by rewrite He.
Qed.

Lemma getSnapshot_fails server idx c d : rejectsEmpty → (getSnapshot server idx c).1 ≠ Ok d.
Proof.
  intros [_ [e He]]. unfold getSnapshot. gom_simpl. rewrite onNet_eq. destruct (c_net c) as [h log] eqn:En.
  match goal with |- context [httpGet ?u] =>
    destruct (roundTrip_empty "GET" u h log (or_introl eq_refl)) as [line Hrt] end.
  cbn [httpGet routedTransport]. rewrite Hrt. cbn -[decodeSnapshot]. by rewrite He.
Qed.

(** A client keeps asking, and fails at last unless it is closed. *)
Lemma retryExec_fails fuel cmd tries cur redirect c c' : rejectsEmpty →
  retryExec fuel cmd tries cur redirect c = (Ok RetNil, c') → c_closing c' = true.
Proof.
  intros He. revert tries cur redirect c. induction fuel as [|fuel IH]; intros tries cur redirect c; [done|].
  cbn [retryExec]. gom_simpl. destruct (c_closing c) eqn:Hc; [by intros [= <-]|].
  match goal with |- match ?m with _ => _ end = _ → _ => assert (m.2 = c) as Hm by (repeat case_match; done);
    destruct m as [[[u cur']|e|] c1] end; [|done..]. cbn in Hm. subst c1.
  destruct (exec u cmd c) as [r c2] eqn:E. pose proof (exec_fails u cmd c) as Hf. rewrite E in Hf.
  destruct r as [i|e|]; [by destruct (Hf i He)| |done].
  destruct (maxRetries <? tries + 1); [done|].
  destruct e; try done; destruct (interleave c2) as [[?| |] c3]; try done; apply IH.
Qed.

Lemma retryUntilSnapshot_fails fuel cur idx c d : rejectsEmpty → (retryUntilSnapshot fuel cur idx c).1 ≠ Ok (Some (Some d)).
Proof.
  intros He. revert cur c. induction fuel as [|fuel IH]; intros cur c; [done|].
  cbn [retryUntilSnapshot]. gom_simpl. destruct (c_closing c); [done|].
  destruct (c_metaServers c !! _) as [server|]; [|done].
  pose proof (getSnapshot_fails server idx c) as Hf. destruct (getSnapshot server idx c) as [[d'|e|] c1]; [|apply IH|done].
  by destruct (Hf d' He).
Qed.

(** C13. As the routes are written, a meta server does nothing: whatever operations a
    client performs, in any order, the store and the leases of the server stay as
    they are.  A command returns nil only when the client has been closed, before
    or while it was retried, and in no case has it reached the store; and a client
    that is opened never gets its first snapshot. *)
Theorem routed_server_does_nothing ops h :
  rejectsEmpty →
  let c := fold_left (λ c o, run_op o c) ops (NewClient (h, [] : list string)) in
  (c_net c).1 = h ∧
  (∀ cmd, (c_net (retryUntilExec cmd c).2).1 = h ∧
     ((retryUntilExec cmd c).1 = Ok tt → c_closing (retryUntilExec cmd c).2 = true)) ∧
  (∀ fuel, (ClientOpen fuel c).1 ≠ Ok true).
Proof.
  intros He c.
  assert ((c_net c).1 = h) as Hh.
  { subst c. change h with (c_net (NewClient (h, [] : list string))).1 at 2.
    generalize (NewClient (h, [] : list string)). induction ops as [|o ops IH]; intros c0; [done|].
    cbn. rewrite IH. apply same_run_op. }
  split_and!; [done| |].
  - intros cmd. split; [rewrite <- Hh; apply same_retryUntilExec|]. unfold retryUntilExec. gom_simpl.
    pose proof (retryExec_fails (Z.to_nat maxRetries + 1) cmd 0 0 "" c) as Hf.
    destruct (retryExec _ _ _ _ _ c) as [[[]|e|] c1]; [|done..]. intros _. by apply Hf.
  - intros fuel. unfold ClientOpen. gom_simpl.
    match goal with |- context [retryUntilSnapshot fuel 0 0 ?c0] =>
      pose proof (λ d, retryUntilSnapshot_fails fuel 0 0 c0 d He) as Hf;
      destruct (retryUntilSnapshot fuel 0 0 c0) as [[[[d|]|]|e|] c1] end; [by destruct (Hf d)|done..].
Qed.

(** What the client receives from the whole chain is what [Handler.ServeHTTP], which
    leaves out what the middleware writes, answers. *)
Theorem routed_response now e path query body u h log method :
  method = "GET"%string ∨ method = "POST"%string →
  ∃ w line, Handler.ServeHTTP now e (mkRequest method path query body) (h, newWriter) = (Ok tt, (h, w)) ∧
    roundTrip method u (h, log) = (Ok (toResponse w), (h, log ++ [line])).
Proof.
  intros Hm. rewrite ServeHTTP_runs_no_handler. cbn [rq_Method]. rewrite decide_True by done.
  destruct (roundTrip_empty method u h log Hm) as [line Hr]. by exists newWriter, line.
Qed.

End routed.

(** ** A run *)

#[local] Existing Instances demo_oss demo_commands demo_raft demo_serving demo_client_oss demo_gzip demo_gzip_laws.

Definition demo_parse (u : string) : url.URL := url.mkURL "" "" None u false "".

Definition demo_routed : Transport := routedTransport demo_wire demo_parse "1.1" "id" " [panic]" (mkClock 0 0 0) true
  [EvPoll []; EvResume].

Definition demo_delete : Command := mkCommand DeleteMetaNodeCommand (Some (ExtDeleteMetaNode 1)).

(** A client opens itself, as far as three attempts go, and deletes a node: after
    fourteen requests, each with its line in the log, the node is still there. *)
Lemma routed_server_does_nothing_witness :
  let c := fold_left (λ c o, @run_op _ _ demo_routed o c)
             [op_SetMetaServers ["m0"%string; "m1"%string]; op_Open 3; op_exec demo_delete]
             (NewClient ((demo_handler, []) : @net demo_routed)) in
  (c_net c).1 = demo_handler ∧ length (c_net c).2 = 14%nat ∧ c_closing c = false ∧
  (retryUntilExec demo_delete c).1 ≠ Ok tt.
Proof.
  intros c.
  assert (rejectsEmpty demo_wire) as He by (split; eexists; vm_compute; reflexivity).
  destruct (routed_server_does_nothing demo_wire demo_parse "1.1" "id" " [panic]" (mkClock 0 0 0) true
    [EvPoll []; EvResume] [op_SetMetaServers ["m0"%string; "m1"%string]; op_Open 3; op_exec demo_delete]
    demo_handler He) as (Hh & Hx & _).
  split; [exact Hh|]. split; [vm_compute; reflexivity|]. split; [vm_compute; reflexivity|].
  intros Hn. apply Hx in Hn. vm_compute in Hn. discriminate.
Defined.
