(* ===== verification/Limiter.v ===== *)
(** * The rate limiter of the hinted handoff (hh/limiter.go)

    The limiter computes in float64; the arithmetic is that of the Standard
    Library's executable specification of IEEE 754 ([SpecFloat]) at the format of
    float64. *)

From Stdlib Require Import ZArith Lia SpecFloat.
From S2P Require Import Prelude GoLib.

Local Open Scope Z_scope.

(** ** float64 *)
Module float64.

Definition t : Type := spec_float.
Definition prec : Z := 53.
Definition emax : Z := 1024.

Definition add : t → t → t := SFadd prec emax.
Definition sub : t → t → t := SFsub prec emax.
Definition mul : t → t → t := SFmul prec emax.
Definition div : t → t → t := SFdiv prec emax.
Definition lt : t → t → bool := SFltb.

(** [float64(z)] *)
Definition ofInt (z : Z) : t := binary_normalize prec emax z 0 false.

(** The integer part, towards zero. *)
Definition trunc (s : bool) (m : positive) (e : Z) : Z :=
  let n := if 0 <=? e then Z.pos m * 2 ^ e else Z.pos m / 2 ^ (- e) in
  if s then - n else n.

(** [int64(x)]; what does not fit becomes the least number, as on amd64. *)
Definition toInt (x : t) : Z :=
  match x with
  | S754_zero _ => 0
  | S754_finite s m e =>
      let n := trunc s m e in
      if (- 2 ^ 63 <=? n) && (n <? 2 ^ 63) then n else - 2 ^ 63
  | _ => - 2 ^ 63
  end.

Definition half : t := S754_finite false (2 ^ 52)%positive (-53).
Definition one : t := ofInt 1.
Definition nano : t := S754_finite false 4835703278458517 (-82).   (* 1e-9 *)

End float64.

(** ** time *)

(** [d.Seconds()] *)
Definition Seconds (d : Z) : float64.t :=
  float64.add (float64.ofInt (Z.quot d time.Second))
    (float64.mul (float64.ofInt (Z.rem d time.Second)) float64.nano).

(** ** limiter.go *)

Record limiter : Type := mkLimiter {
  lm_count : Z;
  lm_limit : Z;
  lm_start : Z;
  lm_delay : float64.t;
}.

(** [NewRateLimiter(limit)] at the instant [now] *)
Definition NewRateLimiter (limit now : Z) : limiter := mkLimiter 0 limit now float64.half.

(** [Update(count)] *)
Definition lm_Update (count : Z) (t : limiter) : limiter :=
  mkLimiter (i64 (lm_count t + count)) (lm_limit t) (lm_start t) (lm_delay t).

(** [clamp(value, min, max)] *)
Definition clamp (value min max : float64.t) : float64.t :=
  if float64.lt value min then min
  else if float64.lt max value then max
  else value.

(** How far the rate is from the limit. *)
Definition adjustment (now : Z) (t : limiter) : float64.t :=
  let delta := Seconds (now - lm_start t) in
  let rate := float64.toInt (float64.div (float64.ofInt (lm_count t)) delta) in
  let delayAdj := float64.div (float64.ofInt (i64 (lm_limit t - rate))) (float64.ofInt (lm_limit t)) in
  clamp delayAdj (float64.ofInt (-1)) (float64.ofInt 1).

(** [Delay()] at the instant [now] *)
Definition lm_Delay (now : Z) (t : limiter) : Z * limiter :=
  if 0 <? lm_limit t then
    let delay := float64.sub (lm_delay t) (adjustment now t) in
    let delay := if float64.lt delay (float64.ofInt 0) then float64.ofInt 0 else delay in
    (i64 (float64.toInt delay * time.Second), mkLimiter (lm_count t) (lm_limit t) (lm_start t) delay)
  else (0, t).

(** ** What it returns *)

Lemma trunc_nonneg m e : 0 ≤ float64.trunc false m e.
Proof.
  unfold float64.trunc. destruct (Z.leb_spec 0 e).
  - pose proof (Z.pow_nonneg 2 e). nia.
  - apply Z.div_pos; [lia|]. apply Z.pow_pos_nonneg; lia.
Qed.

(** A number that is not below zero: its integer part, or the least int64 when it
    is too large or not a number. *)
Lemma toInt_nonneg x : float64.lt x (float64.ofInt 0) = false →
  0 ≤ float64.toInt x ∨ float64.toInt x = - 2 ^ 63.
Proof.
  destruct x as [s|s| |s m e]; [by left|by right|by right|]. intros Hx. cbn [float64.toInt].
  destruct ((- 2 ^ 63 <=? _) && _); [|by right]. left. destruct s; [by vm_compute in Hx|].
  apply trunc_nonneg.
Qed.

(** The wait is a whole number of seconds, never negative, and none without a
    limit; the stored delay is never below zero. *)
Theorem Delay_whole_seconds now t :
  let '(d, t') := lm_Delay now t in
  (lm_limit t ≤ 0 → d = 0 ∧ t' = t) ∧
  (0 < lm_limit t → float64.lt (lm_delay t') (float64.ofInt 0) = false) ∧
  ∃ k, 0 ≤ k ∧ d = i64 (k * time.Second).
Proof.
  unfold lm_Delay. destruct (Z.ltb_spec 0 (lm_limit t)) as [Hl|Hl].
  - set (x := float64.sub _ _).
    assert (Hx : float64.lt (if float64.lt x (float64.ofInt 0) then float64.ofInt 0 else x) (float64.ofInt 0) = false)
      by (destruct (float64.lt x (float64.ofInt 0)) eqn:E; [reflexivity|exact E]).
    split_and!; [lia|done|]. destruct (toInt_nonneg _ Hx) as [Hn|Hn]; [by eexists|].
    exists 0. split; [done|]. by rewrite Hn.
  - split_and!; [done|lia|]. by exists 0.
Qed.

(** A process at three times its limit, one batch a second: the waits after each
    batch. *)
Fixpoint waits (n : nat) (batch now : Z) (t : limiter) : list Z :=
  match n with
  | O => []
  | S n' =>
      let '(d, t') := lm_Delay now (lm_Update batch t) in
      d :: waits n' batch (now + time.Second) t'
  end.

(** The wait exceeds the documented second, by one more with every batch; a rate
    that is one and a half times too high is not delayed at first. *)
Theorem Delay_exceeds_a_second :
  waits 8 3000 time.Second (NewRateLimiter 1000 0) = (λ k, k * time.Second) <$> [1; 2; 3; 4; 5; 6; 7; 8] ∧
  (lm_Delay time.Second (lm_Update 1499 (NewRateLimiter 1000 0))).1 = 0.
Proof. vm_compute. done. Qed.
