(* ===== verification/Pacing.v ===== *)
(** * The sending loop with its rate limiter (hh/node_processor.go, [run])

    [NodeProcessor.retryLoop] leaves out the waits between two blocks.  Here is the
    loop with the limiter of [Limiter]; it sends the same blocks. *)

From Stdlib Require Import ZArith Lia.
From S2P Require Import Prelude GoLib Segment Queue NodeProcessor Limiter.

Local Open Scope Z_scope.

Section pacing.
  Context `{Handoff}.
  (** The instant at which the limiter is asked for the k-th time. *)
  Context (clock : nat → Z).

(** The sending loop of one retry tick with the waits: the next interval, and how
    long each wait is. *)
Fixpoint pacedLoop (fuel k : nat) (lim : limiter) (currInterval : Z) : GoM sys (option Z * list Z) :=
  match fuel with
  | O => mret (None, [])
  | S fuel' =>
      s ← get_state;
      r ← attempt SendWrite;
      match r with
      | inl EOF => mret (Some (np_RetryInterval (sy_np s)), [])
      | inl _ => mret (Some (backoff (sy_np s) currInterval), [])
      | inr c =>
          let '(d, lim') := lm_Delay (clock k) (lm_Update c lim) in
          x ← pacedLoop fuel' (S k) lim' (np_RetryInterval (sy_np s));
          mret (x.1, d :: x.2)
      end
  end.

(** One retry tick: a new limiter every time. *)
Definition pacedTick (fuel : nat) (now currInterval : Z) : GoM sys (option Z * list Z) :=
  s ← get_state;
  pacedLoop fuel 0 (NewRateLimiter (np_RetryRateLimit (sy_np s)) now) currInterval.

(** A wait that the limiter may ask for. *)
Definition wait (limit d : Z) : Prop :=
  (limit ≤ 0 → d = 0) ∧ ∃ k, 0 ≤ k ∧ d = i64 (k * time.Second).

Lemma Delay_wait now t : wait (lm_limit t) (lm_Delay now t).1 ∧ lm_limit (lm_Delay now t).2 = lm_limit t.
Proof.
  pose proof (Delay_whole_seconds now t) as Hd. unfold wait.
  assert (lm_limit (lm_Delay now t).2 = lm_limit t) as -> by (unfold lm_Delay; by destruct (0 <? _)).
  destruct (lm_Delay now t) as [d t']. destruct Hd as (H1 & _ & H2). cbn [fst].
  split_and!; [|done|done]. intros Hl. by apply H1.
Qed.

(** The loop with its waits does what the loop without them does. *)
Theorem pacedLoop_retryLoop fuel k lim currInterval s :
  ∃ ds, Forall (wait (lm_limit lim)) ds ∧
    pacedLoop fuel k lim currInterval s =
    let '(r, s') := retryLoop fuel currInterval s in
    (match r with Ok i => Ok (i, ds) | Err e => Err e | Panics => Panics end, s').
Proof.
  revert k lim currInterval s. induction fuel as [|fuel IH]; intros k lim currInterval s; [by exists []|].
  cbn [pacedLoop retryLoop]. gom_simpl. unfold attempt.
  destruct (SendWrite s) as [[c|e|] s1]; [|by exists []; destruct e|by exists []].
  destruct (Delay_wait (clock k) (lm_Update c lim)) as [Hw Hl].
  destruct (lm_Delay (clock k) (lm_Update c lim)) as [d lim']. cbn [fst snd] in *.
  destruct (IH (S k) lim' (np_RetryInterval (sy_np s)) s1) as (ds & Hds & E). rewrite E, Hl in *.
  exists (d :: ds). split; [by constructor|]. by destruct (retryLoop fuel _ s1) as [[i|e|] s2].
Qed.

End pacing.
