(* ===== verification/Configs.v ===== *)
(** * Configurations (meta/config.go and cluster/config.go)

    The records with their defaults, validation, addresses, and the overrides
    from the environment, which walk over the fields by reflection. *)

From Stdlib Require Import ZArith Lia.
From Stdlib Require Import Strings.Ascii Strings.String.
From S2P Require Import Prelude GoLib GoText.

Local Open Scope Z_scope.

(** ** meta/config.go *)

Record MetaConfig : Type := mkMetaConfig {
  mcf_Enabled : bool;
  mcf_Dir : string;
  mcf_RemoteHostname : string;
  mcf_BindAddress : string;
  mcf_HTTPBindAddress : string;
  mcf_HTTPSEnabled : bool;
  mcf_HTTPSCertificate : string;
  mcf_RetentionAutoCreate : bool;
  mcf_Gossipfrequency : Z;
  mcf_Announcementexpiration : Z;
  mcf_ElectionTimeout : Z;
  mcf_HeartbeatTimeout : Z;
  mcf_LeaderLeaseTimeout : Z;
  mcf_CommitTimeout : Z;
  mcf_ClusterTracing : bool;
  mcf_RaftPromotionEnabled : bool;
  mcf_LoggingEnabled : bool;
  mcf_PprofEnabled : bool;
  mcf_LeaseDuration : Z;
}.

Definition DefaultHostname : string := "localhost".
Definition DefaultRaftBindAddress : string := ":8088".
Definition DefaultHTTPBindAddress : string := ":8091".
Definition DefaultHeartbeatTimeout : Z := 1000 * time.Millisecond.
Definition DefaultElectionTimeout : Z := 1000 * time.Millisecond.
Definition DefaultGossipFrequency : Z := 5 * 1000 * time.Millisecond.
Definition DefaultAnnouncementExpiration : Z := 30 * 1000 * time.Millisecond.
Definition DefaultLeaderLeaseTimeout : Z := 500 * time.Millisecond.
Definition DefaultCommitTimeout : Z := 50 * time.Millisecond.
Definition DefaultLeaseDuration : Z := 60 * time.Second.

(** [NewConfig()]: the part [Meta] of a Config. *)
Definition NewConfig : MetaConfig :=
  mkMetaConfig true "" "" DefaultRaftBindAddress DefaultHTTPBindAddress false "" true
    DefaultGossipFrequency DefaultAnnouncementExpiration DefaultElectionTimeout
    DefaultHeartbeatTimeout DefaultLeaderLeaseTimeout DefaultCommitTimeout false true true false
    DefaultLeaseDuration.

Definition set_Dir (dir : string) (c : MetaConfig) : MetaConfig :=
  mkMetaConfig (mcf_Enabled c) dir (mcf_RemoteHostname c) (mcf_BindAddress c) (mcf_HTTPBindAddress c)
    (mcf_HTTPSEnabled c) (mcf_HTTPSCertificate c) (mcf_RetentionAutoCreate c) (mcf_Gossipfrequency c)
    (mcf_Announcementexpiration c) (mcf_ElectionTimeout c) (mcf_HeartbeatTimeout c)
    (mcf_LeaderLeaseTimeout c) (mcf_CommitTimeout c) (mcf_ClusterTracing c)
    (mcf_RaftPromotionEnabled c) (mcf_LoggingEnabled c) (mcf_PprofEnabled c) (mcf_LeaseDuration c).

(** [filepath.Join(dir, name)] for a clean relative [name]. *)
Definition joinPath (dir name : string) : string :=
  if decide (dir = ""%string) then name else (dir +:+ "/" +:+ name)%string.

(** [NewDemoConfig()], given the home directory of the current user, if there is
    one, and HOME.  The directory is set before the home directory is known. *)
Definition NewDemoConfig (userHome : option string) (HOME : string) : option MetaConfig :=
  let c := set_Dir (joinPath "" ".influxdb/meta") NewConfig in
  match userHome with
  | Some _ => Some c
  | None => if decide (HOME = ""%string) then None else Some c
  end.

(** [Validate()] *)
Definition Validate (m : MetaConfig) : res unit :=
  if decide (mcf_Dir m = ""%string) then Err (errorf "Meta.Dir must be specified") else Ok tt.

(** [DefaultHost(hostname, addr)] *)
Definition DefaultHost (hostname addr : string) : res string :=
  '(host, port) ← net.SplitHostPort addr;
  if decide (host = "" ∨ host = "0.0.0.0" ∨ host = "::")%string
  then Ok (net.JoinHostPort hostname port) else Ok addr.

(** [c.defaultHost(addr)] *)
Definition defaultHost (addr : string) : string :=
  match DefaultHost DefaultHostname addr with Ok a => a | _ => addr end.

(** ** Reflection

    A value as the override function tells its kinds apart.  [VStruct] is a
    struct or a pointer to one, with the name, the toml tag and [CanSet] of every
    field; [VSlice] is a slice (no configuration has an array); [VUint] is an unsigned
    integer, which only the configuration of a data node overrides; [VOther] is any
    other kind, nil pointers and pointers to something else included. *)
#[warnings="-register-all"] Inductive value : Type :=
  | VString (s : string)
  | VInt (duration : bool) (bits : Z) (z : Z)
  | VBool (b : bool)
  | VFloat (bits : Z)
  | VSlice (vs : list value)
  | VStruct (fs : list (string * string * bool * value))
  | VOther
  | VUint (bits : Z) (z : Z).

(** Floating point and durations, whose fractions are computed in floating
    point, are not modelled. *)
Class Parsers : Type := {
  ParseDuration : string → option Z;
  ParseFloat : string → option Z;
}.

(** A loop over elements that are changed in place, with their indexes; the first
    error ends it. *)
Definition eachElem {A} (f : nat → A → res unit * A) : nat → list A → res unit * list A :=
  fix go (i : nat) (l : list A) :=
    match l with
    | [] => (Ok tt, [])
    | x :: l' =>
        match f i x with
        | (Ok _, x1) => let '(r, l1) := go (S i) l' in (r, x1 :: l1)
        | (r, x1) => (r, x1 :: l')
        end
    end.

Section overrides.
  Context `{Parsers}.
  (** [os.Getenv], which gives the empty text for an unset variable. *)
  Context (Getenv : string → string).

Definition failedToApply : error := errorf "failed to apply".

(** Setting a field of a basic kind from a value that is not empty. *)
Definition setScalar (val : string) (v : value) : res value :=
  match v with
  | VString _ => Ok (VString val)
  | VInt true bits _ => of_option failedToApply (VInt true bits <$> ParseDuration val)
  | VInt false bits _ => of_option failedToApply (VInt false bits <$> parse.ParseInt0 val bits)
  | VBool _ => of_option failedToApply (VBool <$> parse.ParseBool val)
  | VFloat _ => of_option failedToApply (VFloat <$> ParseFloat val)
  | _ => Ok v
  end.

Definition overrideScalar (key : string) (v : value) : res value :=
  if decide (Getenv key = ""%string) then Ok v else setScalar (Getenv key) v.

(** The variable of a field. *)
Definition envKey (prefix tag : string) : string :=
  if decide (prefix = ""%string) then parse.ToUpper (parse.hyphens tag)
  else parse.ToUpper (prefix +:+ "_" +:+ parse.hyphens tag)%string.

Definition elemKey (key : string) (i : nat) : string :=
  (key +:+ "_" +:+ strconv.FormatUint (Z.of_nat i))%string.

(** [applyEnvOverrides(prefix, spec)]: the outcome, and the value as it is left;
    fields are set in place, also when an error follows. *)
Fixpoint applyEnvOverrides (prefix : string) (spec : value) {struct spec} : res unit * value :=
  match spec with
  | VStruct fs =>
      let '(r, fs') := eachElem (λ _ '(name, tag, canSet, f),
        let key := envKey prefix tag in
        let '(r, f1) :=
          match f with
          | VSlice vs =>
              let '(r, vs1) := eachElem (λ i v, applyEnvOverrides (elemKey key i) v) 0 vs in
              (r, VSlice vs1)
          | VStruct _ => if canSet : bool then applyEnvOverrides key f else (Ok tt, f)
          | _ =>
              if canSet : bool
              then match overrideScalar key f with
                   | Ok f1 => (Ok tt, f1)
                   | Err e => (Err e, f)
                   | Panics => (Panics, f)
                   end
              else (Ok tt, f)
          end in
        (r, (name, tag, canSet, f1))) 0 fs in
      (r, VStruct fs')
  | _ => (Ok tt, spec)
  end.

End overrides.

(** The fields of a MetaConfig as reflection sees them, and of the Config around
    it. *)
Definition reflectMeta (m : MetaConfig) : value := VStruct [
  ("Enabled", "enabled", true, VBool (mcf_Enabled m));
  ("Dir", "dir", true, VString (mcf_Dir m));
  ("RemoteHostname", "-", true, VString (mcf_RemoteHostname m));
  ("BindAddress", "bind-address", true, VString (mcf_BindAddress m));
  ("HTTPBindAddress", "http-bind-address", true, VString (mcf_HTTPBindAddress m));
  ("HTTPSEnabled", "https-enabled", true, VBool (mcf_HTTPSEnabled m));
  ("HTTPSCertificate", "https-certificate", true, VString (mcf_HTTPSCertificate m));
  ("RetentionAutoCreate", "retention-autocreate", true, VBool (mcf_RetentionAutoCreate m));
  ("Gossipfrequency", "gossip-frequency", true, VInt true 64 (mcf_Gossipfrequency m));
  ("Announcementexpiration", "announcement-expiration", true, VInt true 64 (mcf_Announcementexpiration m));
  ("ElectionTimeout", "election-timeout", true, VInt true 64 (mcf_ElectionTimeout m));
  ("HeartbeatTimeout", "heartbeat-timeout", true, VInt true 64 (mcf_HeartbeatTimeout m));
  ("LeaderLeaseTimeout", "leader-lease-timeout", true, VInt true 64 (mcf_LeaderLeaseTimeout m));
  ("CommitTimeout", "commit-timeout", true, VInt true 64 (mcf_CommitTimeout m));
  ("ClusterTracing", "cluster-tracing", true, VBool (mcf_ClusterTracing m));
  ("RaftPromotionEnabled", "raft-promotion-enabled", true, VBool (mcf_RaftPromotionEnabled m));
  ("LoggingEnabled", "logging-enabled", true, VBool (mcf_LoggingEnabled m));
  ("PprofEnabled", "pprof-enabled", true, VBool (mcf_PprofEnabled m));
  ("LeaseDuration", "lease-duration", true, VInt true 64 (mcf_LeaseDuration m))]%string.

Definition reflectConfig (m : MetaConfig) : value := VStruct [("Meta", "meta", true, reflectMeta m)]%string.

(** [c.ApplyEnvOverrides()] *)
Definition ApplyEnvOverrides `{Parsers} (Getenv : string → string) (m : MetaConfig) : res unit * value :=
  applyEnvOverrides Getenv "INFLUXDB" (reflectConfig m).

(** ** cluster/config.go *)

Record ClusterConfig : Type := mkClusterConfig {
  ccf_DialTimeout : Z;
  ccf_ShardWriterTimeout : Z;
  ccf_ShardReaderTimeout : Z;
  ccf_MaxRemoteWriteConnections : Z;
  ccf_ClusterTracing : bool;
  ccf_WriteTimeout : Z;
  ccf_MaxConcurrentQueries : Z;
  ccf_QueryTimeout : Z;
  ccf_LogQueriesAfter : Z;
  ccf_MaxSelectPointN : Z;
  ccf_MaxSelectSeriesN : Z;
  ccf_MaxSelectBucketsN : Z;
}.

(** [cluster.NewConfig()]; the default query timeout is influxql's. *)
Definition NewClusterConfig (DefaultQueryTimeout : Z) : ClusterConfig :=
  mkClusterConfig (1 * time.Second) (5 * time.Second) (5 * time.Second) 3 false (5 * time.Second) 0
    DefaultQueryTimeout 0 0 0 0.
