(* ===== verification/ConfigTheorems.v ===== *)
(** * Properties of the configurations

    Overrides from the environment against the list of settings they stand for,
    and the addresses of a server. *)

From Stdlib Require Import ZArith Lia.
From Stdlib Require Import Strings.Ascii Strings.String.
From S2P Require Import Prelude GoLib GoText Configs.

Local Open Scope Z_scope.

(** ** Values *)

(** Induction over a value and everything inside it. *)
Lemma value_rect' (P : value → Prop) :
  (∀ v, match v with VSlice _ | VStruct _ => False | _ => True end → P v) →
  (∀ vs, Forall P vs → P (VSlice vs)) →
  (∀ fs, Forall (λ x, P x.2) fs → P (VStruct fs)) →
  ∀ v, P v.
Proof.
  intros Hs Hv Hf. fix IH 1. intros [s|d b z|b|z|vs|fs| |]; [by apply Hs..| | |by apply Hs|by apply Hs].
  - apply Hv. induction vs as [|v vs IHvs]; constructor; [apply IH|exact IHvs].
  - apply Hf. induction fs as [|[x v] fs IHfs]; constructor; [apply IH|exact IHfs].
Qed.

(** The lists of all elements, with their indexes. *)
Definition collectElems {A B} (f : nat → A → list B) : nat → list A → list B :=
  fix go (i : nat) (l : list A) :=
    match l with [] => [] | x :: l' => f i x ++ go (S i) l' end.

(** The settings inside a value: the variable and the value of every scalar that
    an override can reach. *)
Fixpoint settings (prefix : string) (v : value) {struct v} : list (string * value) :=
  match v with
  | VStruct fs => collectElems (λ _ '(name, tag, canSet, f),
      let key := envKey prefix tag in
      match f with
      | VSlice vs => collectElems (λ i v, settings (elemKey key i) v) 0 vs
      | VStruct _ => if canSet : bool then settings key f else []
      | _ => if canSet : bool then [(key, f)] else []
      end) 0 fs
  | _ => []
  end.

Section overrides.
  Context `{Parsers} (Getenv : string → string).

Definition overrideSetting (x : string * value) : res (string * value) :=
  v ← overrideScalar Getenv x.1 x.2; Ok (x.1, v).

(** A call whose effect on the settings is to override each, and which changes
    nothing when it is repeated. *)
Definition overrides {A} (lv : A → list (string * value)) (f : A → res unit * A) (x : A) : Prop :=
  match mapM overrideSetting (lv x) with
  | Ok ls => (f x).1 = Ok tt ∧ lv (f x).2 = ls ∧ f (f x).2 = (Ok tt, (f x).2)
  | Err e => (f x).1 = Err e
  | Panics => (f x).1 = Panics
  end.

Lemma mapM_app_res {A B} (f : A → res B) l k :
  mapM f (l ++ k) = (x ← mapM f l; y ← mapM f k; Ok (x ++ y)).
Proof.
  induction l as [|a l IH]; cbn; [by destruct (mapM f k)|].
  destruct (f a); cbn; [|done..]. rewrite IH. destruct (mapM f l); cbn; [|done..]. by destruct (mapM f k).
Qed.

Lemma eachElem_overrides {A} (f : nat → A → res unit * A) (lv : nat → A → list (string * value)) i l :
  Forall (λ x, ∀ i, overrides (lv i) (f i) x) l → overrides (collectElems lv i) (eachElem f i) l.
Proof.
  intros Hl. revert i. induction Hl as [|x l Hx _ IH]; intros i; [done|]. unfold overrides. cbn.
  rewrite mapM_app_res. specialize (Hx i). specialize (IH (S i)). unfold overrides in Hx, IH.
  destruct (mapM overrideSetting (lv i x)) as [ls|e|]; cbn;
    destruct (f i x) as [r x1] eqn:Ef; cbn in Hx; [|by subst..].
  destruct Hx as (-> & Hv & Hf).
  fold (collectElems lv) (eachElem f).
  destruct (mapM overrideSetting (collectElems lv (S i) l)) as [ls2| |]; cbn;
    destruct (eachElem f (S i) l) as [r l1]; cbn in *; [|done..].
  destruct IH as (-> & Hl & He). by rewrite Hv, Hl, Hf, He.
Qed.

Lemma overrideScalar_again key v v' :
  overrideScalar Getenv key v = Ok v' → overrideScalar Getenv key v' = Ok v'.
Proof.
  unfold overrideScalar. case_decide; [done|]. destruct v as [s|[] b z|b|z|vs|fs| |]; cbn;
    try (by intros [= <-]);
    match goal with |- context [?f (Getenv key)] => destruct (f (Getenv key)) eqn:E
                  | |- context [?f (Getenv key) ?b] => destruct (f (Getenv key) b) eqn:E end; cbn;
    try done; intros [= <-]; cbn; by rewrite E.
Qed.

(** The bodies of the two loops over the fields. *)
Definition applyField (prefix : string) (_ : nat) (x : string * string * bool * value)
    : res unit * (string * string * bool * value) :=
  let '(name, tag, canSet, f) := x in
  let key := envKey prefix tag in
  let '(r, f1) :=
    match f with
    | VSlice vs =>
        let '(r, vs1) := eachElem (λ i v, applyEnvOverrides Getenv (elemKey key i) v) 0 vs in
        (r, VSlice vs1)
    | VStruct _ => if canSet : bool then applyEnvOverrides Getenv key f else (Ok tt, f)
    | _ =>
        if canSet : bool
        then match overrideScalar Getenv key f with
             | Ok f1 => (Ok tt, f1)
             | Err e => (Err e, f)
             | Panics => (Panics, f)
             end
        else (Ok tt, f)
    end in
  (r, (name, tag, canSet, f1)).

Definition settingsField (prefix : string) (_ : nat) (x : string * string * bool * value)
    : list (string * value) :=
  let '(name, tag, canSet, f) := x in
  let key := envKey prefix tag in
  match f with
  | VSlice vs => collectElems (λ i v, settings (elemKey key i) v) 0 vs
  | VStruct _ => if canSet : bool then settings key f else []
  | _ => if canSet : bool then [(key, f)] else []
  end.

Definition covered (v : value) : Prop := ∀ prefix,
  overrides (settings prefix) (applyEnvOverrides Getenv prefix) v.

Lemma scalar_kept key v v' :
  overrideScalar Getenv key v = Ok v' →
  match v, v' with
  | VString _, VString _ | VInt _ _ _, VInt _ _ _ | VBool _, VBool _ | VFloat _, VFloat _ => True
  | _, _ => v = v'
  end.
Proof.
  unfold overrideScalar. case_decide; [intros [= ->]; by destruct v'|].
  destruct v as [s|[] b z|b|z|vs|fs| |]; cbn; try (by intros [= <-]);
    unfold of_option; case_match eqn:E; try done; intros [= <-];
    apply fmap_Some in E as (? & _ & ->); done.
Qed.

Lemma field_scalar prefix i name tag canSet f :
  match f with VSlice _ | VStruct _ => False | _ => True end →
  overrides (settingsField prefix i) (applyField prefix i) (name, tag, canSet, f).
Proof.
  intros Hf. unfold overrides.
  assert (settingsField prefix i (name, tag, canSet, f) =
    if canSet then [(envKey prefix tag, f)] else []) as -> by (by destruct f).
  assert (∀ g, match g with VSlice _ | VStruct _ => False | _ => True end →
    applyField prefix i (name, tag, canSet, g) =
    let '(r, f1) := if canSet then match overrideScalar Getenv (envKey prefix tag) g with
                                   | Ok f1 => (Ok tt, f1) | Err e => (Err e, g) | Panics => (Panics, g)
                                   end
                    else (Ok tt, g) in (r, (name, tag, canSet, f1))) as Ha by (by intros []).
  revert Ha. generalize (applyField prefix i). intros af Ha. rewrite (Ha f Hf). destruct canSet; cbn.
  - unfold overrideSetting. cbn.
    destruct (overrideScalar Getenv (envKey prefix tag) f) as [f1| |] eqn:E; cbn; [|done..].
    assert (match f1 with VSlice _ | VStruct _ => False | _ => True end) as Hf1
      by (apply scalar_kept in E; destruct f, f1; done).
    split_and!; [done|by destruct f1|]. rewrite (Ha f1 Hf1). by rewrite (overrideScalar_again _ _ _ E).
  - split_and!; [done|by destruct f|]. by rewrite (Ha f Hf).
Qed.

Lemma field_overrides prefix i x :
  covered x.2 → match x.2 with VSlice vs => Forall covered vs | _ => True end →
  overrides (settingsField prefix i) (applyField prefix i) x.
Proof.
  destruct x as [[[name tag] canSet] f]. cbn [snd]. intros Hf Hs.
  destruct f as [s|d b z|b|z|vs|fs| |]; [by apply field_scalar..| | |by apply field_scalar|by apply field_scalar].
  - pose proof (eachElem_overrides (λ i v, applyEnvOverrides Getenv (elemKey (envKey prefix tag) i) v)
      (λ i v, settings (elemKey (envKey prefix tag) i) v) 0 vs) as Hl.
    unfold overrides in Hl |- *. cbn [settingsField applyField].
    specialize (Hl (Forall_impl _ _ _ Hs (λ v Hv i, Hv _))).
    destruct (mapM overrideSetting _) as [ls| |];
      destruct (eachElem _ 0 vs) as [r vs1]; cbn in *; [|done..].
    destruct Hl as (-> & Hl & He). split_and!; [done|done|]. by rewrite He.
  - unfold overrides. cbn [settingsField]. destruct canSet.
    + specialize (Hf (envKey prefix tag)). unfold overrides in Hf. unfold applyField.
      destruct (mapM overrideSetting _) as [ls| |];
        destruct (applyEnvOverrides Getenv (envKey prefix tag) (VStruct fs)) as [r f1] eqn:E;
        cbn [fst snd] in *; [|done..].
      assert (∃ fs1, f1 = VStruct fs1) as [fs1 ->].
      { cbn in E. destruct (eachElem _ 0 fs) as [? fs1]. injection E as _ <-. eauto. }
      destruct Hf as (-> & Hl & He). split_and!; [done|done|]. by rewrite He.
    + done.
Qed.

Lemma applyEnvOverrides_covered v :
  covered v ∧ match v with VSlice vs => Forall covered vs | _ => True end.
Proof.
  induction v as [v Hv|vs Hvs|fs Hfs] using value_rect'.
  - split; [by destruct v|by destruct v].
  - split; [done|]. eapply Forall_impl; [exact Hvs|]. by intros v [].
  - split; [|done]. intros prefix.
    pose proof (eachElem_overrides (applyField prefix) (settingsField prefix) 0 fs) as Hl.
    unfold overrides in Hl |- *.
    change (settings prefix (VStruct fs)) with (collectElems (settingsField prefix) 0 fs).
    assert (∀ gs, applyEnvOverrides Getenv prefix (VStruct gs) =
      let '(r, gs') := eachElem (applyField prefix) 0 gs in (r, VStruct gs')) as Ha by done.
    rewrite Ha. specialize (Hl (Forall_impl _ _ _ Hfs (λ x Hx i, field_overrides prefix i x (proj1 Hx) (proj2 Hx)))).
    destruct (mapM overrideSetting _) as [ls| |]; destruct (eachElem _ 0 fs) as [r fs1]; cbn [fst snd] in *;
      [|done..].
    destruct Hl as (-> & Hl & He). split_and!; [done|exact Hl|]. by rewrite Ha, He.
Qed.

(** Overriding a configuration from the environment is the same as overriding
    its settings one by one: the walk over the fields succeeds exactly when every
    setting whose variable is not empty can be parsed, and then each setting has
    the value of its variable or is unchanged; the first setting that cannot be
    parsed gives the error.  Applying the overrides once more changes nothing. *)
Theorem applyEnvOverrides_by_setting prefix v :
  let x := applyEnvOverrides Getenv prefix v in
  match mapM overrideSetting (settings prefix v) with
  | Ok ls => x.1 = Ok tt ∧ settings prefix x.2 = ls ∧ applyEnvOverrides Getenv prefix x.2 = (Ok tt, x.2)
  | Err e => x.1 = Err e
  | Panics => x.1 = Panics
  end.
Proof. apply applyEnvOverrides_covered. Qed.

(** ** The settings of a meta node

    The nineteen settings by the names of their variables. *)

(** A setting that is text, and one that is read by a parser: an empty variable leaves
    it alone. *)
Definition textSetting (var old : string) : string :=
  match Getenv var with EmptyString => old | val => val end.

Definition parsedSetting {A} (parser : string → option A) (var : string) (old : A) : res A :=
  match Getenv var with
  | EmptyString => Ok old
  | val => match parser val with Some a => Ok a | None => Err failedToApply end
  end.

Definition configured (m : MetaConfig) : res MetaConfig :=
  let flag := parsedSetting parse.ParseBool in
  let duration := parsedSetting ParseDuration in
  enabled ← flag "INFLUXDB_META_ENABLED"%string (mcf_Enabled m);
  let dir := textSetting "INFLUXDB_META_DIR" (mcf_Dir m) in
  let remote := textSetting "INFLUXDB_META__" (mcf_RemoteHostname m) in
  let bind := textSetting "INFLUXDB_META_BIND_ADDRESS" (mcf_BindAddress m) in
  let http := textSetting "INFLUXDB_META_HTTP_BIND_ADDRESS" (mcf_HTTPBindAddress m) in
  https ← flag "INFLUXDB_META_HTTPS_ENABLED"%string (mcf_HTTPSEnabled m);
  let certificate := textSetting "INFLUXDB_META_HTTPS_CERTIFICATE" (mcf_HTTPSCertificate m) in
  autocreate ← flag "INFLUXDB_META_RETENTION_AUTOCREATE"%string (mcf_RetentionAutoCreate m);
  gossip ← duration "INFLUXDB_META_GOSSIP_FREQUENCY"%string (mcf_Gossipfrequency m);
  announcement ← duration "INFLUXDB_META_ANNOUNCEMENT_EXPIRATION"%string (mcf_Announcementexpiration m);
  election ← duration "INFLUXDB_META_ELECTION_TIMEOUT"%string (mcf_ElectionTimeout m);
  heartbeat ← duration "INFLUXDB_META_HEARTBEAT_TIMEOUT"%string (mcf_HeartbeatTimeout m);
  leader ← duration "INFLUXDB_META_LEADER_LEASE_TIMEOUT"%string (mcf_LeaderLeaseTimeout m);
  commit ← duration "INFLUXDB_META_COMMIT_TIMEOUT"%string (mcf_CommitTimeout m);
  tracing ← flag "INFLUXDB_META_CLUSTER_TRACING"%string (mcf_ClusterTracing m);
  promotion ← flag "INFLUXDB_META_RAFT_PROMOTION_ENABLED"%string (mcf_RaftPromotionEnabled m);
  logging ← flag "INFLUXDB_META_LOGGING_ENABLED"%string (mcf_LoggingEnabled m);
  pprof ← flag "INFLUXDB_META_PPROF_ENABLED"%string (mcf_PprofEnabled m);
  lease ← duration "INFLUXDB_META_LEASE_DURATION"%string (mcf_LeaseDuration m);
  Ok (mkMetaConfig enabled dir remote bind http https certificate autocreate gossip announcement election heartbeat
        leader commit tracing promotion logging pprof lease).

Lemma override_text var old : overrideScalar Getenv var (VString old) = Ok (VString (textSetting var old)).
Proof. unfold overrideScalar, textSetting. destruct (Getenv var) eqn:E; [by rewrite decide_True|by rewrite decide_False]. Qed.

Lemma override_flag var old :
  overrideScalar Getenv var (VBool old) = (b ← parsedSetting parse.ParseBool var old; Ok (VBool b)).
Proof.
  unfold overrideScalar, parsedSetting. destruct (Getenv var) eqn:E; [by rewrite decide_True|].
  rewrite decide_False by done. cbn [setScalar]. by destruct (parse.ParseBool _).
Qed.

Lemma override_duration var old :
  overrideScalar Getenv var (VInt true 64 old) = (d ← parsedSetting ParseDuration var old; Ok (VInt true 64 d)).
Proof.
  unfold overrideScalar, parsedSetting. destruct (Getenv var) eqn:E; [by rewrite decide_True|].
  rewrite decide_False by done. cbn [setScalar]. by destruct (ParseDuration _).
Qed.

(** The fields after a scalar that was overridden. *)
Lemma eachElem_scalar prefix key i name tag v l :
  envKey prefix tag = key → match v with VSlice _ | VStruct _ => False | _ => True end →
  eachElem (applyField prefix) i ((name, tag, true, v) :: l) =
  match overrideScalar Getenv key v with
  | Ok v1 => let '(r, l1) := eachElem (applyField prefix) (S i) l in (r, (name, tag, true, v1) :: l1)
  | Err e => (Err e, (name, tag, true, v) :: l)
  | Panics => (Panics, (name, tag, true, v) :: l)
  end.
Proof.
  intros <- Hv. cbn [eachElem]. fold (eachElem (applyField prefix)).
  assert (applyField prefix i (name, tag, true, v) =
    match overrideScalar Getenv (envKey prefix tag) v with
    | Ok f1 => (Ok tt, (name, tag, true, f1))
    | Err e => (Err e, (name, tag, true, v))
    | Panics => (Panics, (name, tag, true, v))
    end) as ->.
  { unfold applyField. destruct v; try done; by destruct (overrideScalar Getenv (envKey prefix tag) _). }
  by destruct (overrideScalar Getenv (envKey prefix tag) v).
Qed.

Lemma parsedSetting_never_panics {A} (parser : string → option A) var old : parsedSetting parser var old ≠ Panics.
Proof. unfold parsedSetting. destruct (Getenv var); [done|]. by destruct (parser _). Qed.

Lemma applyEnvOverrides_section fs :
  applyEnvOverrides Getenv "INFLUXDB" (VStruct [("Meta", "meta", true, VStruct fs)]%string) =
  let '(r, gs) := eachElem (applyField "INFLUXDB_META") 0 fs in
  (r, VStruct [("Meta", "meta", true, VStruct gs)]%string).
Proof.
  change (applyEnvOverrides Getenv "INFLUXDB" (VStruct [("Meta", "meta", true, VStruct fs)]%string))
    with (let '(r, gs) := eachElem (applyField "INFLUXDB") 0 [("Meta", "meta", true, VStruct fs)]%string in
          (r, VStruct gs)).
  cbn [eachElem]. unfold applyField at 1.
  change (envKey "INFLUXDB" "meta") with "INFLUXDB_META"%string.
  change (applyEnvOverrides Getenv "INFLUXDB_META" (VStruct fs)) with
    (let '(r, gs) := eachElem (applyField "INFLUXDB_META") 0 fs in (r, VStruct gs)).
  by destruct (eachElem (applyField "INFLUXDB_META") 0 fs) as [[[]| |] gs].
Qed.

Lemma ApplyEnvOverrides_fields m fs : reflectMeta m = VStruct fs →
  ApplyEnvOverrides Getenv m =
  let '(r, gs) := eachElem (applyField "INFLUXDB_META") 0 fs in
  (r, VStruct [("Meta", "meta", true, VStruct gs)]%string).
Proof. intros Hm. unfold ApplyEnvOverrides, reflectConfig. rewrite Hm. apply applyEnvOverrides_section. Qed.

(** One field of a meta node: its variable is computed, and an error ends the walk. *)
Ltac next_setting :=
  match goal with
  | |- context [eachElem _ _ ((?n, ?t, true, ?v) :: _)] =>
      let key := eval vm_compute in (envKey "INFLUXDB_META" t) in
      rewrite (eachElem_scalar "INFLUXDB_META" key _ n t v _ eq_refl I)
  end;
  first
    [ rewrite override_text
    | first [rewrite override_flag | rewrite override_duration];
      match goal with
      | |- context [x ← parsedSetting ?p ?k ?b; Ok (_ x)] =>
          let E := fresh "E" in
          destruct (parsedSetting p k b) eqn:E;
          [ | reflexivity | by destruct (parsedSetting_never_panics p k b) ]; clear E
      end;
      cbn [mbind res_bind] ].

Lemma applyEnvOverrides_once m :
  match configured m with
  | Ok m' => ApplyEnvOverrides Getenv m = (Ok tt, reflectConfig m')
  | Err e => (ApplyEnvOverrides Getenv m).1 = Err e
  | Panics => False
  end.
Proof.
  rewrite (ApplyEnvOverrides_fields m _ eq_refl). unfold configured. cbv zeta. repeat next_setting. reflexivity.
Qed.

(** C26. The overrides of a meta node from the environment, setting by setting: each of
    the nineteen settings takes the value of its own variable, read as a flag, a
    duration or text, when the variable is not empty, and is unchanged when it is;
    the first setting, in the order of the fields, whose variable cannot be read
    gives the error.  Applying the overrides once more changes nothing. *)
Theorem applyEnvOverrides_by_variable m :
  match configured m with
  | Ok m' => ApplyEnvOverrides Getenv m = (Ok tt, reflectConfig m') ∧
             ApplyEnvOverrides Getenv m' = (Ok tt, reflectConfig m')
  | Err e => (ApplyEnvOverrides Getenv m).1 = Err e
  | Panics => False
  end.
Proof.
  pose proof (applyEnvOverrides_once m) as Hone.
  pose proof (applyEnvOverrides_by_setting "INFLUXDB" (reflectConfig m)) as Hall.
  destruct (configured m) as [m'| |]; [|done..]. split; [done|]. unfold ApplyEnvOverrides in *. cbv zeta in Hall.
  rewrite Hone in Hall. cbn [fst snd] in Hall. by destruct (mapM _ _) as [ls| |]; [apply Hall|..].
Qed.

End overrides.

(** The variables of a configuration.  The field that is marked "-" has one too. *)
Example config_variables :
  (settings "INFLUXDB" (reflectConfig NewConfig)).*1 =
  ["INFLUXDB_META_ENABLED"; "INFLUXDB_META_DIR"; "INFLUXDB_META__"; "INFLUXDB_META_BIND_ADDRESS";
   "INFLUXDB_META_HTTP_BIND_ADDRESS"; "INFLUXDB_META_HTTPS_ENABLED"; "INFLUXDB_META_HTTPS_CERTIFICATE";
   "INFLUXDB_META_RETENTION_AUTOCREATE"; "INFLUXDB_META_GOSSIP_FREQUENCY";
   "INFLUXDB_META_ANNOUNCEMENT_EXPIRATION"; "INFLUXDB_META_ELECTION_TIMEOUT";
   "INFLUXDB_META_HEARTBEAT_TIMEOUT"; "INFLUXDB_META_LEADER_LEASE_TIMEOUT";
   "INFLUXDB_META_COMMIT_TIMEOUT"; "INFLUXDB_META_CLUSTER_TRACING"; "INFLUXDB_META_RAFT_PROMOTION_ENABLED";
   "INFLUXDB_META_LOGGING_ENABLED"; "INFLUXDB_META_PPROF_ENABLED"; "INFLUXDB_META_LEASE_DURATION"]%string.
Proof. vm_compute. reflexivity. Qed.

(** The demo configuration ignores the home directory, and a default one is not
    valid, since it names no directory. *)
Lemma NewDemoConfig_ignores_home home home' HOME :
  NewDemoConfig (Some home) HOME = NewDemoConfig (Some home') HOME ∧
  mcf_Dir <$> NewDemoConfig (Some home) HOME = Some ".influxdb/meta"%string ∧
  Validate NewConfig = Err (errorf "Meta.Dir must be specified").
Proof. done. Qed.

(** ** Addresses *)

Definition wildcard (host : string) : Prop := (host = "" ∨ host = "0.0.0.0" ∨ host = "::")%string.

#[export] Instance wildcard_dec host : Decision (wildcard host).
Proof. unfold wildcard. apply _. Defined.

Lemma chars_text l : chars (text l) = l.
Proof. apply list_ascii_of_string_of_list_ascii. Qed.

Lemma checkBrackets_ok j k x y : net.checkBrackets j k x = Ok y → x = y ∧ (net.open_bracket ∉ j) ∧ (net.close_bracket ∉ k).
Proof.
  unfold net.checkBrackets, net.has. do 2 (case_bool_decide; [done|]). by intros [= <-].
Qed.

(** The parts of an address have no brackets, and the port no colon. *)
Lemma SplitHostPort_plain addr host port :
  net.SplitHostPort addr = Ok (host, port) → net.plain host ∧ net.plain port ∧ (net.colon ∉ chars port).
Proof.
  unfold net.SplitHostPort, net.plain.
  destruct (splitLast net.colon (chars addr)) as [[before p]|] eqn:El; [|done].
  apply splitLast_inv in El as [El Hp]. case_decide as Hh.
  - destruct (splitFirst net.close_bracket (chars addr)) as [[pre [|c post]]|] eqn:Ef; [done| |done].
    case_decide as Hlen; [|by case_decide].
    intros ([= <- <-] & Ho & Hc)%checkBrackets_ok. rewrite !chars_text.
    apply splitFirst_inv in Ef as [Ef Hpre]. rewrite El in Ef, Ho.
    change (pre ++ net.close_bracket :: c :: post)
      with (pre ++ [net.close_bracket] ++ c :: post) in Ef. rewrite app_assoc in Ef.
    apply app_inj_1 in Ef as [-> [= <- <-]]; [|rewrite length_app; cbn; lia].
    apply not_elem_of_cons in Hc as [_ Hc]. destruct pre as [|x pre]; cbn in *.
    + rewrite El in Hh. discriminate.
    + rewrite !not_elem_of_app, !not_elem_of_cons in Ho. apply not_elem_of_cons in Hpre. naive_solver.
  - destruct (net.has net.colon before); [done|].
    intros ([= <- <-] & Ho & Hc)%checkBrackets_ok. rewrite !chars_text. rewrite El in Ho, Hc.
    rewrite not_elem_of_app, not_elem_of_cons in Ho, Hc. naive_solver.
Qed.

(** The address that other servers are told: for an address that can be split,
    [DefaultHost] keeps the port, replaces a host that only has a local meaning
    (none, 0.0.0.0 or ::) by the given hostname and keeps any other, so that the
    result never has such a host and applying it again changes nothing; an
    address that cannot be split is an error. *)
Lemma DefaultHost_reachable hostname addr :
  net.plain hostname → ¬ wildcard hostname →
  match net.SplitHostPort addr with
  | Ok (host, port) => ∃ a host', DefaultHost hostname addr = Ok a ∧
      net.SplitHostPort a = Ok (host', port) ∧ ¬ wildcard host' ∧
      (wildcard host → host' = hostname) ∧ (¬ wildcard host → a = addr) ∧ DefaultHost hostname a = Ok a
  | Err e => DefaultHost hostname addr = Err e
  | Panics => DefaultHost hostname addr = Panics
  end.
Proof.
  intros Hp Hw.
  assert (DefaultHost hostname addr = ('(host, port) ← net.SplitHostPort addr;
    if decide (wildcard host) then Ok (net.JoinHostPort hostname port) else Ok addr)) as -> by done.
  destruct (net.SplitHostPort addr) as [[host port]| |] eqn:Es; cbn [mbind res_bind]; [|done..].
  destruct (SplitHostPort_plain _ _ _ Es) as (_ & Hpp & Hc). case_decide as Hh.
  - exists (net.JoinHostPort hostname port), hostname.
    pose proof (net.SplitHostPort_JoinHostPort hostname port Hp Hpp Hc) as Hj.
    split_and!; try done. unfold DefaultHost. rewrite Hj. cbn. by rewrite decide_False.
  - exists addr, host. split_and!; try done. unfold DefaultHost. rewrite Es. cbn. by rewrite decide_False.
Qed.
