(* ===== verification/CmdLine.v ===== *)
(** * Command lines

    Go's [flag] package for flags with text values, and what the run, config and
    version commands of cmd/influxd and cmd/influxd-meta do with their arguments:
    the options, the search for a configuration file, the pid file. *)

From Stdlib Require Import ZArith Lia.
From Stdlib Require Import Strings.Byte Strings.Ascii Strings.String.
From S2P Require Import Prelude GoLib GoText GoUrl.

Local Open Scope Z_scope.

(** ** The flag package *)
Module flag.

Definition ErrHelp : error := errorf "flag: help requested".
Definition badSyntax : error := errorf "bad flag syntax".
Definition notDefined : error := errorf "flag provided but not defined".
Definition needsArgument : error := errorf "flag needs an argument".

Definition dash : ascii := "-".
Definition equals : ascii := "=".

(** What the first argument is. *)
Inductive arg : Type :=
  | NonFlag                                       (* the flags end before it *)
  | Terminator                                    (* the flags end after it *)
  | BadFlag
  | Flag (name : string) (val : option string).

(** A name, which has at least one character, and a value after the first equals
    sign that follows it. *)
Definition nameValue (c : ascii) (l : list ascii) : arg :=
  match splitFirst equals l with
  | Some (n, v) => Flag (text (c :: n)) (Some (text v))
  | None => Flag (text (c :: l)) None
  end.

Definition afterDashes (l : list ascii) : arg :=
  match l with
  | [] => BadFlag
  | c :: l' => if decide (c = dash ∨ c = equals) then BadFlag else nameValue c l'
  end.

Definition classify (s : string) : arg :=
  match chars s with
  | c :: d :: l =>
      if decide (c = dash) then
        if decide (d = dash) then match l with [] => Terminator | _ => afterDashes l end
        else afterDashes (d :: l)
      else NonFlag
  | _ => NonFlag
  end.

(** [fs.Parse(args)] for a set of flags with text values, from the values so far:
    the values, and the arguments that are left. *)
Fixpoint parse (formal : list string) (vals : gmap string string) (args : list string)
    : res (gmap string string * list string) :=
  match args with
  | [] => Ok (vals, [])
  | s :: args' =>
      match classify s with
      | NonFlag => Ok (vals, args)
      | Terminator => Ok (vals, args')
      | BadFlag => Err badSyntax
      | Flag name val =>
          if decide (name ∈ formal) then
            match val, args' with
            | Some v, _ => parse formal (<[name := v]> vals) args'
            | None, v :: args'' => parse formal (<[name := v]> vals) args''
            | None, [] => Err needsArgument
            end
          else if decide (name = "help" ∨ name = "h")%string then Err ErrHelp
          else Err notDefined
      end
  end.

Definition value (name : string) (vals : gmap string string) : string := default ""%string (vals !! name).

End flag.

(** ** Options of the run commands *)

Record Options : Type := mkOptions {
  op_ConfigPath : string;
  op_PIDFile : string;
  op_CPUProfile : string;
  op_MemProfile : string;
}.

Definition runFlags : list string := ["config"; "pidfile"; "hostname"; "cpuprofile"; "memprofile"]%string.

(** [cmd.ParseFlags(args...)], the same in both run commands *)
Definition ParseFlags (args : list string) : res Options :=
  '(vals, _) ← flag.parse runFlags ∅ args;
  Ok (mkOptions (flag.value "config" vals) (flag.value "pidfile" vals) (flag.value "cpuprofile" vals)
        (flag.value "memprofile" vals)).

Definition DevNull : string := "/dev/null".

(** The files that are tried when nothing names one. *)
Definition defaultPaths (HOME : string) : list string :=
  [(HOME +:+ "/.influxdb/influxdb.conf"); "/etc/influxdb/influxdb.conf"]%string.

(** [opt.GetConfigPath()], given the environment and which files exist; the same in
    both run commands *)
Definition GetConfigPath (Getenv : string → string) (exists_ : string → bool) (opt : Options) : string :=
  if decide (op_ConfigPath opt ≠ ""%string) then
    if decide (op_ConfigPath opt = DevNull) then ""%string else op_ConfigPath opt
  else if decide (Getenv "INFLUXDB_CONFIG_PATH" ≠ ""%string) then Getenv "INFLUXDB_CONFIG_PATH"
  else default ""%string (snd <$> list_find (λ p, exists_ p) (defaultPaths (Getenv "HOME"))).

(** ** The pid file *)

(** [filepath.Dir(path)] and the base name, of a clean path *)
Definition splitPath (path : string) : os.path :=
  match splitLast "/"%char (chars path) with
  | Some ([], name) => os.Path "/" (text name)
  | Some (dir, name) => os.Path (text dir) (text name)
  | None => os.Path "." path
  end.

(** [ioutil.WriteFile(path, data, 0666)] *)
Definition WriteFile (p : os.path) (data : list byte) : GoM os.world unit := λ w,
  match os.w_dirs w !! os.p_dir p with
  | None => (Err (errorf "open: no such file or directory"), w)
  | Some d =>
      match d !! os.p_name p with
      | Some os.SubDir => (Err (errorf "open: is a directory"), w)
      | _ => (Ok tt, os.set_entry w p (os.RegularFile data (os.w_now w)))
      end
  end.

Definition wrapErr {S A} (prefix : string) (m : GoM S A) : GoM S A := λ s,
  match m s with
  | (Err e, s') => (Err (wrap_err prefix e), s')
  | x => x
  end.

(** [cmd.writePIDFile(path)], the same in both run commands *)
Definition writePIDFile (pid : Z) (path : string) : GoM os.world unit :=
  if decide (path = ""%string) then mret tt
  else
    _ ← wrapErr "mkdir" (os.MkdirAll (os.p_dir (splitPath path)));
    wrapErr "write file" (WriteFile (splitPath path) (list_byte_of_string (strconv.FormatInt pid))).

(** ** version *)

(** [init()] of the three programs: an empty text is unknown. *)
Definition orUnknown (s : string) : string := if decide (s = ""%string) then "unknown"%string else s.

(** [VersionCommand.Run(args...)]: what it prints after the product name. *)
Definition VersionCommand_Run (product version branch commit : string) (args : list string) : res string :=
  _ ← flag.parse [] ∅ args;
  Ok (product +:+ " v" +:+ version +:+ " (git: " +:+ branch +:+ " " +:+ commit +:+ ")")%string.

(** ** Properties *)

(** A flag with its value, as one or as two arguments, after one or two dashes. *)
Inductive style : Type := OneArg | TwoArgs.

Definition render (x : string * string * style * bool) : list string :=
  let '(name, v, st, double) := x in
  let dashes := (if double : bool then "--" else "-")%string in
  match st with
  | OneArg => [(dashes +:+ name +:+ "=" +:+ v)%string]
  | TwoArgs => [(dashes +:+ name)%string; v]
  end.

(** A name that can be written as a flag. *)
Definition flagName (name : string) : Prop :=
  match chars name with
  | [] => False
  | c :: l => c ≠ flag.dash ∧ c ≠ flag.equals ∧ (flag.equals ∉ l)
  end.

#[export] Instance flagName_dec name : Decision (flagName name).
Proof. unfold flagName. destruct (chars name); apply _. Defined.

Lemma nameValue_none name c l : chars name = c :: l → flag.equals ∉ l →
  flag.nameValue c l = flag.Flag name None.
Proof.
  intros Hn Hl. unfold flag.nameValue. destruct (splitFirst flag.equals l) as [[pre post]|] eqn:E.
  - apply splitFirst_inv in E as [-> _]. set_solver.
  - by rewrite <- Hn, net.text_chars.
Qed.

Lemma nameValue_some name c l v : chars name = c :: l → flag.equals ∉ l →
  flag.nameValue c (l ++ flag.equals :: chars v) = flag.Flag name (Some v).
Proof.
  intros Hn Hl. unfold flag.nameValue. rewrite splitFirst_spec by done.
  by rewrite <- Hn, !net.text_chars.
Qed.

Lemma classify_name name v (st : style) (double : bool) : flagName name →
  flag.classify ((if double then "--" else "-") +:+ name +:+
    match st with OneArg => "=" +:+ v | TwoArgs => "" end)%string =
  flag.Flag name match st with OneArg => Some v | TwoArgs => None end.
Proof.
  intros Hn. unfold flagName in Hn. destruct (chars name) as [|c l] eqn:E; [done|].
  destruct Hn as (Hd & He & Hl).
  assert (Ha : flag.afterDashes (chars (name +:+ match st with OneArg => "=" +:+ v | TwoArgs => "" end)%string) =
    flag.Flag name match st with OneArg => Some v | TwoArgs => None end).
  { rewrite net.chars_app, E. cbn. rewrite decide_False by naive_solver. destruct st.
    - change (chars ("=" +:+ v)%string) with (flag.equals :: chars v). by apply nameValue_some.
    - rewrite app_nil_r. by apply nameValue_none. }
  unfold flag.classify. rewrite !net.chars_app, E in *. cbn [app] in Ha.
  destruct double.
  - change (chars "--") with [flag.dash; flag.dash]. cbn [app]. by rewrite !decide_True.
  - change (chars "-") with [flag.dash]. cbn [app]. by rewrite decide_True, decide_False.
Qed.

(** Parsing rendered flags assigns their values in order. *)
Lemma parse_render formal xs rest vals :
  Forall (λ x, flagName x.1.1.1 ∧ x.1.1.1 ∈ formal) xs →
  flag.parse formal vals ((xs ≫= render) ++ rest) =
  flag.parse formal (foldl (λ m x, <[x.1.1.1 := x.1.1.2]> m) vals xs) rest.
Proof.
  intros Hxs. revert vals. induction Hxs as [|[[[name v] st] double] xs [Hn Hf] _ IH]; intros vals; [done|].
  cbn [fst snd] in *. cbn [mbind list_bind foldl]. rewrite <- app_assoc.
  pose proof (classify_name name v st double Hn) as Hc.
  destruct st; cbn [render app flag.parse].
  - rewrite Hc, decide_True by done. apply IH.
  - assert (E : ((if double then "--" else "-") +:+ name +:+ "")%string = ((if double then "--" else "-") +:+ name)%string).
    { by rewrite append_empty_r. }
    rewrite E in Hc. rewrite Hc, decide_True by done. apply IH.
Qed.

Definition assigned (xs : list (string * string * style * bool)) : gmap string string :=
  foldl (λ m x, <[x.1.1.1 := x.1.1.2]> m) ∅ xs.

(** C35. The options are read as they were written: for any list of the five flags of
    a run command, written with one or two dashes and with the value in the same or in
    the next argument, parsing gives to each option the last value assigned to
    it, whatever follows the first argument that is no flag; a value may look
    like a flag. *)
Theorem ParseFlags_roundtrip xs rest :
  Forall (λ x, x.1.1.1 ∈ ["config"; "pidfile"; "hostname"; "cpuprofile"; "memprofile"]%string) xs →
  match rest with [] => True | s :: _ => flag.classify s = flag.NonFlag ∨ flag.classify s = flag.Terminator end →
  ParseFlags ((xs ≫= render) ++ rest) =
  Ok (mkOptions (flag.value "config" (assigned xs)) (flag.value "pidfile" (assigned xs))
        (flag.value "cpuprofile" (assigned xs)) (flag.value "memprofile" (assigned xs))).
Proof.
  intros Hxs Hrest. unfold ParseFlags. rewrite parse_render.
  - fold (assigned xs). destruct rest as [|s rest]; [done|]. cbn [flag.parse]. by destruct Hrest as [-> | ->].
  - eapply Forall_impl; [exact Hxs|]. intros x Hx. split; [|done].
    assert (Forall flagName runFlags) as Hf by (apply (bool_decide_unpack _); vm_compute; exact I).
    rewrite Forall_forall in Hf. by apply Hf.
Qed.

Lemma ParseFlags_roundtrip_witness :
  ParseFlags ["-config"; "a.conf"; "--pidfile=-config"; "-config=b.conf"; "--"; "-x"]%string =
  Ok (mkOptions "b.conf" "-config" "" "").
Proof.
  refine (ParseFlags_roundtrip [("config", "a.conf", TwoArgs, false); ("pidfile", "-config", OneArg, true);
    ("config", "b.conf", OneArg, false)]%string ["--"; "-x"]%string _ _).
  - apply (bool_decide_unpack _). vm_compute. exact I.
  - right. reflexivity.
Defined.

(** Other arguments are refused, and a flag at the end lacks its value. *)
Example ParseFlags_errors :
  ParseFlags ["-verbose"]%string = Err flag.notDefined ∧ ParseFlags ["-h"]%string = Err flag.ErrHelp ∧
  ParseFlags ["-config"]%string = Err flag.needsArgument ∧ ParseFlags ["-=x"]%string = Err flag.badSyntax.
Proof. vm_compute. done. Qed.

(** The pid file ends up with the decimal process number, in a directory that is
    created when it is missing; an empty path writes nothing. *)
Theorem writePIDFile_writes pid path w w' :
  writePIDFile pid path w = (Ok tt, w') →
  if decide (path = ""%string) then w' = w
  else os.content w' (splitPath path) = Some (list_byte_of_string (strconv.FormatInt pid)).
Proof.
  unfold writePIDFile. case_decide as Hp; [by intros [= <-]|].
  unfold wrapErr, os.MkdirAll, WriteFile. gom_simpl.
  destruct (os.w_dirs w !! os.p_dir (splitPath path)) as [d|] eqn:E; cbn.
  - rewrite E. destruct (d !! os.p_name (splitPath path)) as [[]|]; intros [= <-];
      by eapply os.content_set_entry_eq.
  - rewrite lookup_insert_eq, lookup_empty. intros [= <-].
    eapply os.content_set_entry_eq. cbn. by rewrite lookup_insert_eq.
Qed.
