(* ===== verification/DataConfig.v ===== *)
(** * The configuration of a data node (cmd/influxd/run/config.go)

    The record with its defaults, reading it from a file, validation, and the
    overrides from the environment.  Most parts of the record belong to the
    open-source packages and are parameters. *)

From Stdlib Require Import ZArith Lia.
From Stdlib Require Import Strings.Byte Strings.Ascii Strings.String.
From S2P Require Import Prelude GoLib GoText Configs.

Local Open Scope Z_scope.

(** ** The record *)

(** The configurations of the open-source services: their defaults, validation and
    fields, and the few fields that this repository reads. *)
Class OssConfigs : Type := {
  tsdb_c : Type; retention_c : Type; precreator_c : Type; admin_c : Type; monitor_c : Type;
  subscriber_c : Type; httpd_c : Type; graphite_c : Type; collectd_c : Type; opentsdb_c : Type;
  udp_c : Type; cq_c : Type; coordinator_c : Type;
  tsdb_New : tsdb_c; retention_New : retention_c; precreator_New : precreator_c; admin_New : admin_c;
  monitor_New : monitor_c; subscriber_New : subscriber_c; httpd_New : httpd_c; graphite_New : graphite_c;
  collectd_New : collectd_c; opentsdb_New : opentsdb_c; udp_New : udp_c; cq_New : cq_c;
  coordinator_New : coordinator_c;
  tsdb_Dir : tsdb_c → string;
  tsdb_setDirs : string → string → tsdb_c → tsdb_c;   (* Dir and WALDir *)
  tsdb_Validate : tsdb_c → res unit;
  monitor_Validate : monitor_c → res unit;
  subscriber_Validate : subscriber_c → res unit;
  graphite_Validate : graphite_c → res unit;
  collectd_Validate : collectd_c → res unit;
  httpd_Enabled : httpd_c → bool;
  httpd_BindAddress : httpd_c → string;
  graphite_Enabled : graphite_c → bool;
  collectd_Enabled : collectd_c → bool;
  opentsdb_Enabled : opentsdb_c → bool;
  udp_Enabled : udp_c → bool;
  tsdb_v : tsdb_c → value; cluster_v : ClusterConfig → value; retention_v : retention_c → value;
  precreator_v : precreator_c → value; admin_v : admin_c → value; monitor_v : monitor_c → value;
  subscriber_v : subscriber_c → value; httpd_v : httpd_c → value; graphite_v : graphite_c → value;
  collectd_v : collectd_c → value; opentsdb_v : opentsdb_c → value; udp_v : udp_c → value; cq_v : cq_c → value;
}.

(** [MetaConfig] of this package *)
Record RunMetaConfig : Type := mkRunMeta {
  rm_MetaTLSEnabled : bool;
  rm_MetaInsecureTls : bool;
  rm_MetaAuthEnabled : bool;
  rm_MetaInternalSharedSecret : string;
  rm_Dir : string;
  rm_RetentionAutoCreate : bool;
  rm_LoggingEnabled : bool;
}.

Section config.
  Context `{OssConfigs}.

(** [Config].  [NewConfig] and the server also use a field [Coordinator], which the
    source does not declare; it is a field here. *)
Record DataConfig : Type := mkDataConfig {
  dc_Meta : RunMetaConfig;
  dc_Data : tsdb_c;
  dc_Cluster : ClusterConfig;
  dc_Coordinator : coordinator_c;
  dc_Retention : retention_c;
  dc_Precreator : precreator_c;
  dc_Admin : admin_c;
  dc_Monitor : monitor_c;
  dc_Subscriber : subscriber_c;
  dc_HTTPD : httpd_c;
  dc_GraphiteInputs : list graphite_c;
  dc_CollectdInputs : list collectd_c;
  dc_OpenTSDBInputs : list opentsdb_c;
  dc_UDPInputs : list udp_c;
  dc_ContinuousQuery : cq_c;
  dc_ReportingDisabled : bool;
  dc_BindAddress : string;
}.

Definition DefaultBindAddress : string := ":8088".

Definition zeroCluster : ClusterConfig := mkClusterConfig 0 0 0 0 false 0 0 0 0 0 0 0.

(** [NewConfig()]: the cluster part keeps its zero values. *)
Definition NewDataConfig : DataConfig :=
  mkDataConfig (mkRunMeta false false false "" "/var/lib/influxdb/meta" true true)
    tsdb_New zeroCluster coordinator_New retention_New precreator_New admin_New monitor_New subscriber_New
    httpd_New [graphite_New] [collectd_New] [opentsdb_New] [udp_New] cq_New false DefaultBindAddress.

Definition set_dirs (metaDir dataDir walDir : string) (c : DataConfig) : DataConfig :=
  let m := dc_Meta c in
  mkDataConfig
    (mkRunMeta (rm_MetaTLSEnabled m) (rm_MetaInsecureTls m) (rm_MetaAuthEnabled m) (rm_MetaInternalSharedSecret m)
       metaDir (rm_RetentionAutoCreate m) (rm_LoggingEnabled m))
    (tsdb_setDirs dataDir walDir (dc_Data c)) (dc_Cluster c) (dc_Coordinator c) (dc_Retention c) (dc_Precreator c)
    (dc_Admin c) (dc_Monitor c) (dc_Subscriber c) (dc_HTTPD c) (dc_GraphiteInputs c) (dc_CollectdInputs c)
    (dc_OpenTSDBInputs c) (dc_UDPInputs c) (dc_ContinuousQuery c) (dc_ReportingDisabled c) (dc_BindAddress c).

(** [NewDemoConfig()], given the home directory of the current user, if there is
    one, and HOME *)
Definition NewDataDemoConfig (userHome : option string) (HOME : string) : res DataConfig :=
  homeDir ← match userHome with
            | Some d => Ok d
            | None => if decide (HOME = ""%string) then Err (errorf "failed to determine current user for storage")
                      else Ok HOME
            end;
  Ok (set_dirs (joinPath homeDir ".influxdb/meta") (joinPath homeDir ".influxdb/data")
        (joinPath homeDir ".influxdb/wal") NewDataConfig).

(** ** Reading a file *)

Definition BOM : list byte := [xef; xbb; xbf].

(** [trimBOM(f)] *)
Definition trimBOM (f : list byte) : list byte := if decide (take 3 f = BOM) then drop 3 f else f.

Definition newline : ascii := "010".

(** \s of a regular expression *)
Definition space (c : ascii) : bool := bool_decide (c ∈ [" "; "009"; newline; "012"; "013"]%char).

Definition clusterHeader : list ascii := chars "[cluster]".
Definition coordinatorHeader : list ascii := chars "[coordinator]".

Fixpoint spaces (l : list ascii) : nat :=
  match l with
  | c :: l' => if space c then S (spaces l') else 0
  | [] => 0
  end.

(** The length of a match of \s*\[cluster\] at the front. *)
Definition matchCluster (l : list ascii) : option nat :=
  let n := spaces l in
  if decide (take (length clusterHeader) (drop n l) = clusterHeader) then Some (n + length clusterHeader)%nat
  else None.

(** Replacing (?m)^\s*\[cluster\] from the left: [start] tells whether a line starts
    here, [skip] how many characters still belong to a match. *)
Fixpoint replaceCluster (start : bool) (skip : nat) (l : list ascii) : list ascii :=
  match l with
  | [] => []
  | c :: l' =>
      match skip with
      | S skip' => replaceCluster false skip' l'
      | O =>
          match (if start then matchCluster l else None) with
          | Some n => coordinatorHeader ++ replaceCluster false (n - 1) l'
          | None => c :: replaceCluster (bool_decide (c = newline)) 0 l'
          end
      end
  end.

(** The text that [FromToml] decodes. *)
Definition deprecated (input : string) : string := text (replaceCluster true 0 (chars input)).

Section toml.
  (** [toml.Decode(text, c)], which sets fields in place, and [ioutil.ReadFile] *)
  Context (Decode : string → GoM DataConfig unit) (ReadFile : string → res (list byte)).

(** [c.FromToml(input)] and [c.FromTomlFile(fpath)] *)
Definition FromToml (input : string) : GoM DataConfig unit := Decode (deprecated input).
Definition FromTomlFile (fpath : string) : GoM DataConfig unit :=
  bs ← lift_res (ReadFile fpath);
  FromToml (string_of_list_byte (trimBOM bs)).

(** [cmd.ParseConfig(path)] of the run command *)
Definition ParseDataConfig (userHome : option string) (HOME path : string) : res DataConfig :=
  if decide (path = ""%string) then NewDataDemoConfig userHome HOME
  else match FromTomlFile path NewDataConfig with
       | (Ok _, c) => Ok c
       | (Err e, _) => Err e
       | (Panics, _) => Panics
       end.

(** [cmd.parseConfig(path)] of the config command *)
Definition parseDataConfig (userHome : option string) (HOME path : string) : res DataConfig :=
  let config := match NewDataDemoConfig userHome HOME with Ok c => c | _ => NewDataConfig end in
  if decide (path = ""%string) then Ok config
  else match FromTomlFile path config with
       | (Ok _, c) => Ok c
       | (Err e, _) => Err e
       | (Panics, _) => Panics
       end.

End toml.

(** ** Validation *)

Definition validateAll {A} (prefix : string) (validate : A → res unit) : list A → res unit :=
  fix go l :=
    match l with
    | [] => Ok tt
    | x :: l' =>
        match validate x with
        | Ok _ => go l'
        | Err e => Err (wrap_err prefix e)
        | Panics => Panics
        end
    end.

(** [c.Validate()].  The method of the meta part is not in the source. *)
Definition ValidateData (meta_Validate : RunMetaConfig → res unit) (c : DataConfig) : res unit :=
  _ ← meta_Validate (dc_Meta c);
  _ ← tsdb_Validate (dc_Data c);
  _ ← monitor_Validate (dc_Monitor c);
  _ ← subscriber_Validate (dc_Subscriber c);
  _ ← validateAll "invalid graphite config" graphite_Validate (dc_GraphiteInputs c);
  validateAll "invalid collectd config" collectd_Validate (dc_CollectdInputs c).

(** ** Overrides *)

(** The fields as reflection sees them. *)
Definition reflectRunMeta (m : RunMetaConfig) : value := VStruct [
  ("MetaTLSEnabled", "meta-tls-enabled", true, VBool (rm_MetaTLSEnabled m));
  ("MetaInsecureTls", "meta-insecure-tls", true, VBool (rm_MetaInsecureTls m));
  ("MetaAuthEnabled", "meta-auth-enabled", true, VBool (rm_MetaAuthEnabled m));
  ("MetaInternalSharedSecret", "meta-internal-shared-secret", true, VString (rm_MetaInternalSharedSecret m));
  ("Dir", "dir", true, VString (rm_Dir m));
  ("RetentionAutoCreate", "retention-autocreate", true, VBool (rm_RetentionAutoCreate m));
  ("LoggingEnabled", "logging-enabled", true, VBool (rm_LoggingEnabled m))]%string.

Definition reflectData (c : DataConfig) : value := VStruct [
  ("Meta", "meta", true, reflectRunMeta (dc_Meta c));
  ("Data", "data", true, tsdb_v (dc_Data c));
  ("Cluster", "cluster", true, cluster_v (dc_Cluster c));
  ("Retention", "retention", true, retention_v (dc_Retention c));
  ("Precreator", "shard-precreation", true, precreator_v (dc_Precreator c));
  ("Admin", "admin", true, admin_v (dc_Admin c));
  ("Monitor", "monitor", true, monitor_v (dc_Monitor c));
  ("Subscriber", "subscriber", true, subscriber_v (dc_Subscriber c));
  ("HTTPD", "http", true, httpd_v (dc_HTTPD c));
  ("GraphiteInputs", "graphite", true, VSlice (graphite_v <$> dc_GraphiteInputs c));
  ("CollectdInputs", "collectd", true, VSlice (collectd_v <$> dc_CollectdInputs c));
  ("OpenTSDBInputs", "opentsdb", true, VSlice (opentsdb_v <$> dc_OpenTSDBInputs c));
  ("UDPInputs", "udp", true, VSlice (udp_v <$> dc_UDPInputs c));
  ("ContinuousQuery", "continuous_queries", true, cq_v (dc_ContinuousQuery c));
  ("ReportingDisabled", "reporting-disabled", true, VBool (dc_ReportingDisabled c));
  ("BindAddress", "bind-address", true, VString (dc_BindAddress c))]%string.

End config.

Section overrides.
  Context `{Parsers} (Getenv : string → string).

(** Setting a field of a basic kind: unsigned integers too. *)
Definition setScalarData (val : string) (v : value) : res value :=
  match v with
  | VUint bits _ => of_option failedToApply (VUint bits <$> parse.ParseUint0 val bits)
  | _ => setScalar val v
  end.

Definition overrideScalarData (key : string) (v : value) : res value :=
  if decide (Getenv key = ""%string) then Ok v else setScalarData (Getenv key) v.

(** One call after another on the same value. *)
Definition thenApply {A} (f g : A → res unit * A) (x : A) : res unit * A :=
  match f x with
  | (Ok _, x1) => g x1
  | y => y
  end.

(** [applyEnvOverrides(prefix, spec)]: every element of a slice is overridden twice,
    from the variables without its index and then from those with it.  The fuel is
    the depth of nested structs. *)
Fixpoint applyData (fuel : nat) (prefix : string) (spec : value) : res unit * value :=
  match fuel, spec with
  | S fuel', VStruct fs =>
      let '(r, fs') := eachElem (λ _ '(name, tag, canSet, f),
        let key := envKey prefix tag in
        let '(r, f1) :=
          match f with
          | VSlice vs =>
              let '(r, vs1) :=
                eachElem (λ i, thenApply (applyData fuel' key) (applyData fuel' (elemKey key i))) 0 vs in
              (r, VSlice vs1)
          | VStruct _ => if canSet : bool then applyData fuel' key f else (Ok tt, f)
          | _ =>
              if canSet : bool
              then match overrideScalarData key f with
                   | Ok f1 => (Ok tt, f1)
                   | Err e => (Err e, f)
                   | Panics => (Panics, f)
                   end
              else (Ok tt, f)
          end in
        (r, (name, tag, canSet, f1))) 0 fs in
      (r, VStruct fs')
  | _, _ => (Ok tt, spec)
  end.

(** How deep structs are nested in a value. *)
Fixpoint depth (v : value) : nat :=
  match v with
  | VSlice vs => foldr (λ v n, Nat.max (depth v) n) 0%nat vs
  | VStruct fs => S (foldr (λ x n, Nat.max (depth x.2) n) 0%nat fs)
  | _ => 0
  end.

Definition applyDataOverrides (prefix : string) (spec : value) : res unit * value :=
  applyData (depth spec) prefix spec.

(** [c.ApplyEnvOverrides()] *)
Definition ApplyDataOverrides `{OssConfigs} (c : DataConfig) : res unit * value :=
  applyDataOverrides "INFLUXDB" (reflectData c).

End overrides.
