(* ===== verification/DataConfigTheorems.v ===== *)
(** * Properties of the configuration of a data node

    What is left of the deprecated cluster section of a file, and the overrides
    from the environment against the list of variables that each setting is read
    from. *)

From Stdlib Require Import ZArith Lia.
From Stdlib Require Import Strings.Byte Strings.Ascii Strings.String.
From S2P Require Import Prelude GoLib GoText Configs ConfigTheorems DataConfig.

Local Open Scope Z_scope.

(** ** The deprecated section *)

(** Whether the header of the cluster section stands at the start of a line. *)
Fixpoint hasCluster (start : bool) (l : list ascii) : bool :=
  match l with
  | [] => false
  | c :: l' =>
      (start && bool_decide (is_Some (matchCluster l))) || hasCluster (bool_decide (c = newline)) l'
  end.

(** Outside the start of a line, characters are copied up to the next line. *)
Lemma replaceCluster_copies w : newline ∉ w → ∀ l,
  take (length w) (replaceCluster false 0 l) = w → take (length w) l = w.
Proof.
  induction w as [|x w IH]; intros Hw l; [done|]. apply not_elem_of_cons in Hw as [Hx Hw].
  destruct l as [|c l]; [done|]. cbn. intros [= -> Ht]. f_equal. apply IH; [done|].
  by rewrite bool_decide_eq_false_2 in Ht by done.
Qed.

Lemma header_head : ∃ w, clusterHeader = "["%char :: w ∧ newline ∉ w.
Proof. exists (chars "cluster]"). split; [reflexivity|]. apply (bool_decide_unpack _). vm_compute. exact I. Qed.

Lemma matchCluster_space c l : space c = true → matchCluster (c :: l) = S <$> matchCluster l.
Proof. intros Hc. unfold matchCluster. cbn [spaces]. rewrite Hc. cbn [drop]. by case_decide. Qed.

Lemma matchCluster_nospace c l : space c = false →
  matchCluster (c :: l) = if decide (take (length clusterHeader) (c :: l) = clusterHeader)
                          then Some (length clusterHeader) else None.
Proof. intros Hc. unfold matchCluster. cbn [spaces]. rewrite Hc. cbn [drop]. by case_decide. Qed.

(** A line that does not start with the header does not after the replacement. *)
Lemma matchCluster_replaced l start :
  matchCluster l = None → matchCluster (replaceCluster start 0 l) = None.
Proof.
  revert start. induction l as [|c l IH]; intros start Hm; [done|]. cbn [replaceCluster].
  replace (if start then matchCluster (c :: l) else None) with (@None nat) by (destruct start; done).
  destruct (space c) eqn:Hc.
  - rewrite matchCluster_space in Hm |- * by done. rewrite IH; [done|]. by destruct (matchCluster l).
  - rewrite matchCluster_nospace in Hm |- * by done.
    rewrite decide_False; [done|]. destruct header_head as (w & Hw & Hn). rewrite Hw in *. cbn [length take].
    intros [= -> Ht]. rewrite decide_True in Hm; [done|]. cbn [length take]. f_equal.
    by apply replaceCluster_copies.
Qed.

Lemma hasCluster_app start l k : newline ∉ l → l ≠ [] →
  (start = true → matchCluster (l ++ k) = None) → hasCluster start (l ++ k) = hasCluster false k.
Proof.
  intros Hl Hn Hm. destruct l as [|c l]; [done|]. apply not_elem_of_cons in Hl as [Hc Hl]. cbn [app hasCluster].
  assert (start && bool_decide (is_Some (matchCluster ((c :: l) ++ k))) = false) as E.
  { destruct start; [|done]. cbn [andb]. apply bool_decide_eq_false_2. rewrite Hm by done. by intros []. }
  cbn [app] in E. rewrite E. cbn [orb]. rewrite bool_decide_eq_false_2 by done. clear -Hl.
  induction l as [|x l IH]; [done|]. apply not_elem_of_cons in Hl as [Hx Hl]. cbn.
  rewrite bool_decide_eq_false_2 by done. by apply IH.
Qed.

Lemma coordinator_no_match k : matchCluster (coordinatorHeader ++ k) = None.
Proof.
  unfold coordinatorHeader. cbn [chars app list_ascii_of_string]. rewrite matchCluster_nospace by done.
  apply decide_False. cbn. congruence.
Qed.

(** No header of the section is left at the start of a line. *)
Lemma replaceCluster_clean l : ∀ start skip, skip = 0%nat ∨ start = false →
  hasCluster start (replaceCluster start skip l) = false.
Proof.
  induction l as [|c l IH]; intros start skip Hs; [by destruct start|]. cbn [replaceCluster].
  destruct skip as [|skip]; [|destruct Hs as [Hs|Hs]; [done|subst start]; apply IH; by right].
  destruct (if start then matchCluster (c :: l) else None) as [n|] eqn:E.
  - rewrite hasCluster_app; [apply IH; by right|apply (bool_decide_unpack _); vm_compute; exact I|done|].
    intros _. apply coordinator_no_match.
  - cbn [hasCluster]. rewrite IH, orb_false_r by (by left). destruct start; [|done]. cbn [andb].
    apply bool_decide_eq_false_2.
    assert (replaceCluster true 0 (c :: l) = c :: replaceCluster (bool_decide (c = newline)) 0 l) as <-
      by (cbn [replaceCluster]; by rewrite E).
    rewrite matchCluster_replaced by done. by intros [].
Qed.

Lemma replaceCluster_id l : ∀ start, hasCluster start l = false → replaceCluster start 0 l = l.
Proof.
  induction l as [|c l IH]; intros start Hh; [done|]. cbn [hasCluster] in Hh. apply orb_false_iff in Hh as [Hm Hh].
  cbn [replaceCluster]. replace (if start then matchCluster (c :: l) else None) with (@None nat).
  - f_equal. by apply IH.
  - destruct start; [|done]. cbn [andb] in Hm. apply bool_decide_eq_false in Hm.
    destruct (matchCluster (c :: l)); [by destruct Hm|done].
Qed.

(** The deprecated section is renamed before a file is decoded: in the text
    that reaches the decoder no line starts with the header of the cluster
    section, and a text that has no such line is decoded as it is. *)
Theorem deprecated_section input :
  hasCluster true (chars (deprecated input)) = false ∧
  (hasCluster true (chars input) = false → deprecated input = input).
Proof.
  unfold deprecated. rewrite chars_text. split; [apply replaceCluster_clean; by left|].
  intros Hh. rewrite replaceCluster_id by done. apply net.text_chars.
Qed.

(** Blank lines before the header go with it; a header after something else on the
    line stays. *)
Example deprecated_example :
  deprecated (text (chars "a = 1" ++ [newline; newline] ++ chars "  [cluster]" ++ [newline] ++ chars "x [cluster]")) =
  text (chars "a = 1" ++ [newline] ++ chars "[coordinator]" ++ [newline] ++ chars "x [cluster]").
Proof. vm_compute. reflexivity. Qed.

(** ** Overrides by variables *)




Section overrides.
  Context `{Parsers} (Getenv : string → string).

(** A scalar after the overrides from its variables, one after the other. *)
Fixpoint fromVariables (keys : list string) (v : value) : res value :=
  match keys with
  | [] => Ok v
  | key :: keys' => v1 ← overrideScalarData Getenv key v; fromVariables keys' v1
  end.

Definition cells (ks : list (list string)) (vs : list value) : res (list value) :=
  mapM (λ kv, fromVariables kv.1 kv.2) (zip ks vs).

Arguments cells : simpl never.



Lemma cells_cons k ks v vs : cells (k :: ks) (v :: vs) = (x ← fromVariables k v; y ← cells ks vs; Ok (x :: y)).
Proof. unfold cells. cbn. destruct (fromVariables k v); cbn; [|done..]. by destruct (mapM _ _). Qed.


Lemma cells_length ks vs ls : length ks = length vs → cells ks vs = Ok ls → length ls = length vs.
Proof.
  revert vs ls. induction ks as [|k ks IH]; intros [|v vs] ls Hl; [by intros [= <-]|done..|].
  rewrite cells_cons. intros (x & _ & (y & Hy & [= <-])%bind_Ok)%bind_Ok. cbn. f_equal. apply IH; [by injection Hl|done].
Qed.




(** ** What the skeleton determines *)














(** ** The walk *)








(** ** The value that the environment asks for *)











(** ** The names of the variables

    A variable is the path of tags to its scalar, in capitals and with underscores;
    an element of a list is named by the path with its index, and also by the path
    without it. *)

Definition alphabet : list ascii := chars "abcdefghijklmnopqrstuvwxyz".
Definition capitals : list ascii := chars "ABCDEFGHIJKLMNOPQRSTUVWXYZ".

Definition capital (c : ascii) : ascii :=
  match list_find (c =.) alphabet with
  | Some (i, _) => default c (capitals !! i)
  | None => c
  end.

Definition shout (s : string) : string := text (map capital (chars s)).

Definition child (path tag : string) : string :=
  let tag := text (map (λ c, if Ascii.eqb c "-" then "_"%char else c) (chars tag)) in
  match path with EmptyString => tag | _ => path +:+ "_" +:+ tag end%string.

Definition element (path : string) (i : nat) : string := (path +:+ "_" +:+ strconv.FormatUint (Z.of_nat i))%string.

Fixpoint names (path : string) (v : value) {struct v} : list (list string) :=
  match v with
  | VStruct fs => collectElems (λ _ '(name, tag, canSet, f),
      match f with
      | VSlice vs => collectElems (λ i v,
          zip_with app (names (child path tag) v) (names (element (child path tag) i) v)) 0 vs
      | VStruct _ => if canSet : bool then names (child path tag) f else []
      | _ => if canSet : bool then [[shout (child path tag)]] else []
      end) 0 fs
  | _ => []
  end.











End overrides.


(** The two variables of a setting of the first graphite input. *)
Example element_names :
  names "INFLUXDB" (VStruct [("GraphiteInputs", "graphite", true,
    VSlice [VStruct [("BindAddress", "bind-address", true, VString "")]])]%string) =
  [["INFLUXDB_GRAPHITE_BIND_ADDRESS"; "INFLUXDB_GRAPHITE_0_BIND_ADDRESS"]]%string.
Proof. vm_compute. reflexivity. Qed.
