(* ===== verification/Lifecycle.v ===== *)
(** * Opening and closing a meta server

    meta/raft_state.go and meta/store.go: the raft state and the store with the
    mutex that guards it; meta/service.go: the service around them.  What raft,
    the disk and the network answer is an environment; waiting is over a list of
    the events that the select statements see. *)

From Stdlib Require Import ZArith Lia.
From Stdlib Require Import Strings.Byte Strings.Ascii Strings.String.
From S2P Require Import Prelude GoLib Tlv GoText Configs MetaData StoreFSM.

Local Open Scope Z_scope.

(** ** raft_state.go *)

(** What opening and shutting down raft meets. *)
Class RaftEnv `{Raft} : Type := {
  env_peers : res (list string);          (* the peer store on disk *)
  env_bolt : res unit;                    (* raftboltdb.NewBoltStore *)
  env_snapshots : res unit;               (* raft.NewFileSnapshotStore *)
  env_raft : res raft_t;                  (* raft.NewRaft *)
  env_shutdown : raft_t → res unit;       (* raft.Shutdown().Error() *)
  env_mkdir : res unit;                   (* os.MkdirAll *)
  env_remove : res unit;                  (* os.RemoveAll and os.Remove of reset *)
}.

Section raft_state.
  Context `{RaftEnv}.

(** [rs_closing] is nil or a channel that may be closed; [rs_wg] counts the
    goroutine that logs leader changes. *)
Record raftState : Type := mkRaftState {
  rs_closing : option bool;
  rs_raft : option raft_t;
  rs_transport : bool;
  rs_raftStore : bool;
  rs_addr : string;
  rs_wg : nat;
}.

(** [newRaftState(c, addr)] *)
Definition newRaftState (addr : string) : raftState := mkRaftState None None false false addr 0.

(** [peers()], [leader()] and [isLeader()] *)
Definition rs_peers (r : raftState) : res (list string) :=
  match rs_raft r with Some ra => raft_Peers ra | None => env_peers end.
Definition rs_leader (r : raftState) : string :=
  match rs_raft r with Some ra => raft_Leader ra | None => "" end.
Definition rs_isLeader (r : raftState) : bool :=
  match rs_raft r with Some ra => raft_IsLeader ra | None => false end.

(** [removePeer(addr)] on a state whose raft may be nil. *)
Definition rs_removePeer (addr : string) : GoM raftState unit := λ r,
  match rs_raft r with
  | None => (Err ErrNotLeader, r)
  | Some ra =>
      let '(x, ra') := removePeer addr ra in
      (x, mkRaftState (rs_closing r) (Some ra') (rs_transport r) (rs_raftStore r) (rs_addr r) (rs_wg r))
  end.

(** [open(s, ln)]: the result of removing the node itself is ignored. *)
Definition rs_open : GoM raftState unit :=
  _ ← modify (λ r, mkRaftState (Some false) (rs_raft r) true (rs_raftStore r) (rs_addr r) (rs_wg r));
  r ← get_state;
  let peers := match rs_peers r with Ok ps => ps | _ => [] end in
  _ ← (if decide (rs_addr r ∈ peers) then mret tt
       else _ ← attempt (rs_removePeer (rs_addr r)); mret tt);
  _ ← lift_res (match env_bolt with Err e => Err (wrap_err "new bolt store" e) | x => x end);
  _ ← modify (λ r, mkRaftState (rs_closing r) (rs_raft r) (rs_transport r) true (rs_addr r) (rs_wg r));
  _ ← lift_res (match env_snapshots with Err e => Err (wrap_err "file snapshot store" e) | x => x end);
  ra ← lift_res (match env_raft with Err e => Err (wrap_err "new raft" e) | x => x end);
  modify (λ r, mkRaftState (rs_closing r) (Some ra) (rs_transport r) (rs_raftStore r) (rs_addr r)
                 (S (rs_wg r))).

(** [close()] of a state that is not nil: closing the channel twice panics; the
    goroutine ends with the channel. *)
Definition rs_close : GoM raftState unit :=
  r ← get_state;
  _ ← (match rs_closing r with
       | Some true => panic
       | Some false => modify (λ r, mkRaftState (Some true) (rs_raft r) (rs_transport r) (rs_raftStore r)
                                      (rs_addr r) 0)
       | None => mret tt
       end);
  _ ← modify (λ r, mkRaftState (rs_closing r) (rs_raft r) false (rs_raftStore r) (rs_addr r) (rs_wg r));
  _ ← (match rs_raft r with
       | None => mret tt
       | Some ra =>
           _ ← lift_res (env_shutdown ra);
           modify (λ r, mkRaftState (rs_closing r) None (rs_transport r) (rs_raftStore r) (rs_addr r) (rs_wg r))
       end);
  modify (λ r, mkRaftState (rs_closing r) (rs_raft r) (rs_transport r) false (rs_addr r) (rs_wg r)).

(** ** The raft layer *)

(** The byte that marks raft connections for the multiplexer. *)
Definition MuxHeader : byte := x08.

(** [Dial(addr, timeout)], given the connection: the marker is written first; the
    connection is dropped when that fails. *)
Definition layerDial (conn : res writer) : res writer :=
  c ← conn;
  match Write [MuxHeader] c with
  | (Ok _, c') => Ok c'
  | (Err e, _) => Err e
  | (Panics, _) => Panics
  end.

(** ** store.go: the mutex *)

Inductive rwmutex : Type :=
  | Free
  | Readers (n : nat)   (* one more than [n] readers *)
  | Writer.

(** The fields of [store] that opening and closing use. *)
Record lifecycle : Type := mkLifecycle {
  lc_mu : rwmutex;
  lc_opened : bool;
  lc_closing : bool;
  lc_raftState : option raftState;
  lc_raftAddr : string;
}.

(** A call by the only goroutine: [None] means that it blocks for ever. *)
Definition BlockM (A : Type) : Type := lifecycle → option (res A * lifecycle).

#[export] Instance block_ret : MRet BlockM := λ A a l, Some (Ok a, l).
#[export] Instance block_bind : MBind BlockM := λ A B k m l,
  match m l with
  | None => None
  | Some (Ok a, l') => k a l'
  | Some (Err e, l') => Some (Err e, l')
  | Some (Panics, l') => Some (Panics, l')
  end.

Definition run {A} (m : GoM lifecycle A) : BlockM A := λ l, Some (m l).

Definition set_mu (m : rwmutex) (l : lifecycle) : lifecycle :=
  mkLifecycle m (lc_opened l) (lc_closing l) (lc_raftState l) (lc_raftAddr l).

Definition Lock : BlockM unit := λ l,
  match lc_mu l with Free => Some (Ok tt, set_mu Writer l) | _ => None end.
Definition RLock : BlockM unit := λ l,
  match lc_mu l with
  | Free => Some (Ok tt, set_mu (Readers 0) l)
  | Readers n => Some (Ok tt, set_mu (Readers (S n)) l)
  | Writer => None
  end.
Definition unlocked (m : rwmutex) : rwmutex :=
  match m with Readers (S n) => Readers n | _ => Free end.

(** [s.mu.Lock(); defer s.mu.Unlock()] around a body, and the same for reading. *)
Definition deferred {A} (m : BlockM A) : BlockM A := λ l,
  match m l with
  | None => None
  | Some (r, l') => Some (r, set_mu (unlocked (lc_mu l')) l')
  end.
Definition locked {A} (m : BlockM A) : BlockM A := _ ← Lock; deferred m.
Definition rlocked {A} (m : BlockM A) : BlockM A := _ ← RLock; deferred m.

(** ** store.go: opening and closing *)

Definition newLifecycle (raftAddr : string) : lifecycle := mkLifecycle Free false false None raftAddr.

(** [setOpen()] *)
Definition lc_setOpen : BlockM unit := locked (run (
  l ← get_state;
  if lc_opened l then throw ErrStoreOpen
  else modify (λ l, mkLifecycle (lc_mu l) true (lc_closing l) (lc_raftState l) (lc_raftAddr l)))).

(** [openRaft(raftln)]: the raft state becomes visible only when it is open. *)
Definition openRaft : BlockM unit := locked (run (λ l,
  match rs_open (newRaftState (lc_raftAddr l)) with
  | (Ok _, rs) => (Ok tt, mkLifecycle (lc_mu l) (lc_opened l) (lc_closing l) (Some rs) (lc_raftAddr l))
  | (Err e, _) => (Err e, l)
  | (Panics, _) => (Panics, l)
  end)).

(** What the select statement of [waitForLeader] receives. *)
Inductive event : Type :=
  | Closing
  | Timer
  | Tick (leader : string).

(** [waitForLeader(timeout)]: [None] while the events so far do not end it. *)
Fixpoint waitForLeader (timeout : Z) (events : list event) : option (res unit) :=
  match events with
  | [] => None
  | Closing :: _ => Some (Err (errorf "closing"))
  | Timer :: events' =>
      if timeout =? 0 then waitForLeader timeout events' else Some (Err (errorf "timeout"))
  | Tick leader :: events' =>
      if decide (leader = ""%string) then waitForLeader timeout events' else Some (Ok tt)
  end.

(** The loop at the end of [open]: it waits again after every error. *)
Fixpoint waitAgain (timeout : Z) (rounds : list (list event)) : option (res unit) :=
  match rounds with
  | [] => None
  | events :: rounds' =>
      match waitForLeader timeout events with
      | Some (Ok _) => Some (Ok tt)
      | Some _ => waitAgain timeout rounds'
      | None => None
      end
  end.

Definition waiting (r : option (res unit)) : BlockM unit := λ l,
  match r with None => None | Some r => Some (r, l) end.

Definition wrapped_block {A} (prefix : string) (m : BlockM A) : BlockM A := λ l,
  match m l with
  | Some (Err e, l') => Some (Err (wrap_err prefix e), l')
  | x => x
  end.

(** [open(raftln)] *)
Definition lc_open (electionTimeout : Z) (first : list event) (rounds : list (list event)) : BlockM unit :=
  _ ← lc_setOpen;
  _ ← wrapped_block "mkdir all" (run (lift_res env_mkdir));
  _ ← wrapped_block "raft" openRaft;
  _ ← waiting (waitForLeader 0 first);
  _ ← locked (mret tt);
  l ← run get_state;
  ps ← run (lift_res (match lc_raftState l with Some rs => rs_peers rs | None => Panics end));
  if len ps <=? 1 then waiting (waitAgain electionTimeout rounds) else mret tt.

(** [s.raftState.close()]: the method accepts nil. *)
Definition closeRaft : GoM lifecycle unit := λ l,
  match lc_raftState l with
  | None => (Ok tt, l)
  | Some rs =>
      let '(r, rs') := rs_close rs in
      (r, mkLifecycle (lc_mu l) (lc_opened l) (lc_closing l) (Some rs') (lc_raftAddr l))
  end.

(** [close()] *)
Definition lc_close : BlockM unit := locked (run (
  l ← get_state;
  if lc_closing l then mret tt
  else
    _ ← modify (λ l, mkLifecycle (lc_mu l) (lc_opened l) true (lc_raftState l) (lc_raftAddr l));
    closeRaft)).

(** [reset(raftln)] *)
Definition lc_reset (electionTimeout : Z) (first : list event) (rounds : list (list event)) : BlockM unit :=
  locked (
    _ ← lc_close;
    _ ← run (lift_res env_remove);
    lc_open electionTimeout first rounds).

(** [isLeader()], [leader()] and the use of raft in [leaderHTTP()] and [apply(b)]:
    a nil raft is only checked by [leader]. *)
Definition lc_isLeader (l : lifecycle) : res bool :=
  match lc_raftState l with
  | None => Ok false
  | Some rs => match rs_raft rs with Some ra => Ok (raft_IsLeader ra) | None => Panics end
  end.
Definition lc_leader (l : lifecycle) : string :=
  match lc_raftState l with
  | None => ""
  | Some rs => rs_leader rs
  end.
Definition lc_raftLeader (l : lifecycle) : res string :=
  match lc_raftState l with
  | None => Ok ""%string
  | Some rs => match rs_raft rs with Some ra => Ok (raft_Leader ra) | None => Panics end
  end.

(** [ready()]: the lock is taken again by [peers()]. *)
Definition lc_peers : BlockM (list string) := rlocked (λ l,
  Some (Ok (match lc_raftState l with
            | None => [lc_raftAddr l]
            | Some rs => match rs_peers rs with Ok ps => ps | _ => [lc_raftAddr l] end
            end), l)).
Definition lc_ready : BlockM bool := rlocked (ps ← lc_peers; mret (2 <=? len ps)).

End raft_state.

(** ** meta/service.go *)

Section service.
  Context `{RaftEnv}.
  (** Listening, with TLS or not: the address that was bound. *)
  Context (listen : bool → string → res string).

(** The listener is its address and whether it is open, the handler whether it is
    closed. *)
Record MetaService : Type := mkMetaService {
  ms_RaftListener : option string;   (* the address it listens on *)
  ms_config : MetaConfig;
  ms_ln : option (string * bool);
  ms_httpAddr : string;
  ms_raftAddr : string;
  ms_store : option (string * lifecycle);   (* its HTTP address, and the store *)
  ms_handler : option bool;
  ms_version : string;
}.

(** [NewService(c)] and the raft listener that its owner sets. *)
Definition NewMetaService (c : MetaConfig) (raftListener : option string) : MetaService :=
  mkMetaService raftListener c None (mcf_HTTPBindAddress c) (mcf_BindAddress c) None None "".

(** [remoteAddr(addr)] *)
Definition remoteAddr (c : MetaConfig) (addr : string) : string :=
  let hostname := if decide (mcf_RemoteHostname c = ""%string) then DefaultHostname
                  else mcf_RemoteHostname c in
  match DefaultHost hostname addr with Ok remote => remote | _ => addr end.

(** [autoAssignPort(addr)] *)
Definition autoAssignPort (addr : string) : bool :=
  match net.SplitHostPort addr with Ok (_, p) => bool_decide (p = "0"%string) | _ => false end.

(** [combineHostAndAssignedPort(ln, autoAddr)] *)
Definition combineHostAndAssignedPort (ln autoAddr : string) : res string :=
  '(host, _) ← net.SplitHostPort autoAddr;
  '(_, port) ← net.SplitHostPort ln;
  Ok (net.JoinHostPort host port).

(** The address after listening, empty after an error, and the error. *)
Definition assigned (ln addr : string) (err : res unit) : string * res unit :=
  if autoAssignPort addr then
    match combineHostAndAssignedPort ln addr with
    | Ok a => (a, Ok tt)
    | Err e => (""%string, Err e)
    | Panics => (""%string, Panics)
    end
  else (addr, err).

Definition ServiceM (A : Type) : Type := MetaService → option (res A * MetaService).

(** [Open()]; the error of the first address is overwritten by that of the
    second. *)
Definition ms_Open (first : list event) (rounds : list (list event)) : ServiceM unit := λ s,
  match ms_RaftListener s with
  | None => Some (Panics, s)
  | Some raftLn =>
      match listen (mcf_HTTPSEnabled (ms_config s)) (ms_httpAddr s) with
      | Err e => Some (Err e, s)
      | Panics => Some (Panics, s)
      | Ok ln =>
          let '(http, err1) := assigned ln (ms_httpAddr s) (Ok tt) in
          let '(raft, err) := assigned raftLn (ms_raftAddr s) err1 in
          let s1 := mkMetaService (Some raftLn) (ms_config s) (Some (ln, true)) http raft (ms_store s) (ms_handler s)
                      (ms_version s) in
          match err with
          | Err e => Some (Err e, s1)
          | Panics => Some (Panics, s1)
          | Ok _ =>
              let st := newLifecycle (remoteAddr (ms_config s) raft) in
              let withStore st h := mkMetaService (Some raftLn) (ms_config s) (Some (ln, true)) http raft
                    (Some (remoteAddr (ms_config s) http, st)) h (ms_version s) in
              match lc_open (mcf_ElectionTimeout (ms_config s)) first rounds st with
              | None => None
              | Some (Ok _, st') => Some (Ok tt, withStore st' (Some false))
              | Some (Err e, st') => Some (Err e, withStore st' (ms_handler s))
              | Some (Panics, st') => Some (Panics, withStore st' (ms_handler s))
              end
          end
      end
  end.

(** [ResetStore(st)] and [SetVersion(version)] *)
Definition ms_ResetStore (httpAddr : string) (st : lifecycle) (s : MetaService) : MetaService :=
  mkMetaService (ms_RaftListener s) (ms_config s) (ms_ln s) (ms_httpAddr s) (ms_raftAddr s)
    (Some (httpAddr, st)) (ms_handler s) (ms_version s).
Definition ms_SetVersion (version : string) (s : MetaService) : MetaService :=
  mkMetaService (ms_RaftListener s) (ms_config s) (ms_ln s) (ms_httpAddr s) (ms_raftAddr s)
    (ms_store s) (ms_handler s) version.

(** [RemoteHTTPAddr(addr)], which ignores its argument, and [RemoteRaftAddr()] *)
Definition ms_RemoteHTTPAddr (addr : string) (s : MetaService) : string :=
  remoteAddr (ms_config s) (ms_httpAddr s).
Definition ms_RemoteRaftAddr (s : MetaService) : string := remoteAddr (ms_config s) (ms_raftAddr s).

Definition errClosedListener : error := errorf "use of closed network connection".

(** [Close()]: a nil handler or store panics; a listener that is already closed is
    an error. *)
Definition ms_Close : ServiceM unit := λ s,
  match ms_handler s, ms_store s with
  | None, _ => Some (Panics, s)
  | Some _, None => Some (Panics, s)
  | Some _, Some (http, st) =>
      let closed st ln := mkMetaService (ms_RaftListener s) (ms_config s) ln (ms_httpAddr s) (ms_raftAddr s)
            (Some (http, st)) (Some true) (ms_version s) in
      match lc_close st with
      | None => None
      | Some (Ok _, st') =>
          match ms_ln s with
          | None => Some (Ok tt, closed st' None)
          | Some (addr, true) => Some (Ok tt, closed st' (Some (addr, false)))
          | Some (addr, false) => Some (Err errClosedListener, closed st' (Some (addr, false)))
          end
      | Some (r, st') => Some (r, closed st' (ms_ln s))
      end
  end.

End service.
