(* ===== verification/LifecycleTheorems.v ===== *)
(** * Properties of opening and closing

    A store opens once and closes once, what a closed store still answers, the
    addresses a server announces, and where the mutex blocks. *)

From Stdlib Require Import ZArith Lia.
From Stdlib Require Import Strings.Ascii Strings.String.
From S2P Require Import Prelude GoLib GoText Configs ConfigTheorems MetaData StoreFSM Lifecycle.

Local Open Scope Z_scope.

Section lifecycle.
  Context `{RaftEnv}.

(** ** Locks *)

Lemma locked_run {A} (m : GoM lifecycle A) l :
  lc_mu l = Free →
  locked (run m) l = let '(r, l') := m (set_mu Writer l) in Some (r, set_mu (unlocked (lc_mu l')) l').
Proof.
  intros Hf. unfold locked, deferred, run, Lock. unfold mbind, block_bind. rewrite Hf.
  by destruct (m (set_mu Writer l)).
Qed.

Lemma set_mu_free l : lc_mu l = Free → set_mu Free (set_mu Writer l) = l.
Proof. destruct l. cbn. by intros ->. Qed.

(** Resetting a store locks the mutex and then closes the store, which locks it
    again: the call never returns. *)
Lemma reset_never_returns timeout first rounds l : lc_reset timeout first rounds l = None.
Proof. unfold lc_reset, locked at 1, Lock at 1, mbind, block_bind. by destruct (lc_mu l). Qed.

(** ** Opening *)

Definition opened (rs : option raftState) (l : lifecycle) : lifecycle :=
  mkLifecycle Free true (lc_closing l) rs (lc_raftAddr l).

Lemma lc_setOpen_eval l :
  lc_mu l = Free →
  lc_setOpen l = Some (if lc_opened l then (Err ErrStoreOpen, l) else (Ok tt, opened (lc_raftState l) l)).
Proof.
  intros Hf. unfold lc_setOpen. rewrite locked_run by done. gom_simpl. cbn [lc_opened set_mu].
  destruct (lc_opened l); [|done]. cbn. by rewrite set_mu_free.
Qed.

Lemma lc_open_again timeout first rounds l :
  lc_mu l = Free → lc_opened l = true → lc_open timeout first rounds l = Some (Err ErrStoreOpen, l).
Proof.
  intros Hf Ho. unfold lc_open. unfold mbind at 1, block_bind at 1. by rewrite lc_setOpen_eval, Ho.
Qed.

(** A raft state that is open. *)
Lemma rs_open_ok addr rs :
  rs_open (newRaftState addr) = (Ok tt, rs) →
  ∃ ra, env_raft = Ok ra ∧ rs = mkRaftState (Some false) (Some ra) true true addr 1.
Proof.
  unfold rs_open. gom_simpl. cbn. destruct (decide _).
  all: destruct env_bolt as [?| |]; [|done..]; destruct env_snapshots as [?| |]; [|done..];
    destruct env_raft as [ra| |]; [|done..]; intros [= <-]; eauto.
Qed.

(** A step of opening that ends it with an error. *)
Ltac open_failed := intros [= <- <-]; split_and!; [eexists; unfold opened, set_mu; cbn; reflexivity|discriminate|discriminate].

(** Whatever happens while opening, the store counts as open afterwards and the
    mutex is free; on success raft is running. *)
Lemma lc_open_outcome timeout first rounds l r l' :
  lc_mu l = Free → lc_opened l = false → lc_open timeout first rounds l = Some (r, l') →
  (∃ rs, l' = opened rs l) ∧
  (r = Ok tt → ∃ ra, env_raft = Ok ra ∧
     lc_raftState l' = Some (mkRaftState (Some false) (Some ra) true true (lc_raftAddr l) 1)) ∧
  (r = Ok tt → ∃ leader, leader ≠ ""%string ∧ Tick leader ∈ first).
Proof.
  intros Hf Ho. unfold lc_open. unfold mbind, block_bind. rewrite lc_setOpen_eval, Ho by done.
  unfold wrapped_block at 1, run at 1, lift_res at 1.
  destruct env_mkdir as [?| |]; [|by open_failed..].
  unfold wrapped_block, openRaft. rewrite locked_run by done. cbn [set_mu opened lc_raftAddr].
  destruct (rs_open (newRaftState (lc_raftAddr l))) as [[[]| |] rs] eqn:Er; cbn; [|by open_failed..].
  apply rs_open_ok in Er as (ra & Hra & ->).
  assert (∀ evs, waitForLeader 0 evs = Some (Ok tt) → ∃ leader, leader ≠ ""%string ∧ Tick leader ∈ evs) as Hw.
  { induction evs as [|[| |leader] evs IH]; cbn; [done..| |].
    - intros (x & ? & ?)%IH. exists x. split; [done|by right].
    - case_decide; [|intros _; exists leader; split; [done|by left]].
      intros (x & ? & ?)%IH. exists x. split; [done|by right]. }
  specialize (Hw first). unfold waiting at 1.
  destruct (waitForLeader 0 first) as [[[]| |]|]; [|by open_failed..|done].
  cbn. unfold set_mu. cbn. set (l1 := mkLifecycle _ _ _ _ _).
  intros E. assert (l' = l1) as ->.
  { revert E. assert (locked (mret tt) l1 = Some (Ok tt, l1)) as -> by done.
    change (lc_raftState l1) with (Some (mkRaftState (Some false) (Some ra) true true (lc_raftAddr l) 1)).
    cbn [rs_peers rs_raft]. destruct (raft_Peers ra) as [ps| |]; [|congruence..].
    destruct (_ <=? _); [|unfold mret, block_ret; congruence].
    unfold waiting. destruct (waitAgain timeout rounds) as [x|]; [congruence|done]. }
  split_and!; [by eexists|by eauto|by auto].
Qed.

(** ** Closing *)

(** What is left of an open raft state. *)
Lemma rs_close_open ra addr :
  env_shutdown ra = Ok tt →
  rs_close (mkRaftState (Some false) (Some ra) true true addr 1) =
  (Ok tt, mkRaftState (Some true) None false false addr 0).
Proof. intros Hs. unfold rs_close. gom_simpl. cbn. by rewrite Hs. Qed.

Lemma closeRaft_open ra addr l :
  lc_raftState l = Some (mkRaftState (Some false) (Some ra) true true addr 1) → env_shutdown ra = Ok tt →
  closeRaft l = (Ok tt, mkLifecycle (lc_mu l) (lc_opened l) (lc_closing l)
    (Some (mkRaftState (Some true) None false false addr 0)) (lc_raftAddr l)).
Proof. intros Hr Hs. unfold closeRaft. by rewrite Hr, rs_close_open. Qed.

(** C25. A store opens and closes once.  After an attempt to open it, successful or
    not, every further attempt is refused, so that a failed start cannot be
    repeated.  An open store that is closed shuts raft down, releases transport
    and log and ends its goroutine; closing it again does nothing and it cannot
    be opened again.  A closed store reports no leader, but asking whether it is
    the leader, or for the address of the leader, dereferences nil. *)
Theorem store_open_close timeout first rounds l r l1 :
  lc_mu l = Free → lc_opened l = false → lc_closing l = false →
  lc_open timeout first rounds l = Some (r, l1) → (∀ ra, env_shutdown ra = Ok tt) →
  (∀ t f rs, lc_open t f rs l1 = Some (Err ErrStoreOpen, l1)) ∧
  (r = Ok tt → ∃ l2 rs, lc_close l1 = Some (Ok tt, l2) ∧ lc_raftState l2 = Some rs ∧
     rs_raft rs = None ∧ rs_transport rs = false ∧ rs_raftStore rs = false ∧ rs_wg rs = 0%nat ∧
     lc_close l2 = Some (Ok tt, l2) ∧ (∀ t f rs, lc_open t f rs l2 = Some (Err ErrStoreOpen, l2)) ∧
     lc_leader l2 = ""%string ∧ lc_isLeader l2 = Panics ∧ lc_raftLeader l2 = Panics).
Proof.
  intros Hf Ho Hc Hopen Hs. apply lc_open_outcome in Hopen as ([rs0 ->] & Hra & _); [|done..].
  split; [intros; by apply lc_open_again|]. intros Hr. destruct (Hra Hr) as (ra & _ & Hrs). cbn in Hrs. subst rs0.
  set (rs := mkRaftState (Some true) None false false (lc_raftAddr l) 0).
  exists (mkLifecycle Free true true (Some rs) (lc_raftAddr l)), rs. split_and!; try done.
  unfold lc_close. rewrite locked_run by done. gom_simpl. cbn [lc_closing set_mu opened]. rewrite Hc.
  by erewrite closeRaft_open by done.
Qed.

(** A store that is closed while a single server waits for itself to become the
    leader: every round ends with an error, and the loop never ends. *)
Lemma open_spins_when_closing timeout rounds :
  Forall (λ evs, head evs = Some Closing) rounds → waitAgain timeout rounds = None.
Proof. induction 1 as [|[|[]] rounds He _ IH]; [done|done|done|done|done]. Qed.

End lifecycle.

(** ** Addresses *)

Section addresses.
  Context `{RaftEnv} (listen : bool → string → res string).

(** A configured name that others can use. *)
Definition properHostname (c : MetaConfig) : Prop :=
  mcf_RemoteHostname c = ""%string ∨ (net.plain (mcf_RemoteHostname c) ∧ ¬ wildcard (mcf_RemoteHostname c)).

(** The port an address stands for, given the listener. *)
Definition boundPort (port listening : string) : string :=
  if decide (port = "0"%string) then listening else port.

Lemma remoteAddr_reachable c addr host port :
  properHostname c → net.SplitHostPort addr = Ok (host, port) →
  ∃ host', net.SplitHostPort (remoteAddr c addr) = Ok (host', port) ∧ ¬ wildcard host' ∧
    (¬ wildcard host → host' = host).
Proof.
  intros Hc Ha. unfold remoteAddr. set (hostname := if decide _ then _ else _).
  assert (net.plain hostname ∧ ¬ wildcard hostname) as [Hp Hw].
  { unfold hostname. case_decide as Hr; [|by destruct Hc]. split.
    - split; vm_compute; set_solver.
    - intros [Hx|[Hx|Hx]]; discriminate. }
  pose proof (DefaultHost_reachable hostname addr Hp Hw) as Hd. rewrite Ha in Hd.
  destruct Hd as (a & host' & -> & Hs & Hn & _ & Hkeep & _). exists host'. split_and!; [done..|].
  intros Hh. rewrite (Hkeep Hh), Ha in Hs. congruence.
Qed.

Lemma assigned_split ln addr host port lhost lport err :
  net.SplitHostPort addr = Ok (host, port) → net.SplitHostPort ln = Ok (lhost, lport) →
  net.SplitHostPort (assigned ln addr err).1 = Ok (host, boundPort port lport) ∧
  ((assigned ln addr err).2 = Ok tt ∨ (assigned ln addr err).2 = err).
Proof.
  intros Ha Hl. unfold assigned, autoAssignPort, boundPort. rewrite Ha.
  case_bool_decide as Hp; [|rewrite decide_False by done; auto]. rewrite decide_True by done.
  unfold combineHostAndAssignedPort. rewrite Ha, Hl. cbn. split; [|auto].
  destruct (SplitHostPort_plain _ _ _ Ha) as (Hh & _ & _), (SplitHostPort_plain _ _ _ Hl) as (_ & Hlp & Hlc).
  by apply net.SplitHostPort_JoinHostPort.
Qed.

(** C27. The addresses under which a meta server joins the cluster can be reached:
    once the service has opened its listeners, the HTTP and raft addresses of
    its store name a host that is not a wildcard (the configured remote hostname
    or localhost where the bind address has none) and the port that is bound,
    which is the one the system assigned when the configuration asks for port
    0. *)
Theorem Open_announces_reachable_addresses first rounds s s' r ln raftLn host port rhost rport lh lp rlh rlp :
  properHostname (ms_config s) →
  listen (mcf_HTTPSEnabled (ms_config s)) (ms_httpAddr s) = Ok ln → ms_RaftListener s = Some raftLn →
  net.SplitHostPort (ms_httpAddr s) = Ok (host, port) → net.SplitHostPort ln = Ok (lh, lp) →
  net.SplitHostPort (ms_raftAddr s) = Ok (rhost, rport) → net.SplitHostPort raftLn = Ok (rlh, rlp) →
  ms_Open listen first rounds s = Some (r, s') →
  ∃ http st h rh, ms_store s' = Some (http, st) ∧
    net.SplitHostPort http = Ok (h, boundPort port lp) ∧ ¬ wildcard h ∧
    net.SplitHostPort (lc_raftAddr st) = Ok (rh, boundPort rport rlp) ∧ ¬ wildcard rh.
Proof.
  intros Hc Hl Hr Hh Hln Hra Hrl. unfold ms_Open. rewrite Hr, Hl.
  destruct (assigned_split ln _ _ _ _ _ (Ok tt) Hh Hln) as [H1 E1].
  destruct (assigned ln (ms_httpAddr s) (Ok tt)) as [http err1]. cbn in H1, E1.
  assert (err1 = Ok tt) as -> by (by destruct E1). clear E1.
  destruct (assigned_split raftLn _ _ _ _ _ (Ok tt) Hra Hrl) as [H2 E2].
  destruct (assigned raftLn (ms_raftAddr s) (Ok tt)) as [raft err2]. cbn in H2, E2.
  assert (err2 = Ok tt) as -> by (by destruct E2). clear E2.
  destruct (remoteAddr_reachable _ _ _ _ Hc H1) as (h & Hs1 & Hw1 & _).
  destruct (remoteAddr_reachable _ _ _ _ Hc H2) as (rh & Hs2 & Hw2 & _).
  set (st := newLifecycle _).
  destruct (lc_open _ first rounds st) as [[r1 st']|] eqn:Eo; [|done].
  assert (lc_raftAddr st' = lc_raftAddr st) as Haddr
    by (by apply lc_open_outcome in Eo as ([rs ->] & _)).
  intros E. exists (remoteAddr (ms_config s) http), st', h, rh. rewrite Haddr.
  split_and!; try done. by destruct r1 as [[]| |]; injection E as <- <-.
Qed.

End addresses.

(** ** The lock of [ready]

    [ready] takes the read lock, and so does [peers], which it calls; between the
    two another goroutine may ask for the write lock, after which the mutex
    admits no further reader. *)
Module ReadyRace.

Record state : Type := mkState {
  readers : nat;
  waiting : bool;   (* a writer has asked for the lock *)
  reader_at : nat;
  writer_at : nat;
}.

Inductive step : state → state → Prop :=
  | rlock n w : step (mkState n false 0 w) (mkState (S n) false 1 w)
  | rlock_again n w : step (mkState n false 1 w) (mkState (S n) false 2 w)
  | runlock n b w : step (mkState (S n) b 2 w) (mkState n b 3 w)
  | runlock_again n b w : step (mkState (S n) b 3 w) (mkState n b 4 w)
  | lock_ask n b r : step (mkState n b r 0) (mkState n true r 1)
  | lock_take r : step (mkState 0 true r 1) (mkState 0 true r 2)
  | unlock n r : step (mkState n true r 2) (mkState n false r 3).

Definition start : state := mkState 0 false 0 0.

(** Both goroutines wait for each other. *)
Lemma ready_can_deadlock :
  ∃ s, rtc step start s ∧ (∀ s', ¬ step s s') ∧ reader_at s ≠ 4%nat ∧ writer_at s ≠ 3%nat.
Proof.
  exists (mkState 1 true 1 1). split; [|split; [intros s' Hs; inversion Hs|done]].
  eapply rtc_l; [apply rlock|]. eapply rtc_l; [apply lock_ask|]. apply rtc_refl.
Qed.

End ReadyRace.

(** ** Runs *)

Definition demo_raft : Raft := {|
  raft_t := list string;
  raft_IsLeader _ := true;
  raft_Leader _ := "localhost:4001"%string;
  raft_Peers r := Ok r;
  raft_AddPeer p := modify (λ r, r ++ [p]);
  raft_RemovePeer p := modify (λ r, filter (λ x, x ≠ p) r);
  raft_Commit _ := throw ErrNotLeader;
|}.

Definition demo_peers : @raft_t demo_raft := ["localhost:4001"%string].

Definition demo_raft_env : @RaftEnv demo_raft :=
  @Build_RaftEnv demo_raft (Ok []) (Ok tt) (Ok tt) (Ok demo_peers) (λ _, Ok tt) (Ok tt) (Ok tt).

#[local] Existing Instances demo_raft demo_raft_env.

(** A single server sees itself as the leader. *)
Definition demo_first : list event := [Timer; Tick ""; Tick "localhost:4001"].
Definition demo_rounds : list (list event) := [[Timer]; [Tick "localhost:4001"]].

Lemma store_open_close_witness :
  ∃ l1, lc_open 5 demo_first demo_rounds (newLifecycle "localhost:4001") = Some (Ok tt, l1) ∧
  (∀ t f rs, lc_open t f rs l1 = Some (Err ErrStoreOpen, l1)) ∧
  ∃ l2, lc_close l1 = Some (Ok tt, l2) ∧ lc_isLeader l2 = Panics.
Proof.
  eexists. split; [reflexivity|].
  destruct (store_open_close 5 demo_first demo_rounds (newLifecycle "localhost:4001") (Ok tt)
    (opened (Some (mkRaftState (Some false) (Some demo_peers) true true "localhost:4001" 1))
       (newLifecycle "localhost:4001"))) as [Ho Hc]; [done..|].
  split; [exact Ho|]. destruct (Hc eq_refl) as (l2 & rs & Hl & _ & _ & _ & _ & _ & _ & _ & _ & Hp & _).
  exists l2. by split.
Defined.

Definition demo_config : MetaConfig := set_Dir "/var/lib/meta" NewConfig.
Definition demo_listen (_ : bool) (_ : string) : res string := Ok "[::]:8091"%string.
Definition demo_service : MetaService := NewMetaService demo_config (Some "[::]:8088"%string).

Lemma Open_announces_reachable_addresses_witness :
  ∃ s', ms_Open demo_listen demo_first demo_rounds demo_service = Some (Ok tt, s') ∧
  ∃ http st h rh, ms_store s' = Some (http, st) ∧
    net.SplitHostPort http = Ok (h, "8091"%string) ∧ ¬ wildcard h ∧
    net.SplitHostPort (lc_raftAddr st) = Ok (rh, "8088"%string) ∧ ¬ wildcard rh.
Proof.
  eexists. split; [reflexivity|].
  apply (Open_announces_reachable_addresses demo_listen demo_first demo_rounds demo_service _ (Ok tt)
    "[::]:8091" "[::]:8088" "" "8091" "" "8088" "::" "8091" "::" "8088"); try reflexivity.
  by left.
Defined.
