(* ===== verification/Process.v ===== *)
(** * Processes

    A call in a process may also end the process ([os.Exit], [log.Fatalf]), and a
    panic that nobody recovers crashes it.  The profiles that both servers write
    are here as well. *)

From Stdlib Require Import ZArith Lia.
From Stdlib Require Import Strings.String.
From S2P Require Import Prelude GoLib.

Local Open Scope Z_scope.

(** ** Outcomes of a call in a process *)

Inductive outcome (A : Type) : Type :=
  | Returns (a : A)
  | Fails (e : error)
  | Crashes
  | Exits (code : Z).
Arguments Returns {_} _.
Arguments Fails {_} _.
Arguments Crashes {_}.
Arguments Exits {_} _.

Definition ProcM (S A : Type) : Type := S → outcome A * S.

#[export] Instance proc_ret {S} : MRet (ProcM S) := λ A a s, (Returns a, s).

#[export] Instance proc_bind {S} : MBind (ProcM S) := λ A B k m s,
  match m s with
  | (Returns a, s') => k a s'
  | (Fails e, s') => (Fails e, s')
  | (Crashes, s') => (Crashes, s')
  | (Exits code, s') => (Exits code, s')
  end.

Definition of_res {A} (r : res A) : outcome A :=
  match r with Ok a => Returns a | Err e => Fails e | Panics => Crashes end.

(** A call of Go code, and a value with its error. *)
Definition call {S A} (m : GoM S A) : ProcM S A := λ s, let '(r, s') := m s in (of_res r, s').
Definition check {S A} (r : res A) : ProcM S A := λ s, (of_res r, s).

(** [log.Fatalf] *)
Definition Fatal {S A} : ProcM S A := λ s, (Exits 1, s).

(** [fmt.Errorf("prefix: %s", err)] *)
Definition wrapping {S A} (prefix : string) (m : ProcM S A) : ProcM S A := λ s,
  match m s with
  | (Fails e, s') => (Fails (wrap_err prefix e), s')
  | x => x
  end.

(** A call on a component of the state. *)
Definition within {S T A} (get : S → T) (put : T → S → S) (m : ProcM T A) : ProcM S A := λ s,
  let '(r, t) := m (get s) in (r, put t s).

Ltac proc_simpl :=
  unfold call, check, Fatal, wrapping, within, mbind, mret, proc_bind, proc_ret in *; cbn beta iota zeta in *.

(** ** Profiles *)

(** [prof]: which profiles have a file; and the lines that stopping them has logged. *)
Record profiles : Type := mkProfiles { pf_cpu : bool; pf_mem : bool; pf_log : list string }.

Definition noProfiles : profiles := mkProfiles false false [].

(** [startProfile(cpuprofile, memprofile)], the same in both servers; [create] tells
    whether a file can be created. *)
Definition startProfile (create : string → bool) (cpuprofile memprofile : string) : ProcM profiles unit :=
  _ ← (if decide (cpuprofile = ""%string) then mret tt
       else if create cpuprofile then call (modify (λ p, mkProfiles true (pf_mem p) (pf_log p))) else Fatal);
  if decide (memprofile = ""%string) then mret tt
  else if create memprofile then call (modify (λ p, mkProfiles (pf_cpu p) true (pf_log p))) else Fatal.

(** [stopProfile()]: [prof] keeps its files. *)
Definition stopProfile (p : profiles) : profiles :=
  mkProfiles (pf_cpu p) (pf_mem p)
    (pf_log p ++ (if pf_cpu p then ["CPU profile stopped"%string] else []) ++
     (if pf_mem p then ["mem profile stopped"%string] else [])).
