(* ===== verification/DataServer.v ===== *)
(** * The server of a data node (cmd/influxd/run/server.go and server_dataonly.go)

    Construction from a configuration, opening and closing with the order in which
    the parts are opened and closed, and the addresses and statistics of a server.
    The metadata client is the one of [MetaClient] and the points writer that of
    [PointsWriter]; the other parts are opened and closed by packages outside the
    repository.  The server keeps the trace of what happened to its parts. *)

From Stdlib Require Import ZArith Lia.
From Stdlib Require Import Strings.String.
From S2P Require Import Prelude GoLib MetaData StoreFSM MetaClient PointsWriter.
From S2P Require Import GoText Configs DataConfig Process.

Local Open Scope Z_scope.

(** ** Services and parts *)

(** The services that a server runs; those of a list of inputs by their index.
    [SExternal] are the services whose append functions are not in the source. *)
Inductive service : Type :=
  | SExternal (name : string)
  | SHTTPD
  | SGraphite (i : nat)
  | SCollectd (i : nat)
  | SOpenTSDB (i : nat)
  | SUDP (i : nat)
  | SCluster.

#[export] Instance service_eq_dec : EqDecision service.
Proof. solve_decision. Defined.

(** What a server opens and closes. *)
Inductive part : Type :=
  | PListener
  | PTSDBStore
  | PSubscriber
  | PPointsWriter
  | PQueryExecutor
  | PMetaClient
  | PService (s : service).

#[export] Instance part_eq_dec : EqDecision part.
Proof. solve_decision. Defined.

Inductive action : Type :=
  | Opened (p : part)
  | Closed (p : part).

#[export] Instance action_eq_dec : EqDecision action.
Proof. solve_decision. Defined.

(** What starting a server meets. *)
Class DataEnv `{OssConfigs} : Type := {
  env_mkdirAll : string → res unit;
  env_create : string → bool;
  env_listen : string → res unit;
  env_open : part → res unit;                (* Open() of a part *)
  env_newGraphite : graphite_c → res unit;   (* NewService(c) *)
  env_newOpenTSDB : opentsdb_c → res unit;
  (** The append functions that the source calls and does not define. *)
  appendMonitor : list service;
  appendPrecreator : precreator_c → list service;
  appendSnapshotter : list service;
  appendAdmin : admin_c → list service;
  appendContinuousQuery : cq_c → list service;
  appendRetentionPolicy : retention_c → list service;
}.

Section server.
  Context `{DE : DataEnv, OM : OssMeta, CO : OssCommands, TR : Transport, CL : OssClient, WR : Writing}.
  (** The channel of the subscriber, which the points writer takes. *)
  Context (subscriberPoints : option (nat * list (string * string * list wPoint))).

(** [Server].  A channel field says whether the channel is closed; [ds_metaClients]
    are the parts that have been given the metadata client. *)
Record DataServer : Type := mkDataServer {
  ds_config : DataConfig;
  ds_version : string;
  ds_CPUProfile : string;
  ds_MemProfile : string;
  ds_BindAddress : string;
  ds_Listener : bool;
  ds_Services : list service;
  ds_ClusterService : bool;
  ds_metaClients : list part;
  ds_client : Client;
  ds_writer : PointsWriter;
  ds_reporting : bool;
  ds_closing : bool;
  ds_prof : profiles;
  ds_trace : list action;
}.

Definition set_Listener (s : DataServer) : DataServer :=
  mkDataServer (ds_config s) (ds_version s) (ds_CPUProfile s) (ds_MemProfile s) (ds_BindAddress s)
    true (ds_Services s) (ds_ClusterService s) (ds_metaClients s) (ds_client s)
    (ds_writer s) (ds_reporting s) (ds_closing s) (ds_prof s) (ds_trace s).
Definition set_Services (l : list service) (s : DataServer) : DataServer :=
  mkDataServer (ds_config s) (ds_version s) (ds_CPUProfile s) (ds_MemProfile s) (ds_BindAddress s)
    (ds_Listener s) l (ds_ClusterService s) (ds_metaClients s) (ds_client s)
    (ds_writer s) (ds_reporting s) (ds_closing s) (ds_prof s) (ds_trace s).
Definition set_metaClients (l : list part) (s : DataServer) : DataServer :=
  mkDataServer (ds_config s) (ds_version s) (ds_CPUProfile s) (ds_MemProfile s) (ds_BindAddress s)
    (ds_Listener s) (ds_Services s) (ds_ClusterService s) l (ds_client s)
    (ds_writer s) (ds_reporting s) (ds_closing s) (ds_prof s) (ds_trace s).
Definition set_client (c : Client) (s : DataServer) : DataServer :=
  mkDataServer (ds_config s) (ds_version s) (ds_CPUProfile s) (ds_MemProfile s) (ds_BindAddress s)
    (ds_Listener s) (ds_Services s) (ds_ClusterService s) (ds_metaClients s) c
    (ds_writer s) (ds_reporting s) (ds_closing s) (ds_prof s) (ds_trace s).
Definition set_writer (w : PointsWriter) (s : DataServer) : DataServer :=
  mkDataServer (ds_config s) (ds_version s) (ds_CPUProfile s) (ds_MemProfile s) (ds_BindAddress s)
    (ds_Listener s) (ds_Services s) (ds_ClusterService s) (ds_metaClients s) (ds_client s)
    w (ds_reporting s) (ds_closing s) (ds_prof s) (ds_trace s).
Definition set_reporting (s : DataServer) : DataServer :=
  mkDataServer (ds_config s) (ds_version s) (ds_CPUProfile s) (ds_MemProfile s) (ds_BindAddress s)
    (ds_Listener s) (ds_Services s) (ds_ClusterService s) (ds_metaClients s) (ds_client s)
    (ds_writer s) true (ds_closing s) (ds_prof s) (ds_trace s).
Definition set_closing (s : DataServer) : DataServer :=
  mkDataServer (ds_config s) (ds_version s) (ds_CPUProfile s) (ds_MemProfile s) (ds_BindAddress s)
    (ds_Listener s) (ds_Services s) (ds_ClusterService s) (ds_metaClients s) (ds_client s)
    (ds_writer s) (ds_reporting s) true (ds_prof s) (ds_trace s).
Definition set_prof (p : profiles) (s : DataServer) : DataServer :=
  mkDataServer (ds_config s) (ds_version s) (ds_CPUProfile s) (ds_MemProfile s) (ds_BindAddress s)
    (ds_Listener s) (ds_Services s) (ds_ClusterService s) (ds_metaClients s) (ds_client s)
    (ds_writer s) (ds_reporting s) (ds_closing s) p (ds_trace s).
Definition set_ClusterService (s : DataServer) : DataServer :=
  mkDataServer (ds_config s) (ds_version s) (ds_CPUProfile s) (ds_MemProfile s) (ds_BindAddress s)
    (ds_Listener s) (ds_Services s) true (ds_metaClients s) (ds_client s)
    (ds_writer s) (ds_reporting s) (ds_closing s) (ds_prof s) (ds_trace s).
Definition trace (a : action) (s : DataServer) : DataServer :=
  mkDataServer (ds_config s) (ds_version s) (ds_CPUProfile s) (ds_MemProfile s) (ds_BindAddress s)
    (ds_Listener s) (ds_Services s) (ds_ClusterService s) (ds_metaClients s) (ds_client s)
    (ds_writer s) (ds_reporting s) (ds_closing s) (ds_prof s) (ds_trace s ++ [a]).

Definition onDataClient {A} (m : GoM Client A) : GoM DataServer A := zoom ds_client set_client m.
Definition onWriter {A} (m : GoM PointsWriter A) : GoM DataServer A := zoom ds_writer set_writer m.

(** [NewServer(c, buildInfo)], and the profiles that the command sets; the network of
    the client, and the metadata and the store that the points writer is given, are
    arguments. *)
Definition NewDataServer (n : net) (m : metaS) (store : tsdbS) (c : DataConfig) (version cpu mem : string)
    (prof : profiles) : res DataServer :=
  match env_mkdirAll (tsdb_Dir (dc_Data c)) with
  | Err e => Err (wrap_err "mkdir all" e)
  | Panics => Panics
  | Ok _ =>
      let client := (SetTLS (rm_MetaTLSEnabled (dc_Meta c)) (NewClient n)).2 in
      Ok (mkDataServer c version cpu mem (dc_BindAddress c) false [] false [] client (NewPointsWriter m store)
            false false prof [])
  end.

Definition ServerM (A : Type) : Type := ProcM DataServer A.

(** ** Appending services *)

Definition appendService (v : service) : ServerM unit :=
  call (modify (λ s, set_Services (ds_Services s ++ [v]) s)).
Definition appendServices (vs : list service) : ServerM unit :=
  call (modify (λ s, set_Services (ds_Services s ++ vs) s)).

(** [appendClusterService()] *)
Definition appendClusterService : ServerM unit :=
  _ ← appendService SCluster; call (modify set_ClusterService).

(** [appendHTTPDService(c)] *)
Definition appendHTTPDService (c : httpd_c) : ServerM unit :=
  if httpd_Enabled c then appendService SHTTPD else mret tt.

(** [appendCollectdService(c)] *)
Definition appendCollectdService (i : nat) (c : collectd_c) : ServerM unit :=
  if collectd_Enabled c then appendService (SCollectd i) else mret tt.

(** [appendOpenTSDBService(c)] *)
Definition appendOpenTSDBService (i : nat) (c : opentsdb_c) : ServerM unit :=
  if opentsdb_Enabled c then
    _ ← check (env_newOpenTSDB c); appendService (SOpenTSDB i)
  else mret tt.

(** [appendGraphiteService(c)] *)
Definition appendGraphiteService (i : nat) (c : graphite_c) : ServerM unit :=
  if graphite_Enabled c then
    _ ← check (env_newGraphite c); appendService (SGraphite i)
  else mret tt.

(** [appendUDPService(c)] *)
Definition appendUDPService (i : nat) (c : udp_c) : ServerM unit :=
  if udp_Enabled c then appendService (SUDP i) else mret tt.

Fixpoint eachInput {A} (f : nat → A → ServerM unit) (i : nat) (l : list A) : ServerM unit :=
  match l with
  | [] => mret tt
  | c :: l' => _ ← f i c; eachInput f (S i) l'
  end.

(** The part of [Open] that appends services. *)
Definition appendAll (c : DataConfig) : ServerM unit :=
  _ ← appendServices appendMonitor;
  _ ← appendServices (appendPrecreator (dc_Precreator c));
  _ ← appendServices appendSnapshotter;
  _ ← appendServices (appendAdmin (dc_Admin c));
  _ ← appendServices (appendContinuousQuery (dc_ContinuousQuery c));
  _ ← appendHTTPDService (dc_HTTPD c);
  _ ← appendServices (appendRetentionPolicy (dc_Retention c));
  _ ← eachInput appendGraphiteService 0 (dc_GraphiteInputs c);
  _ ← eachInput appendCollectdService 0 (dc_CollectdInputs c);
  _ ← eachInput appendOpenTSDBService 0 (dc_OpenTSDBInputs c);
  eachInput appendUDPService 0 (dc_UDPInputs c).

(** ** Opening and closing *)

(** Opening one part. *)
Definition openPart (prefix : string) (p : part) : ServerM unit :=
  _ ← wrapping prefix (check (env_open p));
  call (modify (trace (Opened p))).

Fixpoint openServices (vs : list service) : ServerM unit :=
  match vs with
  | [] => mret tt
  | v :: vs' => _ ← openPart "open service" (PService v); openServices vs'
  end.

(** [s.Open()]; the multiplexer, the listener of the snapshotter and logging are left
    out. *)
Definition ds_Open : ServerM unit :=
  s ← call get_state;
  _ ← within ds_prof set_prof (startProfile env_create (ds_CPUProfile s) (ds_MemProfile s));
  _ ← wrapping "listen" (check (env_listen (ds_BindAddress s)));
  _ ← call (modify (λ s, trace (Opened PListener) (set_Listener s)));
  _ ← appendAll (ds_config s);
  _ ← call (modify (set_metaClients [PSubscriber; PPointsWriter]));
  _ ← openPart "open tsdb store" PTSDBStore;
  _ ← openPart "open subscriber" PSubscriber;
  _ ← wrapping "open points writer" (call (onWriter (pw_Open subscriberPoints)));
  _ ← call (modify (trace (Opened PPointsWriter)));
  s ← call get_state;
  _ ← openServices (ds_Services s);
  if dc_ReportingDisabled (ds_config s) then mret tt else call (modify set_reporting).

Definition closePart (p : part) : GoM DataServer unit := modify (trace (Closed p)).

(** The points writer and the metadata client panic when their channel cannot be
    closed. *)
Definition closeWriter : GoM DataServer unit := _ ← onWriter pw_Close; closePart PPointsWriter.
Definition closeClient : GoM DataServer unit := _ ← onDataClient ClientClose; closePart PMetaClient.

(** [s.Close()]: errors of the parts are ignored. *)
Definition ds_Close : GoM DataServer unit :=
  _ ← modify (λ s, set_prof (stopProfile (ds_prof s)) s);
  s ← get_state;
  _ ← (if ds_Listener s then closePart PListener else mret tt);
  _ ← for_each (ds_Services s) (λ v, closePart (PService v));
  _ ← closeWriter;
  _ ← closePart PQueryExecutor;
  _ ← closePart PTSDBStore;
  _ ← closePart PSubscriber;
  _ ← closeClient;
  s ← get_state;
  if ds_closing s then panic else modify set_closing.

(** ** Reports, statistics and addresses *)

(** [reportServer()]: the numbers that are sent, given the databases of the metadata
    client and the index of the local store. *)
Definition reportServer (databases : list string) (DatabaseIndex : string → option (Z * Z)) : Z * Z * Z :=
  let counts := omap DatabaseIndex databases in
  (len databases, foldl (λ n ms, i64 (n + ms.1)) 0 counts, foldl (λ n ms, i64 (n + ms.2)) 0 counts).

(** [startServerReporting()]: the number of reports, over the ticks of a day until the
    server is closed ([Stopped]) *)
Inductive reportEvent : Type := DayTick | Stopped.

Fixpoint reportsUntil (events : list reportEvent) : nat :=
  match events with
  | DayTick :: events' => S (reportsUntil events')
  | _ => 0
  end.
Definition startServerReporting (events : list reportEvent) : nat := S (reportsUntil events).

(** [Statistics(tags)], given those of the parts; [None] for a service that reports
    none *)
Definition Statistics {T} (pointsWriter tsdbStore subscriber : list T) (ofService : service → option (list T))
    (s : DataServer) : list T :=
  pointsWriter ++ tsdbStore ++ pointsWriter ++ subscriber ++ (ds_Services s ≫= λ v, default [] (ofService v)).

(** [clusterWriter.WritePoints(...)] calls itself: [None] when the fuel ends *)
Fixpoint clusterWriter_WritePoints (fuel : nat) (database retentionPolicy : string) (points : list nat)
    : option (res unit) :=
  match fuel with
  | O => None
  | S fuel' => clusterWriter_WritePoints fuel' database retentionPolicy points
  end.

(** [DefaultHost(hostname, addr)], [remoteAddr(addr)], [HTTPAddr()], [TCPAddr()] and [MetaServers()]; [Hostname] is a
    field that the configuration does not declare *)
Definition ds_DefaultHost (hostname addr : string) : res string :=
  '(host, port) ← net.SplitHostPort addr;
  if decide (host = "" ∨ host = "0.0.0.0" ∨ host = "::")%string
  then Ok (net.JoinHostPort hostname port) else Ok addr.
Definition ds_remoteAddr (hostname addr : string) : string :=
  match ds_DefaultHost hostname addr with Ok remote => remote | _ => addr end.
Definition ds_HTTPAddr (hostname : string) (s : DataServer) : string :=
  ds_remoteAddr hostname (httpd_BindAddress (dc_HTTPD (ds_config s))).
Definition ds_TCPAddr (hostname : string) (s : DataServer) : string :=
  ds_remoteAddr hostname (ds_BindAddress s).
Definition ds_MetaServers (hostname : string) (s : DataServer) : list string := [ds_HTTPAddr hostname s].

End server.
