(* ===== verification/MetaServer.v ===== *)
(** * The server of a meta node (cmd/influxd-meta/run/server.go)

    Construction with the move of the node file, opening, which goes through the
    metadata client ([MetaClient]) and the meta service ([Lifecycle]), and
    closing. *)

From Stdlib Require Import ZArith Lia.
From Stdlib Require Import Strings.Byte Strings.Ascii Strings.String.
From S2P Require Import Prelude GoLib GoText Configs MetaData StoreFSM MetaClient Lifecycle Process CmdLine.

Local Open Scope Z_scope.

(** ** Files *)

(** [os.Rename] *)
Definition Rename (old new : os.path) : GoM os.world unit := λ w,
  match os.entry w old, os.w_dirs w !! os.p_dir new with
  | None, _ | _, None => (Err (errorf "rename: no such file or directory"), w)
  | Some e, Some _ => (os.Remove old ≫= λ _, modify (λ w, os.set_entry w new e)) w
  end.

(** The open-source [influxdb.LoadNode], [os.IsNotExist] of its error, and
    [node.Save]. *)
Class NodeFile : Type := {
  node_t : Type;
  LoadNode : os.world → string → res node_t;
  IsNotExist : error → bool;
  node_Save : node_t → GoM os.world unit;
}.

Section server.
  Context `{OssMeta, OssCommands, Transport, OssClient, RaftEnv, NodeFile}.
  (** Listening on the shared address and for the service; creating a file. *)
  Context (listenTCP : string → res unit) (listenHTTP : bool → string → res string) (create : string → bool).

(** [Server] *)
Record MetaServer : Type := mkMetaServer {
  mv_config : MetaConfig;
  mv_BindAddress : string;
  mv_Listener : option bool;   (* whether it is closed *)
  mv_MetaClient : Client;
  mv_authInfo : string;
  mv_Service : MetaService;
  mv_CPUProfile : string;
  mv_MemProfile : string;
  mv_prof : profiles;
  mv_closing : bool;
}.

Definition set_MetaClient (c : Client) (s : MetaServer) : MetaServer :=
  mkMetaServer (mv_config s) (mv_BindAddress s) (mv_Listener s) c (mv_authInfo s) (mv_Service s)
    (mv_CPUProfile s) (mv_MemProfile s) (mv_prof s) (mv_closing s).
Definition set_Service (v : MetaService) (s : MetaServer) : MetaServer :=
  mkMetaServer (mv_config s) (mv_BindAddress s) (mv_Listener s) (mv_MetaClient s) (mv_authInfo s) v
    (mv_CPUProfile s) (mv_MemProfile s) (mv_prof s) (mv_closing s).
Definition set_mvListener (l : option bool) (s : MetaServer) : MetaServer :=
  mkMetaServer (mv_config s) (mv_BindAddress s) l (mv_MetaClient s) (mv_authInfo s) (mv_Service s)
    (mv_CPUProfile s) (mv_MemProfile s) (mv_prof s) (mv_closing s).
Definition set_mvProf (p : profiles) (s : MetaServer) : MetaServer :=
  mkMetaServer (mv_config s) (mv_BindAddress s) (mv_Listener s) (mv_MetaClient s) (mv_authInfo s) (mv_Service s)
    (mv_CPUProfile s) (mv_MemProfile s) p (mv_closing s).
Definition set_authInfo (a : string) (s : MetaServer) : MetaServer :=
  mkMetaServer (mv_config s) (mv_BindAddress s) (mv_Listener s) (mv_MetaClient s) a (mv_Service s)
    (mv_CPUProfile s) (mv_MemProfile s) (mv_prof s) (mv_closing s).
Definition set_mvClosing (s : MetaServer) : MetaServer :=
  mkMetaServer (mv_config s) (mv_BindAddress s) (mv_Listener s) (mv_MetaClient s) (mv_authInfo s) (mv_Service s)
    (mv_CPUProfile s) (mv_MemProfile s) (mv_prof s) true.

(** ** Construction *)

Definition nodeFile : string := "node.json".
Definition oldNodePath (c : MetaConfig) : os.path := os.Path (os.p_dir (splitPath (mcf_Dir c))) nodeFile.
Definition newNodePath (c : MetaConfig) : os.path := os.Path (mcf_Dir c) nodeFile.

(** The move of a node file from the directory above. *)
Definition moveNodeFile (c : MetaConfig) : GoM os.world unit :=
  w ← get_state;
  match os.entry w (oldNodePath c) with
  | Some _ => Rename (oldNodePath c) (newNodePath c)
  | None => mret tt
  end.

(** Loading the node: only a missing file is an error; after any other error the
    node is nil. *)
Definition loadNode (c : MetaConfig) : GoM os.world (option node_t) := λ w,
  match LoadNode w (mcf_Dir c) with
  | Ok n => (Ok (Some n), w)
  | Err e => if IsNotExist e then (Err e, w) else (Ok None, w)
  | Panics => (Panics, w)
  end.

(** Saving the node when its file could not be read: the buffer is empty then and
    does not contain the word that is looked for. *)
Definition saveNode (c : MetaConfig) (node : option node_t) : GoM os.world unit :=
  w ← get_state;
  match os.content w (newNodePath c) with
  | Some _ => mret tt
  | None => match node with
            | Some n => _ ← attempt (node_Save n); mret tt
            | None => panic
            end
  end.

(** [NewServer(c, buildInfo)], and the profiles that the command sets; the network of
    the client is given.  The service has no raft listener. *)
Definition NewMetaServer (n : net) (c : MetaConfig) (cpu mem : string) (prof : profiles) : GoM os.world MetaServer :=
  _ ← wrapErr "mkdir all" (os.MkdirAll (mcf_Dir c));
  _ ← moveNodeFile c;
  node ← loadNode c;
  _ ← saveNode c node;
  mret (mkMetaServer c (mcf_BindAddress c) None (NewClient n) "" (NewMetaService c None) cpu mem prof false).

(** ** Opening and closing *)

Definition onClient {A} (m : GoM Client A) : GoM MetaServer A := zoom mv_MetaClient set_MetaClient m.

(** [initializeMetaClient()]; false while the client still waits for a snapshot.  The
    HTTP client is no state here, and [WaitForDataChanged] only returns a channel. *)
Definition initializeMetaClient (fuel : nat) : GoM MetaServer bool :=
  s ← get_state;
  _ ← onClient (SetMetaServers []);
  _ ← onClient (SetTLS (mcf_HTTPSEnabled (mv_config s)));
  _ ← modify (set_authInfo (mcf_RemoteHostname (mv_config s)));
  onClient (ClientOpen fuel).

(** [s.Service.Open()]: [None] while it still waits. *)
Definition openService (first : list event) (rounds : list (list event)) : ProcM MetaServer (option unit) := λ s,
  match ms_Open listenHTTP first rounds (mv_Service s) with
  | None => (Returns None, s)
  | Some (Ok u, v) => (Returns (Some u), set_Service v s)
  | Some (Err e, v) => (Fails e, set_Service v s)
  | Some (Panics, v) => (Crashes, set_Service v s)
  end.

(** [s.Open()]: [None] while a call still waits. *)
Definition mv_Open (fuel : nat) (first : list event) (rounds : list (list event)) : ProcM MetaServer (option unit) :=
  s ← call get_state;
  _ ← within mv_prof set_mvProf (startProfile create (mv_CPUProfile s) (mv_MemProfile s));
  _ ← wrapping "listen" (check (listenTCP (mv_BindAddress s)));
  _ ← call (modify (set_mvListener (Some false)));
  ready ← call (initializeMetaClient fuel);
  if ready : bool then
    ready ← call (onClient (ClientOpen fuel));
    if ready : bool then
      openService first rounds
    else mret None
  else mret None.

(** [s.Close()]: the errors of client and service are ignored; [None] while a call
    waits for a lock. *)
Definition mv_Close (s : MetaServer) : option (res unit * MetaServer) :=
  let s := set_mvProf (stopProfile (mv_prof s)) s in
  let s := match mv_Listener s with Some _ => set_mvListener (Some true) s | None => s end in
  match onClient ClientClose s with
  | (Panics, s1) => Some (Panics, s1)
  | (_, s1) =>
      match ms_Close (mv_Service s1) with
      | None => None
      | Some (Panics, v) => Some (Panics, set_Service v s1)
      | Some (_, v) =>
          let s2 := set_Service v s1 in
          if mv_closing s2 then Some (Panics, s2) else Some (Ok tt, set_mvClosing s2)
      end
  end.

(** [HTTPAddr()] *)
Definition mv_HTTPAddr (s : MetaServer) : string := mcf_HTTPBindAddress (mv_config s).

(** [monitorErrorChan(ch)]: the errors that are passed on, until the channel or the
    server is closed ([None]). *)
Fixpoint monitorErrorChan (events : list (option error)) : list error :=
  match events with
  | Some e :: events' => e :: monitorErrorChan events'
  | _ => []
  end.

(** ** Opening always fails *)

(** The client has no server to ask when it is opened. *)
Lemma initializeMetaClient_panics fuel s : (initializeMetaClient (S fuel) s).1 = Panics.
Proof. done. Qed.

(** Whatever the configuration and the environment, [Open] does not return: a profile
    or the address can fail before, and then opening the client panics. *)
Lemma mv_Open_outcome fuel first rounds s :
  (mv_Open (S fuel) first rounds s).1 =
  match (startProfile create (mv_CPUProfile s) (mv_MemProfile s) (mv_prof s)).1 with
  | Returns _ => match listenTCP (mv_BindAddress s) with
                 | Err e => Fails (wrap_err "listen" e)
                 | _ => Crashes
                 end
  | Fails e => Fails e
  | Crashes => Crashes
  | Exits code => Exits code
  end.
Proof.
  unfold mv_Open. proc_simpl. cbn -[startProfile initializeMetaClient].
  destruct (startProfile create (mv_CPUProfile s) (mv_MemProfile s) (mv_prof s)) as [[[]|e| |code] p]; cbn; [|done..].
  by destruct (listenTCP (mv_BindAddress s)).
Qed.

End server.
