(* ===== verification/Commands.v ===== *)
(** * The commands of both daemons

    cmd/influxd/run/command.go and config_command.go, the same files of
    cmd/influxd-meta, and the main functions of both: running and closing a
    server, printing the configuration, choosing the command, and the handling of
    signals as a step relation.

    Both daemons run the same sequence of calls over different configurations and
    servers, so the commands are written over an interface ([Daemon]); the
    instances for a data node and a meta node are at the end. *)

From Stdlib Require Import ZArith Lia.
From Stdlib Require Import Strings.Byte Strings.Ascii Strings.String.
From S2P Require Import Prelude GoLib GoText Configs MetaData StoreFSM MetaClient PointsWriter Lifecycle.
From S2P Require Import Process CmdLine DataConfig DataServer MetaServer.

Local Open Scope Z_scope.

(** ** What a command runs *)

(** Configurations [C] and servers [V].  [dm_Open] gives [None] while it waits. *)
Class Daemon (C V : Type) : Type := {
  dm_ParseConfig : string → res C;
  dm_parseConfig : string → res C;                 (* of the config command *)
  dm_ApplyEnvOverrides : C → res C;
  dm_Validate : C → res unit;
  dm_NewServer : C → Options → GoM os.world V;
  dm_Open : ProcM V (option unit);
  dm_Close : V → option (res unit * V);
  dm_monitors : bool;                               (* starts monitorServerErrors *)
}.

Section command.
  Context `{Daemon C V}.
  Context (Getenv : string → string) (exists_ : string → bool) (pid : Z).

(** [Command]: channels by whether they are closed; [cm_Server] is set when the server
    is open; [cm_left] is a server whose opening failed. *)
Record Command : Type := mkCmd {
  cm_closing : bool;
  cm_Closed : bool;
  cm_Server : option V;
  cm_left : option V;
  cm_monitoring : bool;
  cm_world : os.world;
}.

(** [NewCommand()] *)
Definition NewCommand (w : os.world) : Command := mkCmd false false None None false w.

Definition set_world (w : os.world) (c : Command) : Command :=
  mkCmd (cm_closing c) (cm_Closed c) (cm_Server c) (cm_left c) (cm_monitoring c) w.

Definition CommandM (A : Type) : Type := ProcM Command A.

Definition onWorld {A} (m : GoM os.world A) : CommandM A := within cm_world set_world (call m).

(** [s.Open()] of the new server; only an open server becomes the server of the
    command. *)
Definition openServer (v : V) : CommandM (option unit) := λ c,
  match dm_Open v with
  | (Returns (Some _), v') =>
      (Returns (Some tt), mkCmd (cm_closing c) (cm_Closed c) (Some v') (cm_left c) dm_monitors (cm_world c))
  | (r, v') => (r, mkCmd (cm_closing c) (cm_Closed c) (cm_Server c) (Some v') (cm_monitoring c) (cm_world c))
  end.

(** The format of the error for a configuration that is not valid. *)
Definition toGenerate : string := "%s. To generate a valid configuration file run `influxd config`".

(** [cmd.Run(args...)]; [None] while opening waits.  Logging and the rate of the block
    profile are left out. *)
Definition Command_Run (args : list string) : CommandM (option unit) :=
  options ← check (ParseFlags args);
  _ ← wrapping "write pid file" (onWorld (writePIDFile pid (op_PIDFile options)));
  config ← wrapping "parse config" (check (dm_ParseConfig (GetConfigPath Getenv exists_ options)));
  config ← wrapping "apply env config" (check (dm_ApplyEnvOverrides config));
  _ ← wrapping toGenerate (check (dm_Validate config));
  s ← wrapping "create server" (onWorld (dm_NewServer config options));
  wrapping "open server" (openServer s).

(** [cmd.Close()]: [Closed] is closed when the call ends, also by a panic. *)
Definition Command_Close (c : Command) : option (res unit * Command) :=
  if cm_closing c then Some (Panics, mkCmd true true (cm_Server c) (cm_left c) (cm_monitoring c) (cm_world c))
  else
    let closed s := mkCmd true true s (cm_left c) (cm_monitoring c) (cm_world c) in
    if cm_Closed c then Some (Panics, closed (cm_Server c))
    else
      match cm_Server c with
      | None => Some (Ok tt, closed None)
      | Some v =>
          match dm_Close v with
          | None => None
          | Some (r, v') => Some (r, closed (Some v'))
          end
      end.

(** [monitorServerErrors()]: the errors that are logged until the command closes
    ([None]). *)
Fixpoint monitorServerErrors (events : list (option error)) : list error :=
  match events with
  | Some e :: events' => e :: monitorServerErrors events'
  | _ => []
  end.

(** [PrintConfigCommand.Run(args...)], given the encoder *)
Definition PrintConfigCommand_Run (Encode : C → string) (args : list string) : res string :=
  '(vals, _) ← flag.parse ["config"%string] ∅ args;
  let opt := mkOptions (flag.value "config" vals) "" "" "" in
  let wrap {A} prefix (r : res A) := match r with Err e => Err (wrap_err prefix e) | x => x end in
  config ← wrap "parse config"%string (dm_parseConfig (GetConfigPath Getenv exists_ opt));
  config ← wrap "apply env config"%string (dm_ApplyEnvOverrides config);
  _ ← wrap toGenerate (dm_Validate config);
  Ok (Encode config +:+ String "010" "")%string.

(** ** main

    The main function of cmd/influxd imports the run command of the open-source
    repository; the commands that it runs are written here as those of
    cmd/influxd/run of this repository, which has the same interface and is what the
    theorems about a data node are about. *)

(** The commands that are not in the repository: backup, restore and help. *)
Context (external : string → option (list string → res unit)).
(** [cmd.ParseCommandName(args)] of the open-source package *)
Context (ParseCommandName : list string → string * list string).
Context (product version branch commit : string) (Encode : C → string).

Definition unknownCommand : error := errorf "unknown command".

(** What follows a command: a server runs until signals arrive, or nothing. *)
Inductive next : Type := Serving | Finished (output : string) | Waiting.

(** [m.Run(args...)] up to the wait for signals *)
Definition Main_Run (args : list string) : CommandM next :=
  let '(name, args) := ParseCommandName args in
  if decide (name = "" ∨ name = "run")%string then
    r ← wrapping "run" (Command_Run args);
    mret (match r with Some _ => Serving | None => Waiting end)
  else if decide (name = "config"%string) then
    out ← wrapping "config" (check (PrintConfigCommand_Run Encode args)); mret (Finished out)
  else if decide (name = "version"%string) then
    out ← wrapping "version" (check (VersionCommand_Run product version branch commit args)); mret (Finished out)
  else
    match external name with
    | Some run => _ ← wrapping name (check (run args)); mret (Finished "")
    | None => check (Err unknownCommand)
    end.

(** [main()]: an error is printed, and ends the process with code 1. *)
Definition main (args : list string) : CommandM next := λ c,
  match Main_Run args c with
  | (Fails _, c') => (Exits 1, c')
  | x => x
  end.

End command.

Arguments Command _ : clear implicits.

(** ** Signals

    After the server is open, [Main.Run] waits for a signal, starts a goroutine that
    closes the command, and waits for a second signal, for thirty seconds or for
    the command to be closed.  Closing is a list of calls, each of which returns,
    panics, or blocks for ever (a lock, a goroutine that is waited for); the process
    ends when [Main.Run] does, or by the panic.  Time passes in seconds from the
    first signal on. *)
Section signals.
  Context {P : Type}.

Inductive conduct : Type := Finishes | Breaks | Blocks.

Inductive reason : Type := SecondSignal | TimeLimit | Completed.

Inductive phase : Type :=
  | AwaitSignal
  | AwaitClosed
  | Ended (r : reason)     (* the process exits with code 0 *)
  | Crashed.               (* the panic of the goroutine ends the process *)

Inductive closer : Type :=
  | NotStarted
  | Closing (todo : list (P * conduct))   (* the calls that are left *)
  | ClosePanicked                         (* the deferred close of [Closed] has run *)
  | CloseReturned.

Record shutdown : Type := mkShutdown {
  sd_phase : phase;
  sd_closer : closer;
  sd_done : list P;        (* the calls that have returned *)
  sd_clock : nat;          (* seconds since the first signal *)
}.

Definition channelClosed (c : closer) : bool :=
  match c with ClosePanicked | CloseReturned => true | _ => false end.

(** [time.After(time.Second * 30)] *)
Definition timeLimit : nat := 30.

(** A call that blocks takes no step of its own. *)
Inductive signal_step (plan : list (P * conduct)) : shutdown → shutdown → Prop :=
  | step_first_signal :
      signal_step plan (mkShutdown AwaitSignal NotStarted [] 0) (mkShutdown AwaitClosed (Closing plan) [] 0)
  | step_close_call p todo done t :
      signal_step plan (mkShutdown AwaitClosed (Closing ((p, Finishes) :: todo)) done t)
        (mkShutdown AwaitClosed (Closing todo) (done ++ [p]) t)
  | step_close_panic p todo done t :
      signal_step plan (mkShutdown AwaitClosed (Closing ((p, Breaks) :: todo)) done t)
        (mkShutdown AwaitClosed ClosePanicked done t)
  | step_close_return done t :
      signal_step plan (mkShutdown AwaitClosed (Closing []) done t) (mkShutdown AwaitClosed CloseReturned done t)
  | step_crash done t :
      signal_step plan (mkShutdown AwaitClosed ClosePanicked done t) (mkShutdown Crashed ClosePanicked done t)
  | step_second c done t :
      (t < timeLimit)%nat →
      signal_step plan (mkShutdown AwaitClosed c done t) (mkShutdown AwaitClosed c done (S t))
  | step_second_signal c done t :
      signal_step plan (mkShutdown AwaitClosed c done t) (mkShutdown (Ended SecondSignal) c done t)
  | step_timeout c done :
      signal_step plan (mkShutdown AwaitClosed c done timeLimit) (mkShutdown (Ended TimeLimit) c done timeLimit)
  | step_completed c done t :
      channelClosed c = true →
      signal_step plan (mkShutdown AwaitClosed c done t) (mkShutdown (Ended Completed) c done t).

Definition serving : shutdown := mkShutdown AwaitSignal NotStarted [] 0.

End signals.

(** ** The data node *)

Section data.
  Context `{DE : DataEnv, OM : OssMeta, CO : OssCommands, TR : Transport, CL : OssClient, WR : Writing, Parsers}.
  (** The network of the client; the metadata, the store and the channel of the
      subscriber that the points writer is given. *)
  Context (n : net) (m : metaS) (store : tsdbS).
  Context (subscriberPoints : option (nat * list (string * string * list wPoint))).
  Context (Getenv : string → string) (userHome : option string).
  Context (Decode : string → GoM DataConfig unit) (ReadFile : string → res (list byte)).
  Context (meta_Validate : RunMetaConfig → res unit).
  (** The configuration behind the fields that reflection changed. *)
  Context (ofReflect : value → DataConfig) (version : string).

#[export] Instance data_daemon : Daemon DataConfig DataServer := {
  dm_ParseConfig := ParseDataConfig Decode ReadFile userHome (Getenv "HOME");
  dm_parseConfig := parseDataConfig Decode ReadFile userHome (Getenv "HOME");
  dm_ApplyEnvOverrides c := match ApplyDataOverrides Getenv c with
                            | (Ok _, v) => Ok (ofReflect v)
                            | (Err e, _) => Err e
                            | (Panics, _) => Panics
                            end;
  dm_Validate := ValidateData meta_Validate;
  dm_NewServer c o := lift_res (NewDataServer n m store c version (op_CPUProfile o) (op_MemProfile o) noProfiles);
  dm_Open := _ ← ds_Open subscriberPoints; mret (Some tt);
  dm_Close s := Some (ds_Close s);
  dm_monitors := true;
}.

End data.

(** ** The meta node *)

(** The configuration behind the fields of [reflectMeta]. *)
Definition ofReflectMeta (v : value) : option MetaConfig :=
  match v with
  | VStruct [(_, VBool a); (_, VString b); (_, VString c); (_, VString d); (_, VString e); (_, VBool f);
             (_, VString g); (_, VBool h); (_, VInt _ _ i); (_, VInt _ _ j); (_, VInt _ _ k); (_, VInt _ _ l);
             (_, VInt _ _ m); (_, VInt _ _ n); (_, VBool o); (_, VBool p); (_, VBool q); (_, VBool r);
             (_, VInt _ _ s)] =>
      Some (mkMetaConfig a b c d e f g h i j k l m n o p q r s)
  | _ => None
  end.

Lemma ofReflectMeta_reflectMeta m : ofReflectMeta (reflectMeta m) = Some m.
Proof. by destruct m. Qed.

(** [c.ApplyEnvOverrides()] on a pointer that may be nil: reflection finds no struct
    behind a nil pointer. *)
Definition applyMeta `{Parsers} (Getenv : string → string) (c : option MetaConfig) : res (option MetaConfig) :=
  match c with
  | None => Ok None
  | Some m =>
      match ApplyEnvOverrides Getenv m with
      | (Ok _, VStruct [(_, v)]) => Ok (ofReflectMeta v)
      | (Ok _, _) => Ok (Some m)
      | (Err e, _) => Err e
      | (Panics, _) => Panics
      end
  end.

(** [ParseConfig(path)] of cmd/influxd-meta/run/config.go, given the decoder *)
Definition ParseMetaConfig (DecodeFile : string → option MetaConfig → res (option MetaConfig))
    (userHome : option string) (HOME path : string) : res (option MetaConfig) :=
  if decide (path = ""%string) then Ok (NewDemoConfig userHome HOME)
  else DecodeFile path (Some NewConfig).

(** [parseConfig(path)] of its config command: the default replaces the demo
    configuration when there is one. *)
Definition parseMetaConfig (DecodeFile : string → option MetaConfig → res (option MetaConfig))
    (userHome : option string) (HOME path : string) : res (option MetaConfig) :=
  let config := match NewDemoConfig userHome HOME with Some _ => Some NewConfig | None => None end in
  if decide (path = ""%string) then Ok config else DecodeFile path config.

Section meta.
  Context `{OssMeta, OssCommands, Transport, OssClient, RaftEnv, NodeFile, Parsers}.
  Context (listenTCP : string → res unit) (listenHTTP : bool → string → res string) (create : string → bool).
  Context (Getenv : string → string) (userHome : option string).
  Context (DecodeFile : string → option MetaConfig → res (option MetaConfig)).
  Context (n : net) (fuel : nat) (first : list event) (rounds : list (list event)).

#[export] Instance meta_daemon : Daemon (option MetaConfig) MetaServer := {
  dm_ParseConfig := ParseMetaConfig DecodeFile userHome (Getenv "HOME");
  dm_parseConfig := parseMetaConfig DecodeFile userHome (Getenv "HOME");
  dm_ApplyEnvOverrides := applyMeta Getenv;
  dm_Validate c := match c with Some m => Validate m | None => Panics end;
  dm_NewServer c o := match c with
                      | Some m => NewMetaServer n m (op_CPUProfile o) (op_MemProfile o) noProfiles
                      | None => panic
                      end;
  dm_Open := mv_Open listenTCP listenHTTP create fuel first rounds;
  dm_Close := mv_Close;
  dm_monitors := false;
}.

(** The commands of cmd/influxd-meta, whose main function knows neither backup nor
    restore nor help. *)
Context (exists_ : string → bool) (pid : Z) (ParseCommandName : list string → string * list string).
Context (version branch commit : string) (Encode : option MetaConfig → string).

Definition MetaCommand_Run : list string → CommandM (option unit) := Command_Run Getenv exists_ pid.
Definition MetaCommand_Close : Command MetaServer → option (res unit * Command MetaServer) := Command_Close.
Definition MetaPrintConfigCommand_Run : list string → res string := PrintConfigCommand_Run Getenv exists_ Encode.
Definition MetaMain_Run : list string → CommandM next :=
  Main_Run Getenv exists_ pid (λ _, None) ParseCommandName "Influx-meta" version branch commit Encode.
Definition meta_main : list string → CommandM next :=
  main Getenv exists_ pid (λ _, None) ParseCommandName "Influx-meta" version branch commit Encode.

End meta.
