(* ===== verification/Ctl.v ===== *)
(** * The control program

    cmd/influxd-ctl/main.go and the help command: which command a name runs, the
    text its errors start with, and the exit code.  The packages of the commands
    are not in the repository, so the commands are parameters; the source writes
    [add - data.NewCommand()] for the constructor of the package add-data, which is
    read here as that constructor. *)

From Stdlib Require Import ZArith Lia.
From Stdlib Require Import Strings.Ascii Strings.String.
From S2P Require Import Prelude GoLib GoText CmdLine Process Commands.

Local Open Scope Z_scope.

(** The packages whose command is run. *)
Inductive ctlCommand : Type := AddData | AddMeta | Join | Leave | Help.

#[export] Instance ctlCommand_eq_dec : EqDecision ctlCommand.
Proof. solve_decision. Defined.

(** The switch of [m.Run]: the command for a name, with the prefix of its errors. *)
Definition ctl_switch (name : string) : option (ctlCommand * string) :=
  if decide (name = "add-data"%string) then Some (AddData, "add-data"%string)
  else if decide (name = "add-meta"%string) then Some (AddMeta, "add-meta"%string)
  else if decide (name = "join"%string) then Some (Join, "join"%string)
  else if decide (name = "leave"%string) then Some (Leave, "restore"%string)
  else if decide (name = "copy-shard"%string) then Some (AddMeta, "backup"%string)
  else if decide (name = "" ∨ name = "help")%string then Some (Help, "help"%string)
  else None.

Section ctl.
  (** The state that the commands work on. *)
  Context {S : Type}.
  (** [NewCommand().Run(args...)] of each package *)
  Context (run : ctlCommand → list string → GoM S unit).
  (** [cmd.ParseCommandName(args)] of the open-source package *)
  Context (ParseCommandName : list string → string * list string).

(** [m.Run(args...)] *)
Definition ctl_Run (args : list string) : ProcM S unit :=
  let '(name, args) := ParseCommandName args in
  match ctl_switch name with
  | Some (c, prefix) => wrapping prefix (call (run c args))
  | None => check (Err unknownCommand)
  end.

(** [main()] *)
Definition ctl_main (args : list string) : ProcM S unit := λ s,
  match ctl_Run args s with
  | (Fails _, s') => (Exits 1, s')
  | x => x
  end.

End ctl.

(** The names that the text of [help.usage] lists. *)
Definition ctl_usage : list string :=
  ["add-data"; "add-meta"; "backup"; "copy-shard"; "copy-shard-status"; "join"; "kill-copy-shard"; "leave";
   "remove-data"; "remove-meta"; "remove-shard"; "restore"; "show"; "show-shards"; "update-data"; "token";
   "truncate-shards"]%string.

(** ** Properties *)

Section properties.
  Context {S : Type} (run : ctlCommand → list string → GoM S unit).
  Context (ParseCommandName : list string → string * list string).

(** The program changes the state only by the command that the switch names, and
    exits with code 1 when there is none or when it fails. *)
Theorem ctl_main_outcome args s :
  ctl_main run ParseCommandName args s =
  let '(name, args') := ParseCommandName args in
  match ctl_switch name with
  | None => (Exits 1, s)
  | Some (c, _) =>
      match run c args' s with
      | (Ok _, s') => (Returns tt, s')
      | (Err _, s') => (Exits 1, s')
      | (Panics, s') => (Crashes, s')
      end
  end.
Proof.
  unfold ctl_main, ctl_Run. destruct (ParseCommandName args) as [name args'].
  destruct (ctl_switch name) as [[c prefix]|]; [|done].
  unfold wrapping, call. by destruct (run c args' s) as [[[]|e|] s'].
Qed.

(** Copying a shard adds a meta node: with the same arguments the two names end in the
    same state with the same exit code. *)
Corollary copy_shard_adds_meta args1 args2 rest s :
  ParseCommandName args1 = ("copy-shard"%string, rest) → ParseCommandName args2 = ("add-meta"%string, rest) →
  ctl_main run ParseCommandName args1 s = ctl_main run ParseCommandName args2 s.
Proof. intros H1 H2. by rewrite !ctl_main_outcome, H1, H2. Qed.

End properties.

(** Of the seventeen commands in the help text twelve are unknown to the program. *)
Theorem ctl_usage_unknown :
  filter (λ name, ctl_switch name = None) ctl_usage =
  ["backup"; "copy-shard-status"; "kill-copy-shard"; "remove-data"; "remove-meta"; "remove-shard"; "restore"; "show";
   "show-shards"; "update-data"; "token"; "truncate-shards"]%string.
Proof. vm_compute. done. Qed.
