(* ===== verification/DaemonTheorems.v ===== *)
(** * Properties of the daemons

    Opening and closing the server of a data node, the start of a meta node, what a
    command closes, and how a process ends after a signal. *)

From Stdlib Require Import ZArith Lia.
From Stdlib Require Import Strings.Byte Strings.Ascii Strings.String.
From S2P Require Import Prelude GoLib GoText Configs MetaData StoreFSM MetaClient PointsWriter Lifecycle.
From S2P Require Import MetaTheorems StoreTheorems ClientTheorems LifecycleTheorems.
From S2P Require Import Process CmdLine DataConfig DataServer MetaServer Commands.

Local Open Scope Z_scope.

(** ** Opening a data node *)

Section data_server.
  Context `{DE : DataEnv, OM : OssMeta, CO : OssCommands, TR : Transport, CL : OssClient, WR : Writing}.
  Context (subscriberPoints : option (nat * list (string * string * list wPoint))).

(** The services of a configuration, in their order. *)
Definition inputs {A} (enabled : A → bool) (mk : nat → service) (i : nat) (l : list A) : list service :=
  concat (imap (λ j c, if enabled c then [mk (i + j)%nat] else []) l).

Definition servicesOf (c : DataConfig) : list service :=
  appendMonitor ++ appendPrecreator (dc_Precreator c) ++ appendSnapshotter ++ appendAdmin (dc_Admin c) ++
  appendContinuousQuery (dc_ContinuousQuery c) ++ (if httpd_Enabled (dc_HTTPD c) then [SHTTPD] else []) ++
  appendRetentionPolicy (dc_Retention c) ++
  inputs graphite_Enabled SGraphite 0 (dc_GraphiteInputs c) ++
  inputs collectd_Enabled SCollectd 0 (dc_CollectdInputs c) ++
  inputs opentsdb_Enabled SOpenTSDB 0 (dc_OpenTSDBInputs c) ++
  inputs udp_Enabled SUDP 0 (dc_UDPInputs c).

(** [m] appends the services [l], or fails and leaves everything but the services. *)
Definition appends (m : ServerM unit) (l : list service) : Prop :=
  ∀ s, ∃ o l', m s = (o, set_Services l' s) ∧ (o = Returns tt → l' = ds_Services s ++ l).

Lemma appends_nil : appends (mret tt) [].
Proof. intros s. exists (Returns tt), (ds_Services s). split; [by destruct s|]. by rewrite app_nil_r. Qed.

Lemma appends_all l : appends (appendServices l) l.
Proof. intros s. by exists (Returns tt), (ds_Services s ++ l). Qed.

Lemma appends_one v : appends (appendService v) [v].
Proof. intros s. by exists (Returns tt), (ds_Services s ++ [v]). Qed.

Lemma appends_bind (m1 m2 : ProcM DataServer unit) l1 l2 :
  appends m1 l1 → appends m2 l2 → appends (_ ← m1; m2) (l1 ++ l2).
Proof.
  intros H1 H2 s. destruct (H1 s) as (o1 & k1 & E1 & K1).
  unfold mbind, proc_bind. rewrite E1. destruct o1 as [[]|e| |z]; [|by repeat eexists..].
  rewrite (K1 eq_refl). destruct (H2 (set_Services (ds_Services s ++ l1) s)) as (o2 & k2 & E2 & K2).
  exists o2, k2. split; [exact E2|]. intros Ho. by rewrite (K2 Ho), app_assoc.
Qed.

Lemma appends_check (r : res unit) l (m : ProcM DataServer unit) : appends m l → appends (_ ← check r; m) l.
Proof.
  intros Hm s. proc_simpl. destruct r as [[]|e|]; [apply Hm| |];
    eexists _, (ds_Services s); (split; [by destruct s|done]).
Qed.

Lemma appends_if (b : bool) m l : appends m l → appends (if b then m else mret tt) (if b then l else []).
Proof. by destruct b; [|intros _; apply appends_nil]. Qed.

Lemma appends_inputs {A} (enabled : A → bool) mk f i l :
  (∀ i c, appends (f i c) (if enabled c then [mk i] else [])) →
  appends (eachInput f i l) (inputs enabled mk i l).
Proof.
  intros Hf. revert i. induction l as [|c l IH]; intros i; [apply appends_nil|].
  unfold inputs. cbn [imap eachInput concat]. apply appends_bind; [by rewrite Nat.add_0_r|].
  erewrite imap_ext; [apply (IH (S i))|]. intros j c' _. cbn. by replace (i + S j)%nat with (S (i + j)) by lia.
Qed.

Lemma appends_appendAll c : appends (appendAll c) (servicesOf c).
Proof.
  unfold appendAll, servicesOf.
  repeat (apply appends_bind; [first [apply appends_all | apply appends_if, appends_one
    | apply appends_inputs; intros i x; apply appends_if; try apply appends_check; apply appends_one]|]).
  apply appends_inputs. intros i x. apply appends_if, appends_one.
Qed.

(** The points writer always opens. *)
Definition openable (p : part) : res unit := match p with PPointsWriter => Ok tt | _ => env_open p end.

(** A sequence of parts that are opened. *)
Fixpoint openParts (l : list (string * part)) (s : DataServer) : outcome unit * DataServer :=
  match l with
  | [] => (Returns tt, s)
  | (prefix, p) :: l' =>
      match openable p with
      | Ok _ => openParts l' (trace (Opened p) s)
      | Err e => (Fails (wrap_err prefix e), s)
      | Panics => (Crashes, s)
      end
  end.

Definition traceAll (l : list action) (s : DataServer) : DataServer := foldl (λ s a, trace a s) s l.

Lemma traceAll_trace l s : ds_trace (traceAll l s) = ds_trace s ++ l.
Proof.
  unfold traceAll. revert s. induction l as [|a l IH]; intros s; cbn; [by rewrite app_nil_r|].
  rewrite IH. cbn. by rewrite <- app_assoc.
Qed.

Lemma bind_openPart prefix p (m : ProcM DataServer unit) s :
  (_ ← openPart prefix p; m) s =
  match env_open p with
  | Ok _ => m (trace (Opened p) s)
  | Err e => (Fails (wrap_err prefix e), s)
  | Panics => (Crashes, s)
  end.
Proof. unfold openPart. proc_simpl. by destruct (env_open p). Qed.

Lemma openServices_openParts vs s :
  openServices vs s = openParts (map (λ v, ("open service"%string, PService v)) vs) s.
Proof.
  revert s. induction vs as [|v vs IH]; intros s; [done|]. cbn [openServices map openParts openable].
  etrans; [apply bind_openPart|]. destruct (env_open (PService v)); [apply IH|done..].
Qed.

(** What the writer is does not matter to the parts. *)
Lemma openParts_writer l w s :
  openParts l (set_writer w s) = let '(o, s') := openParts l s in (o, set_writer w s').
Proof.
  revert s. induction l as [|[prefix p] l IH]; intros s; [done|]. cbn [openParts].
  destruct (openable p); [|done..]. exact (IH (trace (Opened p) s)).
Qed.

(** Parts are opened up to the first that fails. *)
Lemma openParts_run l s :
  ∃ k o, openParts l s = (o, traceAll (map Opened (take k l.*2)) s) ∧ (k ≤ length l)%nat ∧
    (∀ p, p ∈ take k l.*2 → openable p = Ok tt) ∧
    (o = Returns tt ↔ k = length l) ∧ (∀ p, l.*2 !! k = Some p → openable p ≠ Ok tt).
Proof.
  revert s. induction l as [|[prefix p] l IH]; intros s.
  { exists 0%nat, (Returns tt). split_and!; [done..| |done|done]. set_solver. }
  cbn [openParts]. destruct (openable p) as [[]|e|] eqn:Ep.
  - destruct (IH (trace (Opened p) s)) as (k & o & E & Hk & Hok & Ho & Hn).
    exists (S k), o. split_and!; [exact E|cbn; lia| |rewrite Ho; cbn; lia|exact Hn].
    intros q. cbn. rewrite elem_of_cons. intros [->|Hq]; [done|by apply Hok].
  - exists 0%nat, (Fails (wrap_err prefix e)). split_and!; [done|cbn; lia|set_solver|done|].
    intros q [= <-]. by rewrite Ep.
  - exists 0%nat, Crashes. split_and!; [done|cbn; lia|set_solver|done|]. intros q [= <-]. by rewrite Ep.
Qed.

(** What [Open] opens behind the listener. *)
Definition openPlan (c : DataConfig) : list (string * part) :=
  [("open tsdb store", PTSDBStore); ("open subscriber", PSubscriber); ("open points writer", PPointsWriter)]%string ++
  map (λ v, ("open service"%string, PService v)) (servicesOf c).

Definition openedParts (c : DataConfig) : list part := PListener :: (openPlan c).*2.

Lemma openedParts_eq c :
  openedParts c = PListener :: PTSDBStore :: PSubscriber :: PPointsWriter :: map PService (servicesOf c).
Proof. unfold openedParts, openPlan. cbn. do 4 f_equal. induction (servicesOf c) as [|v l IH]; cbn; congruence. Qed.

(** A server that has not been opened. *)
Definition fresh (s : DataServer) : Prop :=
  ds_Services s = [] ∧ ds_trace s = [] ∧ c_closingCh (ds_client s) = None ∧
  pw_closing (ds_writer s) = false ∧ ds_closing s = false ∧ ds_ClusterService s = false ∧ ds_Listener s = false.

Lemma NewDataServer_fresh n m store c version cpu mem prof s :
  NewDataServer n m store c version cpu mem prof = Ok s → fresh s ∧ ds_config s = c.
Proof. unfold NewDataServer. destruct (env_mkdirAll _); [|done..]. by intros [= <-]. Qed.

(** The state before the parts behind the listener are opened. *)
Definition prepared (s : DataServer) (p : profiles) (w : PointsWriter) : DataServer :=
  set_writer w (set_metaClients [PSubscriber; PPointsWriter]
    (set_Services (servicesOf (ds_config s)) (trace (Opened PListener) (set_Listener (set_prof p s))))).

(** The end of [Open]: the services, then the reports. *)
Definition reports (c : DataConfig) (s : DataServer) : DataServer :=
  if dc_ReportingDisabled c then s else set_reporting s.

Lemma traceAll_frame l s :
  ds_config (traceAll l s) = ds_config s ∧ ds_Services (traceAll l s) = ds_Services s ∧
  ds_writer (traceAll l s) = ds_writer s ∧ ds_client (traceAll l s) = ds_client s ∧
  ds_closing (traceAll l s) = ds_closing s ∧ ds_ClusterService (traceAll l s) = ds_ClusterService s ∧
  ds_Listener (traceAll l s) = ds_Listener s.
Proof. unfold traceAll. revert s. induction l as [|a l IH]; intros s; [done|]. cbn. by destruct (IH (trace a s)). Qed.

(** The end of [Open] after the services have been appended. *)
Definition openRest : ServerM unit :=
  _ ← openPart "open tsdb store" PTSDBStore;
  _ ← openPart "open subscriber" PSubscriber;
  _ ← wrapping "open points writer" (call (onWriter (pw_Open subscriberPoints)));
  _ ← call (modify (trace (Opened PPointsWriter)));
  s ← call get_state;
  _ ← openServices (ds_Services s);
  if dc_ReportingDisabled (ds_config s) then mret tt else call (modify set_reporting).

Definition thenReports (c : DataConfig) (x : outcome unit * DataServer) : outcome unit * DataServer :=
  match x with (Returns _, s) => (Returns tt, reports c s) | x => x end.

Lemma onWriter_pw_Open s :
  onWriter (pw_Open subscriberPoints) s = (Ok tt, set_writer (pw_Open subscriberPoints (ds_writer s)).2 s).
Proof. done. Qed.

Lemma openRest_run s :
  pw_closing (ds_writer s) = false → ds_Services s = servicesOf (ds_config s) →
  ∃ w, pw_closing w = false ∧
    openRest s = thenReports (ds_config s) (openParts (openPlan (ds_config s)) (set_writer w s)).
Proof.
  intros Hw Hs. unfold openRest, openPlan. cbn [app openParts openable].
  assert (set_writer (ds_writer s) s = s) as Es by (by destruct s).
  destruct (env_open PTSDBStore) eqn:E1.
  2,3: exists (ds_writer s); (split; [done|]); rewrite Es; (etrans; [apply bind_openPart|]); by rewrite E1.
  destruct (env_open PSubscriber) eqn:E2.
  2,3: exists (ds_writer s); (split; [done|]); rewrite Es; (etrans; [apply bind_openPart|]); rewrite E1;
    (etrans; [apply bind_openPart|]); by rewrite E2.
  exists (pw_Open subscriberPoints (ds_writer s)).2. split; [done|].
  etrans; [apply bind_openPart|]. rewrite E1. etrans; [apply bind_openPart|]. rewrite E2.
  proc_simpl. rewrite onWriter_pw_Open. cbn -[openServices openParts pw_Open].
  rewrite openServices_openParts, Hs. set (t := trace _ _).
  match goal with |- _ = thenReports _ (openParts _ ?t') => change t' with t end.
  destruct (openParts _ t) as [[[]|e| |z] s1]; [|done..].
  unfold thenReports, reports. by destruct (dc_ReportingDisabled _).
Qed.

(** [Open] stops with nothing open, with the listener, or goes on to the parts behind
    it. *)
Lemma ds_Open_run s : fresh s →
  (∃ o s1, ds_Open subscriberPoints s = (o, s1) ∧ o ≠ Returns tt ∧ ds_trace s1 = []) ∨
  env_listen (ds_BindAddress s) = Ok tt ∧
  ((∃ o s1, ds_Open subscriberPoints s = (o, s1) ∧ o ≠ Returns tt ∧ ds_trace s1 = [Opened PListener]) ∨
   ∃ p w, pw_closing w = false ∧
     ds_Open subscriberPoints s = thenReports (ds_config s) (openParts (openPlan (ds_config s)) (prepared s p w))).
Proof.
  intros (Hs & Ht & Hc & Hw & Hcl & Hcs & Hl).
  unfold ds_Open. fold openRest. proc_simpl. cbn -[startProfile openRest appendAll].
  destruct (startProfile _ _ _ _) as [[[]|e| |z] p]; cbn -[openRest appendAll]; [|left; by repeat eexists..].
  destruct (env_listen _) as [[]|e|]; cbn -[openRest appendAll]; [|left; by repeat eexists..].
  right. split; [done|].
  destruct (appends_appendAll (ds_config s) (trace (Opened PListener) (set_Listener (set_prof p s))))
    as (o & l & E & Ho). rewrite E.
  destruct o as [[]|e| |z]; [|left; repeat eexists; [done|cbn; by rewrite Ht]..].
  right. rewrite (Ho eq_refl). cbn [ds_Services trace set_Listener set_prof] in *. rewrite Hs. cbn [app].
  match goal with |- context [openRest ?t] => destruct (openRest_run t Hw eq_refl) as (w & Hw' & E') end.
  exists p, w. by split.
Qed.

(** Whether a part opens. *)
Definition opens (s : DataServer) (p : part) : Prop :=
  match p with PListener => env_listen (ds_BindAddress s) = Ok tt | _ => openable p = Ok tt end.

Lemma plan_opens s k :
  env_listen (ds_BindAddress s) = Ok tt →
  (∀ p, p ∈ take k (openPlan (ds_config s)).*2 → openable p = Ok tt) →
  ∀ p, p ∈ take (S k) (openedParts (ds_config s)) → opens s p.
Proof.
  intros Hl Hk p. unfold openedParts. cbn [take]. rewrite elem_of_cons. intros [->|Hp]; [done|].
  specialize (Hk _ Hp). by destruct p.
Qed.

(** Parts are opened in the order of the plan up to the first that does not open, and
    [Open] succeeds when all are open. *)
Lemma Open_in_order s o s1 : fresh s → ds_Open subscriberPoints s = (o, s1) →
  let plan := openedParts (ds_config s) in
  ∃ k, (k ≤ length plan)%nat ∧ ds_trace s1 = map Opened (take k plan) ∧
    (∀ p, p ∈ take k plan → opens s p) ∧ (o = Returns tt ↔ k = length plan).
Proof.
  intros Hf E. destruct (ds_Open_run s Hf) as [(o' & s1' & E' & Ho & Ht)|(Hl & [(o' & s1' & E' & Ho & Ht)|(p & w & Hpw & E')])];
    rewrite E in E'; cbv zeta.
  - simplify_eq. exists 0%nat. split_and!; [cbn; lia|by rewrite Ht|set_solver|done].
  - simplify_eq. exists 1%nat. split_and!; [cbn; lia|by rewrite Ht|by apply (plan_opens s 0); [|set_solver]|].
    unfold openedParts, openPlan. by cbn.
  - destruct (openParts_run (openPlan (ds_config s)) (prepared s p w)) as (k & o' & Er & Hk & Hok & Hiff & _).
    assert (o = o' ∧ ds_trace s1 = ds_trace (prepared s p w) ++ map Opened (take k (openPlan (ds_config s)).*2))
      as [-> Ht].
    { rewrite Er in E'. rewrite <- traceAll_trace. unfold thenReports, reports in E'.
      destruct o' as [[]|e| |z], (dc_ReportingDisabled (ds_config s)); by simplify_eq. }
    destruct Hf as (_ & Ht0 & _). exists (S k). unfold openedParts. cbn [length take map]. rewrite length_fmap.
    split_and!; [lia|by rewrite Ht; cbn; rewrite Ht0|by apply (plan_opens s k)|rewrite Hiff; lia].
Qed.

(** ** Closing a data node *)

Lemma opened_server s s1 : fresh s → ds_Open subscriberPoints s = (Returns tt, s1) →
  ds_config s1 = ds_config s ∧ ds_Services s1 = servicesOf (ds_config s) ∧ pw_closing (ds_writer s1) = false ∧
  c_closingCh (ds_client s1) = None ∧ ds_closing s1 = false ∧ ds_ClusterService s1 = false ∧ ds_Listener s1 = true.
Proof.
  intros Hf E. destruct (ds_Open_run s Hf) as [(o' & s1' & E' & Ho & _)|(_ & [(o' & s1' & E' & Ho & _)|(p & w & Hpw & E')])];
    rewrite E in E'; [simplify_eq..|].
  destruct (openParts_run (openPlan (ds_config s)) (prepared s p w)) as (k & o & Er & _). rewrite Er in E'.
  destruct Hf as (Hs & _ & Hc & Hw & Hcl & Hcs & _).
  revert E'. generalize (map Opened (take k (openPlan (ds_config s)).*2)). intros l E'.
  destruct (traceAll_frame l (prepared s p w)) as (F1 & F2 & F3 & F4 & F5 & F6 & F7).
  unfold thenReports, reports in E'. destruct o as [[]|e| |z]; [|done..].
  destruct (dc_ReportingDisabled _); injection E' as ->; cbn [set_reporting ds_config ds_Services ds_writer
    ds_client ds_closing ds_ClusterService ds_Listener]; rewrite ?F1, ?F2, ?F3, ?F4, ?F5, ?F6, ?F7; by cbn.
Qed.

Lemma closeServices vs s : for_each vs (λ v, closePart (PService v)) s = (Ok tt, traceAll (map (Closed ∘ PService) vs) s).
Proof. unfold traceAll. revert s. induction vs as [|v vs IH]; intros s; [done|]. cbn. apply IH. Qed.

(** What [Close] closes before the metadata client. *)
Definition closedParts (vs : list service) : list part :=
  PListener :: map PService vs ++ [PPointsWriter; PQueryExecutor; PTSDBStore; PSubscriber].

(** Without an open metadata client, [Close] panics when everything else is closed. *)
Lemma ds_Close_run s :
  ds_Listener s = true → pw_closing (ds_writer s) = false → c_closingCh (ds_client s) = None →
  ∃ s', ds_Close s = (Panics, s') ∧ ds_closing s' = ds_closing s ∧
    ds_trace s' = ds_trace s ++ map Closed (closedParts (ds_Services s)).
Proof.
  intros Hl Hw Hc. unfold ds_Close, closedParts. gom_simpl.
  cbn [ds_Listener set_prof]. rewrite Hl. cbn -[for_each].
  rewrite closeServices. set (t := traceAll _ _).
  destruct (traceAll_frame (map (Closed ∘ PService) (ds_Services s))
    (trace (Closed PListener) (set_prof (stopProfile (ds_prof s)) s))) as (_ & _ & F3 & F4 & F5 & _). fold t in F3, F4, F5.
  unfold closeWriter, onWriter, zoom, pw_Close. gom_simpl. rewrite F3. cbn. rewrite Hw. cbn.
  unfold closeClient, onDataClient, zoom, ClientClose. gom_simpl. cbn. rewrite F4. cbn. rewrite Hc.
  eexists. split; [done|]. cbn. split; [exact F5|].
  subst t. rewrite traceAll_trace. cbn. rewrite map_app, map_map. by rewrite <- !app_assoc.
Qed.

(** C29. The server of a data node that was created and opened has opened its
    listener, the store, the subscriber, the points writer and the configured
    services, in this order.  Closing it closes the listener first, then the
    services, then the points writer, the query executor, the store and the
    subscriber, each once; but then it panics: the metadata client was never
    opened and has no channel to close, so the channel that ends the reports stays
    open.  The cluster service is not among the parts of the server. *)
Theorem Close_after_Open n m store c version cpu mem prof s s1 :
  NewDataServer n m store c version cpu mem prof = Ok s → ds_Open subscriberPoints s = (Returns tt, s1) →
  let services := map PService (servicesOf c) in
  ds_trace s1 = map Opened (PListener :: PTSDBStore :: PSubscriber :: PPointsWriter :: services) ∧
  c_closingCh (ds_client s1) = None ∧ ds_ClusterService s1 = false ∧
  ∃ s2, ds_Close s1 = (Panics, s2) ∧ ds_closing s2 = false ∧
    ds_trace s2 = ds_trace s1 ++
      map Closed (PListener :: services ++ [PPointsWriter; PQueryExecutor; PTSDBStore; PSubscriber]).
Proof.
  intros [Hf <-]%NewDataServer_fresh E. cbv zeta.
  destruct (Open_in_order s _ s1 Hf E) as (k & _ & Ht & _ & Hk).
  rewrite (proj1 Hk eq_refl), firstn_all, openedParts_eq in Ht.
  destruct (opened_server s s1 Hf E) as (_ & Hs & Hw & Hc & Hcl & Hcs & Hl).
  destruct (ds_Close_run s1 Hl Hw Hc) as (s2 & Ec & Hcl2 & Ht2). rewrite Hs in Ht2.
  split_and!; [done..|]. exists s2. split_and!; [done|congruence|done].
Qed.

End data_server.

(** ** What a command closes *)

Section command.
  Context `{Daemon C V}.
  Context (Getenv : string → string) (exists_ : string → bool) (pid : Z).

(** [m] leaves the servers and the channels of the command. *)
Definition keepsServers {A} (m : ProcM (Command V) A) : Prop :=
  ∀ c, ∃ o w, m c = (o, set_world w c).

Lemma keeps_check {A} (r : res A) : keepsServers (check r).
Proof. intros []. by repeat eexists. Qed.

Lemma keeps_onWorld {A} (m : GoM os.world A) : keepsServers (onWorld m).
Proof. intros []. unfold onWorld. proc_simpl. cbn. destruct (m _) as [r w]. by repeat eexists. Qed.

Lemma keeps_wrapping {A} prefix (m : ProcM (Command V) A) : keepsServers m → keepsServers (wrapping prefix m).
Proof.
  intros Hm c. unfold wrapping. destruct (Hm c) as (o & w & ->). destruct o; by repeat eexists.
Qed.

(** The same kind of outcome; errors may be wrapped. *)
Definition alike {A} (o r : outcome A) : Prop :=
  match o, r with
  | Returns a, Returns b => a = b
  | Fails _, Fails _ | Crashes, Crashes => True
  | Exits z, Exits y => z = y
  | _, _ => False
  end.

Lemma alike_Returns {A} (o r : outcome A) a : alike o r → o = Returns a ↔ r = Returns a.
Proof. destruct o, r; cbn; naive_solver. Qed.

(** How a run leaves the command: nothing was opened, or what opening left. *)
Definition ranTo (c : Command V) (o : outcome (option unit)) (c' : Command V) : Prop :=
  (∃ w, c' = set_world w c ∧ (∀ a, o ≠ Returns a)) ∨
  (∃ config opts w0 w v v' r,
     dm_NewServer config opts w0 = (Ok v, w) ∧ dm_Open v = (r, v') ∧
     alike o r ∧
     c' = match r with
          | Returns (Some _) => mkCmd (cm_closing c) (cm_Closed c) (Some v') (cm_left c) dm_monitors w
          | _ => mkCmd (cm_closing c) (cm_Closed c) (cm_Server c) (Some v') (cm_monitoring c) w
          end).

Lemma ranTo_bind {A} (m : ProcM (Command V) A) (k : A → ProcM (Command V) (option unit)) :
  keepsServers m → (∀ a c, let '(o, c') := k a c in ranTo c o c') →
  ∀ c, let '(o, c') := (m ≫= k) c in ranTo c o c'.
Proof.
  intros Hm Hk c. unfold mbind, proc_bind. destruct (Hm c) as (o & w & ->).
  destruct o as [a|e| |z]; [|left; by exists w..].
  specialize (Hk a (set_world w c)). destruct (k a (set_world w c)) as [o' c'].
  destruct Hk as [(w' & -> & Ho)|(config & opts & w0 & w1 & v & v' & r & Hn & Ho & Hr & Hc)].
  - left. by exists w'.
  - right. by exists config, opts, w0, w1, v, v', r.
Qed.

Lemma ranTo_create config opts prefix prefix' c :
  let '(o, c') := (s ← wrapping prefix (onWorld (dm_NewServer config opts)); wrapping prefix' (openServer s)) c in
  ranTo c o c'.
Proof.
  unfold onWorld, openServer. proc_simpl.
  destruct (dm_NewServer config opts (cm_world c)) as [[v|e|] w] eqn:En; cbn; [|left; by exists w..].
  destruct (dm_Open v) as [r v'] eqn:Eo.
  destruct r as [[[]|]|e| |z]; cbn; right;
    exists config, opts, (cm_world c), w, v, v'; eexists; by split_and!.
Qed.

(** A run has the server of the command only when that is open. *)
Lemma Command_Run_server args c :
  let '(o, c') := Command_Run Getenv exists_ pid args c in ranTo c o c'.
Proof.
  unfold Command_Run. revert c.
  do 5 (apply ranTo_bind; [eauto using keeps_check, keeps_onWorld, keeps_wrapping|intros ?]).
  intros c. apply ranTo_create.
Qed.

End command.

(** *** A data node that does not start *)

Section failed_start.
  Context `{DE : DataEnv, OM : OssMeta, CO : OssCommands, TR : Transport, CL : OssClient, WR : Writing, Parsers}.
  Context (n : net) (m : metaS) (store : tsdbS).
  Context (subscriberPoints : option (nat * list (string * string * list wPoint))).
  Context (Getenv : string → string) (exists_ : string → bool) (pid : Z) (userHome : option string).
  Context (Decode : string → GoM DataConfig unit) (ReadFile : string → res (list byte)).
  Context (meta_Validate : RunMetaConfig → res unit) (ofReflect : value → DataConfig) (version : string).

Local Abbreviation daemon := (data_daemon n m store subscriberPoints Getenv userHome Decode ReadFile meta_Validate ofReflect version).

Lemma data_Open_run (v v' : DataServer) r :
  (_ ← ds_Open subscriberPoints; mret (Some tt) : ProcM DataServer (option unit)) v = (r, v') →
  ∃ o, ds_Open subscriberPoints v = (o, v') ∧ (o = Returns tt ↔ r = Returns (Some tt)).
Proof.
  proc_simpl. destruct (ds_Open subscriberPoints v) as [[[]|e| |z] s]; intros [= <- <-]; by eexists.
Qed.

(** C34. A command whose run does not end with an open server has no server, so
    closing the command succeeds and closes nothing: the parts that the server had
    opened before it failed, an initial part of the plan in its order (the
    listener, the store, ...) and never all of it, stay open. *)
Theorem failed_start_is_not_closed args w o c :
  @Command_Run _ _ daemon Getenv exists_ pid args (NewCommand w) = (o, c) → o ≠ Returns (Some tt) →
  (∃ c', @Command_Close _ _ daemon c = Some (Ok tt, c') ∧ cm_Closed c' = true ∧ cm_left c' = cm_left c) ∧
  ∀ v, cm_left c = Some v →
    ∃ config k, (k < length (openedParts config))%nat ∧ ds_trace v = map Opened (take k (openedParts config)).
Proof.
  intros E Ho. pose proof (@Command_Run_server _ _ daemon Getenv exists_ pid args (NewCommand w)) as Hr.
  rewrite E in Hr. destruct Hr as [(w' & -> & _)|(config & opts & w0 & w1 & v & v' & r & Hn & Hop & Hr & Hc)].
  - by split; [eexists|].
  - assert (r ≠ Returns (Some tt)) as Hr' by (by rewrite <- (alike_Returns _ _ _ Hr)).
    assert (c = mkCmd false false None (Some v') false w1) as -> by (by destruct r as [[[]|]|e| |z]).
    split; [by eexists|]. cbn. intros ? [= <-].
    assert (NewDataServer n m store config version (op_CPUProfile opts) (op_MemProfile opts) noProfiles = Ok v) as Hv.
    { cbn in Hn. unfold lift_res in Hn. by injection Hn. }
    apply NewDataServer_fresh in Hv as [Hf <-]. destruct (data_Open_run v v' r Hop) as (o' & Eo & Hiff).
    destruct (Open_in_order subscriberPoints v o' v' Hf Eo) as (k & Hk & Ht & _ & Hk').
    exists (ds_config v), k. split; [|done].
    apply Nat.le_neq. split; [exact Hk|]. by intros ->%Hk'%Hiff.
Qed.

End failed_start.

(** ** The start of a meta node *)

Section meta_start.
  Context `{OssMeta, OssCommands, Transport, OssClient, RaftEnv, NodeFile, Parsers}.
  Context (listenTCP : string → res unit) (listenHTTP : bool → string → res string) (create : string → bool).
  Context (Getenv : string → string) (exists_ : string → bool) (pid : Z) (userHome : option string).
  Context (DecodeFile : string → option MetaConfig → res (option MetaConfig)).
  Context (n : net) (fuel : nat) (first : list event) (rounds : list (list event)).
  Context (ParseCommandName : list string → string * list string).
  Context (version branch commit : string) (Encode : option MetaConfig → string).

Local Abbreviation daemon :=
  (meta_daemon listenTCP listenHTTP create Getenv userHome DecodeFile n (S fuel) first rounds).

(** What opening a server comes to, by the files of its profiles and its address. *)
Definition opening {A} (v : MetaServer) : outcome A :=
  let file p := bool_decide (p = ""%string) || create p in
  if file (mv_CPUProfile v) && file (mv_MemProfile v)
  then match listenTCP (mv_BindAddress v) with Err _ => Exits 1 | _ => Crashes end
  else Exits 1.

(** The end of a process whose run gave an outcome. *)
Definition exiting {A} (o : outcome A) : outcome A := match o with Fails _ => Exits 1 | _ => o end.

Lemma startProfile_files cpu mem p :
  (startProfile create cpu mem p).1 =
  if (bool_decide (cpu = ""%string) || create cpu) && (bool_decide (mem = ""%string) || create mem)
  then Returns tt else Exits 1.
Proof.
  unfold startProfile. proc_simpl. rewrite !bool_decide_decide.
  repeat case_decide; cbn; try done; destruct (create cpu); cbn; try done; by destruct (create mem).
Qed.

Lemma meta_Open_frame v r v' : mv_Open listenTCP listenHTTP create (S fuel) first rounds v = (r, v') →
  mv_CPUProfile v' = mv_CPUProfile v ∧ mv_MemProfile v' = mv_MemProfile v ∧ mv_BindAddress v' = mv_BindAddress v.
Proof.
  unfold mv_Open. proc_simpl. cbn -[startProfile initializeMetaClient].
  destruct (startProfile _ _ _ _) as [[[]|e| |code] p]; cbn; [|by intros [= <- <-]..].
  destruct (listenTCP _); by intros [= <- <-].
Qed.

Lemma meta_Open_opening v r v' : mv_Open listenTCP listenHTTP create (S fuel) first rounds v = (r, v') →
  exiting r = opening v'.
Proof.
  intros E. destruct (meta_Open_frame v r v' E) as (Hc & Hm & Hb).
  pose proof (mv_Open_outcome listenTCP listenHTTP create fuel first rounds v) as Ho. rewrite E in Ho. cbn [fst] in Ho.
  rewrite startProfile_files, <- Hc, <- Hm, <- Hb in Ho. unfold opening. rewrite Ho. clear.
  destruct (_ && _); [|done]. by destruct (listenTCP _).
Qed.

Lemma meta_Command_Run args w :
  let '(o, c') := @Command_Run _ _ daemon Getenv exists_ pid args (NewCommand w) in
  (∀ a, o ≠ Returns a) ∧ cm_Server c' = None ∧
  match cm_left c' with Some v => exiting o = opening v | None => True end.
Proof.
  pose proof (@Command_Run_server _ _ daemon Getenv exists_ pid args (NewCommand w)) as Hr.
  destruct (Command_Run _ _ _ _ _) as [o c'].
  destruct Hr as [(w' & -> & Ho)|(config & opts & w0 & w1 & v & v' & r & Hn & Hop & Hr & ->)]; [done|].
  apply (meta_Open_opening v r v') in Hop. assert (∀ a, exiting r ≠ Returns a) as Hx.
  { intros a. rewrite Hop. unfold opening. destruct (_ && _); [|done]. by destruct (listenTCP _). }
  assert (exiting o = exiting r) as Ho by (destruct o, r; naive_solver).
  assert (∀ a, r ≠ Returns a) as Hra by (intros a ->; by destruct (Hx a)).
  split; [intros a ->; by apply (Hx a)|]. destruct r as [a|e| |z]; [by destruct (Hra a)|..]; by rewrite Ho.
Qed.

(** A command that prints or runs once. *)
Lemma command_finishes {A} (r : res A) prefix (f : A → string) (c : Command MetaServer) :
  let '(o, c') := (out ← wrapping prefix (check r); mret (Finished (f out))) c in
  (∀ a, o = Returns a → ∃ out, a = Finished out) ∧ cm_Server c' = cm_Server c.
Proof. proc_simpl. destruct r; cbn; (split; [|done]); intros b Hb; simplify_eq. by eexists. Qed.

Lemma command_ends (m : ProcM (Command MetaServer) next) w :
  (let '(o, c') := m (NewCommand w) in
   (∀ a, o = Returns a → ∃ out, a = Finished out) ∧ cm_Server c' = cm_Server (NewCommand w)) →
  let '(o, c') := match m (NewCommand w) with (Fails _, c') => (Exits 1, c') | x => x end in
  cm_Server c' = None ∧ ∀ r, o = Returns r → ∃ out, r = Finished out.
Proof. destruct (m (NewCommand w)) as [[a|e| |z] c']; by intros [Hf Hs]. Qed.

(** C33. A meta node cannot start: whatever the arguments, the environment, the files,
    the network and the addresses, its main function does not come to wait for
    signals, and no server is ever set.  When the command comes to open a server,
    the process exits with code 1 if a profile cannot be created or the address
    cannot be listened on, and otherwise it panics, since the client is opened
    without the address of a meta server.  Only the other commands can return. *)
Theorem meta_node_never_serves args w :
  let name := (ParseCommandName args).1 in
  let '(o, c') := meta_main listenTCP listenHTTP create Getenv userHome DecodeFile n (S fuel) first rounds exists_
                    pid ParseCommandName version branch commit Encode args (NewCommand w) in
  cm_Server c' = None ∧
  if decide (name = "" ∨ name = "run")%string
  then (∀ r, o ≠ Returns r) ∧ match cm_left c' with Some v => o = opening v | None => True end
  else ∀ r, o = Returns r → ∃ out, r = Finished out.
Proof.
  unfold meta_main, main, Main_Run. destruct (ParseCommandName args) as [name args']. cbv zeta. cbn [fst].
  destruct (decide (name = "" ∨ name = "run")%string).
  - pose proof (meta_Command_Run args' w) as Hr. proc_simpl.
    destruct (Command_Run _ _ _ _ _) as [out c']. destruct Hr as (Hf & Hs & Hl).
    destruct out as [a|e| |z]; [by destruct (Hf a)|..]; cbn in *; (split_and!; [done..|]);
      by destruct (cm_left c') as [v|]; [revert Hl; unfold opening; repeat case_match; intros Hl; simplify_eq|].
  - apply command_ends. destruct (decide (name = "config"%string)); [apply command_finishes|].
    destruct (decide (name = "version"%string)); [apply command_finishes|done].
Qed.

End meta_start.

(** ** The end of a process *)

Section ending.
  Context {P : Type} (plan : list (P * conduct)).

Abbreviation step := (signal_step plan).

(** The state after the first signal. *)
Definition signalled : shutdown := mkShutdown AwaitClosed (Closing plan) [] 0.

(** The calls that have returned are an initial part of the plan; the first one that
    panics ends it. *)
Definition shutdown_inv (s : shutdown) : Prop :=
  match sd_closer s with
  | NotStarted => False
  | Closing todo => plan = map (., Finishes) (sd_done s) ++ todo
  | ClosePanicked => ∃ p rest, plan = map (., Finishes) (sd_done s) ++ (p, Breaks) :: rest
  | CloseReturned => plan = map (., Finishes) (sd_done s)
  end ∧
  sd_phase s ≠ AwaitSignal ∧ (sd_clock s ≤ timeLimit)%nat ∧
  (sd_phase s = Ended TimeLimit → sd_clock s = timeLimit) ∧
  (sd_phase s = Ended Completed → channelClosed (sd_closer s) = true) ∧
  (sd_phase s = Crashed → sd_closer s = ClosePanicked).

Lemma signalled_inv : shutdown_inv signalled.
Proof. split_and!; try done. cbn. lia. Qed.

Lemma step_inv s s' : step s s' → shutdown_inv s → shutdown_inv s'.
Proof.
  intros Hs (Hc & Ha & Ht & Hl & He & Hp). destruct Hs; cbn in *; split_and!; cbn; try done.
  - rewrite map_app. cbn. by rewrite <- app_assoc.
  - by repeat eexists.
  - by rewrite app_nil_r in Hc.
Qed.

Lemma reachable_inv s : rtc step signalled s → shutdown_inv s.
Proof. apply (rtc_ind_r shutdown_inv signalled); eauto using step_inv, signalled_inv. Qed.

(** Every step brings the end closer. *)
Definition remaining (s : shutdown) : nat :=
  match sd_phase s with
  | AwaitSignal => length plan + 4 + timeLimit
  | AwaitClosed =>
      match sd_closer s with Closing todo => @length (P * conduct) todo + 3 | _ => 2 end + (timeLimit - sd_clock s)
  | _ => 0
  end.

Lemma step_remaining s s' : step s s' → (remaining s' < remaining s)%nat.
Proof. destruct 1; unfold remaining; cbn [sd_phase sd_closer sd_clock length]; try lia; destruct c; lia. Qed.

Lemma step_sn s : sn step s.
Proof.
  assert (∀ n s, (remaining s < n)%nat → sn step s) as Hn; [|by apply (Hn (S (remaining s))); lia].
  clear s. induction n as [|n IH]; intros s Hs; [lia|]. constructor. intros s' Hs'%step_remaining. apply IH. lia.
Qed.

(** The process has ended. *)
Definition ended (s : @shutdown P) : Prop := sd_phase s = Crashed ∨ ∃ r, sd_phase s = Ended r.

Lemma ended_nf s : ended s → nf step s.
Proof. intros He [s' Hs]. destruct He as [He|[r He]]; by destruct Hs. Qed.

(** A process that got a signal and has not ended goes on without a second one, and
    a second one ends it. *)
Lemma goes_on s : rtc step signalled s → ¬ ended s →
  (∃ s', step s s' ∧ sd_phase s' ≠ Ended SecondSignal) ∧
  step s (mkShutdown (Ended SecondSignal) (sd_closer s) (sd_done s) (sd_clock s)).
Proof.
  intros (_ & Ha & Ht & _)%reachable_inv He. destruct s as [ph c d t]. cbn in *.
  destruct ph as [| |r|]; [done| |by destruct He; right; exists r|by destruct He; left].
  split; [|constructor]. destruct (decide (t < timeLimit)%nat).
  - eexists. split; [by apply step_second|done].
  - replace t with timeLimit by lia. eexists. split; [apply step_timeout|done].
Qed.

(** The calls of a plan before the first that does not return, and how that one ends. *)
Fixpoint returning (l : list (P * conduct)) : list P :=
  match l with
  | (p, Finishes) :: l' => p :: returning l'
  | _ => []
  end.

Fixpoint obstacle (l : list (P * conduct)) : option conduct :=
  match l with
  | (_, Finishes) :: l' => obstacle l'
  | (_, x) :: _ => Some x
  | [] => None
  end.

Lemma returning_app l k : returning (map (., Finishes) l ++ k) = l ++ returning k.
Proof. induction l as [|p l IH]; [done|]. cbn. by rewrite IH. Qed.

Lemma obstacle_app l k : obstacle (map (., Finishes) l ++ k) = obstacle k.
Proof. by induction l. Qed.

Lemma plan_split (l : list (P * conduct)) :
  match obstacle l with
  | Some x => ∃ p rest, l = map (., Finishes) (returning l) ++ (p, x) :: rest
  | None => l = map (., Finishes) (returning l)
  end.
Proof.
  induction l as [|[p []] l IH]; [done| |by exists p, l..]. cbn. destruct (obstacle l).
  - destruct IH as (q & rest & E). exists q, rest. by rewrite E at 1.
  - by rewrite IH at 1.
Qed.

Lemma done_returning s : shutdown_inv s →
  sd_done s `prefix_of` returning plan ∧
  (sd_phase s = Ended Completed ∨ sd_phase s = Crashed → sd_done s = returning plan).
Proof.
  intros (Hc & _ & _ & _ & He & Hp). destruct (sd_closer s) as [|todo| |]; [done|..].
  - rewrite Hc, returning_app. split; [by eexists|]. intros [H|H]; [by specialize (He H)|by specialize (Hp H)].
  - destruct Hc as (p & rest & ->). rewrite returning_app. cbn [returning]. by rewrite app_nil_r.
  - rewrite Hc, <- (app_nil_r (map _ _)), returning_app, app_nil_r. done.
Qed.

Lemma run_calls (l : list P) todo d :
  rtc step (mkShutdown AwaitClosed (Closing (map (., Finishes) l ++ todo)) d 0)
    (mkShutdown AwaitClosed (Closing todo) (d ++ l) 0).
Proof.
  revert d. induction l as [|p l IH]; intros d; cbn; [by rewrite app_nil_r|].
  eapply rtc_l; [apply step_close_call|]. specialize (IH (d ++ [p])). by rewrite <- app_assoc in IH.
Qed.

(** The calls that return are made when nothing else happens. *)
Lemma run_returning :
  ∃ todo, plan = map (., Finishes) (returning plan) ++ todo ∧
    rtc step signalled (mkShutdown AwaitClosed (Closing todo) (returning plan) 0).
Proof.
  assert (∃ todo, plan = map (., Finishes) (returning plan) ++ todo) as [todo E].
  { pose proof (plan_split plan) as H. destruct (obstacle plan); [destruct H as (p & rest & H); by eexists|].
    exists []. by rewrite app_nil_r. }
  exists todo. split; [done|]. unfold signalled. rewrite E at 2. apply (run_calls _ todo []).
Qed.

Lemma crash_reachable :
  (∃ s, rtc step signalled s ∧ sd_phase s = Crashed) ↔ obstacle plan = Some Breaks.
Proof.
  split.
  - intros (s & (Hc & _ & _ & _ & _ & Hp)%reachable_inv & He). rewrite (Hp He) in Hc. destruct Hc as (p & rest & ->).
    apply obstacle_app.
  - intros Ho. pose proof (plan_split plan) as Hs. rewrite Ho in Hs. destruct Hs as (p & rest & E).
    exists (mkShutdown Crashed ClosePanicked (returning plan) 0). split; [|done].
    destruct run_returning as (todo & E' & Hr). rewrite E in E' at 1. apply app_inv_head in E' as <-.
    etrans; [exact Hr|]. eapply rtc_l; [apply step_close_panic|]. apply rtc_once, step_crash.
Qed.

Lemma completion_reachable :
  (∃ s, rtc step signalled s ∧ sd_phase s = Ended Completed) ↔ obstacle plan ≠ Some Blocks.
Proof.
  split.
  - intros (s & (Hc & _ & _ & _ & He & _)%reachable_inv & Hs). specialize (He Hs).
    destruct (sd_closer s); [done..| |].
    + destruct Hc as (p & rest & ->). by rewrite obstacle_app.
    + by rewrite Hc, <- (app_nil_r (map _ _)), obstacle_app.
  - intros Ho. pose proof (plan_split plan) as Hs. destruct run_returning as (todo & E & Hr).
    destruct (obstacle plan) as [[]|] eqn:Eo; try done.
    + exfalso. clear -Eo. induction plan as [|[p []] l IH]; try done.
    + destruct Hs as (p & rest & E'). rewrite E in E' at 1. apply app_inv_head in E' as ->.
      eexists. split; [etrans; [exact Hr|]; eapply rtc_l; [apply step_close_panic|];
        apply rtc_once, step_completed; done|done].
    + rewrite E in Hs at 1. rewrite <- (app_nil_r (map _ (returning plan))) in Hs at 2.
      apply app_inv_head in Hs as ->.
      eexists. split; [etrans; [exact Hr|]; eapply rtc_l; [apply step_close_return|];
        apply rtc_once, step_completed; done|done].
Qed.

(** C32. A server that is open waits for a signal, which starts the shutdown.  From
    then on its process ends, within thirty seconds and whatever the calls of the
    shutdown do: there is no infinite run, and a process that has not ended can
    always go on, without a second signal too; a second signal ends it at once.
    The calls of the shutdown happen in order, up to the first that panics or
    blocks; all of those before have been done when the process crashes, or ends
    because the command has closed.  It can crash exactly when that call panics,
    and end because the command has closed exactly when it does not block. *)
Theorem shutdown_ends :
  (∀ s, step serving s ↔ s = signalled) ∧
  sn step signalled ∧
  (∀ s, rtc step signalled s →
     (ended s → nf step s) ∧
     (¬ ended s → (∃ s', step s s' ∧ sd_phase s' ≠ Ended SecondSignal) ∧
                  step s (mkShutdown (Ended SecondSignal) (sd_closer s) (sd_done s) (sd_clock s))) ∧
     (sd_clock s ≤ 30)%nat ∧ (sd_phase s = Ended TimeLimit → sd_clock s = 30%nat) ∧
     sd_done s `prefix_of` returning plan ∧
     (sd_phase s = Ended Completed ∨ sd_phase s = Crashed → sd_done s = returning plan)) ∧
  ((∃ s, rtc step signalled s ∧ sd_phase s = Crashed) ↔ obstacle plan = Some Breaks) ∧
  ((∃ s, rtc step signalled s ∧ sd_phase s = Ended Completed) ↔ obstacle plan ≠ Some Blocks).
Proof.
  split_and!; [|apply step_sn| |apply crash_reachable|apply completion_reachable].
  { intros s. split; [by inversion 1|]. intros ->. constructor. }
  intros s Hs. pose proof (reachable_inv s Hs) as Hi. split_and!; [apply ended_nf|by apply goes_on|apply Hi|apply Hi|..];
    by apply done_returning.
Qed.

End ending.

(** ** The end of a data node *)

Section data_ending.
  Context `{DE : DataEnv, OM : OssMeta, CO : OssCommands, TR : Transport, CL : OssClient, WR : Writing}.
  Context (subscriberPoints : option (nat * list (string * string * list wPoint))).

(** The calls of [Close] on an open server, with those that panic. *)
Definition closeCalls (s : DataServer) : list (part * conduct) :=
  map (., Finishes) (closedParts (ds_Services s)) ++
  [(PMetaClient, match c_closingCh (ds_client s) with Some _ => Finishes | None => Breaks end)].

(** The plan is what [Close] does: the parts that it closes are the calls that
    return. *)
Lemma closeCalls_Close s :
  ds_Listener s = true → pw_closing (ds_writer s) = false → c_closingCh (ds_client s) = None →
  ds_trace (ds_Close s).2 = ds_trace s ++ map Closed (returning (closeCalls s)).
Proof.
  intros Hl Hw Hc. destruct (ds_Close_run s Hl Hw Hc) as (s' & -> & _ & Ht). cbn [snd]. rewrite Ht.
  unfold closeCalls. rewrite returning_app, Hc. cbn [returning]. by rewrite app_nil_r.
Qed.

(** A data node that got a signal can crash. *)
Lemma data_node_can_crash n m store c version cpu mem prof s s1 :
  NewDataServer n m store c version cpu mem prof = Ok s → ds_Open subscriberPoints s = (Returns tt, s1) →
  ∃ t, rtc (signal_step (closeCalls s1)) (signalled (closeCalls s1)) t ∧ sd_phase t = Crashed ∧ sd_done t = closedParts (servicesOf c).
Proof.
  intros [Hf <-]%NewDataServer_fresh E. destruct (opened_server subscriberPoints s s1 Hf E) as (_ & Hs & _ & Hc & _).
  destruct (proj2 (crash_reachable (closeCalls s1))) as (t & Ht & He).
  { unfold closeCalls. by rewrite obstacle_app, Hc. }
  exists t. split_and!; [done..|]. rewrite (proj2 (done_returning _ _ (reachable_inv _ _ Ht))) by (by right).
  unfold closeCalls. rewrite returning_app, Hc, Hs. apply app_nil_r.
Qed.

(** Writing through the cluster's writer never returns. *)
Lemma clusterWriter_never_returns fuel db rp points : clusterWriter_WritePoints fuel db rp points = None.
Proof. by induction fuel. Qed.

End data_ending.

(** ** Runs *)

(** Configurations that say whether the service is enabled. *)
Definition demo_configs : OssConfigs := {|
  tsdb_c := string; retention_c := unit; precreator_c := unit; admin_c := unit; monitor_c := unit;
  subscriber_c := unit; httpd_c := bool; graphite_c := bool; collectd_c := bool; opentsdb_c := bool;
  udp_c := bool; cq_c := unit; coordinator_c := unit;
  tsdb_New := ""%string; retention_New := tt; precreator_New := tt; admin_New := tt; monitor_New := tt;
  subscriber_New := tt; httpd_New := true; graphite_New := false; collectd_New := false; opentsdb_New := false;
  udp_New := true; cq_New := tt; coordinator_New := tt;
  tsdb_Dir d := d; tsdb_setDirs d _ _ := d; tsdb_Validate _ := Ok tt; monitor_Validate _ := Ok tt;
  subscriber_Validate _ := Ok tt; graphite_Validate _ := Ok tt; collectd_Validate _ := Ok tt;
  httpd_Enabled b := b; httpd_BindAddress _ := ":8086"%string; graphite_Enabled b := b; collectd_Enabled b := b;
  opentsdb_Enabled b := b; udp_Enabled b := b;
  tsdb_v := VString; cluster_v _ := VOther; retention_v _ := VOther; precreator_v _ := VOther; admin_v _ := VOther;
  monitor_v _ := VOther; subscriber_v _ := VOther; httpd_v _ := VOther; graphite_v _ := VOther;
  collectd_v _ := VOther; opentsdb_v _ := VOther; udp_v _ := VOther; cq_v _ := VOther;
|}.
#[local] Existing Instance demo_configs.

(** Everything opens but the parts in [broken]. *)
Definition demo_env (broken : list part) : DataEnv := {|
  env_mkdirAll _ := Ok tt; env_create _ := true; env_listen _ := Ok tt;
  env_open p := if decide (p ∈ broken) then Err (errorf "cannot open") else Ok tt;
  env_newGraphite _ := Ok tt; env_newOpenTSDB _ := Ok tt;
  appendMonitor := []; appendPrecreator _ := [SExternal "precreator"]; appendSnapshotter := [SExternal "snapshotter"];
  appendAdmin _ := []; appendContinuousQuery _ := [SExternal "cq"]; appendRetentionPolicy _ := [];
|}.

#[local] Existing Instances demo_oss demo_commands demo_transport demo_client_oss demo_writing.

(** A new server: no network traffic yet, an empty store. *)
Definition demo_net : @net demo_transport := 0.
Definition demo_metaS : @metaS demo_writing := tt.
Definition demo_tsdb0 : @tsdbS demo_writing := ([], []).

Definition demo_server : DataServer :=
  mkDataServer NewDataConfig "1.0" "" "" DefaultBindAddress false [] false [] (NewClient demo_net)
    (NewPointsWriter demo_metaS demo_tsdb0) false false noProfiles [].

Lemma Close_after_Open_witness :
  let s1 := (ds_Open (DE := demo_env []) None demo_server).2 in
  ∃ s2, ds_Open (DE := demo_env []) None demo_server = (Returns tt, s1) ∧ ds_Close s1 = (Panics, s2) ∧
    ds_closing s2 = false ∧ length (ds_trace s1) = 9%nat ∧ length (ds_trace s2) = 19%nat.
Proof.
  intros s1.
  destruct (Close_after_Open (DE := demo_env []) None demo_net demo_metaS demo_tsdb0 NewDataConfig
    "1.0" "" "" noProfiles demo_server s1) as (Ht & _ & _ & s2 & Hc & Hcl & Ht2);
    [reflexivity|vm_compute; reflexivity|].
  exists s2. split; [vm_compute; reflexivity|]. split; [exact Hc|]. split; [exact Hcl|].
  rewrite Ht2, Ht. split; vm_compute; reflexivity.
Defined.

Definition demo_parsers : Parsers := {| ParseDuration _ := None; ParseFloat _ := None |}.
#[local] Existing Instance demo_parsers.

(** A port of the UDP service that is taken. *)
Definition demo_broken : list part := [PService (SUDP 0)].

Definition demo_run : outcome (option unit) * Command DataServer :=
  @Command_Run _ _ (data_daemon (DE := demo_env demo_broken) demo_net demo_metaS demo_tsdb0 None
    (λ _, ""%string) (Some "/root"%string) (λ _, mret tt) (λ _, Ok []) (λ _, Ok tt) (λ _, NewDataConfig) "1.0")
    (λ _, ""%string) (λ _, false) 1 [] (NewCommand (os.World ∅ 0)).

Definition demo_left : DataServer := default demo_server (cm_left demo_run.2).

Lemma failed_start_is_not_closed_witness :
  (∃ e, demo_run.1 = Fails e) ∧ cm_left demo_run.2 = Some demo_left ∧ length (ds_trace demo_left) = 8%nat ∧
  ∃ config k, (k < length (openedParts (DE := demo_env demo_broken) config))%nat ∧
    ds_trace demo_left = map Opened (take k (openedParts (DE := demo_env demo_broken) config)).
Proof.
  assert (cm_left demo_run.2 = Some demo_left) as Hl by (vm_compute; reflexivity).
  split; [eexists; vm_compute; reflexivity|]. split; [exact Hl|]. split; [vm_compute; reflexivity|].
  destruct (failed_start_is_not_closed (DE := demo_env demo_broken) demo_net demo_metaS demo_tsdb0 None
    (λ _, ""%string) (λ _, false) 1 (Some "/root"%string) (λ _, mret tt) (λ _, Ok []) (λ _, Ok tt)
    (λ _, NewDataConfig) "1.0" [] (os.World ∅ 0) demo_run.1 demo_run.2) as [_ Hv];
    [apply surjective_pairing|vm_compute; discriminate|].
  exact (Hv demo_left Hl).
Defined.

#[local] Existing Instances demo_raft demo_raft_env.

Definition demo_nodes : NodeFile := {|
  node_t := unit;
  LoadNode _ _ := Ok tt;
  IsNotExist _ := false;
  node_Save _ := mret tt;
|}.
#[local] Existing Instance demo_nodes.

(** A meta node with the default configuration creates its server, and crashes as it
    opens it, with the listener open. *)
Lemma meta_node_run :
  let '(o, c) := @main _ _ (meta_daemon (λ _, Ok tt) demo_listen (λ _, true) (λ _, ""%string) (Some "/root"%string)
    (λ _ c, Ok c) (0 : net) 1 demo_first demo_rounds) (λ _, ""%string) (λ _, false) 1 (λ _, None) (λ args, (""%string, args))
    "influxd-meta" "1.0" "b" "c" (λ _, ""%string) [] (NewCommand (os.World ∅ 0)) in
  o = Crashes ∧ cm_Server c = None ∧ (mv_Listener <$> cm_left c) = Some (Some false).
Proof. vm_compute. done. Qed.
